(* ===== verification/_CoqProject ===== *)
-Q . S2P
Prelude.v
Effects.v
Link.v
Judgement.v
RustStd.v
Data.v
System.v
Fixtures.v
Guardrail.v
ConfigResolver.v
Handler.v
Accessibility.v
Bitmap.v
BinderHandler.v
Disruptive.v
Generic.v
ArtTest.v
TestKit.v
TestAccessibility.v
TestDisruptive.v
TestHandlers.v
TestConfig.v
UnitTests.v
StatsAtoms.v
Bpf.v
Bridge.v
Ownership.v
Statsd.v
Offsets.v
ActivityManager.v
Poll.v
Privacy.v
Process.v
BpfMap.v
Task.v
Execution.v
Typing.v
Typed.v
TypedExecution.v
Service.v
Scheduler.v
Liveness.v
Device.v
Kernel.v
UserMemory.v
Programs.v
ProgramItems.v
TypedPrograms.v
ProgramSpecs.v
BinderPath.v
