(* ===== verification/Prelude.v ===== *)
(** * The UprobeStats daemon: a verification library

    UprobeStats is an Android daemon that attaches BPF programs to Java methods of
    a process and reports what they see to statsd.  It receives a config (a
    protobuf), checks that the build may run it, resolves its process and the
    offsets of its methods, claims the BPF maps it polls, installs filters for
    binder transactions, attaches the programs, polls one ring buffer per map until
    the task's time is up and hands every item to the handler of the map, which
    writes atoms to statsd and sends events to the bridge service.

    This library models the Rust code under [src/daemon] and the BPF programs under
    [src/bpf_progs], and proves what each part promises.  Definitions keep the names
    of the source; a method [T::f] is [T_f].

    ** How effects are modelled

    [Effects] has programs ([Prog]) over an interface of calls, their executions
    [exec p tr x] (the program answers [x] after the exchange [tr] of calls and
    responses; any response is possible), and the monad [M] of stateful methods with
    outcomes [Val], [Panics] and [NoFuel].  [let!] sequences, [let?] is Rust's [?].
    Theorems about [exec] hold for every environment.  Judgements with one rule per
    construct (and a tactic that applies them) say which calls a method makes
    ([calls_only], [makes_only]), that it returns ([returns]), that it keeps its
    state and does not panic ([steady]), that it releases what it acquires ([owns],
    in [Ownership]), that every exchange has a property ([keeps], in [Privacy]), or
    that its calls have good arguments when the answers are good ([types], in
    [Judgement]).
    [Link] runs a program against implementations of some of its calls: the traits
    of [daemon/core] are calls of the interface, and a linked program is the
    component on top of the implementation of [daemon/android].

    [System] lists every call that leaves the modelled code: the traits' methods, the
    C functions behind [daemon/ffi], the generated statsd functions, clock, random
    numbers, files, properties.  [RustStd] has what the source uses of the Rust
    standard library, with integers at their width: conversions, checked and
    wrapping arithmetic, UTF-8 decoding, lossy decoding, [i32] parsing.  [Fixtures]
    has the concrete environments the witnesses run in.

    ** Files and sources

    - [Prelude]: [Result] and the error type ([core/error.rs]), notations, generic
      lemmas; [Data]: the records and enums of [core/atom.rs], [core/config_resolver]
      and the BPF items; [Handler]: the interface of [core/bpf_handler.rs] and the
      laws a handler promises the poll loop.
    - [Guardrail] ([config_resolver/guardrail.rs]) and [ConfigResolver]
      ([core/config_resolver.rs]): from bytes to a resolved task.
    - [Accessibility], [Bitmap], [BinderHandler], [Disruptive], [Generic], [ArtTest]:
      the handlers of [core/bpf_handler/].
    - [StatsAtoms] ([android/atom.rs], [android/uprobestats_android.rs]), [Statsd]
      ([ffi/statsd/statssocket.rs]), [Bpf] ([ffi/bpf/bpf.rs]), [Bridge]
      ([android/bridge_service.rs]): what lies under the handlers.
    - [Offsets] ([android/offsets.rs], [ffi/dynamic_instrumentation_manager]),
      [ActivityManager] ([ffi/activity_manager]), [Process] ([android/process.rs]):
      what lies under the resolver.
    - [Poll] ([android/bpf_handler.rs]): the poll loop and the handler registry.
    - [BpfMap] ([core/bpf_map.rs], [android/bpf_map.rs] and its
      [binder_transaction.rs]): typed access to the map of binder filters.
    - [Task] and [Execution] ([android/task.rs]): the steps of a task, and what they
      guarantee together.
    - [Service] ([android/uprobestats_service.rs], [uprobestats.rs]): the daemon's
      threads as a step relation over the mutex, and the legacy entry point.
    - [Scheduler]: the abstract scheduler the service refines; [Liveness]: infinite
      plays of the service's threads.
    - [Typing], [Typed], [TypedExecution]: what an argument of a call must be to be
      of the type the code gives it, the judgement that it is, and its derivation for
      the handlers and for an execution.
    - [Privacy] and [Device]: whole paths of the daemon, linked down to the system.
    - [Kernel] ([bpf/headers/include]), [UserMemory] and [Programs] ([bpf_progs/]):
      what the BPF programs are written against, and every program; [ProgramItems]:
      the contract of each program and the rules that prove it; [TypedPrograms],
      [ProgramSpecs] and [BinderPath]: what they submit, and what the daemon makes of it.
    - [TestKit], [TestAccessibility], [TestDisruptive], [TestHandlers], [TestConfig],
      [UnitTests]: the test modules of [core/], each test under its own name.

    ** What the theorems show

    - Admission: the guardrail is characterised exactly, with the accessibility
      probe that switches it off; resolution is sound and decides validity; the
      filters of a probe are accepted exactly when they are well formed.
    - Resolution on the device: the process is one the system named for the
      selection, the offsets are the answers of the manager to bounded retries,
      every C object is released, and resolution ends ([Process], [Offsets],
      [ActivityManager], [Device]).
    - Handlers: functional specifications on every branch; the bitmap totals as a
      function of the session; the attribution of accessibility calls to grants; no
      names of packages, classes or intents on user builds, for the disruptive-app
      handlers and for the whole poll linked with writers and system property, where
      only the bitmap atoms name an activity ([Privacy]).
    - Statsd: the calls of the library are exactly the atom, written once and with
      its annotations ([Statsd]).
    - Polling: a marked error is exactly one report of its failure, and an unmarked
      one is no report ([Poll]).
    - Execution: perf events and maps are closed, once each, on every path; filters
      are installed while probes are attached and, if their names fit a key, gone
      afterwards; the order of phases; probes are attached in order; which failures
      are reported, in which order, and that none of the kernel's goes unreported.
    - Concurrency: running tasks poll disjoint maps; a waiting task is admitted
      exactly when no running task holds one of its maps; the global state is exactly
      what the running tasks poll; when the mutex can be poisoned.
    - Refinement: whatever the interleaving, a run of the service is a run of an
      abstract scheduler, which starts a waiting task only when no holder has one of
      its maps and refuses it only when one has, and what is reported are exactly the
      refusals ([Scheduler]).
    - Liveness: under a fair interleaving every thread finishes and gives its maps
      back, if every task polls some map, the fuel fits, the clock ticks and the binder
      map behaves ([Liveness]).
    - From the kernel to the handlers: every BPF program but [call_detail], which leaves
      its array first, submits what it reserves, once and filled as its contract says
      ([ProgramItems], [ProgramSpecs]), with well-typed fields ([TypedPrograms]), to a
      buffer that holds items of the type its handler reads; a binder transaction is
      reported exactly when the task listens to it and it is among the first ten
      methods of its interface, and the handler finds its configuration ([BinderPath]);
      the item of a freed bitmap carries a stale size ([ProgramSpecs]).
    - Types: the model has [Z] and [string] for the integers and strings of the
      source; every argument that leaves the daemon while a task is resolved and
      executed fits the type it has there, and no call is left out
      ([TypedExecution]).
    - Conformance: as a check of the model, not a property of the program, the unit
      tests of the source pass on it ([UnitTests]).
    - Termination: polls, drains, executions, resolution, under the hypothesis that
      the clock ticks.

    ** Fuel and bounds

    Fuel occurs in the loops whose end depends on the environment, and running out
    of it is the outcome [NoFuel], never a result.  A poll (and the wait for an app
    to start) runs while the clock is within the duration: if any [k] readings take a
    millisecond, [k * (d + 1)] rounds are enough for [d] milliseconds
    ([poll_terminates], [resolve_process_terminates], [device_resolution_terminates]).
    A drain of a kernel map needs one round more than the map has entries
    ([drain_empties]); [execute_completes] adds both up.  The retries of the offset
    resolver are bounded by [MAX_RETRIES], so [RETRY_FUEL] is a constant that is
    never used up ([resolve_offsets_spec]).

    ** Parameters

    Code that is not in the repository is a parameter: the protobuf parser, the
    order in which a hash map iterates ([HashOrder]), the standard library's string
    hash ([StringHash]), feature flags ([Flags]), the build's overflow checks and
    pointer width ([Target]), the binder runtime's exception codes ([BinderCodes]),
    the system's user id, statsd's annotation id, and for the lazily built handler
    registry whether the platform is at least CINNAMON_BUN.  Each has a concrete
    instance in the witnesses.

    ** Unit tests

    A test runs against doubles ([TestKit]): writers that record and never fail, a
    build type, and the expectations of the mocks.  As with [mockall], a call is
    answered by the first expectation that accepts it and is not used up, a call
    nothing accepts fails the test, and the counts are verified at its end.  The
    clock reads a fixed time (no test looks at it) and the random numbers are
    arbitrary.  Hash maps are walked in both orders a test can meet.  An error is
    compared by its text up to the values formatted into it.  Of the protobuf library
    the tests use that it parses back the three configs they write, the empty bytes
    as the empty config, and fails on their garbage ([Protobuf]).

    ** BPF programs

    A program is a value of the same monad over the interface [BpfI]: the kernel's
    helpers, ring buffers and maps are calls.  A read answers with its return value and
    the bytes that are at the destination then, failed or not; a reserved item has any
    content, since ring buffers are not cleared.  Pointers are 64-bit integers, and a
    4-byte read into a pointer that was NULL is its little-endian value.  An array
    access outside the array has no meaning in C and is a [Panics].  That a hash map
    answers lookups with what was written is a hypothesis ([from_map]), as is that
    reads answer from memory where a theorem needs it ([from_memory]).

    ** Granularity of concurrency

    The poll threads of one task interleave call by call, the service's threads
    segment by segment (the mutex separates the segments).  A linked program runs an
    implementation without interleaving: the implementations keep no shared state,
    except the cached bridge binder, which [Bridge] models on its own.  The
    callbacks of a process observer are delivered with the answer of
    [recv_timeout]; those that come later find the receiver gone and are dropped by
    the source.

    ** Not modelled

    The C++ shims under the C interface, the Java service and framework, the loader,
    the kernel (its helpers and ring buffers are calls of [BpfI]), generated code
    (protobuf, AIDL, bindgen, statsd), logging, the unused test helper
    [print_xxd_like], and the tests that run on a device.  The text of an error is
    reduced to its format string. *)

From Stdlib Require Export ZArith Lia String Ascii Bool Strings.Byte.
From Stdlib Require Export List.
From stdpp Require Export prelude gmap strings sorting.

#[global] Set Default Proof Using "Type".

(** ** Rust results

    [Result<T, anyhow::Error>] of the source.  An [anyhow::Error] is modelled
    by what the daemon can observe of it: its concrete type (for [is] and
    [downcast_ref]) and, for errors built from a message, the format string. *)

Inductive UprobeStatsError : Type :=
| BpfProgramError (point : Z)
| BpfDataInvalid (point : Z).

(** [binder::Status], reduced to the two accessors the source reads. *)
Record Status := mkStatus {
  exception_code : Z;
  service_specific_error : Z
}.

Inductive error : Type :=
| EUprobeStats (e : UprobeStatsError)
| EReportedToStatsd (e : error)
| EAnyhow (fmt : string)
| EContext (msg : string) (e : error)
| EStatus (s : Status)
| ETryFromInt
| EFromBytesUntilNul
| EUtf8
| ENul.

(** [e.downcast_ref::<UprobeStatsError>()]: anyhow looks at the outermost error
    and through [context] layers, not inside a wrapping error type. *)
Fixpoint downcast_uprobestats (e : error) : option UprobeStatsError :=
  match e with
  | EUprobeStats u => Some u
  | EContext _ e' => downcast_uprobestats e'
  | _ => None
  end.

Definition is_uprobestats (e : error) : bool :=
  match downcast_uprobestats e with Some _ => true | None => false end.

(** [e.is::<ReportedToStatsd>()]. *)
Fixpoint is_reported (e : error) : bool :=
  match e with
  | EReportedToStatsd _ => true
  | EContext _ e' => is_reported e'
  | _ => false
  end.

Inductive result (A : Type) : Type :=
| Ok (a : A)
| Err (e : error).
Arguments Ok {A} a.
Arguments Err {A} e.

Definition rbind {A B} (r : result A) (k : A -> result B) : result B :=
  match r with Ok a => k a | Err e => Err e end.

Definition rmap {A B} (f : A -> B) (r : result A) : result B :=
  match r with Ok a => Ok (f a) | Err e => Err e end.

(** [map_err]. *)
Definition map_err {A} (f : error -> error) (r : result A) : result A :=
  match r with Ok a => Ok a | Err e => Err (f e) end.

(** [Option::ok_or]. *)
Definition ok_or {A} (o : option A) (e : error) : result A :=
  match o with Some a => Ok a | None => Err e end.

(** [ensure!(b, msg)]. *)
Definition ensure (b : bool) (msg : string) : result unit :=
  if b then Ok tt else Err (EAnyhow msg).

(** [iter().map(f).collect::<Result<Vec<_>>>()]: left to right, stopping at the
    first error. *)
Fixpoint rmapM {A B} (f : A -> result B) (l : list A) : result (list B) :=
  match l with
  | [] => Ok []
  | a :: l' => rbind (f a) (fun b => rbind (rmapM f l') (fun bs => Ok (b :: bs)))
  end.

Definition is_ok {A} (r : result A) : bool :=
  match r with Ok _ => true | Err _ => false end.

(** A pure loop body that may fail, run left to right: [for x in l { .. ? }]. *)
Fixpoint rfold {A S} (f : S -> A -> result S) (s : S) (l : list A) : result S :=
  match l with
  | [] => Ok s
  | a :: l' => rbind (f s a) (fun s' => rfold f s' l')
  end.

Declare Scope rust_scope.
Delimit Scope rust_scope with rust.
Notation "'let^' x ':=' r 'in' k" := (rbind r (fun x => k))
  (at level 10, x pattern, r at level 100, k at level 200) : rust_scope.

(** ** Machine integers: [Z] with the width written out. *)

Inductive ity := I32 | U32 | I64 | U64.

Definition ity_min (t : ity) : Z :=
  match t with
  | I32 => -2147483648
  | I64 => -9223372036854775808
  | U32 | U64 => 0
  end.

Definition ity_max (t : ity) : Z :=
  match t with
  | I32 => 2147483647
  | U32 => 4294967295
  | I64 => 9223372036854775807
  | U64 => 18446744073709551615
  end.

Definition in_ity (t : ity) (z : Z) : bool := (ity_min t <=? z)%Z && (z <=? ity_max t)%Z.

(** [TryInto]: checked conversion. *)
Definition try_into (t : ity) (z : Z) : result Z :=
  if in_ity t z then Ok z else Err ETryFromInt.

(** [as]: wrapping conversion. *)
Definition as_ity (t : ity) (z : Z) : Z :=
  ((z - ity_min t) mod (ity_max t - ity_min t + 1) + ity_min t)%Z.

(** ** The build the daemon is compiled for *)

Class Target := {
  (** [-C overflow-checks]: integer overflow panics, else it wraps. *)
  overflow_checks : bool;
  (** [cfg(target_pointer_width = "32")]: decides the width of [c_ulong]. *)
  pointer_width_32 : bool
}.

Definition c_ulong `{Target} : ity := if pointer_width_32 then U32 else U64.

(** Feature flags: values of the generated flag libraries. *)
Class Flags := {
  uprobestats_monitor_disruptive_app_activities : bool;
  enable_bitmap_snapshot : bool;
  enable_bitmap_instrumentation : bool;
  enable_binder_transaction : bool;
  enable_bitmap_scaled_instrumentation : bool;
  a11y_runtime_permission : bool;
  use_process_observer_api : bool;
  (** [cfg!(feature = "art-test")]. *)
  feature_art_test : bool
}.

(** ** Automation *)

Create HintDb rust.

(** Case analysis on the scrutinee of a [match]/[if] of the goal. *)
Ltac case_goal :=
  match goal with
  | |- context [match ?x with _ => _ end] =>
      lazymatch x with
      | context [match _ with _ => _ end] => fail
      | _ => destruct x eqn:?
      end
  end.

Ltac case_hyp H :=
  match type of H with
  | context [match ?x with _ => _ end] =>
      lazymatch x with
      | context [match _ with _ => _ end] => fail
      | _ => destruct x eqn:?
      end
  end.

(** Boolean tests of the source turned into propositions. *)
Ltac bool_simpl :=
  repeat match goal with
  | H : (_ && _)%bool = true |- _ => apply andb_true_iff in H; destruct H
  | H : (_ || _)%bool = false |- _ => apply orb_false_iff in H; destruct H
  | H : negb _ = true |- _ => apply negb_true_iff in H
  | H : negb _ = false |- _ => apply negb_false_iff in H
  | H : (_ <=? _)%Z = true |- _ => apply Z.leb_le in H
  | H : (_ <=? _)%Z = false |- _ => apply Z.leb_gt in H
  | H : (_ <? _)%Z = true |- _ => apply Z.ltb_lt in H
  | H : (_ <? _)%Z = false |- _ => apply Z.ltb_ge in H
  | H : (_ =? _)%Z = true |- _ => apply Z.eqb_eq in H
  | H : (_ =? _)%Z = false |- _ => apply Z.eqb_neq in H
  | H : String.eqb _ _ = true |- _ => apply String.eqb_eq in H
  | H : String.eqb _ _ = false |- _ => apply String.eqb_neq in H
  end.

(** ** Lemmas on results and integers *)

Lemma rbind_Ok {A B} (r : result A) (k : A -> result B) (b : B) :
  rbind r k = Ok b <-> exists a, r = Ok a /\ k a = Ok b.
Proof. destruct r; cbn; naive_solver. Qed.

Lemma rbind_Err {A B} (r : result A) (k : A -> result B) (e : error) :
  rbind r k = Err e <-> r = Err e \/ exists a, r = Ok a /\ k a = Err e.
Proof. destruct r; cbn; naive_solver. Qed.

Lemma ok_or_Ok {A} (o : option A) (e : error) (a : A) :
  ok_or o e = Ok a <-> o = Some a.
Proof. destruct o; cbn; naive_solver. Qed.

Lemma ensure_Ok (b : bool) (msg : string) (u : unit) :
  ensure b msg = Ok u <-> b = true.
Proof. destruct b, u; cbn; naive_solver. Qed.

Lemma in_ity_spec (t : ity) (z : Z) :
  in_ity t z = true <-> (ity_min t <= z <= ity_max t)%Z.
Proof. unfold in_ity. rewrite andb_true_iff, !Z.leb_le. lia. Qed.

Lemma try_into_Ok (t : ity) (z y : Z) :
  try_into t z = Ok y <-> y = z /\ (ity_min t <= z <= ity_max t)%Z.
Proof.
  unfold try_into. rewrite <- in_ity_spec. destruct (in_ity t z); naive_solver.
Qed.

Lemma try_into_Err (t : ity) (z : Z) (e : error) :
  try_into t z = Err e <-> e = ETryFromInt /\ ~ (ity_min t <= z <= ity_max t)%Z.
Proof.
  unfold try_into. rewrite <- in_ity_spec.
  destruct (in_ity t z); naive_solver.
Qed.

Lemma as_ity_range (t : ity) (z : Z) : (ity_min t <= as_ity t z <= ity_max t)%Z.
Proof.
  unfold as_ity.
  pose proof (Z.mod_pos_bound (z - ity_min t) (ity_max t - ity_min t + 1)).
  destruct t; cbn in *; lia.
Qed.

Lemma as_ity_id (t : ity) (z : Z) :
  (ity_min t <= z <= ity_max t)%Z -> as_ity t z = z.
Proof. intros. unfold as_ity. rewrite Z.mod_small; lia. Qed.

Lemma rmapM_Ok {A B} (f : A -> result B) (l : list A) (bs : list B) :
  rmapM f l = Ok bs <-> Forall2 (fun a b => f a = Ok b) l bs.
Proof.
  revert bs. induction l as [|a l IH]; intros bs; cbn.
  - split; intros H; [by injection H as <- | by inversion H].
  - rewrite rbind_Ok. split.
    + intros (b & Hb & H). apply rbind_Ok in H as (bs' & H & Heq).
      injection Heq as <-. constructor; [done | by apply IH].
    + inversion 1 as [|? b ? bs' Hb Hbs]; subst. exists b. split; [done|].
      apply IH in Hbs. by rewrite Hbs.
Qed.

Lemma rmapM_Err {A B} (f : A -> result B) (l : list A) (e : error) :
  rmapM f l = Err e <->
  exists l1 a l2, l = l1 ++ a :: l2 /\ Forall (fun x => exists b, f x = Ok b) l1 /\ f a = Err e.
Proof.
  induction l as [|a l IH]; cbn.
  - split; [done|]. intros ([|? ?] & ? & ? & H & _); discriminate.
  - rewrite rbind_Err. setoid_rewrite rbind_Err. split.
    + intros [H | (b & Hb & [H | (bs & _ & H)])]; [| |done].
      * exists [], a, l. naive_solver.
      * apply IH in H as (l1 & x & l2 & -> & Hl1 & Hx).
        exists (a :: l1), x, l2. split; [done|]. split; [constructor; eauto|done].
    + intros (l1 & x & l2 & Heq & Hl1 & Hx). destruct l1 as [|y l1]; cbn in Heq.
      * injection Heq as -> ->. by left.
      * injection Heq as -> ->. apply Forall_cons in Hl1 as [[b Hb] Hl1].
        right. exists b. split; [done|]. left. apply IH. naive_solver.
Qed.

Create Rewrite HintDb rust.
#[export] Hint Rewrite @rbind_Ok @ok_or_Ok @ensure_Ok try_into_Ok : rust.
#[export] Hint Resolve as_ity_range : rust.

(** Invert successful pure computations down to their pure facts. *)
Ltac res_inv :=
  repeat match goal with
  | H : rbind _ _ = Ok _ |- _ => apply rbind_Ok in H as (? & ? & H)
  | H : ok_or _ _ = Ok _ |- _ => apply ok_or_Ok in H
  | H : ensure _ _ = Ok _ |- _ => apply ensure_Ok in H
  | H : try_into _ _ = Ok _ |- _ => apply try_into_Ok in H as [-> H]
  | H : Ok _ = Ok _ |- _ => injection H as H; subst
  | H : Err _ = Err _ |- _ => injection H as H; subst
  | H : Ok _ = Err _ |- _ => discriminate H
  | H : Err _ = Ok _ |- _ => discriminate H
  end.

(** A loop that inserts one fresh key per element, failing on a duplicate:
    it succeeds exactly when the keys are distinct and fresh, with the map of
    all the pairs.  [mk] wraps the map in the loop's state. *)
Lemma rfold_insert {K V A S} `{Countable K} (f : S -> A -> result S)
    (mk : gmap K V -> S) (R : A -> K * V -> Prop) :
  (forall m a s, f (mk m) a = Ok s <->
     exists kv, R a kv /\ m !! kv.1 = None /\ s = mk (<[kv.1 := kv.2]> m)) ->
  forall l m s, rfold f (mk m) l = Ok s <->
    exists kvs, Forall2 R l kvs /\ NoDup kvs.*1 /\
      (forall k, k ∈ kvs.*1 -> m !! k = None) /\ s = mk (list_to_map kvs ∪ m).
Proof.
  intros Hf l. induction l as [|a l IH]; intros m s; cbn.
  - split.
    + intros [= <-]. exists []. cbn. rewrite (left_id_L ∅ (∪)).
      split_and!; [constructor|constructor|by intros k ?%not_elem_of_nil|done].
    + intros (kvs & HR & _ & _ & ->). apply Forall2_nil_inv_l in HR as ->. cbn.
      by rewrite (left_id_L ∅ (∪)).
  - rewrite rbind_Ok. split.
    + intros (s' & Ha & H'). apply Hf in Ha as ([k v] & HR & Hk & ->). cbn in *.
      apply IH in H' as (kvs & HRs & Hnd & Hfresh & ->).
      assert (Hnk : k ∉ kvs.*1).
      { intros Hin. apply Hfresh in Hin. by rewrite lookup_insert_eq in Hin. }
      exists ((k, v) :: kvs). cbn. split_and!; [by constructor|by constructor| |].
      * intros k' [->|Hin]%elem_of_cons; [done|]. apply Hfresh in Hin.
        rewrite lookup_insert_ne in Hin; [done|]. by intros ->; rewrite lookup_insert_eq in Hin.
      * f_equal. rewrite <- insert_union_l, insert_union_r; [done|].
        by apply not_elem_of_list_to_map_1.
    + intros (kvs & HR & Hnd & Hfresh & ->).
      apply Forall2_cons_inv_l in HR as ([k v] & kvs' & HR & HRs & ->). cbn in *.
      apply NoDup_cons in Hnd as [Hnk Hnd]. exists (mk (<[k := v]> m)). split.
      * apply Hf. exists (k, v). cbn. split_and!; [done| |done].
        apply Hfresh, elem_of_cons. by left.
      * apply IH. exists kvs'. split_and!; [done|done| |].
        -- intros k' Hin. rewrite lookup_insert_ne by (by intros ->).
           apply Hfresh, elem_of_cons. by right.
        -- f_equal. rewrite <- insert_union_l, insert_union_r; [done|].
           by apply not_elem_of_list_to_map_1.
Qed.

Lemma rfold_insert_empty {K V A S} `{Countable K} (f : S -> A -> result S)
    (mk : gmap K V -> S) (R : A -> K * V -> Prop) :
  (forall m a s, f (mk m) a = Ok s <->
     exists kv, R a kv /\ m !! kv.1 = None /\ s = mk (<[kv.1 := kv.2]> m)) ->
  forall l s, rfold f (mk ∅) l = Ok s <->
    exists kvs, Forall2 R l kvs /\ NoDup kvs.*1 /\ s = mk (list_to_map kvs).
Proof.
  intros Hf l s. rewrite (rfold_insert f mk R Hf).
  setoid_rewrite (right_id_L ∅ (∪)). set_solver.
Qed.

(** ** Sublists *)

Lemma sublist_omap {A B} (f : A -> option B) (l k : list A) :
  l `sublist_of` k -> omap f l `sublist_of` omap f k.
Proof.
  induction 1 as [|x l k H IH|x l k H IH]; cbn; [constructor|..].
  - destruct (f x); [by apply sublist_skip|done].
  - destruct (f x); [by apply sublist_cons|done].
Qed.

Lemma sublist_lookup_later {A} (l k : list A) j b :
  l `sublist_of` k -> l !! j = Some b -> exists j', k !! j' = Some b /\ (j <= j')%nat.
Proof.
  intros H. revert j. induction H as [|x l k H IH|x l k H IH]; intros j Hj.
  - by rewrite lookup_nil in Hj.
  - destruct j as [|j]; [by exists 0%nat|].
    destruct (IH j Hj) as (j' & ? & ?). exists (S j'). split; [done|lia].
  - destruct (IH j Hj) as (j' & ? & ?). exists (S j'). split; [done|lia].
Qed.

(** Two elements of a sublist are no further apart than in the list. *)
Lemma sublist_lookup_spread {A} (l k : list A) i j a b :
  l `sublist_of` k -> l !! i = Some a -> l !! j = Some b -> (i <= j)%nat ->
  exists i' j', k !! i' = Some a /\ k !! j' = Some b /\ (i' + (j - i) <= j')%nat.
Proof.
  intros H. revert i j. induction H as [|x l k H IH|x l k H IH]; intros i j Hi Hj Hij.
  - by rewrite lookup_nil in Hj.
  - destruct i as [|i], j as [|j]; [|..|lia|].
    + exists 0%nat, 0%nat. split_and!; [done..|lia].
    + destruct (sublist_lookup_later l k j b H Hj) as (j' & ? & ?).
      exists 0%nat, (S j'). split_and!; [done..|lia].
    + destruct (IH i j Hi Hj) as (i' & j' & ? & ? & ?); [lia|].
      exists (S i'), (S j'). split_and!; [done..|lia].
  - destruct (IH i j Hi Hj Hij) as (i' & j' & ? & ? & ?).
    exists (S i'), (S j'). split_and!; [done..|lia].
Qed.
