(* ===== verification/Effects.v ===== *)
(** * Effects: programs over an environment interface

    Code that touches the outside world (statsd, binder, BPF, the clock) is a
    value of [Prog E A]: a tree whose nodes are calls of the interface [E] and
    whose branches are the responses the environment may give.  [exec p tr a]
    says that [p] returns [a] after the exchange [tr] of calls and responses,
    for some behaviour of the environment; a theorem about every [exec] holds
    for every environment, deterministic or not.  [wp] is the same quantified
    over all exchanges, and computes, so proofs are symbolic execution.  [run]
    executes a program against a concrete environment and gives the witnesses.
    [M S A] adds the state [S] of the object whose method runs, and panics. *)

From S2P Require Import Prelude.

Local Open Scope rust_scope.

Record Iface := mkIface {
  call : Type;
  resp : call -> Type
}.

Inductive Prog (E : Iface) (A : Type) : Type :=
| Ret (a : A)
| Vis (c : call E) (k : resp E c -> Prog E A).
Arguments Ret {E A} a.
Arguments Vis {E A} c k.

Definition event (E : Iface) : Type := sigT (resp E).

Fixpoint pbind {E A B} (p : Prog E A) (k : A -> Prog E B) : Prog E B :=
  match p with
  | Ret a => k a
  | Vis c f => Vis c (fun r => pbind (f r) k)
  end.

(** One call of the environment. *)
Definition trigger {E} (c : call E) : Prog E (resp E c) := Vis c Ret.

(** [exec p tr a]: [p] may exchange [tr] with the environment and return [a]. *)
Fixpoint exec {E A} (p : Prog E A) (tr : list (event E)) (a : A) : Prop :=
  match p with
  | Ret a' => tr = [] /\ a = a'
  | Vis c k => exists r tr', tr = existT c r :: tr' /\ exec (k r) tr' a
  end.

(** Every exchange and result of [p] satisfies [Q]. *)
Fixpoint wp {E A} (p : Prog E A) (Q : list (event E) -> A -> Prop) : Prop :=
  match p with
  | Ret a => Q [] a
  | Vis c k => forall r, wp (k r) (fun tr a => Q (existT c r :: tr) a)
  end.

(** An environment: the response to a call, given the exchange so far. *)
Definition Env (E : Iface) : Type := forall c : call E, list (event E) -> resp E c.

(** Run against an environment; the exchange is accumulated newest first. *)
Fixpoint run {E A} (env : Env E) (p : Prog E A) (past : list (event E)) :
    list (event E) * A :=
  match p with
  | Ret a => (past, a)
  | Vis c k => let r := env c past in run env (k r) (existT c r :: past)
  end.

Definition run_trace {E A} (env : Env E) (p : Prog E A) : list (event E) :=
  rev (fst (run env p [])).

Definition run_value {E A} (env : Env E) (p : Prog E A) : A := snd (run env p []).

(** ** Outcomes: a value, a panic with its message, or a loop cut by its fuel. *)

Inductive outcome (A : Type) : Type :=
| Val (a : A)
| Panics (msg : string)
| NoFuel.
Arguments Val {A} a.
Arguments Panics {A} msg.
Arguments NoFuel {A}.

Definition obind {A B} (o : outcome A) (k : A -> outcome B) : outcome B :=
  match o with
  | Val a => k a
  | Panics m => Panics m
  | NoFuel => NoFuel
  end.

(** [+] and [-] on a machine integer: overflow panics or wraps with the build. *)
Definition checked {T : Target} (t : ity) (z : Z) (msg : string) : outcome Z :=
  if in_ity t z then Val z
  else if overflow_checks then Panics msg else Val (as_ity t z).

Definition add_int {T : Target} (t : ity) (a b : Z) : outcome Z :=
  checked t (a + b) "attempt to add with overflow".

Definition sub_int {T : Target} (t : ity) (a b : Z) : outcome Z :=
  checked t (a - b) "attempt to subtract with overflow".

(** [slice[i]]. *)
Definition index_list {A} (l : list A) (i : nat) : outcome A :=
  match l !! i with
  | Some a => Val a
  | None => Panics "index out of bounds"
  end.

(** ** The state monad of a method: [&mut self], effects, panics. *)

Section Monad.
Context {E : Iface}.

Definition M (S A : Type) : Type := S -> Prog E (outcome A * S).

Definition mret {S A} (a : A) : M S A := fun s => Ret (Val a, s).

Definition mbind {S A B} (m : M S A) (k : A -> M S B) : M S B := fun s =>
  pbind (m s) (fun '(o, s') =>
    match o with
    | Val a => k a s'
    | Panics msg => Ret (Panics msg, s')
    | NoFuel => Ret (NoFuel, s')
    end).

(** [m?]: an [Err] returns from the enclosing function. *)
Definition mtry {S A B} (m : M S (result A)) (k : A -> M S (result B)) : M S (result B) :=
  mbind m (fun r => match r with Ok a => k a | Err e => mret (Err e) end).

Definition panic {S A} (msg : string) : M S A := fun s => Ret (Panics msg, s).
Definition no_fuel {S A} : M S A := fun s => Ret (NoFuel, s).
Definition lift_outcome {S A} (o : outcome A) : M S A := fun s => Ret (o, s).

Definition get_state {S} : M S S := fun s => Ret (Val s, s).
Definition put_state {S} (s : S) : M S unit := fun _ => Ret (Val tt, s).

Definition ext {S} (c : call E) : M S (resp E c) := fun s =>
  Vis c (fun r => Ret (Val r, s)).

(** [let mut x = x0; body]: the body runs on a local object. *)
Definition with_local {S L A} (l : L) (m : M L A) : M S A := fun s =>
  pbind (m l) (fun '(o, _) => Ret (o, s)).

(** [for a in l { body? }]. *)
Fixpoint for_each {S A} (l : list A) (body : A -> M S (result unit)) : M S (result unit) :=
  match l with
  | [] => mret (Ok tt)
  | a :: l' => mtry (body a) (fun _ => for_each l' body)
  end.

(** [l.iter().map(f).collect::<Result<Vec<_>>>()] with an effectful [f]. *)
Fixpoint collect {S A B} (f : A -> M S (result B)) (l : list A) : M S (result (list B)) :=
  match l with
  | [] => mret (Ok [])
  | a :: l' => mtry (f a) (fun b => mtry (collect f l') (fun bs => mret (Ok (b :: bs))))
  end.

(** [m.map_err(f)] where reporting the error has effects. *)
Definition on_err {S A} (m : M S (result A)) (f : error -> M S error) : M S (result A) :=
  mbind m (fun r =>
    match r with
    | Ok a => mret (Ok a)
    | Err e => mbind (f e) (fun e' => mret (Err e'))
    end).

End Monad.

Arguments M : clear implicits.

Notation "'let!' x ':=' m 'in' k" := (mbind m (fun x => k))
  (at level 10, x pattern, m at level 100, k at level 200) : rust_scope.
Notation "'let?' x ':=' m 'in' k" := (mtry m (fun x => k))
  (at level 10, x pattern, m at level 100, k at level 200) : rust_scope.

(** ** Lemmas *)

Section Lemmas.
Context {E : Iface}.

Lemma wp_exec {A} (p : Prog E A) (Q : list (event E) -> A -> Prop) :
  wp p Q <-> forall tr a, exec p tr a -> Q tr a.
Proof.
  revert Q. induction p as [a|c k IH]; intros Q; cbn.
  - split; [by intros H tr b [-> ->]|]. intros H. by apply H.
  - split.
    + intros H tr a (r & tr' & -> & He). by apply (proj1 (IH r _) (H r)).
    + intros H r. apply IH. intros tr a He. apply H. eauto.
Qed.

Lemma wp_mono {A} (p : Prog E A) (Q R : list (event E) -> A -> Prop) :
  (forall tr a, Q tr a -> R tr a) -> wp p Q -> wp p R.
Proof. rewrite !wp_exec. eauto. Qed.

Lemma wp_bind {A B} (p : Prog E A) (k : A -> Prog E B) (Q : list (event E) -> B -> Prop) :
  wp (pbind p k) Q <-> wp p (fun t1 a => wp (k a) (fun t2 b => Q (t1 ++ t2) b)).
Proof.
  revert Q. induction p as [a|c f IH]; intros Q; cbn; [done|].
  setoid_rewrite IH. done.
Qed.

Lemma exec_bind {A B} (p : Prog E A) (k : A -> Prog E B) tr b :
  exec (pbind p k) tr b <->
  exists t1 t2 a, tr = t1 ++ t2 /\ exec p t1 a /\ exec (k a) t2 b.
Proof.
  revert tr. induction p as [a|c f IH]; intros tr; cbn.
  - split.
    + intros H. by exists [], tr, a.
    + by intros (? & ? & ? & -> & [-> ->] & H).
  - split.
    + intros (r & tr' & -> & H). apply IH in H as (t1 & t2 & a & -> & H1 & H2).
      exists (existT c r :: t1), t2, a. naive_solver.
    + intros (? & t2 & a & -> & (r & t1 & -> & H1) & H2). exists r, (t1 ++ t2).
      split; [done|]. apply IH. eauto 10.
Qed.

Lemma run_app {A} (env : Env E) (p : Prog E A) past :
  exists tr, fst (run env p past) = rev tr ++ past /\ exec p tr (snd (run env p past)).
Proof.
  revert past. induction p as [a|c k IH]; intros past; cbn.
  - by exists [].
  - destruct (IH (env c past) (existT c (env c past) :: past)) as (tr & H1 & H2).
    exists (existT c (env c past) :: tr). cbn. rewrite <- app_assoc. split; [done|].
    exists (env c past), tr. done.
Qed.

Lemma run_exec {A} (env : Env E) (p : Prog E A) :
  exec p (run_trace env p) (run_value env p).
Proof.
  unfold run_trace, run_value. destruct (run_app env p []) as (tr & Heq & H).
  rewrite Heq, app_nil_r, rev_involutive. done.
Qed.

(** The form witnesses use: the run of a concrete program, evaluated. *)
Lemma run_exec_eq {A} (env : Env E) (p : Prog E A) tr a :
  run_trace env p = tr -> run_value env p = a -> exec p tr a.
Proof. intros <- <-. apply run_exec. Qed.

(** Every program has an execution in every environment. *)
Lemma exec_exists {A} (env : Env E) (p : Prog E A) : exists tr a, exec p tr a.
Proof. exists (run_trace env p), (run_value env p). apply run_exec. Qed.

(** Reduce a statement about one execution to all of them. *)
Lemma wp_elim {A S} (p : Prog E (outcome A * S)) (Q : list (event E) -> outcome A -> S -> Prop)
    tr o s :
  wp p (fun tr x => Q tr (fst x) (snd x)) -> exec p tr (o, s) -> Q tr o s.
Proof. rewrite wp_exec. intros H He. apply (H tr (o, s) He). Qed.

Lemma wp_mbind {S A B} (m : M E S A) (k : A -> M E S B) s Q :
  wp (mbind m k s) Q <->
  wp (m s) (fun t1 '(o, s') =>
    match o with
    | Val a => wp (k a s') (fun t2 x => Q (t1 ++ t2) x)
    | Panics msg => Q t1 (Panics msg, s')
    | NoFuel => Q t1 (NoFuel, s')
    end).
Proof.
  unfold mbind. rewrite wp_bind. rewrite !wp_exec.
  split; intros H tr [o s'] He; specialize (H tr (o, s') He);
    destruct o; cbn in *; rewrite ?app_nil_r in *; done.
Qed.

Lemma wp_mtry {S A B} (m : M E S (result A)) (k : A -> M E S (result B)) s Q :
  wp (mtry m k s) Q <->
  wp (m s) (fun t1 '(o, s') =>
    match o with
    | Val (Ok a) => wp (k a s') (fun t2 x => Q (t1 ++ t2) x)
    | Val (Err e) => Q t1 (Val (Err e), s')
    | Panics msg => Q t1 (Panics msg, s')
    | NoFuel => Q t1 (NoFuel, s')
    end).
Proof.
  unfold mtry. rewrite wp_mbind, !wp_exec.
  split; intros H tr [o s'] He; specialize (H tr (o, s') He);
    destruct o as [[|]| |]; cbn in *; rewrite ?app_nil_r in *; done.
Qed.

Lemma exec_mtry {S A B} (m : M E S (result A)) (k : A -> M E S (result B)) s tr x :
  exec (mtry m k s) tr x ->
  (exists t1 t2 a s', tr = t1 ++ t2 /\ exec (m s) t1 (Val (Ok a), s') /\ exec (k a s') t2 x)
  \/ (exists e s', exec (m s) tr (Val (Err e), s') /\ x = (Val (Err e), s'))
  \/ (exists msg s', exec (m s) tr (Panics msg, s') /\ x = (Panics msg, s'))
  \/ (exists s', exec (m s) tr (NoFuel, s') /\ x = (NoFuel, s')).
Proof.
  unfold mtry, mbind. intros (t1 & t2 & [o s'] & -> & H1 & H2)%exec_bind.
  destruct o as [[a|e]|msg|]; cbn in H2; [left; eauto 10|..];
    destruct H2 as [-> ->]; rewrite app_nil_r; naive_solver.
Qed.

Lemma exec_mbind {S A B} (m : M E S A) (k : A -> M E S B) s tr x :
  exec (mbind m k s) tr x ->
  (exists t1 t2 a s', tr = t1 ++ t2 /\ exec (m s) t1 (Val a, s') /\ exec (k a s') t2 x)
  \/ (exists msg s', exec (m s) tr (Panics msg, s') /\ x = (Panics msg, s'))
  \/ (exists s', exec (m s) tr (NoFuel, s') /\ x = (NoFuel, s')).
Proof.
  unfold mbind. intros (t1 & t2 & [o s'] & -> & H1 & H2)%exec_bind.
  destruct o as [a|msg|]; [left; eauto 10|..];
    destruct H2 as [-> ->]; rewrite app_nil_r; naive_solver.
Qed.

(** The executions that end in a value, and in a success. *)
Lemma exec_mbind_Val {S A B} (m : M E S A) (k : A -> M E S B) s tr b s' :
  exec (mbind m k s) tr (Val b, s') ->
  exists t1 t2 a s1, tr = t1 ++ t2 /\ exec (m s) t1 (Val a, s1) /\ exec (k a s1) t2 (Val b, s').
Proof. intros [H|[(? & ? & _ & [=])|(? & _ & [=])]]%exec_mbind. exact H. Qed.

Lemma exec_mtry_Ok {S A B} (m : M E S (result A)) (k : A -> M E S (result B)) s tr b s' :
  exec (mtry m k s) tr (Val (Ok b), s') ->
  exists t1 t2 a s1, tr = t1 ++ t2 /\ exec (m s) t1 (Val (Ok a), s1) /\
    exec (k a s1) t2 (Val (Ok b), s').
Proof. intros [H|[(? & ? & _ & [=])|[(? & ? & _ & [=])|(? & _ & [=])]]]%exec_mtry. exact H. Qed.

(** [collect] succeeds with the list of the successes of its steps. *)
Lemma exec_collect_Ok {S A B} (f : A -> M E S (result B)) (P : A -> B -> list (event E) -> Prop) :
  (forall a s tr b s', exec (f a s) tr (Val (Ok b), s') -> P a b tr) ->
  forall l s tr bs s', exec (collect f l s) tr (Val (Ok bs), s') ->
    Forall2 (fun a b => exists t, t ⊆ tr /\ P a b t) l bs.
Proof.
  intros Hf. induction l as [|a l IH]; intros s tr bs s' H; cbn in H.
  - destruct H as [-> [= -> ->]]. constructor.
  - apply exec_mtry in H as [H|[(? & ? & _ & ?)|[(? & ? & _ & ?)|(? & _ & ?)]]]; [|done..].
    destruct H as (t1 & t2 & b & s1 & -> & H1 & H2).
    apply exec_mtry in H2 as [H|[(? & ? & _ & ?)|[(? & ? & _ & ?)|(? & _ & ?)]]]; [|done..].
    destruct H as (t3 & t4 & bs' & s2 & -> & H3 & H4). cbn in H4.
    destruct H4 as [-> [= -> ->]]. rewrite app_nil_r. constructor.
    + exists t1. split; [apply list_subseteq_app_l; done|]. eauto.
    + eapply Forall2_impl; [by eapply IH|]. cbn. intros x y (t & Ht & HP).
      exists t. split; [|done]. by apply list_subseteq_app_r.
Qed.

(** When each step of a [collect] decides [V] (given a cooperating environment
    [G]), the whole decides it for every element, and never panics. *)
Lemma exec_collect_iff {S A B} (f : A -> M E S (result B)) (V : A -> Prop)
    (G : event E -> Prop) :
  (forall a s tr o s', exec (f a s) tr (o, s') -> Forall G tr ->
     (exists b, o = Val (Ok b) /\ V a) \/ (exists e, o = Val (Err e) /\ ~ V a)) ->
  forall l s tr o s', exec (collect f l s) tr (o, s') -> Forall G tr ->
     (exists bs, o = Val (Ok bs) /\ Forall V l) \/ (exists e, o = Val (Err e) /\ ~ Forall V l).
Proof.
  intros Hf. induction l as [|a l IH]; intros s tr o s' H HG; cbn in H.
  - destruct H as [-> [= -> ->]]. left. eauto.
  - apply exec_mtry in H as [H|[(e & s1 & H & [= -> ->])|[(m & s1 & H & _)|(s1 & H & _)]]].
    + destruct H as (t1 & t2 & b & s1 & -> & H1 & H2). apply Forall_app in HG as [HG1 HG2].
      apply Hf in H1 as [(? & _ & HV)|(? & ? & _)]; [|done|done].
      apply exec_mtry in H2 as [H|[(e & s2 & H & [= -> ->])|[(m & s2 & H & _)|(s2 & H & _)]]].
      * destruct H as (t3 & t4 & bs & s2 & -> & H3 & -> & [= -> ->]).
        apply Forall_app in HG2 as [HG3 _]. apply IH in H3 as [(? & _ & ?)|(? & ? & _)]; [|done|done].
        left. eauto.
      * apply IH in H as [(? & ? & _)|(? & _ & Hn)]; [done| |done].
        right. exists e. split; [done|]. by intros [_ ?]%Forall_cons.
      * apply IH in H as [(? & ? & _)|(? & ? & _)]; done.
      * apply IH in H as [(? & ? & _)|(? & ? & _)]; done.
    + apply Hf in H as [(? & ? & _)|(? & _ & Hn)]; [done| |done].
      right. exists e. split; [done|]. by intros [? _]%Forall_cons.
    + apply Hf in H as [(? & ? & _)|(? & ? & _)]; done.
    + apply Hf in H as [(? & ? & _)|(? & ? & _)]; done.
Qed.

(** A loop with an invariant over the elements done so far: it completes with
    the invariant for the whole list, or stops with an error. *)
Lemma exec_for_each_ind {S A} (body : A -> M E S (result unit)) (I : list A -> S -> Prop) (l : list A) :
  (forall pre a post s tr o s', l = pre ++ a :: post -> I pre s -> exec (body a s) tr (o, s') ->
     (o = Val (Ok tt) /\ I (pre ++ [a]) s') \/ exists e, o = Val (Err e)) ->
  forall s tr o s', I [] s -> exec (for_each l body s) tr (o, s') ->
     (o = Val (Ok tt) /\ I l s') \/ exists e, o = Val (Err e).
Proof.
  intros Hbody.
  assert (Hgen : forall post pre s tr o s', l = pre ++ post -> I pre s ->
    exec (for_each post body s) tr (o, s') ->
    (o = Val (Ok tt) /\ I l s') \/ exists e, o = Val (Err e)).
  { induction post as [|a post IH]; intros pre s tr o s' Hl HI H; cbn [for_each] in H.
    - destruct H as [-> [= -> ->]]. rewrite app_nil_r in Hl. subst. by left.
    - apply exec_mtry in H as [H|[(e & s1 & H & [= -> ->])|[(m & s1 & H & _)|(s1 & H & _)]]].
      + destruct H as (t1 & t2 & [] & s1 & -> & H1 & H2).
        destruct (Hbody _ _ _ _ _ _ _ Hl HI H1) as [[_ HI1]|[e He]]; [|done].
        apply (IH (pre ++ [a]) _ _ _ _ ltac:(by rewrite <- app_assoc) HI1 H2).
      + eauto.
      + by destruct (Hbody _ _ _ _ _ _ _ Hl HI H) as [[? _]|[? ?]].
      + by destruct (Hbody _ _ _ _ _ _ _ Hl HI H) as [[? _]|[? ?]]. }
  intros s tr o s' HI H. by apply (Hgen l [] s tr).
Qed.

(** A pure test between two effects changes neither the exchange nor the state. *)
Lemma exec_mtry_mret {S A B} (r : result A) (k : A -> M E S (result B)) s tr x :
  exec (mtry (mret r) k s) tr x <->
  match r with
  | Ok a => exec (k a s) tr x
  | Err e => tr = [] /\ x = (Val (Err e), s)
  end.
Proof. by destruct r. Qed.

End Lemmas.

(** ** Methods that make only some calls and always come to an outcome *)

Section CallsOnly.
Context {E : Iface} (P : call E -> bool).

Definition calls_only {S A} (m : M E S A) : Prop :=
  forall s tr o s', exec (m s) tr (o, s') ->
    Forall (fun e : event E => P (projT1 e) = true) tr /\ o <> NoFuel.

Lemma calls_only_mret {S A} (a : A) : calls_only (mret a : M E S A).
Proof. intros s tr o s' [-> [= -> ->]]. done. Qed.

Lemma calls_only_panic {S A} msg : calls_only (panic msg : M E S A).
Proof. intros s tr o s' [-> [= -> ->]]. done. Qed.

Lemma calls_only_lift {S A} (o : outcome A) :
  o <> NoFuel -> calls_only (lift_outcome o : M E S A).
Proof. intros Ho s tr o' s' [-> [= -> ->]]. done. Qed.

Lemma calls_only_get {S} : calls_only (get_state : M E S S).
Proof. intros s tr o s' [-> [= -> ->]]. done. Qed.

Lemma calls_only_put {S} (s0 : S) : calls_only (put_state s0 : M E S unit).
Proof. intros s tr o s' [-> [= -> ->]]. done. Qed.

Lemma calls_only_ext {S} (c : call E) : P c = true -> calls_only (ext c : M E S (resp E c)).
Proof. intros Hc s tr o s' (r & t & -> & -> & [= -> ->]). split; [|done]. by repeat constructor. Qed.

Lemma calls_only_mbind {S A B} (m : M E S A) (k : A -> M E S B) :
  calls_only m -> (forall a, calls_only (k a)) -> calls_only (mbind m k).
Proof.
  intros Hm Hk s tr o s' [H|[(msg & s1 & H & [= -> ->])|(s1 & H & [= -> ->])]]%exec_mbind.
  - destruct H as (t1 & t2 & a & s1 & -> & H1 & H2). apply Hm in H1 as [H1 _].
    apply Hk in H2 as [H2 ?]. split; [by apply Forall_app|done].
  - apply Hm in H as [H _]. done.
  - by apply Hm in H as [_ H].
Qed.

Lemma calls_only_mtry {S A B} (m : M E S (result A)) (k : A -> M E S (result B)) :
  calls_only m -> (forall a, calls_only (k a)) -> calls_only (mtry m k).
Proof. intros Hm Hk. apply calls_only_mbind; [done|]. intros [a|e]; [done|apply calls_only_mret]. Qed.

Lemma calls_only_for_each {S A} (l : list A) (body : A -> M E S (result unit)) :
  (forall a, calls_only (body a)) -> calls_only (for_each l body).
Proof.
  intros Hb. induction l as [|a l IH]; cbn; [apply calls_only_mret|].
  apply calls_only_mtry; [apply Hb|done].
Qed.

Lemma calls_only_collect {S A B} (f : A -> M E S (result B)) (l : list A) :
  (forall a, calls_only (f a)) -> calls_only (collect f l).
Proof.
  intros Hf. induction l as [|a l IH]; cbn; [apply calls_only_mret|].
  apply calls_only_mtry; [apply Hf|]. intros b. apply calls_only_mtry; [done|].
  intros bs. apply calls_only_mret.
Qed.

End CallsOnly.

(** Walk through a method, case by case. *)
Ltac calls_only_step :=
  lazymatch goal with
  | |- forall _, _ => intros ?
  | |- calls_only _ (mret _) => apply calls_only_mret
  | |- calls_only _ (panic _) => apply calls_only_panic
  | |- @calls_only ?E ?P ?S _ (ext ?c) => exact (@calls_only_ext E P S c eq_refl)
  | |- calls_only _ get_state => apply calls_only_get
  | |- calls_only _ (put_state _) => apply calls_only_put
  | |- calls_only _ (mbind _ _) => apply calls_only_mbind
  | |- calls_only _ (mtry _ _) => apply calls_only_mtry
  | |- calls_only _ (for_each _ _) => apply calls_only_for_each
  | |- calls_only _ (collect _ _) => apply calls_only_collect
  | |- calls_only _ (match ?x with _ => _ end) => destruct x
  | |- calls_only _ (lift_outcome _) => apply calls_only_lift
  end.

Ltac calls_only_run := repeat calls_only_step.

(** ** Methods that make only some calls, cut by fuel or not *)

Section MakesOnly.
Context {E : Iface} (P : call E -> bool).

Definition makes_only {S A} (m : M E S A) : Prop :=
  forall s tr x, exec (m s) tr x -> Forall (fun e : event E => P (projT1 e) = true) tr.

Lemma makes_only_calls {S A} (m : M E S A) : calls_only P m -> makes_only m.
Proof. intros Hm s tr [o s'] H. by apply Hm in H as [? _]. Qed.

Lemma makes_only_no_fuel {S A} : makes_only (no_fuel : M E S A).
Proof. intros s tr x [-> ->]. done. Qed.

Lemma makes_only_lift {S A} (o : outcome A) : makes_only (lift_outcome o : M E S A).
Proof. intros s tr x [-> ->]. done. Qed.

Lemma makes_only_mbind {S A B} (m : M E S A) (k : A -> M E S B) :
  makes_only m -> (forall a, makes_only (k a)) -> makes_only (mbind m k).
Proof.
  intros Hm Hk s tr x [H|[(msg & s1 & H & ->)|(s1 & H & ->)]]%exec_mbind; [|by eapply Hm..].
  destruct H as (t1 & t2 & a & s1 & -> & H1 & H2). apply Forall_app. split; [by eapply Hm|].
  by eapply Hk.
Qed.

Lemma makes_only_mtry {S A B} (m : M E S (result A)) (k : A -> M E S (result B)) :
  makes_only m -> (forall a, makes_only (k a)) -> makes_only (mtry m k).
Proof.
  intros Hm Hk. apply makes_only_mbind; [done|]. intros [a|e]; [done|].
  apply makes_only_calls, calls_only_mret.
Qed.

Lemma makes_only_for_each {S A} (l : list A) (body : A -> M E S (result unit)) :
  (forall a, makes_only (body a)) -> makes_only (for_each l body).
Proof.
  intros Hb. induction l as [|a l IH]; cbn; [apply makes_only_calls, calls_only_mret|].
  apply makes_only_mtry; [apply Hb|done].
Qed.

End MakesOnly.

Ltac makes_only_step :=
  lazymatch goal with
  | |- forall _, _ => intros ?
  | |- makes_only _ (mret _) => apply makes_only_calls, calls_only_mret
  | |- makes_only _ no_fuel => apply makes_only_no_fuel
  | |- @makes_only ?E ?P ?S _ (ext ?c) =>
      apply makes_only_calls; exact (@calls_only_ext E P S c eq_refl)
  | |- makes_only _ get_state => apply makes_only_calls, calls_only_get
  | |- makes_only _ (put_state _) => apply makes_only_calls, calls_only_put
  | |- makes_only _ (mbind _ _) => apply makes_only_mbind
  | |- makes_only _ (mtry _ _) => apply makes_only_mtry
  | |- makes_only _ (on_err _ _) => apply makes_only_mbind
  | |- makes_only _ (for_each _ _) => apply makes_only_for_each
  | |- makes_only _ (match ?x with _ => _ end) => destruct x
  | |- makes_only _ (lift_outcome _) => apply makes_only_lift
  end.

Ltac makes_only_run := repeat makes_only_step.

(** ** Methods that always return a value: they neither panic nor loop *)

Section Returns.
Context {E : Iface}.

Definition returns {S A} (m : M E S A) : Prop :=
  forall s tr o s', exec (m s) tr (o, s') -> exists a, o = Val a.

Lemma returns_mret {S A} (a : A) : returns (mret a : M E S A).
Proof. intros s tr o s' [-> [= -> ->]]. eauto. Qed.

Lemma returns_ext {S} (c : call E) : returns (ext c : M E S (resp E c)).
Proof. intros s tr o s' (r & t & -> & -> & [= -> ->]). eauto. Qed.

Lemma returns_mbind {S A B} (m : M E S A) (k : A -> M E S B) :
  returns m -> (forall a, returns (k a)) -> returns (mbind m k).
Proof.
  intros Hm Hk s tr o s' [H|[(msg & s1 & H & [= -> ->])|(s1 & H & [= -> ->])]]%exec_mbind.
  - destruct H as (t1 & t2 & a & s1 & -> & H1 & H2). by apply Hk in H2.
  - by apply Hm in H as [? [=]].
  - by apply Hm in H as [? [=]].
Qed.

(** A bind whose first part always returns. *)
Lemma exec_mbind_returns {S A B} (m : M E S A) (k : A -> M E S B) s tr x :
  returns m -> exec (mbind m k s) tr x ->
  exists t1 t2 a s1, tr = t1 ++ t2 /\ exec (m s) t1 (Val a, s1) /\ exec (k a s1) t2 x.
Proof.
  intros Hm [H|[(msg & s1 & H & _)|(s1 & H & _)]]%exec_mbind; [done|by apply Hm in H as [? [=]]..].
Qed.

Lemma returns_mtry {S A B} (m : M E S (result A)) (k : A -> M E S (result B)) :
  returns m -> (forall a, returns (k a)) -> returns (mtry m k).
Proof.
  intros Hm Hk. apply returns_mbind; [done|]. intros [a|e]; [apply Hk|apply returns_mret].
Qed.

Lemma returns_collect {S A B} (f : A -> M E S (result B)) (l : list A) :
  (forall a, returns (f a)) -> returns (collect f l).
Proof.
  intros Hf. induction l as [|a l IH]; cbn [collect]; [apply returns_mret|].
  apply returns_mtry; [apply Hf|]. intros b. apply returns_mtry; [done|]. intros bs.
  apply returns_mret.
Qed.

End Returns.

Ltac returns_step :=
  lazymatch goal with
  | |- forall _, _ => intros ?
  | |- returns (mbind _ _) => apply returns_mbind
  | |- returns (mtry _ _) => apply returns_mtry
  | |- returns (mret _) => apply returns_mret
  | |- @returns ?E ?S _ (ext ?c) => exact (@returns_ext E S c)
  | |- returns (collect _ _) => apply returns_collect
  | |- returns (match ?x with _ => _ end) => destruct x
  | |- returns _ => progress cbn zeta
  end.

Ltac returns_run := repeat returns_step.

(** ** Methods that leave the state alone and do not panic *)

Section Steady.
Context {E : Iface}.

Definition steady {S A} (m : M E S A) : Prop :=
  forall s tr o s', exec (m s) tr (o, s') -> s' = s /\ forall msg, o <> Panics msg.

Lemma steady_mret {S A} (a : A) : steady (mret a : M E S A).
Proof. intros s tr o s' [-> [= -> ->]]. done. Qed.

Lemma steady_no_fuel {S A} : steady (no_fuel : M E S A).
Proof. intros s tr o s' [-> [= -> ->]]. done. Qed.

Lemma steady_ext {S} (c : call E) : steady (ext c : M E S (resp E c)).
Proof. intros s tr o s' (r & t & -> & -> & [= -> ->]). done. Qed.

Lemma steady_mbind {S A B} (m : M E S A) (k : A -> M E S B) :
  steady m -> (forall a, steady (k a)) -> steady (mbind m k).
Proof.
  intros Hm Hk s tr o s' [H|[(msg & s1 & H & [= -> ->])|(s1 & H & [= -> ->])]]%exec_mbind.
  - destruct H as (t1 & t2 & a & s1 & -> & [-> _]%Hm & H2). by apply Hk in H2.
  - by apply Hm in H as [_ Hn]; destruct (Hn msg).
  - by apply Hm in H as [-> _].
Qed.

Lemma steady_mtry {S A B} (m : M E S (result A)) (k : A -> M E S (result B)) :
  steady m -> (forall a, steady (k a)) -> steady (mtry m k).
Proof. intros Hm Hk. apply steady_mbind; [done|]. intros [a|e]; [apply Hk|apply steady_mret]. Qed.

End Steady.

Create HintDb steady discriminated.

Ltac steady_step :=
  lazymatch goal with
  | |- forall _, _ => intros ?
  | |- steady (mbind _ _) => apply steady_mbind
  | |- steady (mtry _ _) => apply steady_mtry
  | |- steady (mret _) => apply steady_mret
  | |- steady no_fuel => apply steady_no_fuel
  | |- @steady ?E ?S _ (ext ?c) => exact (@steady_ext E S c)
  | |- steady (match ?x with _ => _ end) => destruct x
  | |- steady (let _ := _ in _) => cbv zeta
  end.

Ltac steady_run := repeat first [solve [eauto 1 with steady nocore] | steady_step].

(** Turn a goal about the execution [H : exec p tr (o, s)] into a [wp] goal. *)
Ltac wp_start H :=
  lazymatch type of H with
  | exec ?p ?tr (?o, ?s) =>
      pattern tr, o, s; eapply wp_elim; [|exact H]; clear H; try clear tr; try clear o; try clear s
  end.

(** Symbolic execution: reduce the monad, receive each response, and split
    each test of the code. *)
Ltac wp_cbn :=
  cbn [wp mret panic no_fuel lift_outcome get_state put_state ext mbind mtry pbind trigger
       on_err rbind rmap map_err ok_or ensure app fst snd resp call obind for_each collect].

Ltac wp_step :=
  lazymatch goal with
  | |- forall _, _ => intros ?
  | |- wp ?p _ =>
      first
      [ progress wp_cbn
      | lazymatch p with
        | context [match ?x with _ => _ end] => destruct x eqn:?
        end ]
  end.

Ltac wp_run := repeat wp_step.
