(* ===== verification/Link.v ===== *)
(** * Link: running a program against implementations of some of its calls

    The components are programs over calls of the interfaces they use.  [link]
    replaces the calls that another component implements by its programs; the
    other calls still go to the environment.  An execution of the linked
    program is an execution of the component whose answers were computed by the
    implementation ([exec_link]), so what holds of the component for every
    answer holds of the linked program, too. *)

From S2P Require Import Prelude Effects.

Local Open Scope list_scope.

(** An implementation that keeps no state of its own. *)
Definition stateless {E A} (m : M E unit A) : Prog E (outcome A) :=
  pbind (m tt) (fun '(o, _) => Ret o).

Lemma exec_stateless {E A} (m : M E unit A) tr o :
  exec (stateless m) tr o <-> exec (m tt) tr (o, tt).
Proof.
  unfold stateless. rewrite exec_bind. split.
  - intros (t1 & t2 & [o' []] & -> & H & -> & ->). by rewrite app_nil_r.
  - intros H. exists tr, [], (o, tt). by rewrite app_nil_r.
Qed.

Section Link.
Context {E : Iface} (impl : forall c : call E, option (Prog E (outcome (resp E c)))).

(** A panic of an implementation is a panic of the whole. *)
Fixpoint link {A} (p : Prog E A) : Prog E (outcome A) :=
  match p with
  | Ret a => Ret (Val a)
  | Vis c k =>
      match impl c with
      | None => Vis c (fun r => link (k r))
      | Some q =>
          pbind q (fun o =>
            match o with
            | Val r => link (k r)
            | Panics msg => Ret (Panics msg)
            | NoFuel => Ret NoFuel
            end)
      end
  end.

(** [links tr tr']: the exchange [tr], with the calls that are implemented
    replaced by executions of their implementations, is [tr']. *)
Inductive links : list (event E) -> list (event E) -> Prop :=
| links_nil : links [] []
| links_call c r tr tr' :
    impl c = None -> links tr tr' -> links (existT c r :: tr) (existT c r :: tr')
| links_impl c q r t tr tr' :
    impl c = Some q -> exec q t (Val r) -> links tr tr' -> links (existT c r :: tr) (t ++ tr').

Lemma exec_link {A} (p : Prog E A) tr a :
  exec (link p) tr (Val a) -> exists tr0, exec p tr0 a /\ links tr0 tr.
Proof.
  revert tr. induction p as [b|c k IH]; intros tr H; cbn [link] in H.
  - destruct H as [-> [= ->]]. exists []. split; [done|constructor].
  - destruct (impl c) as [q|] eqn:Hc.
    + apply exec_bind in H as (t1 & t2 & o & -> & H1 & H2). destruct o as [r|m|]; [|by destruct H2..].
      apply IH in H2 as (tr0 & H & Hl). exists (existT c r :: tr0). split; [cbn; eauto|].
      by eapply links_impl.
    + destruct H as (r & t & -> & H). apply IH in H as (tr0 & H & Hl).
      exists (existT c r :: tr0). split; [cbn; eauto|]. by apply links_call.
Qed.

(** Any execution can be completed with answers of one's choice. *)
Lemma exec_answered (answer : forall c : call E, resp E c) {A} (p : Prog E A) :
  exists tr a, exec p tr a /\ Forall (fun e : event E => projT2 e = answer (projT1 e)) tr.
Proof.
  induction p as [b|c k IH]; [by exists [], b|].
  destruct (IH (answer c)) as (tr & a & H & Hf).
  exists (existT c (answer c) :: tr), a. split; [by exists (answer c), tr|by constructor].
Qed.

(** When the linked program does not end well, the last thing it did was to run
    the implementation of a call [c] of the component, which did not end well. *)
Lemma exec_link_abort (answer : forall c : call E, resp E c) {A} (p : Prog E A) tr o :
  exec (link p) tr o -> (forall a, o <> Val a) ->
  exists c q t1 t o' pre, impl c = Some q /\ tr = t1 ++ t /\ links pre t1 /\ exec q t o' /\
    (forall r, o' <> Val r) /\ (forall m, o' = Panics m <-> o = Panics m) /\
    forall r, exists rest a, exec p (pre ++ existT c r :: rest) a /\
      Forall (fun e : event E => projT2 e = answer (projT1 e)) rest.
Proof.
  revert tr. induction p as [b|c k IH]; intros tr H Ho; cbn [link] in H.
  { destruct H as [_ ->]. by destruct (Ho b). }
  assert (forall r t0 t2, (forall pre t1, links pre t1 -> links (existT c r :: pre) (t0 ++ t1)) ->
    exec (link (k r)) t2 o -> exists c' q t1 t o' pre,
    impl c' = Some q /\ t0 ++ t2 = t1 ++ t /\ links pre t1 /\ exec q t o' /\ (forall r, o' <> Val r) /\
    (forall m, o' = Panics m <-> o = Panics m) /\
    forall r, exists rest a, exec (Vis c k) (pre ++ existT c' r :: rest) a /\
      Forall (fun e : event E => projT2 e = answer (projT1 e)) rest) as Hrest.
  { intros r t0 t2 Hl (c' & q & t1 & t & o' & pre & ? & -> & Hp & ? & ? & ? & Hx)%IH; [|done].
    exists c', q, (t0 ++ t1), t, o', (existT c r :: pre). split_and!; try done.
    - apply (assoc_L (++)).
    - by apply Hl.
    - intros r'. destruct (Hx r') as (rest & a & Ha & Hf). exists rest, a. split; [|done].
      by exists r, (pre ++ existT c' r' :: rest). }
  destruct (impl c) as [q|] eqn:Hc.
  - apply exec_bind in H as (t1 & t2 & o' & -> & H1 & H2).
    assert (forall r, exists rest a, exec (Vis c k) ([] ++ existT c r :: rest) a /\
      Forall (fun e : event E => projT2 e = answer (projT1 e)) rest) as Hx.
    { intros r. destruct (exec_answered answer (k r)) as (rest & a & Ha & Hf).
      exists rest, a. split; [by exists r, rest|done]. }
    destruct o' as [r|m|].
    { apply (Hrest r); [|done]. intros pre t. by eapply links_impl. }
    all: destruct H2 as [-> ->]; rewrite app_nil_r; eexists c, q, [], t1, _, []; split_and!;
      try exact H1; try exact Hx; try exact (links_nil); try done;
      intros m'; split; intros [=]; congruence.
  - destruct H as (r & t & -> & H). apply (Hrest r [existT c r]); [|done].
    intros pre t1. by apply links_call.
Qed.

(** Where an event of the linked program comes from. *)
Lemma links_from tr tr' e :
  links tr tr' -> e ∈ tr' ->
  (e ∈ tr /\ impl (projT1 e) = None) \/
  exists c r q t, (existT c r : event E) ∈ tr /\ impl c = Some q /\ exec q t (Val r) /\ e ∈ t.
Proof.
  induction 1 as [|c r tr tr' Hn Hl IH|c q r t tr tr' Hs Hx Hl IH]; intros Hin.
  - by apply not_elem_of_nil in Hin.
  - apply elem_of_cons in Hin as [->|Hin].
    + left. split; [apply elem_of_cons; by left|done].
    + destruct (IH Hin) as [[? ?]|(c' & r' & q & t & ? & ? & ? & ?)].
      * left. split; [apply elem_of_cons; by right|done].
      * right. exists c', r', q, t. split; [apply elem_of_cons; by right|done].
  - apply elem_of_app in Hin as [Hin|Hin].
    + right. exists c, r, q, t. split; [apply elem_of_cons; by left|done].
    + destruct (IH Hin) as [[? ?]|(c' & r' & q' & t' & ? & ? & ? & ?)].
      * left. split; [apply elem_of_cons; by right|done].
      * right. exists c', r', q', t'. split; [apply elem_of_cons; by right|done].
Qed.

(** Every implemented call of the component was computed by its implementation. *)
Lemma links_elem tr tr' c r q :
  links tr tr' -> (existT c r : event E) ∈ tr -> impl c = Some q ->
  exists t, exec q t (Val r) /\ t ⊆ tr'.
Proof.
  intros Hl Hin Hq. induction Hl as [|c' r' tr tr' Hn Hl IH|c' q' r' t tr tr' Hs Hx Hl IH].
  - by apply not_elem_of_nil in Hin.
  - apply elem_of_cons in Hin as [Heq|Hin].
    + assert (c = c') as -> by exact (f_equal (@projT1 _ _) Heq). congruence.
    + destruct (IH Hin) as (t & ? & ?). exists t. split; [done|set_solver].
  - apply elem_of_cons in Hin as [Heq|Hin].
    + inversion_sigma Heq. subst c'. cbn in *. subst r'. exists t. split; [congruence|set_solver].
    + destruct (IH Hin) as (t' & ? & ?). exists t'. split; [done|set_solver].
Qed.

(** Every other call is a call of the linked program. *)
Lemma links_keeps tr tr' c r :
  links tr tr' -> (existT c r : event E) ∈ tr -> impl c = None -> (existT c r : event E) ∈ tr'.
Proof.
  intros Hl Hin Hq. induction Hl as [|c' r' tr tr' Hn Hl IH|c' q' r' t tr tr' Hs Hx Hl IH].
  - done.
  - apply elem_of_cons in Hin as [->|Hin]; apply elem_of_cons; auto.
  - apply elem_of_app. right. apply elem_of_cons in Hin as [Heq|Hin]; [|auto].
    assert (c = c') as -> by exact (f_equal (@projT1 _ _) Heq). congruence.
Qed.

End Link.
