(* ===== verification/Judgement.v ===== *)
(** * Judgement: every call that leaves a program has good arguments

    An interface comes with what its answers are ([good_answer]) and what its calls
    must be ([good_call]).  [types I m R]: from a state of [I] and given good answers,
    a method makes good calls only, ends in a state of [I], and its value is in [R].
    One rule per construct.  The daemon instantiates it with the types of Rust
    ([Typing]), the BPF programs with the types of C ([Programs]). *)

From S2P Require Import Prelude Effects.

Local Open Scope rust_scope.
Local Open Scope list_scope.

Class Discipline (E : Iface) := {
  good_answer : event E -> Prop;
  good_call : call E -> Prop
}.

Definition good_calls `{Discipline E} (tr : list (event E)) : Prop :=
  Forall (fun e => good_call (projT1 e)) tr.

Section Judgement.
Context `{Discipline E} {S : Type} (I : S -> Prop).

Definition types {A} (m : M E S A) (R : A -> Prop) : Prop :=
  forall s tr o s', exec (m s) tr (o, s') -> I s -> Forall good_answer tr ->
    good_calls tr /\ I s' /\ forall a, o = Val a -> R a.

Notation any := (fun _ => True).

Lemma types_weaken {A} (m : M E S A) (Q R : A -> Prop) :
  (forall a, Q a -> R a) -> types m Q -> types m R.
Proof. intros HQ Hm s tr o s' Hx Hs Hw. destruct (Hm _ _ _ _ Hx Hs Hw) as (? & ? & ?). eauto. Qed.

Lemma types_lift {A} (o : outcome A) (R : A -> Prop) :
  (forall a, o = Val a -> R a) -> types (lift_outcome o) R.
Proof. intros Ho s tr o' s' [-> [= -> ->]] Hs _. by split; [constructor|]. Qed.

Lemma types_mret {A} (a : A) (R : A -> Prop) : R a -> types (mret a) R.
Proof. intros Ha. apply (types_lift (Val a)). by intros b [= <-]. Qed.

Lemma types_panic {A} msg (R : A -> Prop) : types (panic msg) R.
Proof. by apply types_lift. Qed.

Lemma types_no_fuel {A} (R : A -> Prop) : types no_fuel R.
Proof. by apply types_lift. Qed.

Lemma types_get : types get_state I.
Proof. intros s tr o s' [-> [= -> ->]] Hs _. split_and!; [constructor|done|]. by intros b [= <-]. Qed.

Lemma types_put s0 : I s0 -> types (put_state s0) any.
Proof. intros H0 s tr o s' [-> [= -> ->]] Hs _. by split; [constructor|]. Qed.

Lemma types_ext (c : call E) :
  good_call c -> types (ext c) (fun r => good_answer (existT c r)).
Proof.
  intros Hc s tr o s' (r & t & -> & -> & [= -> ->]) Hs Hw. apply Forall_cons in Hw as [Hw _].
  split_and!; [by repeat constructor|done|]. by intros a [= <-].
Qed.

Lemma types_mbind {A B} (m : M E S A) (k : A -> M E S B) Q R :
  types m Q -> (forall a, Q a -> types (k a) R) -> types (mbind m k) R.
Proof.
  intros Hm Hk s tr o s' [Hx|[(msg & s1 & Hx & [= -> ->])|(s1 & Hx & [= -> ->])]]%exec_mbind Hs Hw.
  - destruct Hx as (t1 & t2 & a & s1 & -> & H1 & H2). apply Forall_app in Hw as [Hw1 Hw2].
    destruct (Hm _ _ _ _ H1 Hs Hw1) as (C1 & I1 & Q1).
    destruct (Hk a (Q1 a eq_refl) _ _ _ _ H2 I1 Hw2) as (C2 & I2 & R2).
    split_and!; [by apply Forall_app|done|done].
  - destruct (Hm _ _ _ _ Hx Hs Hw) as (? & ? & _). done.
  - destruct (Hm _ _ _ _ Hx Hs Hw) as (? & ? & _). done.
Qed.

Lemma types_bind_lift {A B} (o : outcome A) (k : A -> M E S B) R :
  (forall a, o = Val a -> types (k a) R) -> types (mbind (lift_outcome o) k) R.
Proof. intros Hk. apply (types_mbind _ _ (fun a => o = Val a)); [by apply types_lift|done]. Qed.

End Judgement.

(** Another state for the duration of a call. *)
Lemma types_with_local `{Discipline E} {S L A} (I : S -> Prop) (J : L -> Prop) (l : L) (m : M E L A) R :
  J l -> types J m R -> types I (with_local l m) R.
Proof.
  intros Hl Hm s tr o s' Hx Hs Hw. unfold with_local in Hx.
  apply exec_bind in Hx as (t1 & t2 & [o1 l1] & -> & Hx & -> & [= -> ->]).
  rewrite app_nil_r in *. destruct (Hm _ _ _ _ Hx Hl Hw) as (? & _ & ?). done.
Qed.
