(* ===== verification/RustStd.v ===== *)
(** * RustStd: the parts of the Rust standard library the daemon computes with

    Strings are byte strings ([String.string]); a [&str] is one whose bytes are
    valid UTF-8.  A C array [\[c_char; n\]] is a [list byte] of length [n].
    Durations are nanoseconds.  [HashMap] and [HashSet] are [gmap] and [gset];
    their iteration order is unspecified in Rust and is the class [HashOrder]. *)

From S2P Require Import Prelude Effects.

Local Open Scope rust_scope.

(** ** [str] methods *)

Definition starts_with (s p : string) : bool := String.prefix p s.

Fixpoint str_contains (s sub : string) : bool :=
  String.prefix sub s ||
  match s with
  | EmptyString => false
  | String _ s' => str_contains s' sub
  end.

Definition ends_with (s suf : string) : bool :=
  (String.length suf <=? String.length s)%nat &&
  String.eqb (String.substring (String.length s - String.length suf) (String.length suf) s) suf.

Definition is_empty (s : string) : bool :=
  match s with EmptyString => true | _ => false end.

(** [s.split(c)]: always at least one piece. *)
Fixpoint split_char (c : ascii) (s : string) : list string :=
  match s with
  | EmptyString => [EmptyString]
  | String a s' =>
      if Ascii.eqb a c then EmptyString :: split_char c s'
      else match split_char c s' with
           | p :: ps => String a p :: ps
           | [] => [String a EmptyString]
           end
  end.

(** [s.rsplit(c)]: the pieces from the right. *)
Definition rsplit_char (c : ascii) (s : string) : list string := rev (split_char c s).

(** ** Bytes and UTF-8 *)

#[export] Instance byte_eq_decision : EqDecision byte := Byte.byte_eq_dec.
#[export] Instance byte_countable : Countable byte.
Proof.
  refine (inj_countable Byte.to_N Byte.of_N _). intros b. apply Byte.of_to_N.
Defined.

Definition byte_in (lo hi : N) (b : byte) : bool :=
  (lo <=? Byte.to_N b)%N && (Byte.to_N b <=? hi)%N.

Definition utf8_cont (b : byte) : bool := byte_in 128 191 b.

(** Second byte of a three-byte sequence: no overlong forms, no surrogates. *)
Definition utf8_second3 (b0 b1 : byte) : bool :=
  (byte_in 224 224 b0 && byte_in 160 191 b1) ||
  (byte_in 225 236 b0 && utf8_cont b1) ||
  (byte_in 237 237 b0 && byte_in 128 159 b1) ||
  (byte_in 238 239 b0 && utf8_cont b1).

Definition utf8_second4 (b0 b1 : byte) : bool :=
  (byte_in 240 240 b0 && byte_in 144 191 b1) ||
  (byte_in 241 243 b0 && utf8_cont b1) ||
  (byte_in 244 244 b0 && byte_in 128 143 b1).

Fixpoint utf8_valid (l : list byte) : bool :=
  match l with
  | [] => true
  | b0 :: l0 =>
      if byte_in 0 127 b0 then utf8_valid l0 else
      match l0 with
      | [] => false
      | b1 :: l1 =>
          if byte_in 194 223 b0 then utf8_cont b1 && utf8_valid l1 else
          match l1 with
          | [] => false
          | b2 :: l2 =>
              if byte_in 224 239 b0 then utf8_second3 b0 b1 && utf8_cont b2 && utf8_valid l2
              else match l2 with
                   | [] => false
                   | b3 :: l3 =>
                       utf8_second4 b0 b1 && utf8_cont b2 && utf8_cont b3 && utf8_valid l3
                   end
          end
      end
  end.

(** A [String] of the source: bytes that are UTF-8. *)
Definition is_str (s : string) : bool := utf8_valid (list_byte_of_string s).

Definition nul : byte := Byte.x00.

(** [CStr::from_bytes_until_nul]: the bytes before the first NUL. *)
Fixpoint from_bytes_until_nul (l : list byte) : result (list byte) :=
  match l with
  | [] => Err EFromBytesUntilNul
  | b :: l' =>
      if Byte.eqb b nul then Ok []
      else let^ p := from_bytes_until_nul l' in Ok (b :: p)
  end.

(** [CStr::to_str]. *)
Definition cstr_to_str (l : list byte) : result string :=
  if utf8_valid l then Ok (string_of_list_byte l) else Err EUtf8.

Definition no_nul (s : string) : bool :=
  forallb (fun b => negb (Byte.eqb b nul)) (list_byte_of_string s).

(** [String::from_utf8_lossy]: every maximal ill-formed piece becomes U+FFFD. *)
Definition replacement : list byte := [Byte.xef; Byte.xbf; Byte.xbd].

Fixpoint from_utf8_lossy (l : list byte) : list byte :=
  match l with
  | [] => []
  | b0 :: l0 =>
      if byte_in 0 127 b0 then b0 :: from_utf8_lossy l0
      else if byte_in 194 223 b0 then
        match l0 with
        | [] => replacement
        | b1 :: l1 =>
            if utf8_cont b1 then b0 :: b1 :: from_utf8_lossy l1
            else replacement ++ from_utf8_lossy l0
        end
      else if byte_in 224 239 b0 then
        match l0 with
        | [] => replacement
        | b1 :: l1 =>
            if utf8_second3 b0 b1 then
              match l1 with
              | [] => replacement
              | b2 :: l2 =>
                  if utf8_cont b2 then b0 :: b1 :: b2 :: from_utf8_lossy l2
                  else replacement ++ from_utf8_lossy l1
              end
            else replacement ++ from_utf8_lossy l0
        end
      else
        match l0 with
        | [] => replacement
        | b1 :: l1 =>
            if utf8_second4 b0 b1 then
              match l1 with
              | [] => replacement
              | b2 :: l2 =>
                  if utf8_cont b2 then
                    match l2 with
                    | [] => replacement
                    | b3 :: l3 =>
                        if utf8_cont b3 then b0 :: b1 :: b2 :: b3 :: from_utf8_lossy l3
                        else replacement ++ from_utf8_lossy l2
                    end
                  else replacement ++ from_utf8_lossy l1
              end
            else replacement ++ from_utf8_lossy l0
        end
  end.

(** The [&str] of the result. *)
Definition lossy_str (l : list byte) : string := string_of_list_byte (from_utf8_lossy l).

(** ** [str::parse::<i32>]: an optional sign, then decimal digits *)

Definition digit_value (a : ascii) : option Z :=
  let n := Z.of_N (N_of_ascii a) in
  if (48 <=? n)%Z && (n <=? 57)%Z then Some (n - 48)%Z else None.

Fixpoint parse_digits (s : string) (acc : Z) : option Z :=
  match s with
  | EmptyString => Some acc
  | String a s' =>
      match digit_value a with
      | Some d => parse_digits s' (10 * acc + d)
      | None => None
      end
  end.

Definition parse_i32 (s : string) : option Z :=
  let '(sign, digits) :=
    match s with
    | String "-" s' => ((-1)%Z, s')
    | String "+" s' => (1%Z, s')
    | _ => (1%Z, s)
    end in
  if is_empty digits then None
  else match parse_digits digits 0 with
       | Some n => if in_ity I32 (sign * n) then Some (sign * n)%Z else None
       | None => None
       end.

(** ** [Duration], in nanoseconds *)

Definition NANOS_PER_MILLI : Z := 1000000.
Definition NANOS_PER_SEC : Z := 1000000000.

Definition as_millis (d : Z) : Z := (d / NANOS_PER_MILLI)%Z.
Definition from_secs (s : Z) : Z := (s * NANOS_PER_SEC)%Z.
Definition from_millis (s : Z) : Z := (s * NANOS_PER_MILLI)%Z.
Definition duration_saturating_sub (a b : Z) : Z := Z.max 0 (a - b).

(** ** [slice::sort_by]: the stable sort for the order [le] *)

Section Sort.
Context {A : Type} (le : A -> A -> bool).

Fixpoint sort_insert (x : A) (l : list A) : list A :=
  match l with
  | [] => [x]
  | y :: l' => if le x y then x :: l else y :: sort_insert x l'
  end.

Definition stable_sort (l : list A) : list A := fold_right sort_insert [] l.

End Sort.

(** ** Hash iteration order *)

Class HashOrder := {
  map_iter : forall {K V} `{Countable K}, gmap K V -> list (K * V);
  map_iter_perm : forall {K V} `{Countable K} (m : gmap K V), map_iter m ≡ₚ map_to_list m;
  set_iter : forall {K} `{Countable K}, gset K -> list K;
  set_iter_perm : forall {K} `{Countable K} (s : gset K), set_iter s ≡ₚ elements s
}.

(** One concrete order, for evaluation. *)
Definition canonical_order : HashOrder.
Proof.
  refine {| map_iter := fun K V _ _ m => map_to_list m;
            set_iter := fun K _ _ s => elements s |}; reflexivity.
Defined.

(** ** Lemmas: strings *)

(** stdpp keeps [String.append] folded: the equation rewriting uses. *)
Lemma append_cons (a : ascii) (s t : string) :
  (String a s +:+ t)%string = String a (s +:+ t).
Proof. reflexivity. Qed.

Lemma append_nil (t : string) : (EmptyString +:+ t)%string = t.
Proof. reflexivity. Qed.

Lemma starts_with_spec (s p : string) :
  starts_with s p = true <-> exists t, s = (p +:+ t)%string.
Proof.
  unfold starts_with. revert s. induction p as [|a p IH]; intros s; cbn.
  - split; eauto. by destruct s.
  - destruct s as [|b s]; cbn.
    + split; [done|]. by intros [t [=]].
    + destruct (ascii_dec a b) as [->|Hne].
      * rewrite IH. split; intros [t H]; exists t; rewrite append_cons in *; congruence.
      * split; [done|]. intros [t H]; rewrite append_cons in H; congruence.
Qed.

Lemma append_assoc (s t u : string) : ((s +:+ t) +:+ u = s +:+ (t +:+ u))%string.
Proof. induction s; [done|]. rewrite !append_cons. by f_equal. Qed.

Lemma str_contains_spec (s sub : string) :
  str_contains s sub = true <-> exists a b, s = (a +:+ (sub +:+ b))%string.
Proof.
  induction s as [|x s IH].
  - split.
    + intros H. destruct sub; [|done]. by exists EmptyString, EmptyString.
    + intros (a & b & H). destruct a; [|done]. by destruct sub.
  - change (str_contains (String x s) sub) with
      (starts_with (String x s) sub || str_contains s sub).
    rewrite orb_true_iff, IH, starts_with_spec. split.
    + intros [[t ->]|(a & b & ->)]; [by exists EmptyString, t|].
      by exists (String x a), b.
    + intros ([|y a] & b & H); [by left; exists b|].
      rewrite append_cons in H. injection H as -> ->. right. eauto.
Qed.

Lemma str_contains_trans (a b c : string) :
  str_contains a b = true -> str_contains b c = true -> str_contains a c = true.
Proof.
  rewrite !str_contains_spec. intros (a1 & b1 & ->) (a2 & b2 & ->).
  exists (a1 +:+ a2)%string, (b2 +:+ b1)%string. by rewrite !append_assoc.
Qed.

Lemma split_char_nonempty (c : ascii) (s : string) : split_char c s <> [].
Proof. destruct s; cbn; [done|]. repeat case_match; done. Qed.

Lemma rsplit_char_nonempty (c : ascii) (s : string) :
  exists p ps, rsplit_char c s = p :: ps.
Proof.
  unfold rsplit_char. destruct (rev (split_char c s)) eqn:H; eauto.
  apply (f_equal (@rev string)) in H. rewrite rev_involutive in H. cbn in H.
  by apply split_char_nonempty in H.
Qed.

(** [c] does not occur in [s]. *)
Definition str_free (c : ascii) (s : string) : Prop := split_char c s = [s].

Lemma split_char_app (c : ascii) (s t : string) :
  split_char c (s +:+ String c t) = split_char c s ++ split_char c t.
Proof.
  induction s as [|a s IH]; cbn.
  - by rewrite append_nil; cbn; rewrite Ascii.eqb_refl.
  - rewrite append_cons; cbn. rewrite IH. destruct (Ascii.eqb a c); [done|].
    destruct (split_char c s) eqn:H; [|done].
    by apply split_char_nonempty in H.
Qed.

Lemma rsplit_char_file (c : ascii) (dir file : string) :
  str_free c file -> hd_error (rsplit_char c (dir +:+ String c file)) = Some file.
Proof.
  unfold str_free, rsplit_char. intros H. by rewrite split_char_app, H, rev_app_distr.
Qed.

Lemma is_empty_spec (s : string) : is_empty s = true <-> s = EmptyString.
Proof. by destruct s. Qed.

(** ** Lemmas: C strings *)

Lemma from_bytes_until_nul_Ok (l p : list byte) :
  from_bytes_until_nul l = Ok p <->
  exists rest, l = p ++ nul :: rest /\ Forall (fun b => b <> nul) p.
Proof.
  revert p. induction l as [|b l IH]; intros p; cbn.
  - split; [done|]. intros (rest & H & _). by destruct p.
  - destruct (Byte.eqb b nul) eqn:Hb.
    + apply Byte.byte_dec_bl in Hb as ->. split.
      * intros [= <-]. by exists l.
      * intros (rest & H & HF). destruct p as [|b p]; [done|].
        injection H as <- _. apply Forall_cons in HF as [HF _]. by destruct HF.
    + rewrite rbind_Ok. setoid_rewrite IH. split.
      * intros (q & (rest & -> & HF) & [= <-]). exists rest. split; [done|].
        constructor; [|done]. by intros ->.
      * intros (rest & H & HF). destruct p as [|b' p]; cbn in H.
        { by injection H as -> _. }
        injection H as -> ->. apply Forall_cons in HF as [_ HF]. exists p. eauto.
Qed.

Lemma from_bytes_until_nul_Err (l : list byte) (e : error) :
  from_bytes_until_nul l = Err e <-> e = EFromBytesUntilNul /\ nul ∉ l.
Proof.
  induction l as [|b l IH]; cbn.
  - split; [|naive_solver]. intros [= <-]. split; [done|]. by apply not_elem_of_nil.
  - destruct (Byte.eqb b nul) eqn:Hb.
    + apply Byte.byte_dec_bl in Hb as ->. split; [done|].
      intros [_ H]. destruct H. by left.
    + rewrite rbind_Err, IH, not_elem_of_cons. split.
      * intros [[-> H]|(? & _ & ?)]; [|done]. repeat split; [|done].
        by intros <-.
      * naive_solver.
Qed.

Lemma no_nul_spec (s : string) :
  no_nul s = true <-> Forall (fun b => b <> nul) (list_byte_of_string s).
Proof.
  unfold no_nul. rewrite forallb_forall, List.Forall_forall. apply forall_proper. intros b.
  split; intros H Hin; specialize (H Hin).
  - intros ->. done.
  - destruct (Byte.eqb b nul) eqn:Hb; [|done]. by apply Byte.byte_dec_bl in Hb.
Qed.

(** ** Lemmas: UTF-8 *)

Lemma utf8_valid_ascii (b0 : byte) (l : list byte) :
  byte_in 0 127 b0 = true -> utf8_valid (b0 :: l) = utf8_valid l.
Proof. intros H. cbn [utf8_valid]. by rewrite H. Qed.

Lemma utf8_valid_replacement (l : list byte) : utf8_valid (replacement ++ l) = utf8_valid l.
Proof. reflexivity. Qed.

(** Follow the tests of [from_utf8_lossy] on a list, one branch at a time. *)
Ltac utf8_cases :=
  repeat match goal with
  | |- context [match ?l with [] => _ | _ => _ end] => is_var l; destruct l
  | |- context [if ?b then _ else _] => destruct b eqn:?
  end.

Lemma from_utf8_lossy_valid (l : list byte) : utf8_valid (from_utf8_lossy l) = true.
Proof.
  induction l as [l IH] using (induction_ltof1 _ (@length byte)). unfold ltof in IH.
  assert (forall k, (length k < length l)%nat ->
    utf8_valid (replacement ++ from_utf8_lossy k) = true) as Hrepl.
  { intros k Hk. rewrite utf8_valid_replacement. by apply IH. }
  destruct l as [|b0 l0]; [done|]. cbn [from_utf8_lossy].
  utf8_cases; try done; try (apply Hrepl; cbn; lia); cbn [utf8_valid app];
    repeat match goal with H : _ = true |- _ => rewrite H | H : _ = false |- _ => rewrite H end;
    cbn [andb]; apply IH; cbn; lia.
Qed.

Lemma from_utf8_lossy_id (l : list byte) : utf8_valid l = true -> from_utf8_lossy l = l.
Proof.
  induction l as [l IH] using (induction_ltof1 _ (@length byte)). unfold ltof in IH.
  destruct l as [|b0 l0]; [done|]. cbn [from_utf8_lossy utf8_valid].
  utf8_cases; cbn [andb]; try done; intros H;
    repeat match goal with H : _ && _ = true |- _ => apply andb_true_iff in H as [? ?] end;
    try congruence; repeat f_equal; apply IH; cbn; try lia; done.
Qed.

Lemma lossy_str_is_str (l : list byte) : is_str (lossy_str l) = true.
Proof.
  unfold is_str, lossy_str. rewrite list_byte_of_string_of_list_byte. apply from_utf8_lossy_valid.
Qed.

Lemma lossy_str_of_string (s : string) :
  is_str s = true -> lossy_str (list_byte_of_string s) = s.
Proof.
  unfold is_str, lossy_str. intros H. rewrite from_utf8_lossy_id by done.
  apply string_of_list_byte_of_string.
Qed.

(** ** Lemmas: sorting *)

Section SortLemmas.
Context {A : Type} (le : A -> A -> bool).

Lemma sort_insert_perm (x : A) (l : list A) : sort_insert le x l ≡ₚ x :: l.
Proof.
  induction l as [|y l IH]; cbn; [done|]. destruct (le x y); [done|].
  rewrite IH. apply Permutation_swap.
Qed.

Lemma stable_sort_perm (l : list A) : stable_sort le l ≡ₚ l.
Proof. induction l as [|x l IH]; cbn; [done|]. by rewrite sort_insert_perm, IH. Qed.

Context (le_total : forall x y, le x y = false -> le y x = true).
Context (le_trans : forall x y z, le x y = true -> le y z = true -> le x z = true).

Lemma sort_insert_sorted (x : A) (l : list A) :
  StronglySorted (fun a b => le a b = true) l ->
  StronglySorted (fun a b => le a b = true) (sort_insert le x l).
Proof using le_total le_trans.
  induction 1 as [|y l Hs IH HF]; cbn; [by repeat constructor|].
  destruct (le x y) eqn:Hxy.
  - constructor; [by constructor|]. constructor; [done|].
    eapply List.Forall_impl; [|done]. cbn. eauto.
  - constructor; [done|]. rewrite sort_insert_perm. constructor; [|done]. by apply le_total.
Qed.

Lemma stable_sort_sorted (l : list A) :
  StronglySorted (fun a b => le a b = true) (stable_sort le l).
Proof using le_total le_trans. induction l; cbn; [constructor | by apply sort_insert_sorted]. Qed.

(** Elements that compare equal keep their order. *)
Lemma sort_insert_stable (P : A -> bool) (x : A) (l : list A) :
  (forall a b, P a = true -> P b = true -> le a b = true) ->
  List.filter P (sort_insert le x l) = List.filter P (x :: l).
Proof.
  intros HP. induction l as [|y l IH]; cbn; [done|].
  destruct (le x y) eqn:Hxy; [done|]. cbn in IH |- *.
  destruct (P x) eqn:Hx, (P y) eqn:Hy; rewrite IH; try done.
  by rewrite (HP x y) in Hxy.
Qed.

Lemma stable_sort_stable (P : A -> bool) (l : list A) :
  (forall a b, P a = true -> P b = true -> le a b = true) ->
  List.filter P (stable_sort le l) = List.filter P l.
Proof.
  intros HP. induction l as [|x l IH]; [done|].
  change (stable_sort le (x :: l)) with (sort_insert le x (stable_sort le l)).
  rewrite sort_insert_stable by done. cbn [List.filter]. by rewrite IH.
Qed.

End SortLemmas.
