(* ===== verification/Data.v ===== *)
(** * Data: the records and enums the components exchange

    Atoms ([daemon/core/atom.rs]), bridge-service parcels ([service/aidl]),
    BPF structs ([bpf/headers/include/uprobestats_bpf_structs.h]), the config
    protos ([config/config.proto]) and the resolved task
    ([daemon/core/config_resolver.rs]).  Integers are [Z] of the field's width;
    [wf_*] predicates state the width where a theorem needs it. *)

From S2P Require Import Prelude RustStd.

(** ** Atoms: [daemon/core/atom.rs] *)

Inductive AtomValue :=
| VBool (b : bool)
| VInt32 (z : Z)
| VInt64 (z : Z)
| VString (s : string)
| VInt32Vec (l : list Z)
| VInt64Vec (l : list Z).

Inductive FieldAnnotation := IsUid (b : bool).

Record Field := mkField {
  field_value : AtomValue;
  field_annotations : list FieldAnnotation
}.

Definition Field_new (v : AtomValue) : Field :=
  {| field_value := v; field_annotations := [] |}.

Definition Field_new_with_annotation (v : AtomValue) (a : FieldAnnotation) : Field :=
  {| field_value := v; field_annotations := [a] |}.

Record UnstructuredAtom := mkUnstructuredAtom {
  atom_id : Z;
  atom_fields : list Field
}.

Inductive CodegenAtom :=
| SetComponentEnabledSettingReported
    (package_name class_name : string) (new_state : Z) (calling_package_name : string)
    (is_launcher_activity : bool)
| DisabledLauncherActivityUidsReported (calling_uid disabled_activity_uid : Z)
| BindServiceLockedWithBalFlagsReported
    (intent_package : string) (flags : Z)
    (calling_package intent_action intent_component_name_package
     intent_component_name_class : string)
| BindServiceLockedWithBalFlagsUidsReported (binder_uid bindee_uid : Z)
| AndroidGraphicsBitmapAllocated (uid width height : Z)
| AndroidGraphicsBitmapScaled
    (uid width height scaled_width scaled_height pixel_storage_type : Z)
    (activity_name : string)
| AndroidGraphicsBitmapAllocationSnapshot
    (uid width height pixel_storage_type snapshot_id snapshot_type : Z)
    (activity_name : string).

(** ** Parcels of [IUprobeStatsBridgeService] *)

Inductive AidlValue :=
| StringValue (s : string)
| IntValue (z : Z).

Record Entry := mkEntry {
  entry_key : string;
  entry_value : AidlValue
}.

Record BridgeEvent := mkBridgeEvent {
  ev_uid : Z;
  ev_timestampMs : Z;
  ev_payloadId : Z;
  ev_payload : list Entry
}.

(** [enum DynamicInstrumentationPayloadIds] of [core/bpf_handler.rs]. *)
Inductive DynamicInstrumentationPayloadIds :=
| PBinderTransaction
| PDisabledLauncherActivity
| PBindAllowBackgroundActivityStarts
| PRuntimePermissionGrant.

Definition payload_id (p : DynamicInstrumentationPayloadIds) : Z :=
  match p with
  | PBinderTransaction => 1
  | PDisabledLauncherActivity => 2
  | PBindAllowBackgroundActivityStarts => 3
  | PRuntimePermissionGrant => 4
  end.

(** ** Structs written by the BPF programs *)

Record CallTimestamp := mkCallTimestamp { ct_event : Z; ct_timestampNs : Z }.

Record CallResult := mkCallResult { cr_pc : Z; cr_regs : list Z }.

Record SetUidTempAllowlistStateRecord := mkSetUidTempAllowlistStateRecord {
  su_uid : Z;
  su_onAllowlist : bool
}.

Record UpdateDeviceIdleTempAllowlistRecord := mkUpdateDeviceIdleTempAllowlistRecord {
  ud_method_identifier : Z;
  ud_changing_uid : Z;
  ud_adding : bool;
  ud_duration_ms : Z;
  ud_type : Z;
  ud_reason_code : Z;
  ud_reason : list byte;
  ud_calling_uid : Z
}.

Record BindServiceLocked := mkBindServiceLocked {
  bs_error_code : Z;
  bs_intent_action : list byte;
  bs_intent_package : list byte;
  bs_intent_component_name_package : list byte;
  bs_intent_component_name_class : list byte;
  bs_bind_flags : Z;
  bs_calling_package : list byte
}.

Record ComponentEnabledSetting := mkComponentEnabledSetting {
  ce_error_code : Z;
  ce_package_name : list byte;
  ce_class_name : list byte;
  ce_new_state : Z;
  ce_calling_package_name : list byte
}.

Record ProcessChange := mkProcessChange {
  pc_pid : Z;
  pc_uid : Z;
  pc_process_name : list byte
}.

Definition K_BITMAP_EVENT_TYPE_ALLOCATION : Z := 0.
Definition K_BITMAP_EVENT_TYPE_DEALLOCATION : Z := 1.
Definition K_BITMAP_EVENT_TYPE_ACTIVITY_START : Z := 2.
Definition K_BITMAP_EVENT_TYPE_BITMAP_SCALED : Z := 3.

Record BitmapEvent := mkBitmapEvent {
  be_type : Z;
  be_width : Z;
  be_height : Z;
  be_scaled_width : Z;
  be_scaled_height : Z;
  be_pixel_storage_type : Z;
  be_bitmap_size : Z;
  be_native_ptr : Z;
  be_activity_name : list byte
}.

Record BinderTransaction := mkBinderTransaction {
  bt_interface_descriptor : list byte;
  bt_code : Z;
  bt_calling_uid : Z;
  bt_timestamp_ns : Z
}.

Record StartActivityAsUser := mkStartActivityAsUser {
  sa_method_identifier : Z;
  sa_calling_package : list byte;
  sa_request_code : Z;
  sa_start_flags : Z;
  sa_user_id : Z;
  sa_validate_incoming_user : Z;
  sa_x0 : Z
}.

Record AccessibilityEvent := mkAccessibilityEvent {
  ae_error_code : Z;
  ae_timestamp_ns : Z;
  ae_variant : Z;
  ae_package_name : list byte;
  ae_permission_name : list byte;
  ae_uid : Z;
  ae_code : Z
}.

(** ** Protos: [config/config.proto].  Unset optional fields are [None]; an
    enum field is the raw number, which may be unknown to this version. *)

Inductive TargetProcessSelection :=
| TPS_UNKNOWN
| TPS_SPECIFIC_PROCESS_NAME
| TPS_ANY_APP_PROCESS_ON_START
| TPS_SPECIFIC_APP_PROCESS_ON_START.

(** [EnumOrUnknown::enum_value_or_default]. *)
Definition TargetProcessSelection_or_default (z : Z) : TargetProcessSelection :=
  match z with
  | 1 => TPS_SPECIFIC_PROCESS_NAME
  | 2 => TPS_ANY_APP_PROCESS_ON_START
  | 3 => TPS_SPECIFIC_APP_PROCESS_ON_START
  | _ => TPS_UNKNOWN
  end%Z.

Inductive AtomFieldPosition :=
| AFP_UNKNOWN
| AFP_CALLING_UID
| AFP_INTERFACE_NAME
| AFP_CODE
| AFP_KTIME_NS.

Definition AtomFieldPosition_or_default (z : Z) : AtomFieldPosition :=
  match z with
  | 1 => AFP_CALLING_UID
  | 2 => AFP_INTERFACE_NAME
  | 3 => AFP_CODE
  | 4 => AFP_KTIME_NS
  | _ => AFP_UNKNOWN
  end%Z.

Record ProtoEventServiceConfig := mkProtoEventServiceConfig { pesc_flush : option bool }.

Record ProtoAtomConfig := mkProtoAtomConfig {
  pac_atom_id : option Z;
  pac_atom_field_positions : list Z
}.

Record ProtoMethodConfig := mkProtoMethodConfig {
  pmc_method_id : option Z;
  pmc_event_service_config : option ProtoEventServiceConfig;
  pmc_atom_config : option ProtoAtomConfig
}.

Record BinderTransactionFilter := mkBinderTransactionFilter {
  btf_interface_name : option string;
  btf_method_configs : list ProtoMethodConfig
}.

Record ProbeConfig := mkProbeConfig {
  pb_bpf_name : option string;
  pb_method_signature : option string;
  pb_fully_qualified_class_name : option string;
  pb_method_name : option string;
  pb_fully_qualified_parameters : list string;
  pb_binder_transaction_filters : list BinderTransactionFilter
}.

Record StatsdLoggingConfig := mkStatsdLoggingConfig {
  slc_atom_id : option Z;
  slc_primitive_argument_positions : list Z
}.

Record Task := mkTask {
  tk_probe_configs : list ProbeConfig;
  tk_bpf_maps : list string;
  tk_target_process_name : option string;
  tk_duration_seconds : option Z;
  tk_statsd_logging_config : option StatsdLoggingConfig;
  tk_target_process_selection : option Z;
  tk_task_id : option Z
}.

Record UprobestatsConfig := mkUprobestatsConfig { cfg_tasks : list Task }.

(** ** Resolved tasks: [daemon/core/config_resolver.rs] and its submodules *)

Record ResolvedProcess := mkResolvedProcess {
  rp_pid : Z;
  rp_uid : Z;
  rp_name : string
}.

Record MethodDescriptor := mkMethodDescriptor {
  md_fully_qualified_class_name : string;
  md_method_name : string;
  md_fully_qualified_parameters : list string
}.

Record ExecutableMethodFileOffsets := mkExecutableMethodFileOffsets {
  of_container_path : string;
  of_container_offset : Z;
  of_method_offset : Z
}.

Inductive EventMode := Flush | Buffer.

Record EventServiceConfig := mkEventServiceConfig { esc_mode : EventMode }.

Record AtomConfig := mkAtomConfig {
  ac_atom_id : Z;
  ac_atom_field_positions : list AtomFieldPosition
}.

Record MethodConfig := mkMethodConfig {
  mc_event_service_config : option EventServiceConfig;
  mc_atom_config : option AtomConfig
}.

Record InterfaceConfig := mkInterfaceConfig { ic_methods : gmap Z MethodConfig }.

Definition InterfaceConfig_default : InterfaceConfig := {| ic_methods := ∅ |}.

Record ResolvedProbe := mkResolvedProbe {
  pr_method_descriptor : MethodDescriptor;
  pr_offsets : ExecutableMethodFileOffsets;
  pr_bpf_program_path : string;
  pr_binder_transaction_filters : gmap string InterfaceConfig
}.

Record ResolvedTask := mkResolvedTask {
  rt_id : Z;
  rt_duration : Z;
  rt_resolved_process : ResolvedProcess;
  rt_bpf_map_paths : gset string;
  rt_statsd_logging_config : option StatsdLoggingConfig;
  rt_resolved_probes : list ResolvedProbe
}.

(** ** The struct types a ring buffer may hold *)

Inductive StructTy :=
| TyCallTimestamp
| TyCallResult
| TySetUidTempAllowlistStateRecord
| TyUpdateDeviceIdleTempAllowlistRecord
| TyBindServiceLocked
| TyComponentEnabledSetting
| TyProcessChange
| TyBitmapEvent
| TyBinderTransaction
| TyStartActivityAsUser
| TyAccessibilityEvent.

Definition struct_of (t : StructTy) : Type :=
  match t with
  | TyCallTimestamp => CallTimestamp
  | TyCallResult => CallResult
  | TySetUidTempAllowlistStateRecord => SetUidTempAllowlistStateRecord
  | TyUpdateDeviceIdleTempAllowlistRecord => UpdateDeviceIdleTempAllowlistRecord
  | TyBindServiceLocked => BindServiceLocked
  | TyComponentEnabledSetting => ComponentEnabledSetting
  | TyProcessChange => ProcessChange
  | TyBitmapEvent => BitmapEvent
  | TyBinderTransaction => BinderTransaction
  | TyStartActivityAsUser => StartActivityAsUser
  | TyAccessibilityEvent => AccessibilityEvent
  end.

#[export] Instance UnstructuredAtom_inhabited : Inhabited UnstructuredAtom :=
  populate {| atom_id := 0; atom_fields := [] |}.

(** The integers of the structs are of their C widths. *)
Definition wf_u32 (z : Z) : Prop := (0 <= z <= 4294967295)%Z.
Definition wf_i32 (z : Z) : Prop := (-2147483648 <= z <= 2147483647)%Z.
Definition wf_u64 (z : Z) : Prop := (0 <= z <= 18446744073709551615)%Z.

Definition wf_BitmapEvent (e : BitmapEvent) : Prop :=
  wf_u32 (be_type e) /\ wf_u32 (be_width e) /\ wf_u32 (be_height e) /\
  wf_u32 (be_scaled_width e) /\ wf_u32 (be_scaled_height e) /\
  wf_u32 (be_pixel_storage_type e) /\ wf_u32 (be_bitmap_size e) /\
  wf_u64 (be_native_ptr e).

#[export] Instance EventMode_eq_dec : EqDecision EventMode.
Proof. solve_decision. Defined.
#[export] Instance EventServiceConfig_eq_dec : EqDecision EventServiceConfig.
Proof. solve_decision. Defined.
#[export] Instance AtomFieldPosition_eq_dec : EqDecision AtomFieldPosition.
Proof. solve_decision. Defined.
#[export] Instance AtomConfig_eq_dec : EqDecision AtomConfig.
Proof. solve_decision. Defined.
#[export] Instance MethodConfig_eq_dec : EqDecision MethodConfig.
Proof. solve_decision. Defined.
#[export] Instance AtomValue_eq_dec : EqDecision AtomValue.
Proof. solve_decision. Defined.
#[export] Instance FieldAnnotation_eq_dec : EqDecision FieldAnnotation.
Proof. solve_decision. Defined.
#[export] Instance Field_eq_dec : EqDecision Field.
Proof. solve_decision. Defined.
#[export] Instance UnstructuredAtom_eq_dec : EqDecision UnstructuredAtom.
Proof. solve_decision. Defined.
#[export] Instance CodegenAtom_eq_dec : EqDecision CodegenAtom.
Proof. solve_decision. Defined.
