(* ===== verification/System.v ===== *)
(** * System: everything the modelled code calls and does not define

    The interface [SysI] lists the calls that leave the modelled code: the
    methods of the traits the daemon abstracts over ([AtomWriter],
    [UprobeStatsBridgeService], [DeviceProperties], [ProcessResolver],
    [OffsetResolver]), the generated statsd functions, the C functions of
    [daemon/ffi], and the clock, the random generator and the log level.  The
    response type of a call is the Rust type of its result. *)

From S2P Require Import Prelude Effects RustStd Data.

Local Open Scope rust_scope.

(** ** Enums of the generated statsd library, as matched in [android/atom.rs] *)

Inductive AttachedBpfProgram :=
| A_UprobeStatsBpfProgramUnspecified
| A_ProgAccessibilityUprobeAccessibilityServiceConnection
| A_ProgAccessibilityUprobeGrantRuntimePermission
| A_ProgBinderUprobeExecTransactInternal
| A_ProgBitmapAllocationOutput
| A_ProgBitmapAllocationUprobeActivityPerformStart
| A_ProgBitmapAllocationUprobeApplyFreeFunction
| A_ProgBitmapAllocationUprobeBitmapCreationForSnapshot
| A_ProgBitmapAllocationUprobeCreateScaledBitmap
| A_ProgDisruptiveAppUprobeBindServiceLocked
| A_ProgDisruptiveAppUprobeSetComponentEnabledSetting
| A_ProgGenericInstrumentationUprobeCallDetail
| A_ProgGenericInstrumentationUprobeCallTimestamp
| A_ProgKeepaliveUprobeAcquireWakeLockInternal
| A_ProgKeepaliveUprobeReleaseWakeLockInternal.

Inductive InternalErrorBpfProgram :=
| I_UprobeStatsBpfProgramUnspecified
| I_ProgAccessibilityUprobeAccessibilityServiceConnection
| I_ProgAccessibilityUprobeGrantRuntimePermission
| I_ProgBinderUprobeExecTransactInternal
| I_ProgBitmapAllocationOutput
| I_ProgBitmapAllocationUprobeActivityPerformStart
| I_ProgBitmapAllocationUprobeApplyFreeFunction
| I_ProgBitmapAllocationUprobeBitmapCreationForSnapshot
| I_ProgBitmapAllocationUprobeCreateScaledBitmap
| I_ProgDisruptiveAppUprobeBindServiceLocked
| I_ProgDisruptiveAppUprobeSetComponentEnabledSetting
| I_ProgGenericInstrumentationUprobeCallDetail
| I_ProgGenericInstrumentationUprobeCallTimestamp
| I_ProgKeepaliveUprobeAcquireWakeLockInternal
| I_ProgKeepaliveUprobeReleaseWakeLockInternal.

Inductive PolledMapPath :=
| P_UprobeStatsBpfMapPathUnspecified
| P_BpfMapPathAccessibilityOutputBuf
| P_BpfMapPathBinderOutputBuf
| P_BpfMapPathBitmapAllocationOutput
| P_BpfMapPathDisruptiveAppBindServiceLockedOutputBuf
| P_BpfMapPathDisruptiveAppComponentEnabledSettingOutputBuf
| P_BpfMapPathGenericInstrumentationCallDetailBuf
| P_BpfMapPathGenericInstrumentationCallTimestampBuf
| P_BpfMapPathKeepaliveOutputBuf.

Inductive InternalErrorMapPath :=
| IM_UprobeStatsBpfMapPathUnspecified
| IM_BpfMapPathAccessibilityOutputBuf
| IM_BpfMapPathBinderOutputBuf
| IM_BpfMapPathBitmapAllocationOutput
| IM_BpfMapPathDisruptiveAppBindServiceLockedOutputBuf
| IM_BpfMapPathDisruptiveAppComponentEnabledSettingOutputBuf
| IM_BpfMapPathGenericInstrumentationCallDetailBuf
| IM_BpfMapPathGenericInstrumentationCallTimestampBuf
| IM_BpfMapPathKeepaliveOutputBuf.

Inductive ErrorType :=
| ErrorTypeConfigParseFailed
| ErrorTypeTaskConflict
| ErrorTypeTaskExecutionFailed
| ErrorTypeBinderFilterSetupFailed
| ErrorTypeBinderFilterCleanupFailed
| ErrorTypeBpfProgramAttachFailed
| ErrorTypeBpfRingBufferCreateFailed
| ErrorTypeBpfRingBufferPollFailed
| ErrorTypeBpfProgramError
| ErrorTypeBpfRingBufferDataInvalid.

Inductive InvocationType :=
| InvocationTypeServiceStarted
| InvocationTypeStartTasksReceived.

(** The enums of the bitmap atoms; the two modules repeat [PixelStorageType]. *)
Inductive SnapshotPixelStorageType :=
| Snap_PixelStorageTypeUnspecified
| Snap_PixelStorageTypeWrappedPixelRef
| Snap_PixelStorageTypeHeap
| Snap_PixelStorageTypeAshmem
| Snap_PixelStorageTypeHardware.

Inductive ScaledPixelStorageType :=
| Scaled_PixelStorageTypeUnspecified
| Scaled_PixelStorageTypeWrappedPixelRef
| Scaled_PixelStorageTypeHeap
| Scaled_PixelStorageTypeAshmem
| Scaled_PixelStorageTypeHardware.

Inductive SnapshotType :=
| SnapshotTypeUnspecified
| SnapshotTypeMaxAllocationSize
| SnapshotTypeRandomSample.

(** The generated [stats_write] functions [CodegenAtomWriter] calls, one
    constructor per module of the library, with their arguments in order. *)
Inductive StatsWrite :=
| set_component_enabled_setting_reported
    (package_name class_name : string) (new_state : Z) (calling_package_name : string)
    (is_launcher_activity : bool)
| disabled_launcher_activity_uids_reported (calling_uid disabled_activity_uid : Z)
| bind_service_locked_with_bal_flags_reported
    (intent_package : string) (flags : Z)
    (calling_package intent_action intent_component_name_package
     intent_component_name_class : string)
| bind_service_locked_with_bal_flags_uids_reported (binder_uid bindee_uid : Z)
| android_graphics_bitmap_allocated (uid width height : Z)
| android_graphics_bitmap_scaled
    (uid width height scaled_width scaled_height : Z)
    (pixel_storage_type : ScaledPixelStorageType) (activity_name : string)
| android_graphics_bitmap_allocation_snapshot
    (uid width height : Z) (pixel_storage_type : SnapshotPixelStorageType) (snapshot_id : Z)
    (snapshot_type : SnapshotType) (activity_name : string).

#[export] Instance ErrorType_eq_dec : EqDecision ErrorType.
Proof. solve_decision. Defined.

(** Errors of a task that executes; the others keep it from executing. *)
Definition execution_error (ty : ErrorType) : bool :=
  match ty with
  | ErrorTypeConfigParseFailed | ErrorTypeTaskConflict => false
  | _ => true
  end.

(** The arguments of one [on_process_started] callback, as C passes them. *)
Record ProcessStarted := mkProcessStarted {
  ps_pid : Z;
  ps_process_uid : Z;
  ps_package_uid : Z;
  ps_package_name : list byte;
  ps_process_name : list byte
}.

(** ** The calls *)

Inductive SysCall :=
(* trait AtomWriter *)
| AtomWriter_write_unstructured (a : UnstructuredAtom)
| AtomWriter_write_codegen (a : CodegenAtom)
(* trait UprobeStatsBridgeService and the binder proxy it returns *)
| BridgeService_get
| BS_getUidForPackage (name : string)
| BS_packageHasEnabledAccessibilityService (name : string)
| BS_isLauncherActivity (pkg activity : string) (match_disabled : bool)
| BS_enqueueEvent (e : BridgeEvent) (flush : bool)
(* trait DeviceProperties *)
| DeviceProperties_is_user_build
(* traits ProcessResolver and OffsetResolver *)
| ProcessResolver_resolve_process (name : option string) (sel : TargetProcessSelection)
    (timeout : Z)
| OffsetResolver_resolve_offsets (p : ResolvedProcess) (m : MethodDescriptor)
(* clock, randomness, log level, scheduling *)
| SystemTime_now_millis
| Instant_now
| Rng_gen_i64
| Log_debug_enabled
| Schedule_first
(* generated statsd functions *)
| stats_write_internal_error (ty : ErrorType) (task_id : Z) (prog : InternalErrorBpfProgram)
    (map : InternalErrorMapPath) (failure_point : Z)
| stats_write_bpf_attached (prog : AttachedBpfProgram) (cls meth process : string) (task_id : Z)
| stats_write_bpf_map_polled (map : PolledMapPath) (duration_ms total_events task_id : Z)
| stats_write_invocation (ty : InvocationType)
| stats_write_codegen (w : StatsWrite)
(* device *)
| system_properties_read (name : string)
| android_get_device_api_level
(* C functions of daemon/ffi/bpf *)
| bpfRingBufCreate (path : string) (ty : StructTy)
| bpfRingBufPoll (ty : StructTy) (handle : Z) (timeout_ms : Z)
| bpfRingBufDestroy (handle : Z)
| bpfRingBufDiscard (path : string)
| bpfPerfEventOpen (filename : string) (offset pid : Z) (program : string)
| close_fd (fd : Z)
| bpfMapOpenExclusiveRW (path : string)
| bpfMapUpdateElem (handle : Z) (key : list byte) (value : list Z) (flags : Z)
| bpfMapLookupElem (handle : Z) (key : list byte)
| bpfMapGetFirstKey (handle : Z)
| bpfMapDeleteElem (handle : Z) (key : list byte)
| bpfMapClose (handle : Z)
(* files, threads and the binder runtime *)
| File_open (path : string)
| File_read_to_end (path : string)
| register_lazy_service (name : string)
| thread_sleep (duration : Z)
(* C functions of the NDK *)
| AStatsEvent_obtain
| AStatsEvent_setAtomId (event atom_id : Z)
| AStatsEvent_writeBool (event : Z) (value : bool)
| AStatsEvent_writeInt32 (event value : Z)
| AStatsEvent_writeInt64 (event value : Z)
| AStatsEvent_writeString (event : Z) (value : string)
| AStatsEvent_writeInt32Array (event : Z) (value : list Z)
| AStatsEvent_writeInt64Array (event : Z) (value : list Z)
| AStatsEvent_addBoolAnnotation (event annotation_id : Z) (value : bool)
| AStatsEvent_write (event : Z)
| AStatsEvent_release (event : Z)
| TargetProcess_create (uid pid : Z) (process_name : string)
| TargetProcess_destroy (process : Z)
| MethodDescriptor_create (cls meth : string) (params : list string)
| MethodDescriptor_destroy (method : Z)
| getExecutableMethodFileOffsets (process method : Z)
| Offsets_getContainerPath (offsets : Z)
| Offsets_getContainerOffset (offsets : Z)
| Offsets_getMethodOffset (offsets : Z)
| Offsets_destroy (offsets : Z)
| createProcessObserver
| ProcessObserver_setOnProcessStarted (observer : Z)
| ProcessObserver_setOnForegroundActivitiesChanged (observer : Z)
| ProcessObserver_setOnForegroundServicesChanged (observer : Z)
| ProcessObserver_setOnProcessDied (observer : Z)
| registerProcessObserver (observer : Z)
| destroyProcessObserver (observer : Z)
| recv_timeout (duration : Z)
| getRunningAppProcesses
| RunningAppProcessInfoList_getSize (processes : Z)
| RunningAppProcessInfoList_get (processes i : Z)
| RunningAppProcessInfoList_destroy (processes : Z)
| RunningAppProcessInfo_getProcessName (info : Z)
| RunningAppProcessInfo_getPid (info : Z)
| RunningAppProcessInfo_getUid (info : Z)
(* the file system under /proc, and the service manager *)
| read_dir (path : string)
| is_dir (path : string)
| read_file (path : string)
| get_interface (name : string).

(** Out-parameters and callback deliveries are part of the response: a handle
    is a number, [0] the null pointer; [bpfRingBufPoll] also returns the items
    its callback received, and [recv_timeout] the process-start callbacks that
    arrived before it returned.  C strings are given without their terminator; a
    directory is the list of its entries' names, [None] for an unreadable one. *)
Definition SysResp (c : SysCall) : Type :=
  match c with
  | AtomWriter_write_unstructured _ => result unit
  | AtomWriter_write_codegen _ => result unit
  | BridgeService_get => result unit
  | BS_getUidForPackage _ => result Z
  | BS_packageHasEnabledAccessibilityService _ => result bool
  | BS_isLauncherActivity _ _ _ => result bool
  | BS_enqueueEvent _ _ => result unit
  | DeviceProperties_is_user_build => bool
  | ProcessResolver_resolve_process _ _ _ => result ResolvedProcess
  | OffsetResolver_resolve_offsets _ _ => result (option ExecutableMethodFileOffsets)
  | SystemTime_now_millis => Z
  | Instant_now => Z
  | Rng_gen_i64 => Z
  | Log_debug_enabled => bool
  | Schedule_first => bool
  | stats_write_internal_error _ _ _ _ _ => result unit
  | stats_write_bpf_attached _ _ _ _ _ => result unit
  | stats_write_bpf_map_polled _ _ _ _ => result unit
  | stats_write_invocation _ => result unit
  | stats_write_codegen _ => result unit
  | system_properties_read _ => result (option string)
  | android_get_device_api_level => Z
  | bpfRingBufCreate _ _ => Z
  | bpfRingBufPoll ty _ _ => Z * list (struct_of ty)
  | bpfRingBufDestroy _ => unit
  | bpfRingBufDiscard _ => Z
  | bpfPerfEventOpen _ _ _ _ => Z
  | close_fd _ => unit
  | bpfMapOpenExclusiveRW _ => Z * Z
  | bpfMapUpdateElem _ _ _ _ => Z
  | bpfMapLookupElem _ _ => Z * list Z
  | bpfMapGetFirstKey _ => Z * list byte
  | bpfMapDeleteElem _ _ => Z
  | bpfMapClose _ => unit
  | File_open _ => result unit
  | File_read_to_end _ => result (list byte)
  | register_lazy_service _ => result unit
  | thread_sleep _ => unit
  | AStatsEvent_obtain => Z
  | AStatsEvent_setAtomId _ _ => unit
  | AStatsEvent_writeBool _ _ => unit
  | AStatsEvent_writeInt32 _ _ => unit
  | AStatsEvent_writeInt64 _ _ => unit
  | AStatsEvent_writeString _ _ => unit
  | AStatsEvent_writeInt32Array _ _ => unit
  | AStatsEvent_writeInt64Array _ _ => unit
  | AStatsEvent_addBoolAnnotation _ _ _ => unit
  | AStatsEvent_write _ => Z
  | AStatsEvent_release _ => unit
  | TargetProcess_create _ _ _ => Z
  | TargetProcess_destroy _ => unit
  | MethodDescriptor_create _ _ _ => Z
  | MethodDescriptor_destroy _ => unit
  | getExecutableMethodFileOffsets _ _ => Z * Z
  | Offsets_getContainerPath _ => list byte
  | Offsets_getContainerOffset _ => Z
  | Offsets_getMethodOffset _ => Z
  | Offsets_destroy _ => unit
  | createProcessObserver => Z
  | ProcessObserver_setOnProcessStarted _ => unit
  | ProcessObserver_setOnForegroundActivitiesChanged _ => unit
  | ProcessObserver_setOnForegroundServicesChanged _ => unit
  | ProcessObserver_setOnProcessDied _ => unit
  | registerProcessObserver _ => Z
  | destroyProcessObserver _ => unit
  | recv_timeout _ => list ProcessStarted
  | getRunningAppProcesses => Z * Z
  | RunningAppProcessInfoList_getSize _ => Z
  | RunningAppProcessInfoList_get _ _ => Z
  | RunningAppProcessInfoList_destroy _ => unit
  | RunningAppProcessInfo_getProcessName _ => option (list byte)
  | RunningAppProcessInfo_getPid _ => Z
  | RunningAppProcessInfo_getUid _ => Z
  | read_dir _ => option (list (option (list byte)))
  | is_dir _ => bool
  | read_file _ => option (list byte)
  | get_interface _ => result unit
  end.

Definition SysI : Iface := mkIface SysCall SysResp.

Notation Sys := (M SysI).
Notation ev := (event SysI).

(** ** What an exchange shows *)

(** Atoms handed to a writer that accepted them. *)
Definition atom_of (e : ev) : option UnstructuredAtom :=
  match e with
  | existT (AtomWriter_write_unstructured a) (Ok _) => Some a
  | _ => None
  end.

Definition atoms (tr : list ev) : list UnstructuredAtom := omap atom_of tr.

(** Codegen atoms handed to a writer, accepted or not. *)
Definition codegen_of (e : ev) : option CodegenAtom :=
  match e with
  | existT (AtomWriter_write_codegen a) _ => Some a
  | _ => None
  end.

Definition codegen_atoms (tr : list ev) : list CodegenAtom := omap codegen_of tr.

(** Events sent to the bridge service, with their flush flag. *)
Definition enqueued_of (e : ev) : option (BridgeEvent * bool) :=
  match e with
  | existT (BS_enqueueEvent b f) _ => Some (b, f)
  | _ => None
  end.

Definition enqueued (tr : list ev) : list (BridgeEvent * bool) := omap enqueued_of tr.

(** Internal errors reported to statsd. *)
Definition internal_error_of (e : ev) : option (ErrorType * Z) :=
  match e with
  | existT (stats_write_internal_error ty id _ _ _) _ => Some (ty, id)
  | _ => None
  end.

Definition internal_errors (tr : list ev) : list (ErrorType * Z) := omap internal_error_of tr.

(** ** Wrappers *)

Section Wrappers.
Context {S : Type}.

Definition write (a : UnstructuredAtom) : Sys S (result unit) :=
  ext (E := SysI) (AtomWriter_write_unstructured a).

Definition write_codegen (a : CodegenAtom) : Sys S (result unit) :=
  ext (E := SysI) (AtomWriter_write_codegen a).

Definition bridge_service_get : Sys S (result unit) := ext (E := SysI) BridgeService_get.

Definition getUidForPackage (name : string) : Sys S (result Z) :=
  ext (E := SysI) (BS_getUidForPackage name).

Definition packageHasEnabledAccessibilityService (name : string) : Sys S (result bool) :=
  ext (E := SysI) (BS_packageHasEnabledAccessibilityService name).

Definition isLauncherActivity (pkg cls : string) (b : bool) : Sys S (result bool) :=
  ext (E := SysI) (BS_isLauncherActivity pkg cls b).

Definition enqueueEvent (e : BridgeEvent) (flush : bool) : Sys S (result unit) :=
  ext (E := SysI) (BS_enqueueEvent e flush).

Definition is_user_build : Sys S bool := ext (E := SysI) DeviceProperties_is_user_build.

Definition log_debug_enabled : Sys S bool := ext (E := SysI) Log_debug_enabled.

(** [get_current_timestamp_millis] of [core/bpf_handler.rs]: the clock may read
    before the epoch, and the milliseconds may exceed an [i64]. *)
Definition get_current_timestamp_millis : Sys S Z :=
  let! now := ext (E := SysI) SystemTime_now_millis in
  if (now <? 0)%Z then panic "Time went backwards"
  else match try_into I64 now with
       | Ok ms => mret ms
       | Err _ => panic "Overflow in timestamp"
       end.

End Wrappers.

(** ** [core/string.rs] *)

Definition bytes_as_str (bytes : list byte) : result string :=
  let^ s := from_bytes_until_nul bytes in cstr_to_str s.

Definition bytes_as_nonempty_str (bytes : list byte) : result string :=
  let^ s := bytes_as_str bytes in
  if is_empty s then Err (EAnyhow "bytes_as_str returned an unexpected empty string")
  else Ok s.

(** ** [core/timer.rs] *)

Record Timer := mkTimer { timer_now : Z; timer_duration : Z }.

Definition Timer_new {S} (duration : Z) : Sys S Timer :=
  let! now := ext (E := SysI) Instant_now in
  mret {| timer_now := now; timer_duration := duration |}.

(** [Instant::elapsed] saturates at zero; [checked_sub] of the milliseconds. *)
Definition Timer_remaining_millis {S} (t : Timer) : Sys S (option Z) :=
  let! now := ext (E := SysI) Instant_now in
  let elapsed := duration_saturating_sub now (timer_now t) in
  let rem := (as_millis (timer_duration t) - as_millis elapsed)%Z in
  mret (if (rem <? 0)%Z then None else Some rem).

(** ** Threads: the interleavings of two, and of a list, of programs *)

Definition pmap {A B} (f : A -> B) (p : Prog SysI A) : Prog SysI B :=
  pbind p (fun a => Ret (f a)).

Fixpoint par2 {A B} (p : Prog SysI A) : Prog SysI B -> Prog SysI (A * B) :=
  fix par2_p (q : Prog SysI B) : Prog SysI (A * B) :=
    match p with
    | Ret a => pmap (fun b => (a, b)) q
    | Vis c k =>
        match q with
        | Ret b => pmap (fun a => (a, b)) p
        | Vis c' k' =>
            Vis (Schedule_first : call SysI) (fun first : bool =>
              if first then Vis c (fun r => par2 (k r) q)
              else Vis c' (fun r => par2_p (k' r)))
        end
    end.

(** [thread::scope] over one spawned thread per element, joined in order. *)
Fixpoint par_list {A} (ps : list (Prog SysI A)) : Prog SysI (list A) :=
  match ps with
  | [] => Ret []
  | p :: ps' => pmap (fun '(a, l) => a :: l) (par2 p (par_list ps'))
  end.

(** ** Lemmas *)

Lemma atoms_app t1 t2 : atoms (t1 ++ t2) = atoms t1 ++ atoms t2.
Proof. apply omap_app. Qed.

Lemma codegen_atoms_app t1 t2 :
  codegen_atoms (t1 ++ t2) = codegen_atoms t1 ++ codegen_atoms t2.
Proof. apply omap_app. Qed.

Lemma enqueued_app t1 t2 : enqueued (t1 ++ t2) = enqueued t1 ++ enqueued t2.
Proof. apply omap_app. Qed.

Lemma internal_errors_app t1 t2 :
  internal_errors (t1 ++ t2) = internal_errors t1 ++ internal_errors t2.
Proof. apply omap_app. Qed.

Lemma bytes_as_str_Ok (l : list byte) (s : string) :
  bytes_as_str l = Ok s <->
  exists p rest, l = p ++ nul :: rest /\ Forall (fun b => b <> nul) p /\
    utf8_valid p = true /\ s = string_of_list_byte p.
Proof.
  unfold bytes_as_str, cstr_to_str. rewrite rbind_Ok. split.
  - intros (p & Hp & H). apply from_bytes_until_nul_Ok in Hp as (rest & -> & HF).
    destruct (utf8_valid p) eqn:Hu; [|done]. injection H as <-. eauto 10.
  - intros (p & rest & -> & HF & Hu & ->). exists p. split.
    + apply from_bytes_until_nul_Ok. eauto.
    + by rewrite Hu.
Qed.

Lemma bytes_as_nonempty_str_Ok (l : list byte) (s : string) :
  bytes_as_nonempty_str l = Ok s <-> bytes_as_str l = Ok s /\ s <> EmptyString.
Proof.
  unfold bytes_as_nonempty_str. rewrite rbind_Ok. split.
  - intros (s' & Hs & H). destruct (is_empty s') eqn:He; [done|]. injection H as <-.
    split; [done|]. intros ->. done.
  - intros [Hs Hne]. exists s. split; [done|]. by destruct s.
Qed.

(** The result of each thread of a scope is one the thread can return. *)
Lemma exec_pmap {A B} (f : A -> B) (p : Prog SysI A) tr b :
  exec (pmap f p) tr b -> exists a, exec p tr a /\ b = f a.
Proof.
  unfold pmap. intros (t1 & t2 & a & -> & H & -> & ->)%exec_bind.
  rewrite app_nil_r. eauto.
Qed.

Definition may_return {A} (p : Prog SysI A) (a : A) : Prop := exists tr, exec p tr a.

Lemma exec_par2 {A B} (p : Prog SysI A) (q : Prog SysI B) tr a b :
  exec (par2 p q) tr (a, b) -> may_return p a /\ may_return q b.
Proof.
  revert q tr. induction p as [a'|c k IHp]; intros q.
  - intros tr H. destruct q; cbn -[pmap] in H;
      apply exec_pmap in H as (b' & H & [= -> ->]); split; [by exists []|by exists tr|
      by exists []|by exists tr].
  - induction q as [b'|c' k' IHq]; intros tr H.
    + cbn -[pmap] in H. apply exec_pmap in H as (a' & H & [= -> ->]).
      split; [by exists tr | by exists []].
    + cbn in H. destruct H as (first & tr' & -> & H). destruct first; cbn in H.
      * destruct H as (r & tr & -> & H). apply IHp in H as [[t1 H1] H2].
        split; [|done]. exists (existT c r :: t1). cbn. eauto.
      * destruct H as (r & tr & -> & H). apply IHq in H as [H1 [t2 H2]].
        split; [done|]. exists (existT c' r :: t2). cbn. eauto.
Qed.

Lemma exec_par_list {A} (ps : list (Prog SysI A)) tr l :
  exec (par_list ps) tr l -> Forall2 may_return ps l.
Proof.
  revert tr l. induction ps as [|p ps IH]; intros tr l H.
  - cbn in H. destruct H as [_ ->]. constructor.
  - cbn [par_list] in H. apply exec_pmap in H as ([a l'] & H & ->).
    apply exec_par2 in H as [H1 [tr' H2]]. constructor; eauto.
Qed.

(** The calls of a scope are those of its threads. *)
Section ScopeCalls.
Context (P : SysCall -> bool) (Hfirst : P Schedule_first = true).

Definition prog_makes_only {A} (p : Prog SysI A) : Prop :=
  forall tr a, exec p tr a -> Forall (fun e : ev => P (projT1 e) = true) tr.

Lemma prog_makes_only_pmap {A B} (f : A -> B) (p : Prog SysI A) :
  prog_makes_only p -> prog_makes_only (pmap f p).
Proof using Type. intros Hp tr b (a & H & ->)%exec_pmap. by eapply Hp. Qed.

Lemma prog_makes_only_vis {A} c (k : SysResp c -> Prog SysI A) r :
  prog_makes_only (Vis (c : call SysI) k) -> prog_makes_only (k r).
Proof using Type.
  intros Hp tr a H. specialize (Hp (existT c r :: tr) a ltac:(cbn; eauto)).
  by apply Forall_cons in Hp as [_ Hp].
Qed.

Lemma prog_makes_only_par2 {A B} (p : Prog SysI A) (q : Prog SysI B) :
  prog_makes_only p -> prog_makes_only q -> prog_makes_only (par2 p q).
Proof using Hfirst.
  revert q. induction p as [a|c k IHp]; intros q Hp Hq.
  - destruct q; cbn -[pmap]; by apply prog_makes_only_pmap.
  - induction q as [b|c' k' IHq].
    + cbn -[pmap]. by apply prog_makes_only_pmap.
    + intros tr [a b] H. cbn in H. destruct H as (first & tr' & -> & H).
      constructor; [exact Hfirst|].
      destruct first; cbn in H; destruct H as (r & t & -> & H).
      * assert (P c = true) as Hc.
        { apply exec_par2 in H as [[t1 H1] _].
          specialize (Hp (existT c r :: t1) a ltac:(cbn; eauto)).
          by apply Forall_cons in Hp as [? _]. }
        constructor; [exact Hc|]. eapply (IHp r); [by eapply prog_makes_only_vis|exact Hq|exact H].
      * assert (P c' = true) as Hc.
        { change (exec (par2 (Vis c k) (k' r)) t (a, b)) in H.
          apply exec_par2 in H as [_ [t1 H1]].
          specialize (Hq (existT c' r :: t1) b ltac:(cbn; eauto)).
          by apply Forall_cons in Hq as [? _]. }
        constructor; [exact Hc|]. eapply (IHq r); [by eapply prog_makes_only_vis|exact H].
Qed.

Lemma prog_makes_only_par_list {A} (ps : list (Prog SysI A)) :
  Forall prog_makes_only ps -> prog_makes_only (par_list ps).
Proof using Hfirst.
  induction 1 as [|p ps Hp Hps IH]; [by intros tr a [-> _]|].
  cbn [par_list]. apply prog_makes_only_pmap. by apply prog_makes_only_par2.
Qed.

End ScopeCalls.

(** The exchange of a scope is a shuffle of its threads' exchanges with the
    scheduling choices. *)
Definition is_schedule (e : ev) : bool :=
  match e with existT Schedule_first _ => true | _ => false end.

Lemma shuffle_left {A} (e f : A) (a b c : list A) :
  e :: f :: (a ++ b ++ c) ≡ₚ (f :: a) ++ b ++ e :: c.
Proof.
  rewrite (assoc_L (++) (f :: a) b (e :: c)), <- Permutation_middle. cbn. by rewrite (assoc_L (++)).
Qed.

Lemma shuffle_right {A} (e f : A) (a b c : list A) :
  e :: f :: (a ++ b ++ c) ≡ₚ a ++ (f :: b) ++ e :: c.
Proof.
  rewrite (assoc_L (++) a (f :: b) (e :: c)), <- Permutation_middle. apply perm_skip.
  rewrite <- (assoc_L (++) a (f :: b) c). cbn. apply Permutation_middle.
Qed.

Lemma exec_par2_shuffle {A B} (p : Prog SysI A) (q : Prog SysI B) tr a b :
  exec (par2 p q) tr (a, b) ->
  exists t1 t2 ts, exec p t1 a /\ exec q t2 b /\ Forall (fun e => is_schedule e = true) ts /\
    tr ≡ₚ t1 ++ t2 ++ ts.
Proof.
  revert q tr. induction p as [a'|c k IHp]; intros q.
  - intros tr H. exists [], tr, [].
    destruct q; cbn -[pmap] in H; apply exec_pmap in H as (b' & H & [= -> ->]);
      rewrite app_nil_r; done.
  - induction q as [b'|c' k' IHq]; intros tr H.
    + cbn -[pmap] in H. apply exec_pmap in H as (a' & H & [= -> ->]).
      exists tr, [], []. cbn. rewrite app_nil_r. done.
    + cbn in H. destruct H as (first & tr' & -> & H). destruct first; cbn in H.
      * destruct H as (r & tr & -> & H). apply IHp in H as (t1 & t2 & ts & H1 & H2 & Hs & Hp).
        exists (existT c r :: t1), t2, (existT Schedule_first true :: ts).
        split_and!; [cbn; eauto|done|by constructor|]. rewrite Hp.
        apply shuffle_left.
      * destruct H as (r & tr & -> & H). apply IHq in H as (t1 & t2 & ts & H1 & H2 & Hs & Hp).
        exists t1, (existT c' r :: t2), (existT Schedule_first false :: ts).
        split_and!; [done|cbn; eauto|by constructor|]. rewrite Hp.
        apply shuffle_right.
Qed.

Lemma exec_par_list_shuffle {A} (ps : list (Prog SysI A)) tr l :
  exec (par_list ps) tr l ->
  exists runs ts, Forall2 (fun p (r : list ev * A) => exec p r.1 r.2) ps runs /\ l = runs.*2 /\
    Forall (fun e => is_schedule e = true) ts /\ tr ≡ₚ concat runs.*1 ++ ts.
Proof.
  revert tr l. induction ps as [|p ps IH]; intros tr l H.
  - cbn in H. destruct H as [-> ->]. exists [], []. by repeat constructor.
  - cbn [par_list] in H. apply exec_pmap in H as ([a l'] & H & ->).
    apply exec_par2_shuffle in H as (t1 & t2 & ts & H1 & H2 & Hs & Hp).
    apply IH in H2 as (runs & ts' & Hr & -> & Hs' & Hp').
    exists ((t1, a) :: runs), (ts' ++ ts). cbn. split_and!.
    + by constructor.
    + done.
    + by apply Forall_app.
    + rewrite Hp, Hp'. by rewrite <- !(assoc_L (++)).
Qed.

(** Each thread's exchange keeps its order in that of the scope. *)
Lemma exec_par2_sublist {A B} (p : Prog SysI A) (q : Prog SysI B) tr a b :
  exec (par2 p q) tr (a, b) ->
  exists t1 t2, exec p t1 a /\ exec q t2 b /\ t1 `sublist_of` tr /\ t2 `sublist_of` tr.
Proof.
  revert q tr. induction p as [a'|c k IHp]; intros q.
  - intros tr H. exists [], tr.
    destruct q; cbn -[pmap] in H; apply exec_pmap in H as (b' & H & [= -> ->]);
      split_and!; done || apply sublist_nil_l.
  - induction q as [b'|c' k' IHq]; intros tr H.
    + cbn -[pmap] in H. apply exec_pmap in H as (a' & H & [= -> ->]).
      exists tr, []. split_and!; done || apply sublist_nil_l.
    + cbn in H. destruct H as (first & tr' & -> & H). destruct first; cbn in H.
      * destruct H as (r & tr & -> & H). apply IHp in H as (t1 & t2 & H1 & H2 & S1 & S2).
        exists (existT c r :: t1), t2. split_and!; [cbn; eauto|done| |];
          apply sublist_cons; [by apply sublist_skip|by apply sublist_cons].
      * destruct H as (r & tr & -> & H). apply IHq in H as (t1 & t2 & H1 & H2 & S1 & S2).
        exists t1, (existT c' r :: t2). split_and!; [done|cbn; eauto| |];
          apply sublist_cons; [by apply sublist_cons|by apply sublist_skip].
Qed.

Lemma exec_par_list_sublist {A} (ps : list (Prog SysI A)) tr l :
  exec (par_list ps) tr l ->
  Forall2 (fun p a => exists t, exec p t a /\ t `sublist_of` tr) ps l.
Proof.
  revert tr l. induction ps as [|p ps IH]; intros tr l H.
  - cbn in H. destruct H as [-> ->]. constructor.
  - cbn [par_list] in H. apply exec_pmap in H as ([a l'] & H & ->).
    apply exec_par2_sublist in H as (t1 & t2 & H1 & H2 & S1 & S2). constructor; [eauto|].
    eapply Forall2_impl; [by apply (IH t2)|]. cbn. intros q x (t & Ht & Hs).
    exists t. split; [done|]. by transitivity t2.
Qed.
