(* ===== verification/Fixtures.v ===== *)
(** * Fixtures: concrete builds, flags and environments for evaluation

    The witnesses of the properties run the code against these. *)

From S2P Require Import Prelude Effects RustStd Data System.

Local Open Scope string_scope.
Local Open Scope list_scope.

Definition target64 : Target := {| overflow_checks := true; pointer_width_32 := false |}.
Definition target64_wrapping : Target :=
  {| overflow_checks := false; pointer_width_32 := false |}.

Definition all_flags : Flags :=
  {| uprobestats_monitor_disruptive_app_activities := true;
     enable_bitmap_snapshot := true;
     enable_bitmap_instrumentation := true;
     enable_binder_transaction := true;
     enable_bitmap_scaled_instrumentation := true;
     a11y_runtime_permission := true;
     use_process_observer_api := true;
     feature_art_test := false |}.

Definition some_process : ResolvedProcess :=
  {| rp_pid := 123; rp_uid := 456; rp_name := "test_process" |}.

Definition some_offsets : ExecutableMethodFileOffsets :=
  {| of_container_path := "/path/to/file"; of_container_offset := 0; of_method_offset := 1234 |}.

Definition some_start : ProcessStarted :=
  {| ps_pid := 123; ps_process_uid := 456; ps_package_uid := 456;
     ps_package_name := list_byte_of_string "test";
     ps_process_name := list_byte_of_string "test_process" |}.

(** Everything succeeds; clocks stand still, ring buffers and maps are empty. *)
Definition benign_env : Env SysI := fun c _ =>
  match c return SysResp c with
  | AtomWriter_write_unstructured _ => Ok tt
  | AtomWriter_write_codegen _ => Ok tt
  | BridgeService_get => Ok tt
  | BS_getUidForPackage _ => Ok 10001%Z
  | BS_packageHasEnabledAccessibilityService _ => Ok true
  | BS_isLauncherActivity _ _ _ => Ok true
  | BS_enqueueEvent _ _ => Ok tt
  | DeviceProperties_is_user_build => true
  | ProcessResolver_resolve_process _ _ _ => Ok some_process
  | OffsetResolver_resolve_offsets _ _ => Ok (Some some_offsets)
  | SystemTime_now_millis => 1700000000000%Z
  | Instant_now => 0%Z
  | Rng_gen_i64 => 7%Z
  | Log_debug_enabled => false
  | Schedule_first => true
  | stats_write_internal_error _ _ _ _ _ => Ok tt
  | stats_write_bpf_attached _ _ _ _ _ => Ok tt
  | stats_write_bpf_map_polled _ _ _ _ => Ok tt
  | stats_write_invocation _ => Ok tt
  | stats_write_codegen _ => Ok tt
  | system_properties_read _ => Ok (Some "user")
  | android_get_device_api_level => 37%Z
  | bpfRingBufCreate _ _ => 1%Z
  | bpfRingBufPoll _ _ _ => (0%Z, [])
  | bpfRingBufDestroy _ => tt
  | bpfRingBufDiscard _ => 0%Z
  | bpfPerfEventOpen _ _ _ _ => 3%Z
  | close_fd _ => tt
  | bpfMapOpenExclusiveRW _ => (0%Z, 5%Z)
  | bpfMapUpdateElem _ _ _ _ => 0%Z
  | bpfMapLookupElem _ _ => ((-2)%Z, [])
  | bpfMapGetFirstKey _ => ((-2)%Z, [])
  | bpfMapDeleteElem _ _ => 0%Z
  | bpfMapClose _ => tt
  | File_open _ => Ok tt
  | File_read_to_end _ => Ok []
  | register_lazy_service _ => Ok tt
  | thread_sleep _ => tt
  | AStatsEvent_obtain => 9%Z
  | AStatsEvent_setAtomId _ _ => tt
  | AStatsEvent_writeBool _ _ => tt
  | AStatsEvent_writeInt32 _ _ => tt
  | AStatsEvent_writeInt64 _ _ => tt
  | AStatsEvent_writeString _ _ => tt
  | AStatsEvent_writeInt32Array _ _ => tt
  | AStatsEvent_writeInt64Array _ _ => tt
  | AStatsEvent_addBoolAnnotation _ _ _ => tt
  | AStatsEvent_write _ => 1%Z
  | AStatsEvent_release _ => tt
  | TargetProcess_create _ _ _ => 11%Z
  | TargetProcess_destroy _ => tt
  | MethodDescriptor_create _ _ _ => 12%Z
  | MethodDescriptor_destroy _ => tt
  | getExecutableMethodFileOffsets _ _ => (0%Z, 13%Z)
  | Offsets_getContainerPath _ => list_byte_of_string "/path/to/file"
  | Offsets_getContainerOffset _ => 0%Z
  | Offsets_getMethodOffset _ => 1234%Z
  | Offsets_destroy _ => tt
  | createProcessObserver => 14%Z
  | ProcessObserver_setOnProcessStarted _ => tt
  | ProcessObserver_setOnForegroundActivitiesChanged _ => tt
  | ProcessObserver_setOnForegroundServicesChanged _ => tt
  | ProcessObserver_setOnProcessDied _ => tt
  | registerProcessObserver _ => 0%Z
  | destroyProcessObserver _ => tt
  | recv_timeout _ => [some_start]
  | getRunningAppProcesses => (0%Z, 15%Z)
  | RunningAppProcessInfoList_getSize _ => 1%Z
  | RunningAppProcessInfoList_get _ _ => 16%Z
  | RunningAppProcessInfoList_destroy _ => tt
  | RunningAppProcessInfo_getProcessName _ => Some (list_byte_of_string "test_process")
  | RunningAppProcessInfo_getPid _ => 123%Z
  | RunningAppProcessInfo_getUid _ => 456%Z
  | read_dir _ => Some [Some (list_byte_of_string "self"); Some (list_byte_of_string "1234")]
  | is_dir _ => true
  | read_file _ => Some (list_byte_of_string "system_server")
  | get_interface _ => Ok tt
  end.

(** Close [exec p tr x] by running [p] in [env]; [tr] and [x] may be unknown. *)
Ltac run_in env := apply (run_exec_eq env); vm_compute; reflexivity.

(** A C array of [n] bytes holding [s]. *)
Definition c_array (n : nat) (s : string) : list byte :=
  let b := list_byte_of_string s in b ++ replicate (n - length b) nul.
