(* ===== verification/Guardrail.v ===== *)
(** * Guardrail: which configs a user build may run
    ([daemon/core/config_resolver/guardrail.rs])

    The nested loops with their early returns are [check_probes] and
    [check_tasks], whose [Some b] is [return Ok(b)] and [None] is falling
    through to the next iteration. *)

From S2P Require Import Prelude RustStd Data.

Local Open Scope rust_scope.
Local Open Scope string_scope.
Local Open Scope list_scope.

Definition ALLOWED_METHOD_PREFIXES : list string := [
  "com.android.server.am.ActivityManagerService$LocalService.updateDeviceIdleTempAllowlist";
  "com.android.server.am.CachedAppOptimizer";
  "com.android.server.am.OomAdjuster";
  "com.android.server.am.OomAdjusterModernImpl";
  "com.android.server.pm.PackageManagerService$IPackageManagerImpl.setComponentEnabledSetting";
  "com.android.server.am.ActiveServices.bindServiceLocked";
  "com.android.server.pm.permission.PermissionManagerService.grantRuntimePermission" ].

Definition PROG_BINDER_A11Y_SERVICE_CONNECTION : string :=
  "prog_Accessibility_uprobe_dispatch_gesture".

Definition get_full_method_name (probe_config : ProbeConfig) (offsets_api_enabled : bool) :
    result string :=
  if offsets_api_enabled then
    let^ fqcn := ok_or (pb_fully_qualified_class_name probe_config)
                   (EAnyhow "Fully qualified class name is empty") in
    let^ method_name := ok_or (pb_method_name probe_config)
                          (EAnyhow "Method name is empty") in
    Ok (fqcn +:+ "." +:+ method_name)
  else
    let^ method_signature := ok_or (pb_method_signature probe_config)
                               (EAnyhow "Method signature is empty") in
    ok_or (split_char " " method_signature !! 1%nat) (EAnyhow "Method signature is invalid").

(** The body of the loop over the prefixes. *)
Definition matches_prefix (full_method_name prefix : string) : bool :=
  String.eqb full_method_name prefix
  || starts_with full_method_name (prefix +:+ "(")
  || starts_with full_method_name (prefix +:+ ".")
  || starts_with full_method_name (prefix +:+ "$").

Definition method_allowed (full_method_name : string) : bool :=
  existsb (matches_prefix full_method_name) ALLOWED_METHOD_PREFIXES.

#[global] Arguments method_allowed : simpl never.
#[global] Arguments get_full_method_name : simpl never.

Fixpoint check_probes (offsets_api_enabled : bool) (probes : list ProbeConfig) :
    result (option bool) :=
  match probes with
  | [] => Ok None
  | probe :: probes' =>
      let^ bpf_program_name := ok_or (pb_bpf_name probe) (EAnyhow "BPF program name is empty") in
      if String.eqb bpf_program_name PROG_BINDER_A11Y_SERVICE_CONNECTION then Ok (Some true)
      else
        let^ full_method_name := get_full_method_name probe offsets_api_enabled in
        if negb (method_allowed full_method_name) then Ok (Some false)
        else check_probes offsets_api_enabled probes'
  end.

Fixpoint check_tasks (offsets_api_enabled : bool) (tasks : list Task) : result bool :=
  match tasks with
  | [] => Ok true
  | task :: tasks' =>
      let^ verdict := check_probes offsets_api_enabled (tk_probe_configs task) in
      match verdict with
      | Some b => Ok b
      | None => check_tasks offsets_api_enabled tasks'
      end
  end.

Definition is_allowed (config : UprobestatsConfig) (is_user_build offsets_api_enabled : bool) :
    result bool :=
  if negb is_user_build then Ok true
  else check_tasks offsets_api_enabled (cfg_tasks config).

(** ** Specification *)

Definition is_a11y_probe (p : ProbeConfig) : Prop :=
  pb_bpf_name p = Some PROG_BINDER_A11Y_SERVICE_CONNECTION.

(** The probe targets a method on the allow list. *)
Definition probe_listed (api : bool) (p : ProbeConfig) : Prop :=
  exists prog name,
    pb_bpf_name p = Some prog /\ get_full_method_name p api = Ok name /\
    method_allowed name = true.

(** The probes up to the first accessibility probe are all listed. *)
Definition guardrail_accepts (api : bool) (ps : list ProbeConfig) : Prop :=
  exists checked rest,
    ps = checked ++ rest /\
    Forall (fun p => probe_listed api p /\ ~ is_a11y_probe p) checked /\
    (rest = [] \/ exists p rest', rest = p :: rest' /\ is_a11y_probe p).

Definition all_probes (config : UprobestatsConfig) : list ProbeConfig :=
  flat_map tk_probe_configs (cfg_tasks config).

(** ** Lemmas *)

Lemma check_probes_None api ps :
  check_probes api ps = Ok None <->
  Forall (fun p => probe_listed api p /\ ~ is_a11y_probe p) ps.
Proof.
  induction ps as [|p ps IH]; cbn; [split; constructor|].
  unfold is_a11y_probe, probe_listed in *. rewrite Forall_cons.
  destruct (pb_bpf_name p) as [b|]; cbn; [|naive_solver].
  destruct (String.eqb_spec b PROG_BINDER_A11Y_SERVICE_CONNECTION) as [->|Hb];
    [naive_solver|].
  destruct (get_full_method_name p api) as [n|]; cbn; [|naive_solver].
  destruct (method_allowed n) eqn:Hn; cbn.
  - rewrite IH. split; [|naive_solver]. intros HF. split; [|done]. split; [|congruence].
    by exists b, n.
  - split; [done|]. intros [[(? & ? & ? & ? & ?) _] _]. congruence.
Qed.

Lemma check_probes_Some_true api ps :
  check_probes api ps = Ok (Some true) <->
  exists checked p rest, ps = checked ++ p :: rest /\ is_a11y_probe p /\
    Forall (fun p => probe_listed api p /\ ~ is_a11y_probe p) checked.
Proof.
  induction ps as [|p ps IH]; cbn.
  { split; [done|]. intros ([|? ?] & ? & ? & ? & _); discriminate. }
  destruct (pb_bpf_name p) as [b|] eqn:Hp; cbn.
  2: { split; [done|]. intros ([|q l] & ? & ? & [= -> ->] & H1 & H2).
       - unfold is_a11y_probe in H1. congruence.
       - apply Forall_cons in H2 as [[(? & ? & ? & _) _] _]. congruence. }
  destruct (String.eqb_spec b PROG_BINDER_A11Y_SERVICE_CONNECTION) as [->|Hb].
  { split; [|done]. intros _. by exists [], p, ps. }
  assert (Hna : ~ is_a11y_probe p) by (unfold is_a11y_probe; congruence).
  destruct (get_full_method_name p api) as [n|] eqn:Hn; cbn.
  2: { split; [done|]. intros ([|q l] & ? & ? & [= -> ->] & H1 & H2); [done|].
       apply Forall_cons in H2 as [[(? & ? & ? & ? & _) _] _]. congruence. }
  destruct (method_allowed n) eqn:Ha; cbn.
  - rewrite IH. split.
    + intros (l & q & rest & -> & Hq & HF). exists (p :: l), q, rest.
      split; [done|]. split; [done|]. constructor; [|done]. split; [|done].
      by exists b, n.
    + intros ([|q l] & q' & rest & [= -> ->] & H1 & H2); [done|].
      apply Forall_cons in H2 as [_ H2]. by exists l, q', rest.
  - split; [done|]. intros ([|q l] & ? & ? & [= -> ->] & H1 & H2); [done|].
    apply Forall_cons in H2 as [[(? & ? & ? & ? & ?) _] _]. congruence.
Qed.

Lemma check_tasks_spec api ts :
  check_tasks api ts = Ok true <-> guardrail_accepts api (flat_map tk_probe_configs ts).
Proof.
  induction ts as [|t ts IH]; cbn.
  { split; [|done]. intros _. exists [], []. by split_and!; [| |left]. }
  rewrite rbind_Ok. split.
  - intros ([[|]|] & Hc & H); [| done |].
    + apply check_probes_Some_true in Hc as (l & p & rest & Heq & Hp & HF).
      exists l, (p :: rest ++ flat_map tk_probe_configs ts).
      rewrite Heq, <- app_assoc. split; [done|]. split; [done|]. right. eauto.
    + apply IH in H as (l & rest & Heq & HF & Hr). apply check_probes_None in Hc.
      exists (tk_probe_configs t ++ l), rest. rewrite Heq, app_assoc.
      split; [done|]. split; [by apply Forall_app|done].
  - intros (l & rest & Heq & HF & Hr).
    apply app_eq_inv in Heq as [(k & H1 & H2)|(k & H1 & H2)].
    + destruct Hr as [->|(p & rest' & -> & Hp)].
      * symmetry in H2. apply app_nil in H2 as [-> H2]. rewrite app_nil_r in H1.
        exists None. rewrite check_probes_None, H1. split; [done|]. apply IH. rewrite H2.
        exists [], []. by split_and!; [| |left].
      * destruct k as [|q k]; cbn in H2.
        { rewrite app_nil_r in H1. exists None.
          rewrite check_probes_None, H1. split; [done|]. apply IH. rewrite <- H2.
          exists [], (p :: rest'). split_and!; [done|done|right; eauto]. }
        injection H2 as -> ->. exists (Some true). split; [|done].
        apply check_probes_Some_true. eauto 10.
    + subst l. apply Forall_app in HF as [HF1 HF2]. exists None.
      rewrite check_probes_None. split; [done|]. apply IH. exists k, rest. done.
Qed.

Lemma matches_prefix_spec (name prefix : string) :
  matches_prefix name prefix = true <->
  name = prefix \/
  exists c rest, name = (prefix +:+ String c rest) /\ (c = "(" \/ c = "." \/ c = "$")%char.
Proof.
  unfold matches_prefix. rewrite !orb_true_iff, String.eqb_eq, !starts_with_spec.
  assert (Happ : forall c t, ((prefix +:+ String c "") +:+ t = prefix +:+ String c t)%string).
  { intros c t. induction prefix; [done|]. rewrite !append_cons. by f_equal. }
  setoid_rewrite Happ. naive_solver.
Qed.

(** ** Properties *)

(** C11. On a user build the guardrail accepts a config exactly when every probe
    before the first accessibility probe, in order through all tasks, is on the
    allow list; on any other build it accepts every config. *)
Theorem is_allowed_characterization (config : UprobestatsConfig) (user api : bool) :
  is_allowed config user api = Ok true <->
  user = false \/ guardrail_accepts api (all_probes config).
Proof.
  unfold is_allowed, all_probes. destruct user; cbn; [|naive_solver].
  rewrite check_tasks_spec. naive_solver.
Qed.

(** C2. A method is on the allow list exactly when it is one of the prefixes or
    continues one with "(", "." or "$": a class whose name merely starts with
    an allowed name is not let through. *)
Theorem method_allowed_boundary (name : string) :
  method_allowed name = true <->
  exists prefix, In prefix ALLOWED_METHOD_PREFIXES /\
    (name = prefix \/
     exists c rest, name = (prefix +:+ String c rest) /\ (c = "(" \/ c = "." \/ c = "$")%char).
Proof.
  unfold method_allowed. rewrite existsb_exists. setoid_rewrite matches_prefix_spec. done.
Qed.

(** One accessibility probe in front lets any further probes and tasks
    through on a user build, whatever method they instrument. *)
Theorem a11y_probe_disables_guardrail (probe : ProbeConfig) (probes : list ProbeConfig)
    (task : Task) (tasks : list Task) (api : bool) :
  is_a11y_probe probe -> tk_probe_configs task = probe :: probes ->
  is_allowed {| cfg_tasks := task :: tasks |} true api = Ok true.
Proof.
  intros Hp Ht. apply is_allowed_characterization. right.
  exists [], (probe :: probes ++ all_probes {| cfg_tasks := tasks |}).
  unfold all_probes. cbn. rewrite Ht. split_and!; [done|done|right; eauto].
Qed.

Lemma a11y_probe_disables_guardrail_witness :
  let a11y := mkProbeConfig (Some PROG_BINDER_A11Y_SERVICE_CONNECTION) None None None [] [] in
  let other := mkProbeConfig (Some "prog_x") None (Some "com.example.Bank") (Some "pin") [] [] in
  let t l := mkTask l [] None None None None None in
  is_allowed {| cfg_tasks := [t [a11y; other]] |} true true = Ok true /\
  is_allowed {| cfg_tasks := [t [other; a11y]] |} true true = Ok false.
Proof.
  cbn zeta. split; [|vm_compute; reflexivity].
  exact (a11y_probe_disables_guardrail
    (mkProbeConfig (Some PROG_BINDER_A11Y_SERVICE_CONNECTION) None None None [] [])
    [mkProbeConfig (Some "prog_x") None (Some "com.example.Bank") (Some "pin") [] []]
    (mkTask [mkProbeConfig (Some PROG_BINDER_A11Y_SERVICE_CONNECTION) None None None [] [];
             mkProbeConfig (Some "prog_x") None (Some "com.example.Bank") (Some "pin") [] []]
       [] None None None None None) [] true eq_refl eq_refl).
Defined.
