(* ===== verification/ConfigResolver.v ===== *)
(** * ConfigResolver: from a config proto to a task that can be executed
    ([daemon/core/config_resolver.rs], [offsets.rs], [process.rs])

    Pure validation is in [result]; resolving the process and the method
    offsets are calls of the environment.  [parse_from_bytes] of the protobuf
    library is the parameter [parse]. *)

From S2P Require Import Prelude Effects RustStd Data System Fixtures Guardrail.

Local Open Scope rust_scope.
Local Open Scope string_scope.
Local Open Scope list_scope.

(** ** [InterfaceConfig] *)

(** [&mut self]: the new value, and the result.  The map is overwritten before
    the duplicate is reported. *)
Definition insert_method (ic : InterfaceConfig) (method_id : Z) (method_config : MethodConfig) :
    InterfaceConfig * result unit :=
  let old := ic_methods ic !! method_id in
  let ic' := {| ic_methods := <[method_id := method_config]> (ic_methods ic) |} in
  match old with
  | Some _ => (ic', Err (EAnyhow "Duplicate method_id {}"))
  | None => (ic', Ok tt)
  end.

Definition get_method (ic : InterfaceConfig) (method_id : Z) : option MethodConfig :=
  ic_methods ic !! method_id.

Definition method_ids {O : HashOrder} (ic : InterfaceConfig) : list Z :=
  (map_iter (ic_methods ic)).*1.

Definition EventServiceConfig_from (c : ProtoEventServiceConfig) : EventServiceConfig :=
  {| esc_mode := match pesc_flush c with Some true => Flush | _ => Buffer end |}.

Definition AtomConfig_try_from (c : ProtoAtomConfig) : result AtomConfig :=
  match pac_atom_id c with
  | None => Err (EAnyhow "atom_config.atom_id is required")
  | Some atom_id =>
      if (atom_id <=? 0)%Z then Err (EAnyhow "atom_config.atom_id must be positive integer")
      else
        let^ atom_id := try_into U32 atom_id in
        Ok {| ac_atom_id := atom_id;
              ac_atom_field_positions :=
                map AtomFieldPosition_or_default (pac_atom_field_positions c) |}
  end.

(** [.map(f).transpose()?] on an option. *)
Definition transpose {A B} (f : A -> result B) (o : option A) : result (option B) :=
  match o with
  | None => Ok None
  | Some a => rmap Some (f a)
  end.

(** ** BPF file names *)

Definition is_bpf_file_enabled {F : Flags} (name : string) : bool :=
  if str_contains name "DisruptiveApp" then uprobestats_monitor_disruptive_app_activities
  else if str_contains name "prog_BitmapAllocation_uprobe_bitmap_creation_for_snapshot"
       || str_contains name "prog_BitmapAllocation_uprobe_apply_free_function"
  then enable_bitmap_snapshot
  else if str_contains name "BitmapAllocation"
  then enable_bitmap_instrumentation || enable_bitmap_snapshot
  else if str_contains name "Binder" then enable_binder_transaction
  else if str_contains name "prog_BitmapAllocation_uprobe_create_scaled_bitmap"
  then enable_bitmap_scaled_instrumentation
  else if str_contains name "Accessibility" then a11y_runtime_permission
  else true.

Definition BPF_DIR : string := "/sys/fs/bpf/uprobestats/".

Definition prefix_bpf (path : string) : string := BPF_DIR +:+ path.

(** ** [ExecutableMethodFileOffsets::method_identifier] *)

Definition method_identifier {T : Target} (o : ExecutableMethodFileOffsets) : outcome Z :=
  if ends_with (of_container_path o) "so" then Val (of_container_offset o)
  else add_int U64 (of_container_offset o) (of_method_offset o).

(** ** Binder transaction filters *)

Definition BINDER_BPF_PROGRAM_NAME : string := "prog_Binder_uprobe_exec_transact_internal".

(** The body of the loop over [method_configs]. *)
Definition resolve_method_config {T : Target} (ic : InterfaceConfig) (m : ProtoMethodConfig) :
    result InterfaceConfig :=
  let^ method_id := transpose (try_into c_ulong)
                      (match pmc_method_id m with
                       | Some id => if (0 <? id)%Z then Some id else None
                       | None => None
                       end) in
  let^ method_id := ok_or method_id (EAnyhow
    "binder_transaction_filter.method_config.method_id is required and must be a positive integer") in
  let^ _ := ensure (bool_decide (is_Some (pmc_event_service_config m))
                    || bool_decide (is_Some (pmc_atom_config m)))
    "either method_config.event_service_config, method_config.atom_config, or both, must be present" in
  let event_service_config := option_map EventServiceConfig_from (pmc_event_service_config m) in
  let^ atom_config := transpose AtomConfig_try_from (pmc_atom_config m) in
  let '(ic', r) := insert_method ic method_id
    {| mc_event_service_config := event_service_config; mc_atom_config := atom_config |} in
  let^ _ := r in Ok ic'.

(** The body of the loop over [binder_transaction_filters]. *)
Definition resolve_filter {T : Target} (filters : gmap string InterfaceConfig)
    (f : BinderTransactionFilter) : result (gmap string InterfaceConfig) :=
  let^ interface_name := ok_or (btf_interface_name f)
    (EAnyhow "binder_transaction_filter.interface_name is required") in
  let^ _ := ensure (negb (is_empty interface_name))
    "binder_transaction_filter.interface_name must be non-empty" in
  let^ _ := ensure (negb (bool_decide (btf_method_configs f = [])))
    "binder_transaction_filter.method_configs must be non-empty" in
  let^ interface_config :=
    rfold resolve_method_config InterfaceConfig_default (btf_method_configs f) in
  match filters !! interface_name with
  | Some _ => Err (EAnyhow "Duplicate interface_name {}")
  | None => Ok (<[interface_name := interface_config]> filters)
  end.

Definition resolve_binder_transaction_filters {T : Target} (probe : ProbeConfig)
    (bpf_name : string) : result (gmap string InterfaceConfig) :=
  if String.eqb bpf_name BINDER_BPF_PROGRAM_NAME then
    let^ _ := ensure (negb (bool_decide (pb_binder_transaction_filters probe = [])))
      "{BINDER_BPF_PROGRAM_NAME} requires at least one binder_transaction_filter" in
    rfold resolve_filter ∅ (pb_binder_transaction_filters probe)
  else
    let^ _ := ensure (bool_decide (pb_binder_transaction_filters probe = []))
      "binder_transaction_filters is only supported for {BINDER_BPF_PROGRAM_NAME} but got {bpf_name}" in
    Ok ∅.

(** ** [ConfigError] *)

Inductive ConfigError :=
| TaskValidation (task_id : Z) (e : error)
| Other (e : error).

Definition ConfigError_task_id (e : ConfigError) : option Z :=
  match e with
  | TaskValidation id _ => Some id
  | Other _ => None
  end.

(** ** Probes and tasks *)

Definition resolve_bpf_map {F : Flags} (bpf_map : string) : result string :=
  let^ _ := ensure (is_bpf_file_enabled bpf_map) "{} is disabled by flag" in
  Ok (prefix_bpf bpf_map).

(** The closure [resolve_probes] maps over the probe configs. *)
Definition resolve_probe {T : Target} {F : Flags} {S} (resolved_process : ResolvedProcess)
    (probe : ProbeConfig) : Sys S (result ResolvedProbe) :=
  let? bpf_name := mret (ok_or (pb_bpf_name probe) (EAnyhow "bpf_name is required")) in
  let? _ := mret (ensure (is_bpf_file_enabled bpf_name) "{} is disabled by flag") in
  let bpf_program_path := prefix_bpf bpf_name in
  let? binder_transaction_filters :=
    mret (resolve_binder_transaction_filters probe bpf_name) in
  let? fully_qualified_class_name :=
    mret (ok_or (pb_fully_qualified_class_name probe)
            (EAnyhow "fully_qualified_class_name is required")) in
  let? method_name :=
    mret (ok_or (pb_method_name probe) (EAnyhow "method_name is required")) in
  let method_descriptor :=
    {| md_fully_qualified_class_name := fully_qualified_class_name;
       md_method_name := method_name;
       md_fully_qualified_parameters := pb_fully_qualified_parameters probe |} in
  let? offsets :=
    ext (E := SysI) (OffsetResolver_resolve_offsets resolved_process method_descriptor) in
  let? offsets :=
    mret (ok_or offsets
            (EAnyhow "Failed to get offsets for class: {}, method: {}, params: {:?}")) in
  mret (Ok {| pr_method_descriptor := method_descriptor;
              pr_offsets := offsets;
              pr_bpf_program_path := bpf_program_path;
              pr_binder_transaction_filters := binder_transaction_filters |}).

Definition resolve_probes {T : Target} {F : Flags} {S} (probe_configs : list ProbeConfig)
    (resolved_process : ResolvedProcess) : Sys S (result (list ResolvedProbe)) :=
  collect (resolve_probe resolved_process) probe_configs.

Definition target_process_selection (task : Task) : TargetProcessSelection :=
  TargetProcessSelection_or_default (default 0%Z (tk_target_process_selection task)).

Definition resolve_single_task {T : Target} {F : Flags} {S} (task : Task) (id : Z) :
    Sys S (result ResolvedTask) :=
  let? bpf_map_paths := mret (rmapM resolve_bpf_map (tk_bpf_maps task)) in
  let? duration_seconds :=
    mret (ok_or (tk_duration_seconds task) (EAnyhow "Task duration is required")) in
  if (duration_seconds <=? 0)%Z then
    mret (Err (EAnyhow "Task duration must be greater than 0"))
  else
    let? secs := mret (try_into U64 duration_seconds) in
    let duration := from_secs secs in
    let? resolved_process :=
      ext (E := SysI) (ProcessResolver_resolve_process (tk_target_process_name task)
             (target_process_selection task) duration) in
    let? resolved_probes := resolve_probes (tk_probe_configs task) resolved_process in
    mret (Ok {| rt_id := id;
                rt_duration := duration;
                rt_resolved_process := resolved_process;
                rt_bpf_map_paths := list_to_set bpf_map_paths;
                rt_statsd_logging_config := tk_statsd_logging_config task;
                rt_resolved_probes := resolved_probes |}).

Section Resolve.
Context {T : Target} {F : Flags}.
Variable parse_from_bytes : list byte -> option UprobestatsConfig.

Definition read_config_from_bytes (config_bytes : list byte) : result UprobestatsConfig :=
  ok_or (parse_from_bytes config_bytes) (EAnyhow "Failed to parse config from bytes: {e}").

(** [Result<ResolvedTask, ConfigError>]: [inr] is [Ok]. *)
Definition resolve_config {S} (config_bytes : list byte) (is_user_build : bool) :
    Sys S (ConfigError + ResolvedTask) :=
  match read_config_from_bytes config_bytes with
  | Err e => mret (inl (Other e))
  | Ok config =>
      match cfg_tasks config with
      | [task] =>
          let id := default 0%Z (tk_task_id task) in
          match is_allowed config is_user_build true with
          | Err e => mret (inl (TaskValidation id e))
          | Ok false =>
              mret (inl (TaskValidation id
                (EAnyhow "uprobestats probing config disallowed on this device")))
          | Ok true =>
              let! r := resolve_single_task task id in
              match r with
              | Ok t => mret (inr t)
              | Err e => mret (inl (TaskValidation id e))
              end
          end
      | _ => mret (inl (Other (EAnyhow "Config must have exactly one task, got {}")))
      end
  end.

End Resolve.

(** ** Specification of the validated filters *)

Section FilterSpec.
Context {T : Target}.

(** What one proto atom config is resolved to, when it is valid. *)
Definition atom_config_resolves (p : ProtoAtomConfig) (a : AtomConfig) : Prop :=
  exists id, pac_atom_id p = Some id /\ (0 < id <= ity_max U32)%Z /\
    a = {| ac_atom_id := id;
           ac_atom_field_positions := map AtomFieldPosition_or_default (pac_atom_field_positions p) |}.

(** A method config names a positive code that fits the platform's [c_ulong]
    and asks for at least one of the two reports. *)
Definition method_resolves (p : ProtoMethodConfig) (m : Z * MethodConfig) : Prop :=
  pmc_method_id p = Some m.1 /\ (0 < m.1 <= ity_max c_ulong)%Z /\
  mc_event_service_config m.2 = option_map EventServiceConfig_from (pmc_event_service_config p) /\
  match pmc_atom_config p with
  | None => mc_atom_config m.2 = None
  | Some pa => exists a, atom_config_resolves pa a /\ mc_atom_config m.2 = Some a
  end /\
  (mc_event_service_config m.2 <> None \/ mc_atom_config m.2 <> None).

(** A filter names a non-empty interface and distinct methods. *)
Definition filter_resolves (f : BinderTransactionFilter) (i : string * InterfaceConfig) : Prop :=
  btf_interface_name f = Some i.1 /\ i.1 <> EmptyString /\ btf_method_configs f <> [] /\
  exists ms, Forall2 method_resolves (btf_method_configs f) ms /\ NoDup ms.*1 /\
    i.2 = {| ic_methods := list_to_map ms |}.

End FilterSpec.

(** ** Lemmas *)

Section FilterLemmas.
Context {T : Target}.

Lemma c_ulong_range : (0 < ity_max c_ulong)%Z /\ ity_min c_ulong = 0%Z.
Proof. unfold c_ulong. by destruct pointer_width_32. Qed.

Lemma insert_method_Ok (ic : InterfaceConfig) id mc :
  (insert_method ic id mc).2 = Ok tt <-> get_method ic id = None.
Proof. unfold insert_method, get_method. by destruct (ic_methods ic !! id). Qed.

Lemma AtomConfig_try_from_Ok (p : ProtoAtomConfig) (a : AtomConfig) :
  AtomConfig_try_from p = Ok a <-> atom_config_resolves p a.
Proof.
  unfold AtomConfig_try_from, atom_config_resolves.
  destruct (pac_atom_id p) as [id|]; [|naive_solver].
  destruct (Z.leb_spec id 0).
  - split; [done|]. intros (? & [= <-] & ? & _). lia.
  - rewrite rbind_Ok. setoid_rewrite try_into_Ok. cbn. split.
    + intros (? & [-> ?] & [= <-]). exists id. split_and!; [done|lia|lia|done].
    + intros (? & [= <-] & ? & ->). exists id. split; [|done]. split; [done|lia].
Qed.

Lemma transpose_try_into_Ok (t : ity) (o : option Z) (r : option Z) :
  transpose (try_into t) o = Ok r <->
  r = o /\ forall z, o = Some z -> (ity_min t <= z <= ity_max t)%Z.
Proof.
  destruct o as [z|]; cbn; [|naive_solver].
  destruct (try_into t z) as [y|] eqn:Hz; cbn.
  - apply try_into_Ok in Hz as [-> Hz]. naive_solver.
  - apply try_into_Err in Hz as [-> Hz]. naive_solver.
Qed.

Lemma transpose_atom_Ok (o : option ProtoAtomConfig) (r : option AtomConfig) :
  transpose AtomConfig_try_from o = Ok r <->
  match o with
  | None => r = None
  | Some p => exists a, atom_config_resolves p a /\ r = Some a
  end.
Proof.
  destruct o as [p|]; cbn; [|naive_solver].
  setoid_rewrite <- AtomConfig_try_from_Ok.
  destruct (AtomConfig_try_from p); cbn; naive_solver.
Qed.

Lemma method_id_Ok (o : option Z) (id : Z) :
  rbind (transpose (try_into c_ulong)
    (match o with Some id => if (0 <? id)%Z then Some id else None | None => None end))
    (fun i => ok_or i (EAnyhow
  "binder_transaction_filter.method_config.method_id is required and must be a positive integer"))
    = Ok id <->
  o = Some id /\ (0 < id <= ity_max c_ulong)%Z.
Proof.
  pose proof c_ulong_range as [Hmax Hmin].
  rewrite rbind_Ok. setoid_rewrite transpose_try_into_Ok. setoid_rewrite ok_or_Ok.
  destruct o as [z|].
  2: { split; [by intros (? & [-> _] & ?) | by intros [? _]]. }
  destruct (Z.ltb_spec 0 z).
  - split.
    + intros (? & [-> Hz] & [= <-]). specialize (Hz z eq_refl). split; [done|lia].
    + intros [[= ->] Hz]. exists (Some id). split; [|done]. split; [done|].
      intros ? [= <-]. lia.
  - split; [by intros (? & [-> _] & ?)|]. intros [[= ->] ?]. lia.
Qed.

Lemma resolve_method_config_Ok (m : gmap Z MethodConfig) (p : ProtoMethodConfig) s :
  resolve_method_config (mkInterfaceConfig m) p = Ok s <->
  exists kv, method_resolves p kv /\ m !! kv.1 = None /\
    s = mkInterfaceConfig (<[kv.1 := kv.2]> m).
Proof.
  unfold resolve_method_config. rewrite rbind_Ok.
  setoid_rewrite rbind_Ok. setoid_rewrite rbind_Ok. setoid_rewrite rbind_Ok.
  setoid_rewrite ensure_Ok. setoid_rewrite transpose_atom_Ok.
  pose proof (method_id_Ok (pmc_method_id p)) as Hid. setoid_rewrite rbind_Ok in Hid.
  unfold method_resolves, insert_method. cbn.
  split.
  - intros (o & Ho & id & Hi & u & Hu & a & Ha & H).
    destruct (proj1 (Hid id)) as [Hp Hr]; [eauto|].
    destruct (m !! id) eqn:Hm; cbn in H; [done|]. injection H as <-.
    exists (id, {| mc_event_service_config :=
                     option_map EventServiceConfig_from (pmc_event_service_config p);
                   mc_atom_config := a |}). cbn.
    split_and!; try (done || lia).
    apply orb_true_iff in Hu. rewrite !bool_decide_eq_true in Hu.
    destruct Hu as [[e He]|[pa Hpa]].
    + left. by rewrite He.
    + right. rewrite Hpa in Ha. naive_solver.
  - intros ([id [e a]] & (Hp & Hr & He & Ha & Hor) & Hm & ->). cbn in *.
    destruct (proj2 (Hid id)) as (o & Ho & Hi); [done|].
    exists o. split; [done|]. exists id. split; [done|]. exists tt. split.
    { apply orb_true_iff. rewrite !bool_decide_eq_true.
      destruct Hor as [Hne|Hne].
      - left. subst e. destruct (pmc_event_service_config p); [eauto|done].
      - right. destruct (pmc_atom_config p); [eauto|done]. }
    exists a. split; [done|]. subst e. by rewrite Hm.
Qed.

Lemma resolve_filter_Ok (m : gmap string InterfaceConfig) (f : BinderTransactionFilter) s :
  resolve_filter m f = Ok s <->
  exists kv, filter_resolves f kv /\ m !! kv.1 = None /\ s = <[kv.1 := kv.2]> m.
Proof.
  unfold resolve_filter, filter_resolves. rewrite rbind_Ok.
  setoid_rewrite ok_or_Ok. setoid_rewrite rbind_Ok. setoid_rewrite rbind_Ok.
  setoid_rewrite rbind_Ok. setoid_rewrite ensure_Ok.
  unfold InterfaceConfig_default.
  setoid_rewrite (rfold_insert_empty _ _ _ resolve_method_config_Ok).
  setoid_rewrite negb_true_iff.
  split.
  - intros (name & Hn & _ & He & _ & Hm & ic & (ms & HR & Hnd & ->) & H).
    apply bool_decide_eq_false in Hm.
    destruct (m !! name) eqn:Hl; [done|]. injection H as <-.
    exists (name, {| ic_methods := list_to_map ms |}). cbn.
    split_and!; try done; [by intros ->|by exists ms].
  - intros ([name ic] & (Hn & He & Hm & ms & HR & Hnd & Hic) & Hl & ->). cbn in *.
    exists name. split; [done|]. exists tt. split; [by destruct name|].
    exists tt. split; [by apply bool_decide_eq_false|]. exists ic. split.
    + by exists ms.
    + by rewrite Hl.
Qed.

End FilterLemmas.

(** ** Specification of a resolved task *)

Section TaskSpec.
Context {T : Target} {F : Flags}.

(** The process was the resolver's answer for [name], [sel] and [timeout]. *)
Definition answered_process name sel timeout (p : ResolvedProcess) (tr : list ev) : Prop :=
  (existT (ProcessResolver_resolve_process name sel timeout : call SysI)
     (Ok p : resp SysI (ProcessResolver_resolve_process name sel timeout)) : ev) ∈ tr.

Definition answered_offsets p m (o : ExecutableMethodFileOffsets) (tr : list ev) : Prop :=
  (existT (OffsetResolver_resolve_offsets p m : call SysI)
     (Ok (Some o) : resp SysI (OffsetResolver_resolve_offsets p m)) : ev) ∈ tr.

(** [r] is what the probe config [c] asks for, with the offsets the resolver
    found in [proc]. *)
Definition probe_resolves (proc : ResolvedProcess) (c : ProbeConfig) (r : ResolvedProbe)
    (tr : list ev) : Prop :=
  exists name,
    pb_bpf_name c = Some name /\ is_bpf_file_enabled name = true /\
    pr_bpf_program_path r = prefix_bpf name /\
    resolve_binder_transaction_filters c name = Ok (pr_binder_transaction_filters r) /\
    pb_fully_qualified_class_name c = Some (md_fully_qualified_class_name (pr_method_descriptor r)) /\
    pb_method_name c = Some (md_method_name (pr_method_descriptor r)) /\
    pb_fully_qualified_parameters c = md_fully_qualified_parameters (pr_method_descriptor r) /\
    answered_offsets proc (pr_method_descriptor r) (pr_offsets r) tr.

Definition probe_valid (c : ProbeConfig) : Prop :=
  exists name filters,
    pb_bpf_name c = Some name /\ is_bpf_file_enabled name = true /\
    resolve_binder_transaction_filters c name = Ok filters /\
    pb_fully_qualified_class_name c <> None /\ pb_method_name c <> None.

(** What a task must satisfy for the resolver, the environment aside. *)
Definition task_valid (t : Task) : Prop :=
  Forall (fun m => is_bpf_file_enabled m = true) (tk_bpf_maps t) /\
  (exists d, tk_duration_seconds t = Some d /\ (0 < d <= ity_max U64)%Z) /\
  Forall probe_valid (tk_probe_configs t).

(** The environment found the process, and the offsets of every method. *)
Definition resolver_ok (e : ev) : Prop :=
  match e with
  | existT (ProcessResolver_resolve_process _ _ _) (Err _) => False
  | existT (OffsetResolver_resolve_offsets _ _) (Err _) => False
  | existT (OffsetResolver_resolve_offsets _ _) (Ok None) => False
  | _ => True
  end.

Record task_resolves (task : Task) (id : Z) (t : ResolvedTask) (tr : list ev) : Prop := {
  tr_id : rt_id t = id;
  tr_duration : exists d, tk_duration_seconds task = Some d /\ (0 < d)%Z /\
    rt_duration t = from_secs d;
  tr_maps : forall path, path ∈ rt_bpf_map_paths t <->
    exists m, m ∈ tk_bpf_maps task /\ path = prefix_bpf m;
  tr_maps_enabled : Forall (fun m => is_bpf_file_enabled m = true) (tk_bpf_maps task);
  tr_logging : rt_statsd_logging_config t = tk_statsd_logging_config task;
  tr_process : answered_process (tk_target_process_name task) (target_process_selection task)
    (rt_duration t) (rt_resolved_process t) tr;
  tr_probes : Forall2 (fun c r => probe_resolves (rt_resolved_process t) c r tr)
    (tk_probe_configs task) (rt_resolved_probes t)
}.

(** *** Lemmas *)

Lemma resolve_bpf_maps_Ok (maps paths : list string) :
  rmapM resolve_bpf_map maps = Ok paths <->
  Forall (fun m => is_bpf_file_enabled m = true) maps /\ paths = map prefix_bpf maps.
Proof.
  rewrite rmapM_Ok. unfold resolve_bpf_map.
  split.
  - induction 1 as [|m p maps paths Hm _ [IH1 ->]]; [done|].
    apply rbind_Ok in Hm as ([] & He%ensure_Ok & [= <-]). by split; [constructor|].
  - intros [H ->]. induction H as [|m maps Hm _ IH]; cbn; constructor; [|done].
    by rewrite Hm.
Qed.

Lemma resolve_probe_Ok {S} (proc : ResolvedProcess) (c : ProbeConfig) (s : S) tr r s' :
  exec (resolve_probe proc c s) tr (Val (Ok r), s') -> probe_resolves proc c r tr.
Proof.
  unfold resolve_probe. intros H.
  repeat (apply exec_mtry_mret in H; case_match; [|naive_solver]).
  destruct H as (r0 & tr' & -> & H). cbn in H.
  destruct r0 as [[o|]|e]; cbn in H; destruct H as [-> [= -> ->]].
  repeat match goal with
  | H : ok_or _ _ = Ok _ |- _ => apply ok_or_Ok in H
  | H : ensure _ _ = Ok _ |- _ => apply ensure_Ok in H
  end.
  unfold probe_resolves, answered_offsets. cbn. eexists.
  split_and!; try done. apply elem_of_cons. by left.
Qed.

Lemma resolve_single_task_Ok {S} (task : Task) id (s : S) tr t s' :
  exec (resolve_single_task task id s) tr (Val (Ok t), s') -> task_resolves task id t tr.
Proof.
  unfold resolve_single_task. intros H.
  apply exec_mtry_mret in H. case_match eqn:Hmaps; [|naive_solver].
  apply exec_mtry_mret in H. case_match eqn:Hd; [|naive_solver].
  destruct (Z.leb_spec a0 0); [naive_solver|].
  apply exec_mtry_mret in H. case_match eqn:Hsecs; [|naive_solver].
  destruct H as (r0 & tr' & -> & H). cbn in H. destruct r0 as [p|e]; [|naive_solver].
  apply exec_mtry in H as [H|[(? & ? & _ & ?)|[(? & ? & _ & ?)|(? & _ & ?)]]]; [|done..].
  destruct H as (t1 & t2 & probes & s1 & -> & H1 & -> & [= -> ->]).
  apply resolve_bpf_maps_Ok in Hmaps as [Hen ->]. apply ok_or_Ok in Hd.
  apply try_into_Ok in Hsecs as [-> Hsecs].
  constructor; cbn; try done.
  - eauto.
  - intros path. rewrite elem_of_list_to_set, list_elem_of_In, in_map_iff.
    setoid_rewrite list_elem_of_In. naive_solver.
  - apply elem_of_cons. by left.
  - unfold resolve_probes in H1.
    apply (exec_collect_Ok _ _ (resolve_probe_Ok p)) in H1.
    eapply Forall2_impl; [exact H1|]. intros c r (t & Ht & name & Hp).
    exists name. intuition. unfold answered_offsets in *. apply elem_of_cons. right.
    rewrite app_nil_r. by apply Ht.
Qed.

End TaskSpec.

Section Decides.
Context {T : Target} {F : Flags}.

Lemma resolve_probe_decides {S} (proc : ResolvedProcess) (c : ProbeConfig) (s : S) tr o s' :
  exec (resolve_probe proc c s) tr (o, s') -> Forall resolver_ok tr ->
  (exists r, o = Val (Ok r) /\ probe_valid c) \/ (exists e, o = Val (Err e) /\ ~ probe_valid c).
Proof.
  unfold resolve_probe, probe_valid. intros H HG.
  apply exec_mtry_mret in H. destruct (pb_bpf_name c) as [name|]; [|naive_solver].
  cbn [ok_or] in H. apply exec_mtry_mret in H.
  destruct (is_bpf_file_enabled name) eqn:Hen; [|naive_solver congruence].
  cbn [ensure] in H. apply exec_mtry_mret in H.
  destruct (resolve_binder_transaction_filters c name) as [fs|] eqn:Hfs; [|naive_solver congruence].
  apply exec_mtry_mret in H.
  destruct (pb_fully_qualified_class_name c) eqn:Hc; [|naive_solver]. cbn [ok_or] in H.
  apply exec_mtry_mret in H.
  destruct (pb_method_name c) eqn:Hm; [|naive_solver]. cbn [ok_or] in H.
  destruct H as (r0 & tr' & -> & H). apply Forall_cons in HG as [HG _].
  destruct r0 as [[off|]|e]; cbn in H, HG; [|done..]. destruct H as [-> [= -> ->]].
  left. eexists. split; [done|]. by exists name, fs.
Qed.

Lemma resolve_single_task_decides {S} (task : Task) id (s : S) tr o s' :
  exec (resolve_single_task task id s) tr (o, s') -> Forall resolver_ok tr ->
  (exists t, o = Val (Ok t) /\ task_valid task) \/ (exists e, o = Val (Err e) /\ ~ task_valid task).
Proof.
  unfold resolve_single_task, task_valid. intros H HG.
  apply exec_mtry_mret in H. destruct (rmapM resolve_bpf_map (tk_bpf_maps task)) eqn:Hmaps.
  2: { destruct H as [-> [= -> ->]]. right. eexists. split; [done|]. intros (Hen & _).
       assert (Hok := proj2 (resolve_bpf_maps_Ok (tk_bpf_maps task) _) (conj Hen eq_refl)).
       congruence. }
  apply resolve_bpf_maps_Ok in Hmaps as [Hen ->].
  apply exec_mtry_mret in H. destruct (tk_duration_seconds task) as [d|]; cbn [ok_or] in H;
    [|naive_solver].
  destruct (Z.leb_spec d 0).
  { destruct H as [-> [= -> ->]]. right. eexists. split; [done|].
    intros (_ & (? & [= <-] & ?) & _). lia. }
  apply exec_mtry_mret in H. destruct (try_into U64 d) eqn:Hsecs.
  2: { apply try_into_Err in Hsecs as [_ Hn]. destruct H as [-> [= -> ->]]. right. eexists.
       split; [done|]. intros (_ & (? & [= <-] & ?) & _). cbn in *. lia. }
  apply try_into_Ok in Hsecs as [-> Hsecs].
  destruct H as (r0 & tr' & -> & H). apply Forall_cons in HG as [HG1 HG].
  destruct r0 as [p|e]; cbn in HG1; [|done]. cbn in H.
  assert (Hd : exists d', Some d = Some d' /\ (0 < d' <= ity_max U64)%Z) by
    (exists d; split; [done|cbn in *; lia]).
  unfold resolve_probes in H.
  apply exec_mtry in H as [H|[(e & s2 & H & [= -> ->])|[(m & s2 & H & _)|(s2 & H & _)]]].
  - destruct H as (t1 & t2 & probes & s1 & -> & H1 & -> & [= -> ->]).
    apply Forall_app in HG as [HG _].
    eapply exec_collect_iff in H1 as [(? & _ & HV)|(? & ? & _)]; eauto using resolve_probe_decides; [|done].
    left. eexists. by split.
  - eapply exec_collect_iff in H as [(? & ? & _)|(? & _ & Hn)]; eauto using resolve_probe_decides.
    + done.
    + right. eexists. split; [done|]. by intros (_ & _ & ?).
  - eapply exec_collect_iff in H as [(? & ? & _)|(? & ? & Hn)]; eauto using resolve_probe_decides; done.
  - eapply exec_collect_iff in H as [(? & ? & _)|(? & ? & Hn)]; eauto using resolve_probe_decides; done.
Qed.

End Decides.

(** ** Properties *)

Section Properties.
Context {T : Target} {F : Flags}.

(** C26. The binder filters of a probe are accepted exactly when they are valid:
    the exec-transact program needs at least one, with distinct non-empty
    interface names, each with at least one method, whose codes are distinct,
    positive and fit [c_ulong], and which each ask for an event, an atom (with
    a positive id) or both; every other program must have none.  The result
    maps each interface to its methods. *)
Theorem resolve_binder_transaction_filters_iff (probe : ProbeConfig) (bpf_name : string)
    (m : gmap string InterfaceConfig) :
  resolve_binder_transaction_filters probe bpf_name = Ok m <->
  if String.eqb bpf_name BINDER_BPF_PROGRAM_NAME then
    pb_binder_transaction_filters probe <> [] /\
    exists fs, Forall2 filter_resolves (pb_binder_transaction_filters probe) fs /\
      NoDup fs.*1 /\ m = list_to_map fs
  else pb_binder_transaction_filters probe = [] /\ m = ∅.
Proof.
  unfold resolve_binder_transaction_filters.
  destruct (String.eqb bpf_name BINDER_BPF_PROGRAM_NAME);
    rewrite rbind_Ok; setoid_rewrite ensure_Ok.
  - setoid_rewrite negb_true_iff. setoid_rewrite bool_decide_eq_false.
    setoid_rewrite (rfold_insert_empty _ id _ resolve_filter_Ok). unfold id.
    split; [naive_solver|]. intros (Hne & fs & HR & Hnd & ->). exists tt. eauto.
  - setoid_rewrite bool_decide_eq_true. split; [naive_solver|].
    intros [? ->]. by exists tt.
Qed.

(** After a successful resolution, looking up an interface and a code gives
    a method configuration exactly when some filter of that name has a method
    config that resolves to it. *)
Theorem resolved_filter_lookup (probe : ProbeConfig) (m : gmap string InterfaceConfig)
    (name : string) (code : Z) (mc : MethodConfig) :
  resolve_binder_transaction_filters probe BINDER_BPF_PROGRAM_NAME = Ok m ->
  (exists ic, m !! name = Some ic /\ get_method ic code = Some mc) <->
  (exists f p, f ∈ pb_binder_transaction_filters probe /\ btf_interface_name f = Some name /\
     p ∈ btf_method_configs f /\ method_resolves p (code, mc)).
Proof.
  unfold resolve_binder_transaction_filters. rewrite String.eqb_refl.
  intros (_ & _ & H)%rbind_Ok.
  apply (rfold_insert_empty _ id _ resolve_filter_Ok) in H as (fs & HR & Hnd & ->).
  unfold id, get_method. split.
  - intros (ic & Hic & Hmc). apply elem_of_list_to_map in Hic; [|done].
    apply list_elem_of_lookup in Hic as [i Hi].
    destruct (Forall2_lookup_r _ _ _ _ _ HR Hi) as (f & Hf & Hn & _ & _ & ms & HRm & Hndm & Hic).
    cbn in *. subst ic. cbn in Hmc. apply elem_of_list_to_map in Hmc; [|done].
    apply list_elem_of_lookup in Hmc as [j Hj].
    destruct (Forall2_lookup_r _ _ _ _ _ HRm Hj) as (p & Hp & Hres).
    exists f, p. split_and!; eauto using list_elem_of_lookup_2.
  - intros (f & p & [i Hi]%list_elem_of_lookup & Hn & [j Hj]%list_elem_of_lookup & Hres).
    destruct (Forall2_lookup_l _ _ _ _ _ HR Hi)
      as ([name' ic] & Hfs & Hn' & _ & _ & ms & HRm & Hndm & Hic). cbn in *.
    destruct (Forall2_lookup_l _ _ _ _ _ HRm Hj) as ([code' mc'] & Hms & Hres').
    simplify_eq. exists {| ic_methods := list_to_map ms |}. split.
    { apply elem_of_list_to_map; [done|]. by eapply list_elem_of_lookup_2. }
    cbn. apply elem_of_list_to_map; [done|].
    assert (code' = code /\ mc' = mc) as [-> ->]; [|by eapply list_elem_of_lookup_2].
    destruct Hres as (H1 & _ & H2 & H3 & _), Hres' as (H1' & _ & H2' & H3' & _). cbn in *.
    split; [congruence|]. destruct mc as [e a], mc' as [e' a']; cbn in *.
    f_equal; [congruence|]. destruct (pmc_atom_config p); [|congruence].
    destruct H3 as (? & (? & ? & _ & ->) & ->), H3' as (? & (? & ? & _ & ->) & ->). congruence.
Qed.

(** The task of a successful resolution. *)
Lemma resolve_config_Ok (parse : list byte -> option UprobestatsConfig) {S}
    (bytes : list byte) (user : bool) (s : S) tr t s' :
  exec (resolve_config parse bytes user s) tr (Val (inr t), s') ->
  exists task, parse bytes = Some {| cfg_tasks := [task] |} /\
    is_allowed {| cfg_tasks := [task] |} user true = Ok true /\
    task_resolves task (default 0%Z (tk_task_id task)) t tr.
Proof.
  unfold resolve_config, read_config_from_bytes.
  destruct (parse bytes) as [[tasks]|]; cbn [ok_or cfg_tasks]; [|naive_solver].
  destruct tasks as [|task [|? ?]]; [naive_solver| |naive_solver].
  destruct (is_allowed {| cfg_tasks := [task] |} user true) as [[|]|] eqn:Ha;
    [|naive_solver..].
  intros [H|[(? & ? & _ & ?)|(? & _ & ?)]]%exec_mbind; [|done..].
  destruct H as (t1 & t2 & r & s1 & -> & H1 & H2). destruct r as [t'|e]; [|naive_solver].
  destruct H2 as [-> [= -> ->]]. exists task. split; [done|]. split; [done|].
  rewrite app_nil_r. by eapply resolve_single_task_Ok.
Qed.

(** C4. A config is resolved only to a task that is what it says: exactly one
    task, allowed by the guardrail, with its id and its positive duration, all
    its maps enabled and prefixed, the process the resolver answered for its
    selection, and one resolved probe per probe config, in order. *)
Theorem resolve_config_sound (parse : list byte -> option UprobestatsConfig) {S}
    (bytes : list byte) (user : bool) (s : S) tr t s' :
  exec (resolve_config parse bytes user s) tr (Val (inr t), s') ->
  exists task, parse bytes = Some {| cfg_tasks := [task] |} /\
    is_allowed {| cfg_tasks := [task] |} user true = Ok true /\
    task_resolves task (default 0%Z (tk_task_id task)) t tr.
Proof. apply resolve_config_Ok. Qed.

(** Whatever the environment answers, a config is never resolved past the
    guardrail: if the guardrail does not accept it, resolution fails without a
    single call of the environment, so no process is looked up and no method
    offsets are requested for it. *)
Theorem resolve_config_guarded (parse : list byte -> option UprobestatsConfig) {S}
    (bytes : list byte) (user : bool) (s : S) tr o s' config :
  parse bytes = Some config -> is_allowed config user true <> Ok true ->
  exec (resolve_config parse bytes user s) tr (o, s') ->
  tr = [] /\ exists e, o = Val (inl e).
Proof.
  intros Hp Hna. unfold resolve_config, read_config_from_bytes. rewrite Hp. cbn [ok_or].
  destruct config as [tasks]. cbn [cfg_tasks].
  destruct tasks as [|task [|? ?]]; [naive_solver| |naive_solver].
  destruct (is_allowed {| cfg_tasks := [task] |} user true) as [[|]|];
    [by destruct Hna|naive_solver..].
Qed.

(** C17. When the process is found and every method has offsets, resolution
    accepts exactly the valid configs: one task, let through by the guardrail,
    whose maps and programs are enabled, with a positive duration and complete
    probes.  It never panics. *)
Theorem resolve_config_decides (parse : list byte -> option UprobestatsConfig) {S}
    (bytes : list byte) (user : bool) (s : S) tr o s' :
  exec (resolve_config parse bytes user s) tr (o, s') -> Forall resolver_ok tr ->
  let valid := exists task, parse bytes = Some {| cfg_tasks := [task] |} /\
    is_allowed {| cfg_tasks := [task] |} user true = Ok true /\ task_valid task in
  (exists t, o = Val (inr t) /\ valid) \/ (exists e, o = Val (inl e) /\ ~ valid).
Proof.
  cbn zeta. unfold resolve_config, read_config_from_bytes. intros H HG.
  destruct (parse bytes) as [[tasks]|]; cbn [ok_or cfg_tasks] in H; [|naive_solver].
  destruct tasks as [|task [|? ?]]; [naive_solver| |naive_solver].
  destruct (is_allowed {| cfg_tasks := [task] |} user true) as [[|]|] eqn:Ha;
    [|naive_solver congruence..].
  apply exec_mbind in H as [H|[(m & s2 & H & [= -> ->])|(s2 & H & [= -> ->])]].
  - destruct H as (t1 & t2 & r & s1 & -> & H1 & H2). apply Forall_app in HG as [HG _].
    apply resolve_single_task_decides in H1 as [(t & [= ->] & Hv)|(e & [= ->] & Hn)]; [| |done];
      destruct H2 as [-> [= -> ->]].
    + left. exists t. split; [done|]. by exists task.
    + right. eexists. split; [done|]. by intros (task' & [= <-] & _ & ?).
  - apply resolve_single_task_decides in H as [(? & ? & _)|(? & ? & _)]; done.
  - apply resolve_single_task_decides in H as [(? & ? & _)|(? & ? & _)]; done.
Qed.

(** A config error carries the task id exactly when the bytes parsed to a
    config with a single task: every later failure is attributed to it. *)
Theorem config_error_task_id (parse : list byte -> option UprobestatsConfig) {S}
    (bytes : list byte) (user : bool) (s : S) tr e s' :
  exec (resolve_config parse bytes user s) tr (Val (inl e), s') ->
  ConfigError_task_id e =
    match parse bytes with
    | Some {| cfg_tasks := [task] |} => Some (default 0%Z (tk_task_id task))
    | _ => None
    end.
Proof.
  unfold resolve_config, read_config_from_bytes.
  destruct (parse bytes) as [[tasks]|]; cbn [ok_or cfg_tasks]; [|naive_solver].
  destruct tasks as [|task [|? ?]]; [naive_solver| |naive_solver].
  destruct (is_allowed {| cfg_tasks := [task] |} user true) as [[|]|];
    [|naive_solver..].
  intros [H|[(? & ? & _ & ?)|(? & _ & ?)]]%exec_mbind; [|done..].
  destruct H as (t1 & t2 & r & s1 & _ & _ & H2).
  destruct r as [t'|e']; destruct H2 as [_ [= -> ->]]. done.
Qed.

(** The method identifier of compiled code is the container offset for a
    stub in a shared object and otherwise the sum of both offsets; the sum of
    two [u64] that does not fit panics where overflow is checked, and wraps
    modulo 2^64 where it is not. *)
Theorem method_identifier_spec (path : string) (c m : Z) :
  wf_u64 c -> wf_u64 m ->
  method_identifier (mkExecutableMethodFileOffsets path c m) =
  if ends_with path "so" then Val c
  else if (c + m <=? ity_max U64)%Z then Val (c + m)%Z
  else if overflow_checks then Panics "attempt to add with overflow"
  else Val (c + m - 18446744073709551616)%Z.
Proof.
  intros Hc Hm. unfold method_identifier, add_int, checked, in_ity. cbn [of_container_path
    of_container_offset of_method_offset]. destruct (ends_with path "so"); [done|].
  unfold wf_u64 in *. rewrite (proj2 (Z.leb_le (ity_min U64) (c + m)%Z)) by (cbn; lia).
  cbn [andb]. destruct (Z.leb_spec (c + m) (ity_max U64)); [done|].
  destruct overflow_checks; [done|]. f_equal. unfold as_ity. cbn in *.
  rewrite Z.add_0_r, Z.sub_0_r. symmetry. apply Z.mod_unique_pos with 1%Z; lia.
Qed.

End Properties.

(** Resolving a config never panics. *)
Lemma resolve_config_returns {T : Target} {F : Flags}
    (parse : list byte -> option UprobestatsConfig) {S} bytes user :
  returns (E := SysI) (S := S) (resolve_config parse bytes user).
Proof.
  unfold resolve_config, resolve_single_task, resolve_probes, resolve_probe.
  returns_run.
Qed.

(** The flags with [enable_bitmap_scaled_instrumentation] replaced. *)
Definition with_bitmap_scaled (F : Flags) (b : bool) : Flags :=
  {| uprobestats_monitor_disruptive_app_activities :=
       @uprobestats_monitor_disruptive_app_activities F;
     enable_bitmap_snapshot := @enable_bitmap_snapshot F;
     enable_bitmap_instrumentation := @enable_bitmap_instrumentation F;
     enable_binder_transaction := @enable_binder_transaction F;
     enable_bitmap_scaled_instrumentation := b;
     a11y_runtime_permission := @a11y_runtime_permission F;
     use_process_observer_api := @use_process_observer_api F;
     feature_art_test := @feature_art_test F |}.

(** The flag [enable_bitmap_scaled_instrumentation] has no effect: the
    name it guards contains "BitmapAllocation", which an earlier branch takes. *)
Theorem bitmap_scaled_flag_is_dead (F : Flags) (b : bool) (name : string) :
  @is_bpf_file_enabled (with_bitmap_scaled F b) name = @is_bpf_file_enabled F name.
Proof.
  unfold is_bpf_file_enabled. cbn.
  destruct (str_contains name "DisruptiveApp"); [done|].
  destruct (_ || _); [done|].
  destruct (str_contains name "BitmapAllocation") eqn:Hb; [done|].
  destruct (str_contains name "Binder"); [done|].
  destruct (str_contains name "prog_BitmapAllocation_uprobe_create_scaled_bitmap") eqn:Hs;
    [|done].
  by rewrite (str_contains_trans name _ "BitmapAllocation" Hs) in Hb.
Qed.

(** ** Witnesses *)

Definition sample_filter : BinderTransactionFilter :=
  {| btf_interface_name := Some "test.interface";
     btf_method_configs :=
       [ mkProtoMethodConfig (Some 1%Z) (Some (mkProtoEventServiceConfig (Some true))) None;
         mkProtoMethodConfig (Some 2%Z) None (Some (mkProtoAtomConfig (Some 100%Z) [1; 3; 9]%Z)) ] |}.

Definition sample_probe : ProbeConfig :=
  mkProbeConfig (Some BINDER_BPF_PROGRAM_NAME) None (Some "com.android.server.am.OomAdjuster")
    (Some "setUid") ["int"] [sample_filter].

Definition sample_task : Task :=
  mkTask [sample_probe] ["map_Binder_output_buf"] (Some "system_server") (Some 10%Z) None None
    (Some 42%Z).

Definition sample_parse (b : list byte) : option UprobestatsConfig :=
  match b with
  | [] => Some {| cfg_tasks := [sample_task] |}
  | _ => None
  end.

Definition sample_method_2 : MethodConfig :=
  mkMethodConfig None (Some (mkAtomConfig 100 [AFP_CALLING_UID; AFP_CODE; AFP_UNKNOWN])).

Lemma resolved_filter_lookup_witness :
  let m := <["test.interface" := mkInterfaceConfig (<[2%Z := sample_method_2]>
             (<[1%Z := mkMethodConfig (Some (mkEventServiceConfig Flush)) None]> ∅))]> ∅ in
  @resolve_binder_transaction_filters target64 sample_probe BINDER_BPF_PROGRAM_NAME = Ok m /\
  exists f p, f ∈ pb_binder_transaction_filters sample_probe /\
    btf_interface_name f = Some "test.interface" /\ p ∈ btf_method_configs f /\
    @method_resolves target64 p (2%Z, sample_method_2).
Proof.
  cbn zeta. split; [vm_compute; reflexivity|].
  eapply (@resolved_filter_lookup target64 sample_probe _ "test.interface" 2%Z sample_method_2);
    [vm_compute; reflexivity|].
  eexists. split; vm_compute; reflexivity.
Defined.

Lemma resolve_config_sound_witness :
  exists tr t s',
    exec (@resolve_config target64 all_flags sample_parse unit [] false tt) tr (Val (inr t), s') /\
    exists task, sample_parse [] = Some {| cfg_tasks := [task] |} /\
      is_allowed {| cfg_tasks := [task] |} false true = Ok true /\
      @task_resolves target64 all_flags task (default 0%Z (tk_task_id task)) t tr.
Proof.
  assert (exists tr t s',
    exec (@resolve_config target64 all_flags sample_parse unit [] false tt) tr (Val (inr t), s'))
    as (tr & t & s' & H).
  { do 3 eexists. run_in benign_env. }
  exists tr, t, s'. split; [exact H|].
  exact (@resolve_config_sound target64 all_flags sample_parse unit [] false tt tr t s' H).
Defined.

Definition denied_config : UprobestatsConfig :=
  {| cfg_tasks := [mkTask
       [mkProbeConfig (Some "prog_x") None (Some "com.example.Bank") (Some "pin") [] []]
       [] None (Some 5%Z) None None (Some 9%Z)] |}.

Lemma resolve_config_guarded_witness :
  exists o,
    exec (@resolve_config target64 all_flags (fun _ => Some denied_config) unit [] true tt) []
      (o, tt) /\ exists e, o = Val (inl e).
Proof.
  eexists. split; [run_in benign_env|].
  eapply (@resolve_config_guarded target64 all_flags (fun _ => Some denied_config) unit [] true
    tt [] _ tt denied_config).
  - reflexivity.
  - vm_compute. discriminate.
  - run_in benign_env.
Defined.

Lemma resolve_config_decides_witness :
  exists tr o, exec (@resolve_config target64 all_flags sample_parse unit [] true tt) tr (o, tt) /\
    exists t, o = Val (inr t).
Proof.
  assert (exists tr o,
    exec (@resolve_config target64 all_flags sample_parse unit [] true tt) tr (o, tt) /\
    Forall (@resolver_ok) tr /\ exists t, o = Val (inr t)) as (tr & o & H & HG & Ho).
  { do 2 eexists. split; [run_in benign_env|]. split; [|eexists; vm_compute; reflexivity].
    repeat constructor. }
  exists tr, o. split; [exact H|].
  destruct (@resolve_config_decides target64 all_flags sample_parse unit [] true tt tr o tt H HG)
    as [(t & Ht & _)|(e & He & _)]; [by exists t|].
  destruct Ho as [t Ho]. rewrite Ho in He. discriminate.
Defined.

Lemma config_error_task_id_witness :
  exists e,
    exec (@resolve_config target64 all_flags (fun _ => Some denied_config) unit [] true tt) []
      (Val (inl e), tt) /\ ConfigError_task_id e = Some 9%Z.
Proof.
  eexists. split; [run_in benign_env|].
  eapply (@config_error_task_id target64 all_flags (fun _ => Some denied_config) unit [] true
    tt [] _ tt).
  run_in benign_env.
Defined.

Lemma method_identifier_spec_witness :
  @method_identifier target64 (mkExecutableMethodFileOffsets "/a/boot.oat" 1000 24) = Val 1024%Z.
Proof.
  exact (@method_identifier_spec target64 "/a/boot.oat" 1000 24
    ltac:(split; discriminate) ltac:(split; discriminate)).
Defined.
