(* ===== verification/Handler.v ===== *)
(** * Handler: the interface of a ring-buffer handler ([daemon/core/bpf_handler.rs])

    [on_item] and [on_finished] are methods of the handler's own state; the
    writer and the bridge service a handler owns are calls of [SysI]. *)

From S2P Require Import Prelude Effects RustStd Data System.

Local Open Scope rust_scope.
Local Open Scope string_scope.
Local Open Scope list_scope.

(** [unsafe trait Handler], with the [Default] its users require. *)
Class Handler (H : Type) := {
  MAP_PATH : string;
  PROG_PATH : option string;
  T : StructTy;
  on_item : ResolvedTask -> struct_of T -> Sys H (result unit);
  on_finished : Sys H (result unit);
  handler_default : H
}.
Arguments MAP_PATH H {_}.
Arguments PROG_PATH H {_}.
Arguments T H {_}.
Arguments handler_default H {_}.

(** The trait's default [on_finished]. *)
Definition default_on_finished {H} : Sys H (result unit) := mret (Ok tt).

(** [self.method()] where the callee returns a plain [Result] computed without
    effects. *)
Definition pure {S A} (r : result A) : Sys S (result A) := mret r.

(** [x.try_into().unwrap()]. *)
Definition unwrap {A} (r : result A) : outcome A :=
  match r with
  | Ok a => Val a
  | Err _ => Panics "called `Result::unwrap()` on an `Err` value"
  end.

Definition string_entry (k v : string) : Entry :=
  {| entry_key := k; entry_value := StringValue v |}.

Definition int_entry (k : string) (v : Z) : Entry :=
  {| entry_key := k; entry_value := IntValue v |}.

(** [task.statsd_logging_config] as the handlers read it: no config, or its
    atom id, which is then required. *)
Definition logging_atom_id (c : StatsdLoggingConfig) : result Z :=
  ok_or (slc_atom_id c) (EAnyhow "atom_id required if statsd_logging_config provided").

(** ** What a handler promises to the poll loop *)

(** The calls a handler may make: its writer, the bridge service, the build
    type, the wall clock, randomness and the log level. *)
Definition handler_call (c : SysCall) : bool :=
  match c with
  | AtomWriter_write_unstructured _ | AtomWriter_write_codegen _
  | BridgeService_get | BS_getUidForPackage _ | BS_packageHasEnabledAccessibilityService _
  | BS_isLauncherActivity _ _ _ | BS_enqueueEvent _ _
  | DeviceProperties_is_user_build | SystemTime_now_millis | Rng_gen_i64 | Log_debug_enabled => true
  | _ => false
  end.

(** A writer of atoms refused one with this error. *)
Definition writer_refused (tr : list ev) (e : error) : Prop :=
  (exists a, (existT (AtomWriter_write_unstructured a) (Err e) : ev) ∈ tr) \/
  (exists a, (existT (AtomWriter_write_codegen a) (Err e) : ev) ∈ tr).

(** What a program can fail with when it only writes atoms and converts numbers. *)
Definition writing_error (tr : list ev) (e : error) : Prop := e = ETryFromInt \/ writer_refused tr e.

(** Handlers make no other call, so they neither report internal errors nor
    touch BPF objects, and they always come to an outcome; finishing fails only on
    a number that does not fit, or because the writer refused an atom. *)
Class HandlerLaws (H : Type) `{Handler H} := {
  on_item_calls : forall task data, calls_only (E := SysI) handler_call (on_item task data);
  on_finished_calls : calls_only (E := SysI) handler_call (on_finished : Sys H (result unit));
  on_finished_errors s tr e s' : exec (on_finished s) tr (Val (Err e), s') -> writing_error tr e
}.

Lemma writing_error_mid t1 t2 t3 e : writing_error t2 e -> writing_error (t1 ++ t2 ++ t3) e.
Proof.
  intros [->|[[a Ha]|[a Ha]]]; [by left|right..]; [left|right]; exists a;
    rewrite !elem_of_app; auto.
Qed.

(** Programs that fail in no other way. *)
Definition writes {S A} (m : Sys S (result A)) : Prop :=
  forall s tr e s', exec (m s) tr (Val (Err e), s') -> writing_error tr e.

Lemma writes_mret {S A} (r : result A) :
  (forall e, r = Err e -> e = ETryFromInt) -> writes (mret r : Sys S _).
Proof. intros Hr s tr e s' [-> Hx]. injection Hx as Hx _. left. by apply Hr. Qed.

Lemma writes_mbind {S A B} (m : Sys S A) (k : A -> Sys S (result B)) :
  (forall a, writes (k a)) -> writes (mbind m k).
Proof.
  intros Hk s tr e s' [H|[(msg & s1 & H & [=])|(s1 & H & [=])]]%exec_mbind.
  destruct H as (t1 & t2 & a & s1 & -> & _ & H%Hk).
  apply (writing_error_mid t1 t2 []) in H. by rewrite app_nil_r in H.
Qed.

Lemma writes_mtry {S A B} (m : Sys S (result A)) (k : A -> Sys S (result B)) :
  writes m -> (forall a, writes (k a)) -> writes (mtry m k).
Proof.
  intros Hm Hk s tr e s' [H|[(e' & s1 & H & [= -> ->])|[(msg & s1 & H & [=])|(s1 & H & [=])]]]%exec_mtry.
  - destruct H as (t1 & t2 & a & s1 & -> & _ & H%Hk).
    apply (writing_error_mid t1 t2 []) in H. by rewrite app_nil_r in H.
  - by apply Hm in H.
Qed.

Lemma writes_for_each {S A} (l : list A) (body : A -> Sys S (result unit)) :
  (forall a, writes (body a)) -> writes (for_each l body).
Proof.
  intros Hb. induction l as [|a l IH]; cbn; [by apply writes_mret|]. by apply writes_mtry.
Qed.

Lemma writes_write {S} a : writes (ext (E := SysI) (AtomWriter_write_unstructured a) : Sys S _).
Proof. intros s tr e s' (r & t & -> & -> & [= <- ->]). right. left. exists a. by left. Qed.

Lemma writes_write_codegen {S} a : writes (ext (E := SysI) (AtomWriter_write_codegen a) : Sys S _).
Proof. intros s tr e s' (r & t & -> & -> & [= <- ->]). right. right. exists a. by left. Qed.

Lemma default_on_finished_errors {S} : writes (default_on_finished : Sys S (result unit)).
Proof. by apply writes_mret. Qed.

(** ** Automation: expose the calls behind the wrappers before symbolic execution *)

Ltac sys_unfold_in H :=
  unfold pure, write, write_codegen, bridge_service_get, getUidForPackage,
    packageHasEnabledAccessibilityService, isLauncherActivity, enqueueEvent, is_user_build,
    log_debug_enabled, get_current_timestamp_millis, default_on_finished in H.

Ltac sys_unfold :=
  unfold pure, write, write_codegen, bridge_service_get, getUidForPackage,
    packageHasEnabledAccessibilityService, isLauncherActivity, enqueueEvent, is_user_build,
    log_debug_enabled, get_current_timestamp_millis, default_on_finished.

(** Evaluate the projections of a trace that ends in the branch at hand. *)
Ltac trace_cbn :=
  cbn [atoms codegen_atoms enqueued internal_errors omap list_omap atom_of codegen_of enqueued_of
       internal_error_of app fst snd].

(** ** Lemmas *)

(** Writing a list of atoms: on success exactly these were written, in order;
    an error comes from an atom that cannot be built or from the writer, and the
    atoms of the elements before it were written. *)
Lemma exec_for_each_write {S A} (f : A -> result UnstructuredAtom) (l : list A) (s : S) tr o s' :
  exec (for_each l (fun a => mtry (mret (f a)) (fun x => write x)) s) tr (o, s') ->
  s' = s /\ exists l1 l2 xs, l = l1 ++ l2 /\ rmapM f l1 = Ok xs /\ atoms tr = xs /\
    ((o = Val (Ok tt) /\ l2 = []) \/
     exists e a l3, o = Val (Err e) /\ l2 = a :: l3 /\
       (f a = Err e \/ exists x, (existT (AtomWriter_write_unstructured x) (Err e) : ev) ∈ tr)).
Proof.
  revert tr o. induction l as [|a l IH]; intros tr o H; cbn [for_each] in H.
  - destruct H as [-> [= -> ->]]. split; [done|]. exists [], [], []. naive_solver.
  - assert (Hw : forall t x s1, exec (mtry (mret (f a)) (fun x => write x) s) t (x, s1) ->
      s1 = s /\ ((exists e, x = Val (Err e) /\ atoms t = [] /\ (f a = Err e \/
          exists y, (existT (AtomWriter_write_unstructured y) (Err e) : ev) ∈ t)) \/
        exists y, x = Val (Ok tt) /\ f a = Ok y /\ atoms t = [y])).
    { intros t x s1 Hx. rewrite exec_mtry_mret in Hx. destruct (f a) as [y|e].
      - destruct Hx as (r & t' & -> & -> & [= -> ->]). split; [done|].
        destruct r as [[]|e]; [naive_solver|]. left. exists e. split_and!; [done..|].
        right. exists y. set_solver.
      - destruct Hx as [-> [= -> ->]]. naive_solver. }
    apply exec_mtry in H as [H|[(e & s1 & H & [= -> ->])|[(m & s1 & H & _)|(s1 & H & _)]]].
    + destruct H as (t1 & t2 & [] & s1 & -> & [-> [(? & [=] & _)|(y & _ & Hy & Ht1)]]%Hw & H2).
      apply IH in H2 as (-> & l1 & l2 & xs & -> & Hxs & Hat & Ho). split; [done|].
      exists (a :: l1), l2, (y :: xs). cbn. rewrite Hy. cbn. rewrite Hxs.
      split_and!; [done|done|by rewrite atoms_app, Ht1, Hat|].
      destruct Ho as [|(e & b & l3 & -> & -> & Ho)]; [naive_solver|]. right.
      exists e, b, l3. split_and!; [done|done|]. destruct Ho as [?|[x Hx]]; [by left|].
      right. exists x. set_solver.
    + apply Hw in H as [-> [(e' & [= <-] & Ht & Ho)|(? & [=] & _)]]. split; [done|].
      exists [], (a :: l), []. split_and!; [done..|]. right. eauto 10.
    + by apply Hw in H as [_ [(? & [=] & _)|(? & [=] & _)]].
    + by apply Hw in H as [_ [(? & [=] & _)|(? & [=] & _)]].
Qed.

(** The same for codegen atoms, which are built without failing. *)
Lemma exec_for_each_write_codegen {S A} (f : A -> CodegenAtom) (l : list A) (s : S) tr o s' :
  exec (for_each l (fun a => write_codegen (f a)) s) tr (o, s') ->
  s' = s /\ ((o = Val (Ok tt) /\ codegen_atoms tr = map f l) \/
             exists e n, o = Val (Err e) /\ codegen_atoms tr = map f (take n l)).
Proof.
  revert tr o. induction l as [|a l IH]; intros tr o H; cbn [for_each] in H.
  - destruct H as [-> [= -> ->]]. naive_solver.
  - apply exec_mtry in H as [H|[(e & s1 & H & [= -> ->])|[(m & s1 & H & _)|(s1 & H & _)]]].
    + destruct H as (t1 & t2 & [] & s1 & -> & (r & t & -> & -> & [= <- ->]) & H2).
      apply IH in H2 as [-> [[-> Ht]|(e & n & -> & Ht)]]; (split; [done|]).
      * left. split; [done|]. rewrite codegen_atoms_app, Ht. done.
      * right. exists e, (Datatypes.S n). split; [done|]. rewrite codegen_atoms_app, Ht. done.
    + destruct H as (r & t & -> & -> & [= <- ->]). split; [done|]. right. by exists e, 1.
    + by destruct H as (r & t & -> & -> & [=]).
    + by destruct H as (r & t & -> & -> & [=]).
Qed.
