(* ===== verification/Accessibility.v ===== *)
(** * Accessibility: runtime permission grants and the accessibility calls that
    preceded them ([daemon/core/bpf_handler/accessibility.rs])

    The handler's state is the map from uid to the events recorded for it, in
    arrival order. *)

From S2P Require Import Prelude Effects RustStd Data System Fixtures Handler.

Local Open Scope rust_scope.
Local Open Scope string_scope.
Local Open Scope list_scope.

Definition A11Y_EVENT_WINDOW : Z := from_secs 10.
Definition ATOM_ID_ACCESSIBILITY_RUNTIME_PERMISSION_GRANT : Z := 1217.

Inductive EventType :=
| RuntimePermissionGrant (permission_name : string)
| A11y (code : Z).

Record Event := mkEvent {
  e_uid : Z;
  e_timestamp : Z;
  e_variant : EventType
}.

(** [Event::new]: the timestamp is in nanoseconds. *)
Definition Event_new (uid timestamp_ns : Z) (variant : EventType) : Event :=
  {| e_uid := uid; e_timestamp := timestamp_ns; e_variant := variant |}.

(** [impl From<Event> for uprobestats::Event::Event]. *)
Definition Event_into (event : Event) : outcome BridgeEvent :=
  obind (unwrap (try_into I64 (as_millis (e_timestamp event)))) (fun ms =>
  Val {| ev_uid := e_uid event;
         ev_timestampMs := ms;
         ev_payloadId := payload_id
           (match e_variant event with
            | A11y _ => PBinderTransaction
            | RuntimePermissionGrant _ => PRuntimePermissionGrant
            end);
         ev_payload :=
           match e_variant event with
           | A11y code =>
               [int_entry "CODE" code;
                string_entry "INTERFACE_NAME"
                  "android.accessibilityservice.IAccessibilityServiceConnection"]
           | RuntimePermissionGrant permission_name =>
               [string_entry "PERMISSION_NAME" permission_name]
           end |}).

Record AccessibilityRuntimePermissionGrant := mkGrant {
  g_uid : Z;
  g_timestamp : Z;
  g_permission_name : string;
  g_preceding_a11y_calls : list (Z * Z)
}.

Definition Grant_new (uid timestamp : Z) (permission_name : string) :
    AccessibilityRuntimePermissionGrant :=
  {| g_uid := uid; g_timestamp := timestamp; g_permission_name := permission_name;
     g_preceding_a11y_calls := [] |}.

Definition push_call (g : AccessibilityRuntimePermissionGrant) (call : Z * Z) :
    AccessibilityRuntimePermissionGrant :=
  {| g_uid := g_uid g; g_timestamp := g_timestamp g; g_permission_name := g_permission_name g;
     g_preceding_a11y_calls := g_preceding_a11y_calls g ++ [call] |}.

(** The test of the third arm of [associate_events]. *)
Definition in_window (grant_timestamp timestamp : Z) : bool :=
  (duration_saturating_sub grant_timestamp timestamp <? A11Y_EVENT_WINDOW)%Z.

(** The loop of [associate_events]: the grants pushed so far and the grant the
    next calls belong to. *)
Definition associate_step
    (st : list AccessibilityRuntimePermissionGrant * option AccessibilityRuntimePermissionGrant)
    (event : Event) :=
  let '(grants, grant) := st in
  match grant, e_variant event with
  | None, A11y _ => (grants, grant)
  | _, RuntimePermissionGrant permission_name =>
      (grants ++ option_list grant,
       Some (Grant_new (e_uid event) (e_timestamp event) permission_name))
  | Some g, A11y code =>
      if in_window (g_timestamp g) (e_timestamp event)
      then (grants, Some (push_call g (code, e_timestamp event)))
      else (grants, grant)
  end.

Definition associate_events (events : list Event) : list AccessibilityRuntimePermissionGrant :=
  let '(grants, grant) := fold_left associate_step events ([], None) in
  grants ++ option_list grant.

Record AccessibilityHandler := mkAccessibilityHandler { ah_events : gmap Z (list Event) }.

Definition handle_permission_grant_event (data : AccessibilityEvent) (timestamp_ns : Z) :
    Sys AccessibilityHandler (result (option Event)) :=
  let? package_name := pure (bytes_as_nonempty_str (ae_package_name data)) in
  let? permission_name := pure (bytes_as_nonempty_str (ae_permission_name data)) in
  if negb (starts_with permission_name "android.permission") then mret (Ok None)
  else
    let? _ := bridge_service_get in
    let? has_enabled_a11y_service := packageHasEnabledAccessibilityService package_name in
    if negb has_enabled_a11y_service then mret (Ok None)
    else
      let? uid := getUidForPackage package_name in
      let event := Event_new uid timestamp_ns (RuntimePermissionGrant permission_name) in
      let! bridge_event := lift_outcome (Event_into event) in
      let? _ := enqueueEvent bridge_event false in
      mret (Ok (Some event)).

Definition handle_a11y_event (data : AccessibilityEvent) (timestamp_ns : Z) :
    Sys AccessibilityHandler (result (option Event)) :=
  let uid := ae_uid data in
  let code := ae_code data in
  let event := Event_new uid timestamp_ns (A11y code) in
  let? _ := bridge_service_get in
  let! bridge_event := lift_outcome (Event_into event) in
  let? _ := enqueueEvent bridge_event false in
  mret (Ok (Some (Event_new uid timestamp_ns (A11y code)))).

(** [events.entry(event.uid).or_default().push(event)]. *)
Definition record_event (h : AccessibilityHandler) (event : Event) : AccessibilityHandler :=
  {| ah_events :=
       <[e_uid event := default [] (ah_events h !! e_uid event) ++ [event]]> (ah_events h) |}.

Definition AccessibilityHandler_on_item (task : ResolvedTask) (data : AccessibilityEvent) :
    Sys AccessibilityHandler (result unit) :=
  if (ae_error_code data <? 0)%Z then mret (Err (EAnyhow "Accessibility BPF error: {}"))
  else
    let timestamp_ns := ae_timestamp_ns data in
    let handle :=
      if (ae_variant data =? 1)%Z then handle_permission_grant_event data timestamp_ns
      else if (ae_variant data =? 2)%Z then handle_a11y_event data timestamp_ns
      else mret (Err (EAnyhow "Invalid variant: {variant}")) in
    let? event := handle in
    match event with
    | None => mret (Ok tt)
    | Some event =>
        let! h := get_state in
        let! _ := put_state (record_event h event) in
        mret (Ok tt)
    end.

(** [events.sort_by(|a, b| b.timestamp.cmp(&a.timestamp))]. *)
Definition desc (a b : Event) : bool := (e_timestamp b <=? e_timestamp a)%Z.
Definition sort_events : list Event -> list Event := stable_sort desc.

(** The atom [on_finished] builds for one grant. *)
Definition grant_atom (g : AccessibilityRuntimePermissionGrant) : result UnstructuredAtom :=
  let^ ms := try_into I64 (as_millis (g_timestamp g)) in
  let^ call_times :=
    rmapM (fun '(_, t) => try_into I64 (as_millis t)) (g_preceding_a11y_calls g) in
  Ok {| atom_id := ATOM_ID_ACCESSIBILITY_RUNTIME_PERMISSION_GRANT;
        atom_fields :=
          [Field_new_with_annotation (VInt32 (g_uid g)) (IsUid true);
           Field_new (VString (g_permission_name g));
           Field_new (VInt64 ms);
           Field_new (VInt32Vec (g_preceding_a11y_calls g).*1);
           Field_new (VInt64Vec call_times)] |}.

(** The first loop of [on_finished]: every list is sorted in place, and its
    grants collected in the order the map is walked. *)
Definition sort_all (h : AccessibilityHandler) : AccessibilityHandler :=
  {| ah_events := sort_events <$> ah_events h |}.

Definition all_grants {O : HashOrder} (h : AccessibilityHandler) :
    list AccessibilityRuntimePermissionGrant :=
  flat_map (fun '(_, events) => associate_events (sort_events events)) (map_iter (ah_events h)).

Definition AccessibilityHandler_on_finished {O : HashOrder} :
    Sys AccessibilityHandler (result unit) :=
  let! h := get_state in
  let grants := all_grants h in
  let! _ := put_state (sort_all h) in
  for_each grants (fun g => let? atom := mret (grant_atom g) in write atom).

#[export] Instance AccessibilityHandler_Handler {O : HashOrder} : Handler AccessibilityHandler := {
  MAP_PATH := "/sys/fs/bpf/uprobestats/map_Accessibility_output_buf";
  PROG_PATH := None;
  T := TyAccessibilityEvent;
  on_item := AccessibilityHandler_on_item;
  on_finished := AccessibilityHandler_on_finished;
  handler_default := {| ah_events := ∅ |}
}.

Lemma Event_into_fuel (e : Event) : Event_into e <> NoFuel.
Proof. unfold Event_into, unwrap. by destruct (try_into _ _). Qed.

Lemma grant_atom_error (g : AccessibilityRuntimePermissionGrant) e :
  grant_atom g = Err e -> e = ETryFromInt.
Proof.
  unfold grant_atom. destruct (try_into I64 (as_millis (g_timestamp g))) as [ms|x] eqn:Hms; cbn.
  2: { apply try_into_Err in Hms as [-> _]. congruence. }
  destruct (rmapM _ _) as [times|x] eqn:Ht; cbn; [done|]. intros [= ->].
  apply rmapM_Err in Ht as (l1 & [c t] & l2 & _ & _ & Ht). by apply try_into_Err in Ht as [-> _].
Qed.

Lemma AccessibilityHandler_on_finished_errors {O : HashOrder} : writes AccessibilityHandler_on_finished.
Proof.
  unfold AccessibilityHandler_on_finished. apply writes_mbind. intros h. apply writes_mbind. intros [].
  apply writes_for_each. intros g. apply writes_mtry; [|apply writes_write].
  apply writes_mret. intros e. apply grant_atom_error.
Qed.

#[export] Instance AccessibilityHandler_Laws {O : HashOrder} : HandlerLaws AccessibilityHandler.
Proof.
  split; cbn [on_item on_finished AccessibilityHandler_Handler].
  - intros task data. unfold AccessibilityHandler_on_item, handle_permission_grant_event,
      handle_a11y_event. sys_unfold. cbn zeta. calls_only_run; apply Event_into_fuel.
  - unfold AccessibilityHandler_on_finished. sys_unfold. calls_only_run.
  - exact AccessibilityHandler_on_finished_errors.
Qed.

(** ** Specification *)

Definition is_call (e : Event) : bool :=
  match e_variant e with A11y _ => true | _ => false end.

(** What the events [rest] before a grant (most recent first) say about it: the
    calls up to the previous grant that fall in the window. *)
Fixpoint preceding (grant_timestamp : Z) (rest : list Event) : list (Z * Z) :=
  match rest with
  | [] => []
  | e :: rest' =>
      match e_variant e with
      | RuntimePermissionGrant _ => []
      | A11y code =>
          (if in_window grant_timestamp (e_timestamp e) then [(code, e_timestamp e)] else [])
            ++ preceding grant_timestamp rest'
      end
  end.

(** One report per grant, newest first. *)
Fixpoint associate_spec (events : list Event) : list AccessibilityRuntimePermissionGrant :=
  match events with
  | [] => []
  | e :: rest =>
      match e_variant e with
      | A11y _ => associate_spec rest
      | RuntimePermissionGrant p =>
          {| g_uid := e_uid e; g_timestamp := e_timestamp e; g_permission_name := p;
             g_preceding_a11y_calls := preceding (e_timestamp e) rest |} :: associate_spec rest
      end
  end.

(** Every event is filed under its own uid, with a [u64] timestamp. *)
Definition events_ok (h : AccessibilityHandler) : Prop :=
  map_Forall (fun uid l => Forall (fun e => e_uid e = uid /\ wf_u64 (e_timestamp e)) l)
    (ah_events h).

(** The event an item is to be recorded as, given the bridge service's answers. *)
Definition expected_event (data : AccessibilityEvent) (enabled : bool) (uid : Z) :
    result (option Event) :=
  if (ae_error_code data <? 0)%Z then Err (EAnyhow "Accessibility BPF error: {}")
  else match ae_variant data with
  | 1%Z =>
      let^ _ := bytes_as_nonempty_str (ae_package_name data) in
      let^ p := bytes_as_nonempty_str (ae_permission_name data) in
      if starts_with p "android.permission" && enabled
      then Ok (Some (Event_new uid (ae_timestamp_ns data) (RuntimePermissionGrant p)))
      else Ok None
  | 2%Z => Ok (Some (Event_new (ae_uid data) (ae_timestamp_ns data) (A11y (ae_code data))))
  | _ => Err (EAnyhow "Invalid variant: {variant}")
  end.

(** ** Lemmas *)

Lemma associate_fold (events : list Event) acc (g : option AccessibilityRuntimePermissionGrant) :
  let '(grants, cur) := fold_left associate_step events (acc, g) in
  grants ++ option_list cur =
  acc ++ option_list (option_map (fun g =>
    {| g_uid := g_uid g; g_timestamp := g_timestamp g; g_permission_name := g_permission_name g;
       g_preceding_a11y_calls :=
         g_preceding_a11y_calls g ++ preceding (g_timestamp g) events |}) g)
      ++ associate_spec events.
Proof.
  revert acc g. induction events as [|e events IH]; intros acc g; cbn [fold_left].
  - destruct g as [[]|]; cbn; by rewrite ?app_nil_r.
  - destruct e as [uid ts [p|code]], g as [g|]; cbn [associate_step e_variant e_uid e_timestamp].
    + specialize (IH (acc ++ option_list (Some g)) (Some (Grant_new uid ts p))).
      destruct fold_left. rewrite IH. destruct g; cbn. by rewrite app_nil_r, <- app_assoc.
    + specialize (IH (acc ++ option_list None) (Some (Grant_new uid ts p))).
      destruct fold_left. rewrite IH. cbn. by rewrite app_nil_r.
    + cbn [preceding associate_spec e_variant e_timestamp].
      destruct (in_window (g_timestamp g) ts) eqn:Hw.
      * specialize (IH acc (Some (push_call g (code, ts)))).
        destruct fold_left. rewrite IH. destruct g; cbn in *. by rewrite Hw, <- app_assoc.
      * specialize (IH acc (Some g)). destruct fold_left. rewrite IH. destruct g; cbn in *. by rewrite Hw.
    + specialize (IH acc None). destruct fold_left. by rewrite IH.
Qed.

Lemma associate_events_eq (events : list Event) : associate_events events = associate_spec events.
Proof.
  pose proof (associate_fold events [] None) as H. unfold associate_events.
  by destruct fold_left.
Qed.

Lemma elem_of_preceding (ts : Z) (rest : list Event) (code t : Z) :
  (code, t) ∈ preceding ts rest <->
  exists l1 uid l2, rest = l1 ++ mkEvent uid t (A11y code) :: l2 /\
    Forall (fun e => is_call e = true) l1 /\ in_window ts t = true.
Proof.
  induction rest as [|[uid t' [p|code']] rest IH]; cbn [preceding e_variant e_timestamp].
  - split; [by intros ?%not_elem_of_nil|]. by intros ([|] & ? & ? & ? & _).
  - split; [by intros ?%not_elem_of_nil|]. intros ([|] & ? & ? & Heq & Hc & _); [done|].
    injection Heq as <- _. by apply Forall_cons in Hc as [? _].
  - rewrite elem_of_app, IH. split.
    + intros [H|(l1 & u & l2 & -> & Hc & Hw)].
      * destruct (in_window ts t') eqn:Hw; [|by apply not_elem_of_nil in H].
        apply list_elem_of_singleton in H as [= -> ->]. exists [], uid, rest. eauto.
      * exists (mkEvent uid t' (A11y code') :: l1), u, l2. split_and!; [done| |done].
        by constructor.
    + intros ([|e l1] & u & l2 & Heq & Hc & Hw); cbn in Heq; simplify_eq.
      * left. rewrite Hw. by apply list_elem_of_singleton.
      * right. apply Forall_cons in Hc as [_ Hc]. eauto 10.
Qed.

Lemma preceding_grant (ts : Z) (l rest : list Event) uid t p :
  preceding ts (l ++ mkEvent uid t (RuntimePermissionGrant p) :: rest) = preceding ts l.
Proof.
  induction l as [|[u t' [q|code]] l IH]; cbn [app preceding e_variant e_timestamp]; [done..|].
  by rewrite IH.
Qed.

Lemma associate_spec_grant (l rest : list Event) uid ts p :
  associate_spec (l ++ mkEvent uid ts (RuntimePermissionGrant p) :: rest) =
  associate_spec l ++
    {| g_uid := uid; g_timestamp := ts; g_permission_name := p;
       g_preceding_a11y_calls := preceding ts rest |} :: associate_spec rest.
Proof.
  induction l as [|[u t' [q|code]] l IH]; cbn [app associate_spec e_variant e_timestamp e_uid];
    [done| |done].
  by rewrite IH, preceding_grant.
Qed.

(** The events, in the order [associate_events] sees them, that are grants. *)
Definition grant_key (g : AccessibilityRuntimePermissionGrant) : Event :=
  mkEvent (g_uid g) (g_timestamp g) (RuntimePermissionGrant (g_permission_name g)).

Lemma associate_spec_keys (l : list Event) :
  map grant_key (associate_spec l) = List.filter (fun e => negb (is_call e)) l.
Proof.
  induction l as [|[u t [p|c]] l IH]; cbn [associate_spec map List.filter is_call negb
    e_variant e_uid e_timestamp]; [done| |done]. by rewrite IH.
Qed.

Lemma associate_spec_wf (l : list Event) :
  Forall (fun e => wf_u64 (e_timestamp e)) l ->
  Forall (fun g => wf_u64 (g_timestamp g) /\ Forall (fun c => wf_u64 c.2) (g_preceding_a11y_calls g))
    (associate_spec l).
Proof.
  induction l as [|[u t [p|c]] l IH]; cbn [associate_spec e_variant]; [constructor| |];
    intros [Ht Hl]%Forall_cons; cbn in Ht; [|by apply IH].
  constructor; [|by apply IH]. cbn. split; [done|]. clear IH.
  induction Hl as [|[u' t' [q|c]] l Ht' Hl IH]; cbn; [constructor..|].
  apply Forall_app. split; [|done]. case_match; [by apply Forall_singleton|constructor].
Qed.

Lemma as_millis_i64 (t : Z) : wf_u64 t -> try_into I64 (as_millis t) = Ok (as_millis t).
Proof.
  intros [H1 H2]. apply try_into_Ok. split; [done|]. unfold as_millis, NANOS_PER_MILLI. cbn.
  pose proof (Z.div_le_mono _ _ 1000000 ltac:(lia) H2).
  pose proof (Z.div_pos _ 1000000 H1 ltac:(lia)).
  change (18446744073709551615 / 1000000)%Z with 18446744073709%Z in *. lia.
Qed.

(** The atom of a grant whose times are [u64] nanoseconds. *)
Definition report_atom (g : AccessibilityRuntimePermissionGrant) : UnstructuredAtom :=
  {| atom_id := 1217;
     atom_fields :=
       [Field_new_with_annotation (VInt32 (g_uid g)) (IsUid true);
        Field_new (VString (g_permission_name g));
        Field_new (VInt64 (as_millis (g_timestamp g)));
        Field_new (VInt32Vec (g_preceding_a11y_calls g).*1);
        Field_new (VInt64Vec (map as_millis (g_preceding_a11y_calls g).*2))] |}.

Lemma grant_atom_wf (g : AccessibilityRuntimePermissionGrant) :
  wf_u64 (g_timestamp g) -> Forall (fun c => wf_u64 c.2) (g_preceding_a11y_calls g) ->
  grant_atom g = Ok (report_atom g).
Proof.
  intros Ht Hc. unfold grant_atom, report_atom. rewrite (as_millis_i64 _ Ht). cbn [rbind].
  assert (rmapM (fun '(_, t) => try_into I64 (as_millis t)) (g_preceding_a11y_calls g)
          = Ok (map as_millis (g_preceding_a11y_calls g).*2)) as ->.
  { apply rmapM_Ok. induction Hc as [|[c t] l Hct Hl IH]; cbn; constructor; [|done].
    by apply as_millis_i64. }
  done.
Qed.

Lemma sort_events_perm (l : list Event) : sort_events l ≡ₚ l.
Proof. apply stable_sort_perm. Qed.

Lemma filter_perm {A} (P : A -> bool) (l l' : list A) :
  l ≡ₚ l' -> List.filter P l ≡ₚ List.filter P l'.
Proof.
  induction 1 as [|x l l' _ IH|x y l|l l' l'' _ IH1 _ IH2]; cbn; [done| | |by rewrite IH1].
  - destruct (P x); by rewrite IH.
  - destruct (P x), (P y); try done. apply Permutation_swap.
Qed.

Section Finished.
Context {O : HashOrder}.

Lemma all_grants_wf (h : AccessibilityHandler) :
  events_ok h ->
  Forall (fun g => wf_u64 (g_timestamp g) /\ Forall (fun c => wf_u64 c.2) (g_preceding_a11y_calls g))
    (all_grants h).
Proof.
  intros Hok. unfold all_grants. rewrite Forall_flat_map. apply List.Forall_forall.
  intros [uid l] Hin. rewrite associate_events_eq. apply associate_spec_wf.
  rewrite sort_events_perm. apply list_elem_of_In in Hin. rewrite map_iter_perm in Hin.
  apply elem_of_map_to_list in Hin. apply Hok in Hin. eapply Forall_impl; [done|]. naive_solver.
Qed.

(** Every recorded grant is reported exactly once. *)
Lemma all_grants_keys (h : AccessibilityHandler) :
  map grant_key (all_grants h) ≡ₚ
  flat_map (fun '(_, l) => List.filter (fun e => negb (is_call e)) l) (map_to_list (ah_events h)).
Proof.
  unfold all_grants. rewrite <- (map_iter_perm (ah_events h)).
  induction (map_iter (ah_events h)) as [|[uid l] m IH]; cbn; [done|].
  rewrite map_app, IH, associate_events_eq, associate_spec_keys.
  apply Permutation_app_tail, filter_perm, sort_events_perm.
Qed.

End Finished.

Lemma record_event_ok (h : AccessibilityHandler) (e : Event) :
  events_ok h -> wf_u64 (e_timestamp e) -> events_ok (record_event h e).
Proof.
  intros Hok He. apply map_Forall_insert_2; [|done]. apply Forall_app. split; [|by apply Forall_singleton].
  destruct (ah_events h !! e_uid e) eqn:Hl; cbn; [by apply Hok in Hl|apply Forall_nil_2].
Qed.

(** A leaf of the symbolic execution that is an error or impossible. *)
Ltac leaf :=
  match goal with
  | Hinto : forall uid v, exists b, Event_into (Event_new uid ?t v) = Val b,
    H : Event_into (Event_new ?u ?t ?v) = _ |- _ =>
      let b := fresh in let Hb := fresh in destruct (Hinto u v) as [b Hb];
      rewrite H in Hb; try discriminate Hb; clear Hb
  | _ => idtac
  end;
  trace_cbn;
  first [ split_and!; [done|done|left; eexists; split; [reflexivity|done]|by eauto]
        | split_and!; [done|done || auto|right|by intros ? ?] ].

(** ** Properties *)

(** C25. Attribution of calls to grants.  In a list of events, newest first, each
    grant gets exactly one report, between the reports of the newer and of the
    older events; the report lists exactly the accessibility calls that lie
    between that grant and the previous one and less than ten seconds before the
    grant, with the code and time of the call.  Calls after the last grant give
    no report. *)
Theorem associate_events_attribution :
  (forall l, Forall (fun e => is_call e = true) l -> associate_events l = []) /\
  forall newer uid ts p older, exists calls,
    associate_events (newer ++ mkEvent uid ts (RuntimePermissionGrant p) :: older) =
      associate_events newer ++
        {| g_uid := uid; g_timestamp := ts; g_permission_name := p;
           g_preceding_a11y_calls := calls |} :: associate_events older /\
    forall code t, (code, t) ∈ calls <->
      exists between u rest,
        older = between ++ mkEvent u t (A11y code) :: rest /\
        Forall (fun e => is_call e = true) between /\ (ts - t < 10 * 1000000000)%Z.
Proof.
  split.
  - intros l Hl. rewrite associate_events_eq.
    induction Hl as [|[u t [p|c]] l He Hl IH]; [done..|]. exact IH.
  - intros newer uid ts p older. exists (preceding ts older).
    rewrite !associate_events_eq, associate_spec_grant. split; [done|].
    intros code t. rewrite elem_of_preceding.
    assert (forall t, in_window ts t = true <-> (ts - t < 10 * 1000000000)%Z) as Hw.
    { intros t'. unfold in_window, duration_saturating_sub, A11Y_EVENT_WINDOW, from_secs,
        NANOS_PER_SEC. rewrite Z.ltb_lt. lia. }
    by setoid_rewrite Hw.
Qed.

(** One item on every branch.  The handler never panics (a [u64] of
    nanoseconds is an [i64] of milliseconds) and writes no atom.  An error leaves
    the recorded events unchanged.  A success records the event the item stands
    for, under its own uid, after sending exactly that event unflushed to the
    bridge service; a permission grant is recorded only when the permission is a
    system one and the service answered that the package has an enabled
    accessibility service, under the uid the service gave.  An item that is
    malformed is always an error.  Events stay filed under their own uid. *)
Theorem accessibility_on_item_spec (task : ResolvedTask) (data : AccessibilityEvent)
    (h : AccessibilityHandler) tr o h'
    (Hts : wf_u64 (ae_timestamp_ns data)) (Hok : events_ok h)
    (H : exec (AccessibilityHandler_on_item task data h) tr (o, h')) :
  atoms tr = [] /\ events_ok h' /\
  ((exists e, o = Val (Err e) /\ h' = h) \/
   exists enabled uid event,
     o = Val (Ok tt) /\ expected_event data enabled uid = Ok event /\
     match event with
     | None =>
         h' = h /\ enqueued tr = [] /\
         (forall p, bytes_as_nonempty_str (ae_permission_name data) = Ok p ->
            starts_with p "android.permission" = true -> exists pkg,
            (existT (BS_packageHasEnabledAccessibilityService pkg) (Ok false) : ev) ∈ tr)
     | Some e =>
         h' = record_event h e /\
         (exists b, Event_into e = Val b /\ enqueued tr = [(b, false)]) /\
         (ae_variant data = 1%Z -> exists pkg,
            bytes_as_nonempty_str (ae_package_name data) = Ok pkg /\
            (existT (BS_packageHasEnabledAccessibilityService pkg) (Ok true) : ev) ∈ tr /\
            (existT (BS_getUidForPackage pkg) (Ok uid) : ev) ∈ tr)
     end) /\
  (forall e, expected_event data false 0 = Err e -> exists e', o = Val (Err e')).
Proof.
  assert (Hinto : forall uid v, exists b, Event_into (Event_new uid (ae_timestamp_ns data) v) = Val b).
  { intros uid v. unfold Event_into. cbn [e_timestamp Event_new].
    rewrite (as_millis_i64 _ Hts). cbn. eauto. }
  assert (Hrec : forall uid v, events_ok (record_event h (Event_new uid (ae_timestamp_ns data) v)))
    by (intros; by apply record_event_ok).
  unfold AccessibilityHandler_on_item, handle_permission_grant_event, handle_a11y_event in H.
  sys_unfold_in H. unfold expected_event.
  destruct (Z.ltb_spec (ae_error_code data) 0).
  { cbn in H. destruct H as [-> [= -> ->]]. naive_solver. }
  destruct (Z.eqb_spec (ae_variant data) 1) as [->|Hv1].
  - wp_start H.
    destruct (bytes_as_nonempty_str (ae_package_name data)) as [pkg|e]; [|cbn; naive_solver].
    destruct (bytes_as_nonempty_str (ae_permission_name data)) as [p|e]; [|cbn; naive_solver].
    destruct (starts_with p "android.permission") eqn:Hs; wp_cbn; rewrite Hs; wp_run; try discriminate; leaf.
    + exists false, 0%Z, None. split_and!; [done|done|done|done|].
      bool_simpl; subst. intros ? _ _. exists pkg. set_solver.
    + eexists true, a1, (Some _). split_and!; [done|done|done|by eexists|].
      bool_simpl; subst. intros _. exists pkg. set_solver.
    + exists false, 0%Z, None. split_and!; [done..|intros q [= <-] Hq; congruence].
  - destruct (Z.eqb_spec (ae_variant data) 2) as [->|Hv2].
    + wp_start H. wp_run; leaf. eexists true, 0%Z, (Some _). naive_solver.
    + cbn in H. destruct H as [-> [= -> ->]]. split_and!; [done|done|naive_solver|].
      destruct (ae_variant data) as [|[|[]|]|]; naive_solver.
Qed.

(** The recorded events of a uid, newest first; events of the same moment keep the
    order in which they were recorded. *)
Definition newest_first (recorded events : list Event) : Prop :=
  events ≡ₚ recorded /\
  StronglySorted (fun a b => (e_timestamp b <= e_timestamp a)%Z) events /\
  forall t, List.filter (fun e => (e_timestamp e =? t)%Z) events =
            List.filter (fun e => (e_timestamp e =? t)%Z) recorded.

Lemma sort_events_newest (l : list Event) : newest_first l (sort_events l).
Proof.
  assert (forall x y, desc x y = true <-> (e_timestamp y <= e_timestamp x)%Z) as Hd
    by (intros; apply Z.leb_le).
  split; [apply sort_events_perm|]. split.
  - assert (forall k, StronglySorted (fun a b => desc a b = true) k ->
        StronglySorted (fun a b => (e_timestamp b <= e_timestamp a)%Z) k) as Hk.
    { induction 1 as [|x k _ IH HF]; constructor; [done|].
      eapply Forall_impl; [exact HF|]. intros y. apply Hd. }
    apply Hk, stable_sort_sorted.
    + intros x y Hxy. apply Hd. unfold desc in Hxy. lia.
    + intros x y z. rewrite !Hd. lia.
  - intros t. apply stable_sort_stable. intros x y Hx Hy. apply Hd. lia.
Qed.

Lemma all_grants_ordered {O : HashOrder} (h : AccessibilityHandler) :
  exists recorded ordered, recorded ≡ₚ map_to_list (ah_events h) /\
    Forall2 (fun '(_, events) sorted => newest_first events sorted) recorded ordered /\
    all_grants h = flat_map associate_spec ordered.
Proof.
  exists (map_iter (ah_events h)), (map (fun '(_, events) => sort_events events) (map_iter (ah_events h))).
  split; [apply map_iter_perm|]. unfold all_grants.
  induction (map_iter (ah_events h)) as [|[uid l] m [IH1 IH2]]; cbn; [done|].
  split; [constructor; [apply sort_events_newest|done]|].
  by rewrite IH2, associate_events_eq.
Qed.

(** C29. The report.  Finishing never panics and fails only because the atom
    writer failed.  The atoms written, all of them on success and a first part
    otherwise, are those of the recorded grants: for each uid, in the order the map
    is walked, its events are put newest first (the stable order of their
    timestamps), and each grant among them is reported with the calls before it
    that the attribution gives it, with times in milliseconds.  Taken together the
    reports are a permutation of the recorded grants, so none is lost or
    duplicated. *)
Theorem accessibility_on_finished_spec {O : HashOrder} (h : AccessibilityHandler) tr o h'
    (Hok : events_ok h) (H : exec (AccessibilityHandler_on_finished h) tr (o, h')) :
  exists recorded ordered,
    recorded ≡ₚ map_to_list (ah_events h) /\
    Forall2 (fun '(_, events) sorted => newest_first events sorted) recorded ordered /\
    let grants := flat_map associate_spec ordered in
    ((o = Val (Ok tt) /\ atoms tr = map report_atom grants) \/
     exists e a n, o = Val (Err e) /\ (existT (AtomWriter_write_unstructured a) (Err e) : ev) ∈ tr /\
       atoms tr = take n (map report_atom grants)) /\
    map grant_key grants ≡ₚ
      flat_map (fun '(_, l) => List.filter (fun e => negb (is_call e)) l)
        (map_to_list (ah_events h)).
Proof.
  destruct (all_grants_ordered h) as (recorded & ordered & Hperm & Hord & Hg).
  exists recorded, ordered. rewrite <- Hg. split; [done|]. split; [done|].
  split; [|apply all_grants_keys].
  assert (Hr : forall l, Forall (fun g => wf_u64 (g_timestamp g) /\
      Forall (fun c => wf_u64 c.2) (g_preceding_a11y_calls g)) l ->
    rmapM grant_atom l = Ok (map report_atom l)).
  { intros l Hl. apply rmapM_Ok. induction Hl as [|g l [Hg1 Hg2] Hl IH]; cbn; constructor; [|done].
    by apply grant_atom_wf. }
  pose proof (all_grants_wf h Hok) as Hwf.
  change (exec (for_each (all_grants h) (fun g => mtry (mret (grant_atom g)) (fun a => write a))
    (sort_all h)) tr (o, h')) in H.
  apply exec_for_each_write in H as (-> & l1 & l2 & xs & Hl & Hxs & Hat & Ho).
  rewrite Hl in Hwf. apply Forall_app in Hwf as [Hwf1 Hwf2].
  rewrite (Hr _ Hwf1) in Hxs. injection Hxs as <-. rewrite Hl.
  destruct Ho as [[-> ->]|(e & g & l3 & -> & -> & Ho)].
  - left. by rewrite app_nil_r.
  - right. destruct Ho as [Ho|[x Hx]].
    + apply Forall_cons in Hwf2 as [[Hg1 Hg2] _]. by rewrite grant_atom_wf in Ho.
    + exists e, x, (length l1). split_and!; [done..|].
      by rewrite map_app, take_app_length', Hat by by rewrite length_map.
Qed.

(** ** Witnesses *)

Definition example_task : ResolvedTask :=
  {| rt_id := 1; rt_duration := from_secs 10; rt_resolved_process := some_process;
     rt_bpf_map_paths := ∅; rt_statsd_logging_config := None; rt_resolved_probes := [] |}.

Definition grant_item : AccessibilityEvent :=
  {| ae_error_code := 0; ae_timestamp_ns := 12000000000; ae_variant := 1;
     ae_package_name := c_array 128 "com.example.app";
     ae_permission_name := c_array 128 "android.permission.CAMERA";
     ae_uid := 0; ae_code := 0 |}.

Lemma accessibility_on_item_spec_witness :
  exists tr h', exec (AccessibilityHandler_on_item example_task grant_item {| ah_events := ∅ |}) tr
      (Val (Ok tt), h') /\
    events_ok h' /\ atoms tr = [].
Proof.
  eexists _, _.
  assert (exec (AccessibilityHandler_on_item example_task grant_item {| ah_events := ∅ |}) _ (Val (Ok tt), _))
    as H by run_in benign_env.
  split; [exact H|].
  assert (wf_u64 (ae_timestamp_ns grant_item)) as Hts by (split; vm_compute; congruence).
  assert (events_ok {| ah_events := ∅ |}) as Hok by apply map_Forall_empty.
  destruct (@accessibility_on_item_spec example_task grant_item _ _ _ _ Hts Hok H) as (H1 & H2 & _).
  split; [exact H2|exact H1].
Defined.

Definition example_events : AccessibilityHandler :=
  {| ah_events := {[ 10001%Z :=
       [mkEvent 10001 1000000000 (A11y 7);
        mkEvent 10001 12000000000 (RuntimePermissionGrant "android.permission.CAMERA");
        mkEvent 10001 11000000000 (A11y 9)] ]} |}.

Lemma accessibility_on_finished_spec_witness :
  exists tr h', exec (@AccessibilityHandler_on_finished canonical_order example_events) tr
      (Val (Ok tt), h') /\
    exists events, newest_first
        [mkEvent 10001 1000000000 (A11y 7);
         mkEvent 10001 12000000000 (RuntimePermissionGrant "android.permission.CAMERA");
         mkEvent 10001 11000000000 (A11y 9)] events /\
      atoms tr = map report_atom (associate_spec events ++ []).
Proof.
  eexists _, _.
  assert (exec (@AccessibilityHandler_on_finished canonical_order example_events) _ (Val (Ok tt), _))
    as H by run_in benign_env.
  split; [exact H|].
  assert (events_ok example_events) as Hok.
  { apply map_Forall_singleton. repeat constructor; vm_compute; congruence. }
  destruct (@accessibility_on_finished_spec canonical_order example_events _ _ _ Hok H)
    as (recorded & ordered & Hperm & Hord & [[_ Hat]|(? & ? & ? & Hc & _)] & _); [|discriminate Hc].
  unfold example_events in Hperm. cbn [ah_events] in Hperm. rewrite map_to_list_singleton in Hperm.
  apply Permutation_singleton_r in Hperm as ->.
  inversion Hord as [|? events ? rest Hnew Hrest]; subst. inversion Hrest; subst.
  exists events. split; [exact Hnew|exact Hat].
Defined.

Lemma associate_events_attribution_witness :
  associate_events [mkEvent 7 1 (A11y 3); mkEvent 7 0 (A11y 3)] = [] /\
  exists calls,
    associate_events
      [mkEvent 7 9 (A11y 1); mkEvent 7 8 (RuntimePermissionGrant "p"); mkEvent 7 5 (A11y 2)] =
      associate_events [mkEvent 7 9 (A11y 1)] ++
        {| g_uid := 7; g_timestamp := 8; g_permission_name := "p";
           g_preceding_a11y_calls := calls |} :: associate_events [mkEvent 7 5 (A11y 2)] /\
    (2, 5)%Z ∈ calls.
Proof.
  destruct associate_events_attribution as [Hcalls Hgrant]. split.
  - apply Hcalls. repeat constructor.
  - destruct (Hgrant [mkEvent 7 9 (A11y 1)] 7%Z 8%Z "p" [mkEvent 7 5 (A11y 2)]) as (calls & Heq & Hin).
    exists calls. split; [exact Heq|]. apply Hin.
    exists [], 7%Z, []. split; [reflexivity|]. split; [constructor|reflexivity].
Defined.
