(* ===== verification/Bitmap.v ===== *)
(** * Bitmap: live bitmaps and the snapshot at the largest total size
    ([daemon/core/bpf_handler/bitmap_allocation.rs])

    V0 reports allocations only.  V1 keeps the live bitmaps by native pointer,
    the running and the largest total size, and a copy of the live bitmaps taken
    whenever the largest total grows. *)

From S2P Require Import Prelude Effects RustStd Data System Fixtures Handler.

Local Open Scope rust_scope.
Local Open Scope string_scope.
Local Open Scope list_scope.

(** ** V0 *)

Record BitmapAllocationHandlerV0 := mkBitmapAllocationHandlerV0 {}.

Definition BitmapV0_on_item (task : ResolvedTask) (data : BitmapEvent) :
    Sys BitmapAllocationHandlerV0 (result unit) :=
  let? width := mret (try_into I32 (be_width data)) in
  let? height := mret (try_into I32 (be_height data)) in
  let? _ := write_codegen
    (AndroidGraphicsBitmapAllocated (rp_uid (rt_resolved_process task)) width height) in
  mret (Ok tt).

#[export] Instance BitmapV0_Handler : Handler BitmapAllocationHandlerV0 := {
  MAP_PATH := "/sys/fs/bpf/uprobestats/map_BitmapAllocation_output";
  PROG_PATH := None;
  T := TyBitmapEvent;
  on_item := BitmapV0_on_item;
  on_finished := default_on_finished;
  handler_default := mkBitmapAllocationHandlerV0
}.

(** ** V1 *)

Record BitmapMetadata := mkBitmapMetadata {
  bm_uid : Z;
  bm_width : Z;
  bm_height : Z;
  bm_pixel_storage_type : Z;
  bm_activity_name : string
}.

Record BitmapAllocationHandlerV1 := mkBitmapAllocationHandlerV1 {
  bh_bitmaps : gmap Z BitmapMetadata;
  bh_max_total_bitmap_size : Z;
  bh_current_total_bitmap_size : Z;
  bh_bitmap_snapshot_at_max_size : list BitmapMetadata;
  bh_activity_name : string
}.

Definition BitmapV1_default : BitmapAllocationHandlerV1 :=
  {| bh_bitmaps := ∅; bh_max_total_bitmap_size := 0; bh_current_total_bitmap_size := 0;
     bh_bitmap_snapshot_at_max_size := []; bh_activity_name := EmptyString |}.

Definition set_bitmaps (m : gmap Z BitmapMetadata) (h : BitmapAllocationHandlerV1) :=
  {| bh_bitmaps := m; bh_max_total_bitmap_size := bh_max_total_bitmap_size h;
     bh_current_total_bitmap_size := bh_current_total_bitmap_size h;
     bh_bitmap_snapshot_at_max_size := bh_bitmap_snapshot_at_max_size h;
     bh_activity_name := bh_activity_name h |}.

Definition set_current (z : Z) (h : BitmapAllocationHandlerV1) :=
  {| bh_bitmaps := bh_bitmaps h; bh_max_total_bitmap_size := bh_max_total_bitmap_size h;
     bh_current_total_bitmap_size := z;
     bh_bitmap_snapshot_at_max_size := bh_bitmap_snapshot_at_max_size h;
     bh_activity_name := bh_activity_name h |}.

Definition set_snapshot (max : Z) (l : list BitmapMetadata) (h : BitmapAllocationHandlerV1) :=
  {| bh_bitmaps := bh_bitmaps h; bh_max_total_bitmap_size := max;
     bh_current_total_bitmap_size := bh_current_total_bitmap_size h;
     bh_bitmap_snapshot_at_max_size := l;
     bh_activity_name := bh_activity_name h |}.

Definition set_activity (s : string) (h : BitmapAllocationHandlerV1) :=
  {| bh_bitmaps := bh_bitmaps h; bh_max_total_bitmap_size := bh_max_total_bitmap_size h;
     bh_current_total_bitmap_size := bh_current_total_bitmap_size h;
     bh_bitmap_snapshot_at_max_size := bh_bitmap_snapshot_at_max_size h;
     bh_activity_name := s |}.

Section V1.
Context {Tg : Target} {O : HashOrder}.

(** [bitmaps.values().cloned().collect()]. *)
Definition bitmap_values (m : gmap Z BitmapMetadata) : list BitmapMetadata := (map_iter m).*2.

(** [K_BITMAP_EVENT_TYPE_ALLOCATION]. *)
Definition BitmapV1_allocation (task : ResolvedTask) (data : BitmapEvent) :
    Sys BitmapAllocationHandlerV1 (result unit) :=
  let! h := get_state in
  let? width := mret (try_into I32 (be_width data)) in
  let? height := mret (try_into I32 (be_height data)) in
  let? pixel_storage_type := mret (try_into I32 (be_pixel_storage_type data)) in
  let metadata :=
    {| bm_uid := rp_uid (rt_resolved_process task); bm_width := width; bm_height := height;
       bm_pixel_storage_type := pixel_storage_type; bm_activity_name := bh_activity_name h |} in
  let? _ := write_codegen (AndroidGraphicsBitmapAllocated
              (bm_uid metadata) (bm_width metadata) (bm_height metadata)) in
  let! _ := put_state
    (set_bitmaps (<[as_ity U64 (be_native_ptr data) := metadata]> (bh_bitmaps h)) h) in
  let? bitmap_size := mret (try_into I64 (be_bitmap_size data)) in
  let! h := get_state in
  let! total := lift_outcome (add_int I64 (bh_current_total_bitmap_size h) bitmap_size) in
  let! _ := put_state (set_current total h) in
  let! h := get_state in
  if (bh_max_total_bitmap_size h <? bh_current_total_bitmap_size h)%Z then
    let! _ := put_state
      (set_snapshot (bh_current_total_bitmap_size h) (bitmap_values (bh_bitmaps h)) h) in
    mret (Ok tt)
  else mret (Ok tt).

(** [K_BITMAP_EVENT_TYPE_DEALLOCATION]. *)
Definition BitmapV1_deallocation (data : BitmapEvent) :
    Sys BitmapAllocationHandlerV1 (result unit) :=
  let! h := get_state in
  let! _ := put_state
    (set_bitmaps (delete (as_ity U64 (be_native_ptr data)) (bh_bitmaps h)) h) in
  let? bitmap_size := mret (try_into I64 (be_bitmap_size data)) in
  let! h := get_state in
  let! total := lift_outcome (sub_int I64 (bh_current_total_bitmap_size h) bitmap_size) in
  let! _ := put_state (set_current total h) in
  mret (Ok tt).

(** [K_BITMAP_EVENT_TYPE_BITMAP_SCALED]. *)
Definition BitmapV1_scaled (task : ResolvedTask) (data : BitmapEvent) :
    Sys BitmapAllocationHandlerV1 (result unit) :=
  let! h := get_state in
  let? width := mret (try_into I32 (be_width data)) in
  let? height := mret (try_into I32 (be_height data)) in
  let? scaled_width := mret (try_into I32 (be_scaled_width data)) in
  let? scaled_height := mret (try_into I32 (be_scaled_height data)) in
  let? pixel_storage_type := mret (try_into I32 (be_pixel_storage_type data)) in
  let? _ := write_codegen (AndroidGraphicsBitmapScaled (rp_uid (rt_resolved_process task))
              width height scaled_width scaled_height pixel_storage_type (bh_activity_name h)) in
  mret (Ok tt).

Definition BitmapV1_on_item (task : ResolvedTask) (data : BitmapEvent) :
    Sys BitmapAllocationHandlerV1 (result unit) :=
  if (be_type data =? K_BITMAP_EVENT_TYPE_ALLOCATION)%Z then BitmapV1_allocation task data
  else if (be_type data =? K_BITMAP_EVENT_TYPE_DEALLOCATION)%Z then BitmapV1_deallocation data
  else if (be_type data =? K_BITMAP_EVENT_TYPE_ACTIVITY_START)%Z then
    let? name := pure (bytes_as_str (be_activity_name data)) in
    let! h := get_state in
    let! _ := put_state (set_activity name h) in
    mret (Ok tt)
  else if (be_type data =? K_BITMAP_EVENT_TYPE_BITMAP_SCALED)%Z then BitmapV1_scaled task data
  else mret (Ok tt).

Definition snapshot_atom (snapshot_id snapshot_type : Z) (m : BitmapMetadata) : CodegenAtom :=
  AndroidGraphicsBitmapAllocationSnapshot (bm_uid m) (bm_width m) (bm_height m)
    (bm_pixel_storage_type m) snapshot_id snapshot_type (bm_activity_name m).

Definition BitmapV1_on_finished : Sys BitmapAllocationHandlerV1 (result unit) :=
  let! h := get_state in
  let! snapshot_id := ext (E := SysI) Rng_gen_i64 in
  let? _ := for_each (bh_bitmap_snapshot_at_max_size h)
              (fun m => write_codegen (snapshot_atom snapshot_id 1 m)) in
  let! snapshot_id := ext (E := SysI) Rng_gen_i64 in
  for_each (bitmap_values (bh_bitmaps h)) (fun m => write_codegen (snapshot_atom snapshot_id 2 m)).

End V1.

#[export] Instance BitmapV1_Handler {Tg : Target} {O : HashOrder} :
    Handler BitmapAllocationHandlerV1 := {
  MAP_PATH := "/sys/fs/bpf/uprobestats/map_BitmapAllocation_output";
  PROG_PATH := None;
  T := TyBitmapEvent;
  on_item := BitmapV1_on_item;
  on_finished := BitmapV1_on_finished;
  handler_default := BitmapV1_default
}.

#[export] Instance BitmapV0_Laws : HandlerLaws BitmapAllocationHandlerV0.
Proof.
  split; [| |exact default_on_finished_errors];
    cbn [on_item on_finished BitmapV0_Handler]; unfold BitmapV0_on_item; sys_unfold;
    calls_only_run.
Qed.

Lemma checked_fuel {Tg : Target} t z msg : checked t z msg <> NoFuel.
Proof. unfold checked. destruct (in_ity t z), overflow_checks; done. Qed.

Lemma BitmapV1_on_finished_errors {O : HashOrder} : writes BitmapV1_on_finished.
Proof.
  unfold BitmapV1_on_finished. apply writes_mbind. intros h. apply writes_mbind. intros id1.
  apply writes_mtry; [|intros []; apply writes_mbind; intros id2];
    apply writes_for_each; intros m; apply writes_write_codegen.
Qed.

#[export] Instance BitmapV1_Laws {Tg : Target} {O : HashOrder} : HandlerLaws BitmapAllocationHandlerV1.
Proof.
  split; cbn [on_item on_finished BitmapV1_Handler].
  - intros task data. unfold BitmapV1_on_item, BitmapV1_allocation, BitmapV1_deallocation,
      BitmapV1_scaled. sys_unfold. cbn zeta. calls_only_run; apply checked_fuel.
  - unfold BitmapV1_on_finished. sys_unfold. calls_only_run.
  - exact BitmapV1_on_finished_errors.
Qed.

(** ** Specification: what a sequence of handled items means *)

Section Spec.
Context (task : ResolvedTask).

(** What an item adds to the total size. *)
Definition size_delta (e : BitmapEvent) : Z :=
  if (be_type e =? K_BITMAP_EVENT_TYPE_ALLOCATION)%Z then be_bitmap_size e
  else if (be_type e =? K_BITMAP_EVENT_TYPE_DEALLOCATION)%Z then (- be_bitmap_size e)%Z
  else 0%Z.

Definition total_size (items : list BitmapEvent) : Z :=
  fold_right Z.add 0%Z (map size_delta items).

(** The live bitmaps and the current activity after the items. *)
Definition live_step (v : gmap Z BitmapMetadata * string) (e : BitmapEvent) :
    gmap Z BitmapMetadata * string :=
  if (be_type e =? K_BITMAP_EVENT_TYPE_ALLOCATION)%Z then
    (<[be_native_ptr e :=
         {| bm_uid := rp_uid (rt_resolved_process task); bm_width := be_width e;
            bm_height := be_height e; bm_pixel_storage_type := be_pixel_storage_type e;
            bm_activity_name := v.2 |}]> v.1, v.2)
  else if (be_type e =? K_BITMAP_EVENT_TYPE_DEALLOCATION)%Z then (delete (be_native_ptr e) v.1, v.2)
  else if (be_type e =? K_BITMAP_EVENT_TYPE_ACTIVITY_START)%Z then
    (v.1, match bytes_as_str (be_activity_name e) with Ok s => s | Err _ => v.2 end)
  else v.

Definition live (items : list BitmapEvent) : gmap Z BitmapMetadata * string :=
  fold_left live_step items (∅, EmptyString).

End Spec.

(** The handler state after the items [done]: totals of the items, the largest
    total of a prefix, and the live bitmaps of the shortest prefix that reached
    it. *)
Definition bitmap_state {O : HashOrder} (task : ResolvedTask) (done : list BitmapEvent)
    (h : BitmapAllocationHandlerV1) : Prop :=
  bh_current_total_bitmap_size h = total_size done /\
  (bh_bitmaps h, bh_activity_name h) = live task done /\
  (forall p, p `prefix_of` done -> (total_size p <= bh_max_total_bitmap_size h)%Z) /\
  exists p, p `prefix_of` done /\ total_size p = bh_max_total_bitmap_size h /\
    (forall q, q `prefix_of` p -> q <> p -> (total_size q < total_size p)%Z) /\
    bh_bitmap_snapshot_at_max_size h = bitmap_values (live task p).1.

(** ** Lemmas *)

Lemma total_size_snoc (l : list BitmapEvent) e :
  total_size (l ++ [e]) = (total_size l + size_delta e)%Z.
Proof.
  unfold total_size. rewrite map_app, fold_right_app. cbn.
  induction (map size_delta l) as [|x xs IH]; cbn; lia.
Qed.

Lemma live_snoc task (l : list BitmapEvent) e :
  live task (l ++ [e]) = live_step task (live task l) e.
Proof. unfold live. by rewrite fold_left_app. Qed.

(** A total of [n] items is within [n] times the largest [u32]. *)
Lemma total_size_bound (l : list BitmapEvent) :
  Forall wf_BitmapEvent l -> (Z.abs (total_size l) <= 4294967295 * Z.of_nat (length l))%Z.
Proof.
  unfold total_size. induction 1 as [|e l He Hl IH]; cbn; [lia|].
  destruct He as (_ & _ & _ & _ & _ & _ & [Hs1 Hs2] & _).
  assert (Z.abs (size_delta e) <= 4294967295)%Z by (unfold size_delta; repeat case_match; lia).
  lia.
Qed.

Lemma prefix_snoc_inv {A} (p l : list A) (x : A) :
  p `prefix_of` l ++ [x] -> p `prefix_of` l \/ p = l ++ [x].
Proof.
  intros [r Hr]. destruct r as [|y r _] using rev_ind.
  - right. by rewrite app_nil_r in Hr.
  - left. rewrite app_assoc in Hr. apply app_inj_tail in Hr as [-> _]. by exists r.
Qed.

Section Steps.
Context {Tg : Target} {O : HashOrder} (task : ResolvedTask).

Lemma bitmap_values_empty : bitmap_values ∅ = [].
Proof.
  unfold bitmap_values. pose proof (map_iter_perm (∅ : gmap Z BitmapMetadata)) as H.
  rewrite map_to_list_empty in H. apply Permutation_nil_r in H. by rewrite H.
Qed.

Lemma bitmap_state_default : bitmap_state task [] BitmapV1_default.
Proof.
  split_and!; [done|done| |].
  - intros p Hp%prefix_nil_inv. by subst.
  - exists []. split_and!; [done|done| |exact (eq_sym bitmap_values_empty)].
    intros q Hq%prefix_nil_inv. done.
Qed.

(** A step that leaves the totals alone. *)
Lemma bitmap_state_same done h h' e :
  bitmap_state task done h -> size_delta e = 0%Z ->
  (bh_bitmaps h', bh_activity_name h') = live_step task (live task done) e ->
  bh_current_total_bitmap_size h' = bh_current_total_bitmap_size h ->
  bh_max_total_bitmap_size h' = bh_max_total_bitmap_size h ->
  bh_bitmap_snapshot_at_max_size h' = bh_bitmap_snapshot_at_max_size h ->
  bitmap_state task (done ++ [e]) h'.
Proof.
  intros (Hc & Hl & Hmax & p & Hp & Hpt & Hfirst & Hsnap) He Hl' Hc' Hm' Hs'.
  split_and!.
  - by rewrite Hc', Hc, total_size_snoc, He, Z.add_0_r.
  - by rewrite live_snoc.
  - intros q [Hq| ->]%prefix_snoc_inv; rewrite Hm'; [by apply Hmax|].
    rewrite total_size_snoc, He, Z.add_0_r. by apply Hmax.
  - exists p. rewrite Hm', Hs'. split_and!; [by apply prefix_app_r|done..].
Qed.

(** A step that changes the total without reaching a new maximum. *)
Lemma bitmap_state_below done h h' e :
  bitmap_state task done h ->
  (total_size (done ++ [e]) <= bh_max_total_bitmap_size h)%Z ->
  (bh_bitmaps h', bh_activity_name h') = live_step task (live task done) e ->
  bh_current_total_bitmap_size h' = total_size (done ++ [e]) ->
  bh_max_total_bitmap_size h' = bh_max_total_bitmap_size h ->
  bh_bitmap_snapshot_at_max_size h' = bh_bitmap_snapshot_at_max_size h ->
  bitmap_state task (done ++ [e]) h'.
Proof.
  intros (Hc & Hl & Hmax & p & Hp & Hpt & Hfirst & Hsnap) Hle Hl' Hc' Hm' Hs'.
  split_and!; [done|by rewrite live_snoc| |].
  - intros q [Hq| ->]%prefix_snoc_inv; rewrite Hm'; [by apply Hmax|done].
  - exists p. rewrite Hm', Hs'. split_and!; [by apply prefix_app_r|done..].
Qed.

(** A step that reaches a new maximum takes a snapshot. *)
Lemma bitmap_state_above done h h' e :
  bitmap_state task done h ->
  (bh_max_total_bitmap_size h < total_size (done ++ [e]))%Z ->
  (bh_bitmaps h', bh_activity_name h') = live_step task (live task done) e ->
  bh_current_total_bitmap_size h' = total_size (done ++ [e]) ->
  bh_max_total_bitmap_size h' = total_size (done ++ [e]) ->
  bh_bitmap_snapshot_at_max_size h' = bitmap_values (bh_bitmaps h') ->
  bitmap_state task (done ++ [e]) h'.
Proof.
  intros (Hc & Hl & Hmax & _) Hlt Hl' Hc' Hm' Hs'.
  split_and!; [done|by rewrite live_snoc| |].
  - intros q [Hq| ->]%prefix_snoc_inv; rewrite Hm'; [|done]. specialize (Hmax q Hq). lia.
  - exists (done ++ [e]). split_and!; [done|done| |].
    + intros q [Hq| ->]%prefix_snoc_inv Hne; [|done]. specialize (Hmax q Hq). lia.
    + rewrite Hs', live_snoc, <- Hl'. done.
Qed.

Lemma checked_in (t : ity) z msg : (ity_min t <= z <= ity_max t)%Z -> checked t z msg = Val z.
Proof. intros H. unfold checked. by apply in_ity_spec in H as ->. Qed.

(** One item in a state that reflects fewer than 2^31 items: no panic, no
    overflow; an error is reported before anything changed. *)
(** What one item keeps: it succeeds and extends the session, or fails and changes
    nothing. *)
Definition item_outcome done e h (o : outcome (result unit)) h' : Prop :=
  (o = Val (Ok tt) /\ bitmap_state task (done ++ [e]) h') \/ (exists x, o = Val (Err x) /\ h' = h).

(** The sizes an item converts and adds are within their widths. *)
Lemma item_bounds done e :
  Forall wf_BitmapEvent done -> wf_BitmapEvent e -> (Z.of_nat (length done) < 2147483647)%Z ->
  try_into I64 (be_bitmap_size e) = Ok (be_bitmap_size e) /\
  as_ity U64 (be_native_ptr e) = be_native_ptr e /\
  (0 <= be_bitmap_size e)%Z /\ (ity_min I64 <= total_size done + size_delta e <= ity_max I64)%Z.
Proof.
  intros Hwf He Hlen. pose proof (total_size_bound (done ++ [e])) as Hb.
  rewrite Forall_app, Forall_singleton, length_app in Hb. cbn [length] in Hb.
  specialize (Hb (conj Hwf He)). rewrite total_size_snoc in Hb.
  destruct He as (_ & _ & _ & _ & _ & _ & Hs & Hptr). unfold wf_u32 in Hs.
  split_and!; [|apply as_ity_id; exact Hptr|lia|cbn; lia..].
  apply try_into_Ok. split; [done|]. cbn. lia.
Qed.

Lemma allocation_item done e h tr o h' :
  bitmap_state task done h -> Forall wf_BitmapEvent done -> wf_BitmapEvent e ->
  (Z.of_nat (length done) < 2147483647)%Z -> be_type e = K_BITMAP_EVENT_TYPE_ALLOCATION ->
  exec (BitmapV1_allocation task e h) tr (o, h') -> item_outcome done e h o h'.
Proof.
  intros Hst Hwf He Hlen Ht H. destruct (item_bounds done e Hwf He Hlen) as (Hti & Hp & _ & Hb).
  assert (Hcur : bh_current_total_bitmap_size h = total_size done) by apply Hst.
  assert (Hlive : (bh_bitmaps h, bh_activity_name h) = live task done) by apply Hst.
  assert (Hsd : size_delta e = be_bitmap_size e) by (unfold size_delta; by rewrite Ht).
  assert (Hls : live_step task (live task done) e =
    (<[be_native_ptr e := {| bm_uid := rp_uid (rt_resolved_process task); bm_width := be_width e;
         bm_height := be_height e; bm_pixel_storage_type := be_pixel_storage_type e;
         bm_activity_name := bh_activity_name h |}]> (bh_bitmaps h), bh_activity_name h))
    by (rewrite <- Hlive; unfold live_step; by rewrite Ht).
  rewrite Hsd in Hb. unfold BitmapV1_allocation, add_int in H. sys_unfold_in H. rewrite Hti, Hp in H.
  unfold item_outcome. wp_start H. wp_cbn.
  destruct (try_into I32 (be_width e)) as [w|] eqn:Hw'; [|cbn; eauto].
  destruct (try_into I32 (be_height e)) as [hh|] eqn:Hh'; [|cbn; eauto].
  destruct (try_into I32 (be_pixel_storage_type e)) as [px|] eqn:Hpx'; [|cbn; eauto].
  res_inv. wp_cbn. intros [[]|x]; wp_cbn; [|eauto].
  cbn [bh_current_total_bitmap_size set_bitmaps]. rewrite checked_in by lia.
  wp_cbn. cbn [bh_max_total_bitmap_size bh_current_total_bitmap_size set_bitmaps set_current].
  assert (Hsnoc := total_size_snoc done e).
  destruct (Z.ltb_spec (bh_max_total_bitmap_size h)
    (bh_current_total_bitmap_size h + be_bitmap_size e)); cbn; left; (split; [done|]).
  - eapply bitmap_state_above; [done|lia|by rewrite Hls|cbn; lia|cbn; lia|done].
  - eapply bitmap_state_below; [done|lia|by rewrite Hls|cbn; lia|done|done].
Qed.

Lemma deallocation_item done e h tr o h' :
  bitmap_state task done h -> Forall wf_BitmapEvent done -> wf_BitmapEvent e ->
  (Z.of_nat (length done) < 2147483647)%Z -> be_type e = K_BITMAP_EVENT_TYPE_DEALLOCATION ->
  exec (BitmapV1_deallocation e h) tr (o, h') -> item_outcome done e h o h'.
Proof.
  intros Hst Hwf He Hlen Ht H. destruct (item_bounds done e Hwf He Hlen) as (Hti & Hp & Hs & Hb).
  assert (Hcur : bh_current_total_bitmap_size h = total_size done) by apply Hst.
  assert (Hlive : (bh_bitmaps h, bh_activity_name h) = live task done) by apply Hst.
  assert (Hsd : size_delta e = (- be_bitmap_size e)%Z) by (unfold size_delta; by rewrite Ht).
  rewrite Hsd in Hb. unfold BitmapV1_deallocation, sub_int in H. rewrite Hti, Hp in H.
  unfold item_outcome. wp_start H. wp_cbn. cbn [bh_current_total_bitmap_size set_bitmaps].
  rewrite checked_in by lia. assert (Hsnoc := total_size_snoc done e).
  left. split; [done|].
  eapply bitmap_state_below; [done| |by rewrite <- Hlive; unfold live_step; rewrite Ht|cbn; lia|done..].
  destruct Hst as (_ & _ & Hmax & _). specialize (Hmax done ltac:(done)). lia.
Qed.

Lemma bitmap_item done e h tr o h' :
  bitmap_state task done h -> Forall wf_BitmapEvent done -> wf_BitmapEvent e ->
  (Z.of_nat (length done) < 2147483647)%Z ->
  exec (BitmapV1_on_item task e h) tr (o, h') -> item_outcome done e h o h'.
Proof.
  intros Hst Hwf He Hlen H.
  assert (Hlive : (bh_bitmaps h, bh_activity_name h) = live task done) by apply Hst.
  unfold BitmapV1_on_item, BitmapV1_scaled in H.
  destruct (Z.eqb_spec (be_type e) K_BITMAP_EVENT_TYPE_ALLOCATION) as [Ht|Ht1];
    [by eapply allocation_item|].
  destruct (Z.eqb_spec (be_type e) K_BITMAP_EVENT_TYPE_DEALLOCATION) as [Ht|Ht2];
    [by eapply deallocation_item|].
  assert (size_delta e = 0%Z) as H0.
  { unfold size_delta. by apply Z.eqb_neq in Ht1 as ->; apply Z.eqb_neq in Ht2 as ->. }
  unfold item_outcome. sys_unfold_in H. wp_start H.
  destruct (Z.eqb_spec (be_type e) K_BITMAP_EVENT_TYPE_ACTIVITY_START) as [Ht|Ht3].
  - wp_cbn. destruct (bytes_as_str (be_activity_name e)) as [nm|] eqn:Hn; [|cbn; eauto].
    left. split; [done|]. eapply bitmap_state_same; [done|done| |done..].
    rewrite <- Hlive; unfold live_step; rewrite Ht. cbn. by rewrite Hn.
  - assert (live_step task (live task done) e = live task done) as Hls.
    { unfold live_step.
      by apply Z.eqb_neq in Ht1 as ->; apply Z.eqb_neq in Ht2 as ->; apply Z.eqb_neq in Ht3 as ->. }
    assert (bitmap_state task (done ++ [e]) h) as Hsame.
    { eapply bitmap_state_same; [done|done|by rewrite Hls|done..]. }
    wp_run; try (left; done); right; eauto.
Qed.

End Steps.

(** ** Properties *)

(** C19. The state after any sequence of items.  However the items of a poll are
    answered by the statsd writer, handling them from the initial state never
    panics or overflows (up to 2^31 - 1 items), and either stops with an error or
    ends in the state the sequence means: the running total is the sum of the
    allocated minus the freed sizes, the live bitmaps are those allocated and not
    freed since, the maximum is the largest total of any prefix, and the snapshot
    holds the live bitmaps of the shortest prefix that reached it. *)
Theorem bitmap_session_state {Tg : Target} {O : HashOrder} (task : ResolvedTask)
    (items : list BitmapEvent) tr o h
    (Hwf : Forall wf_BitmapEvent items) (Hlen : (Z.of_nat (length items) <= 2147483647)%Z)
    (H : exec (for_each items (BitmapV1_on_item task) BitmapV1_default) tr (o, h)) :
  (o = Val (Ok tt) /\ bitmap_state task items h) \/ exists e, o = Val (Err e).
Proof.
  revert H. eapply exec_for_each_ind; [|apply bitmap_state_default].
  intros pre a post s tr0 o0 s' Hl Hst H. subst items.
  apply Forall_app in Hwf as [Hpre [Ha _]%Forall_cons].
  rewrite length_app in Hlen. cbn in Hlen.
  apply (bitmap_item _ _ _ _ _ _ _ Hst Hpre Ha) in H as [?|(? & ? & ?)]; [left|right|lia]; eauto.
Qed.

(** The final report.  It leaves the state alone, never panics, and draws two
    snapshot ids; unless a write fails, it writes one atom of type 1 per bitmap of
    the snapshot, all with the first id, then one of type 2 per live bitmap, all
    with the second, and every live bitmap is written exactly once. *)
Theorem bitmap_on_finished_spec {O : HashOrder} (h : BitmapAllocationHandlerV1) tr o h'
    (H : exec (BitmapV1_on_finished h) tr (o, h')) :
  h' = h /\
  ((exists e, o = Val (Err e)) \/
   exists id1 id2,
     o = Val (Ok tt) /\ (existT Rng_gen_i64 id1 : ev) ∈ tr /\ (existT Rng_gen_i64 id2 : ev) ∈ tr /\
     codegen_atoms tr =
       map (snapshot_atom id1 1) (bh_bitmap_snapshot_at_max_size h) ++
       map (snapshot_atom id2 2) (bitmap_values (bh_bitmaps h))) /\
  bitmap_values (bh_bitmaps h) ≡ₚ (map_to_list (bh_bitmaps h)).*2.
Proof.
  assert (bitmap_values (bh_bitmaps h) ≡ₚ (map_to_list (bh_bitmaps h)).*2) as Hperm
    by (unfold bitmap_values; by rewrite map_iter_perm).
  destruct H as (id1 & t1 & -> & H).
  apply exec_mtry in H as [H|[(e & s1 & H & [= -> ->])|[(m & s1 & H & _)|(s1 & H & _)]]].
  - destruct H as (t2 & t3 & [] & s1 & -> & H1 & H2).
    apply exec_for_each_write_codegen in H1 as [-> [[_ Ht2]|(? & ? & ? & _)]]; [|done].
    destruct H2 as (id2 & t4 & -> & H2).
    apply exec_for_each_write_codegen in H2 as [-> [[-> Ht4]|(e & ? & -> & _)]]; [|naive_solver].
    split_and!; [done| |done]. right. exists id1, id2. split_and!; [done|set_solver|set_solver|].
    change (codegen_atoms (t2 ++ existT Rng_gen_i64 id2 :: t4) = map (snapshot_atom id1 1)
      (bh_bitmap_snapshot_at_max_size h) ++ map (snapshot_atom id2 2) (bitmap_values (bh_bitmaps h))).
    rewrite codegen_atoms_app. cbn. by rewrite Ht2, <- Ht4.
  - apply exec_for_each_write_codegen in H as [-> _]. naive_solver.
  - by apply exec_for_each_write_codegen in H as [_ [[? _]|(? & ? & ? & _)]].
  - by apply exec_for_each_write_codegen in H as [_ [[? _]|(? & ? & ? & _)]].
Qed.

(** ** Witnesses *)

Definition bitmap_item_of (ty ptr size : Z) : BitmapEvent :=
  {| be_type := ty; be_width := 100; be_height := 50; be_scaled_width := 0;
     be_scaled_height := 0; be_pixel_storage_type := 1; be_bitmap_size := size;
     be_native_ptr := ptr; be_activity_name := c_array 128 "com.example/.Main" |}.

Definition example_bitmap_items : list BitmapEvent :=
  [bitmap_item_of 2 0 0; bitmap_item_of 0 4096 2000; bitmap_item_of 0 8192 3000;
   bitmap_item_of 1 4096 2000; bitmap_item_of 7 0 0].

Definition bitmap_task : ResolvedTask :=
  {| rt_id := 1; rt_duration := from_secs 10; rt_resolved_process := some_process;
     rt_bpf_map_paths := ∅; rt_statsd_logging_config := None; rt_resolved_probes := [] |}.

Lemma bitmap_session_state_witness :
  exists tr h,
    exec (for_each example_bitmap_items
            (@BitmapV1_on_item target64 canonical_order bitmap_task) BitmapV1_default)
      tr (Val (Ok tt), h) /\
    @bitmap_state canonical_order bitmap_task example_bitmap_items h.
Proof.
  eexists _, _.
  assert (exec (for_each example_bitmap_items
    (@BitmapV1_on_item target64 canonical_order bitmap_task) BitmapV1_default) _ (Val (Ok tt), _))
    as H by run_in benign_env.
  split; [exact H|].
  assert (Forall wf_BitmapEvent example_bitmap_items) as Hwf
    by (repeat constructor; vm_compute; congruence).
  assert (Z.of_nat (length example_bitmap_items) <= 2147483647)%Z as Hlen
    by (vm_compute; congruence).
  destruct (@bitmap_session_state target64 canonical_order bitmap_task example_bitmap_items _ _ _
    Hwf Hlen H) as [[_ Hst]|[e He]]; [exact Hst|discriminate He].
Defined.

Lemma bitmap_on_finished_spec_witness :
  exists tr, exec (@BitmapV1_on_finished canonical_order
      (set_snapshot 9 [mkBitmapMetadata 456 100 50 1 ""] BitmapV1_default)) tr
      (Val (Ok tt), set_snapshot 9 [mkBitmapMetadata 456 100 50 1 ""] BitmapV1_default) /\
    exists id1, codegen_atoms tr = [snapshot_atom id1 1 (mkBitmapMetadata 456 100 50 1 "")].
Proof.
  eexists.
  assert (exec (@BitmapV1_on_finished canonical_order
      (set_snapshot 9 [mkBitmapMetadata 456 100 50 1 ""] BitmapV1_default)) _
      (Val (Ok tt), set_snapshot 9 [mkBitmapMetadata 456 100 50 1 ""] BitmapV1_default))
    as H by run_in benign_env.
  split; [exact H|].
  destruct (@bitmap_on_finished_spec canonical_order _ _ _ _ H)
    as (_ & [[e He]|(id1 & id2 & _ & _ & _ & Hat)] & _); [discriminate He|].
  exists id1. exact Hat.
Defined.
