(* ===== verification/BinderHandler.v ===== *)
(** * BinderHandler: reporting binder transactions
    ([daemon/core/bpf_handler/binder_transaction.rs])

    Each item is looked up in the filters of the task's probes; its method's
    configuration says which atom to write and whether to enqueue an event. *)

From S2P Require Import Prelude Effects RustStd Data System Fixtures Guardrail ConfigResolver Handler.

Local Open Scope rust_scope.
Local Open Scope string_scope.
Local Open Scope list_scope.

Record BinderTransactionHandler := mkBinderTransactionHandler {}.

(** [iter().filter_map(f).find_map(g)]. *)
Definition find_map {A B} (g : A -> option B) : list A -> option B :=
  fix go l := match l with
              | [] => None
              | a :: l' => match g a with Some b => Some b | None => go l' end
              end.

Definition find_method_config (task : ResolvedTask) (name : string) (code : Z) :
    option MethodConfig :=
  find_map (fun ic => get_method ic code)
    (omap (fun probe => pr_binder_transaction_filters probe !! name) (rt_resolved_probes task)).

(** The closure [write_to_statsd] maps over the positions. *)
Definition atom_field (uid : Z) (interface_name : string) (code timestamp_ns : Z)
    (position : AtomFieldPosition) : result Field :=
  match position with
  | AFP_CALLING_UID => Ok (Field_new_with_annotation (VInt32 uid) (IsUid true))
  | AFP_INTERFACE_NAME => Ok (Field_new (VString interface_name))
  | AFP_CODE => Ok (Field_new (VInt32 code))
  | AFP_KTIME_NS => Ok (Field_new (VInt64 timestamp_ns))
  | AFP_UNKNOWN => Err (EAnyhow "Unknown atom field position")
  end.

Definition write_to_statsd (atom_config : AtomConfig) (uid : Z) (interface_name : string)
    (code timestamp_ns : Z) : Sys BinderTransactionHandler (result unit) :=
  let? fields := mret (rmapM (atom_field uid interface_name code timestamp_ns)
                         (ac_atom_field_positions atom_config)) in
  write {| atom_id := ac_atom_id atom_config; atom_fields := fields |}.

Definition binder_event (uid timestamp_ms : Z) (interface_name : string) (code : Z) : BridgeEvent :=
  {| ev_uid := uid; ev_timestampMs := timestamp_ms; ev_payloadId := payload_id PBinderTransaction;
     ev_payload := [string_entry "INTERFACE_NAME" interface_name; int_entry "CODE" code] |}.

Definition enqueue_event (uid timestamp_ms : Z) (interface_name : string) (code : Z) (flush : bool) :
    Sys BinderTransactionHandler (result unit) :=
  let? _ := bridge_service_get in
  let? _ := enqueueEvent (binder_event uid timestamp_ms interface_name code) flush in
  mret (Ok tt).

Definition flush_of (c : EventServiceConfig) : bool :=
  match esc_mode c with Flush => true | Buffer => false end.

Definition BinderTransactionHandler_on_item (task : ResolvedTask) (item : BinderTransaction) :
    Sys BinderTransactionHandler (result unit) :=
  let? name := pure (bytes_as_nonempty_str (bt_interface_descriptor item)) in
  match find_method_config task name (bt_code item) with
  | None => mret (Err (EAnyhow
      "No config found for binder transaction: interface_descriptor={}, code={}"))
  | Some method_config =>
      let? code := mret (try_into I32 (bt_code item)) in
      let? _ :=
        match mc_atom_config method_config with
        | Some atom_config =>
            let? timestamp_ns := mret (try_into I64 (bt_timestamp_ns item)) in
            write_to_statsd atom_config (bt_calling_uid item) name code timestamp_ns
        | None => mret (Ok tt)
        end in
      match mc_event_service_config method_config with
      | Some event_service_config =>
          let! now := get_current_timestamp_millis in
          enqueue_event (bt_calling_uid item) now name code (flush_of event_service_config)
      | None => mret (Ok tt)
      end
  end.

#[export] Instance BinderTransactionHandler_Handler : Handler BinderTransactionHandler := {
  MAP_PATH := "/sys/fs/bpf/uprobestats/map_Binder_output_buf";
  PROG_PATH := Some "/sys/fs/bpf/uprobestats/prog_Binder_uprobe_exec_transact_internal";
  T := TyBinderTransaction;
  on_item := BinderTransactionHandler_on_item;
  on_finished := default_on_finished;
  handler_default := mkBinderTransactionHandler
}.

#[export] Instance BinderTransactionHandler_Laws : HandlerLaws BinderTransactionHandler.
Proof.
  split; [| |exact default_on_finished_errors];
    cbn [on_item on_finished BinderTransactionHandler_Handler];
    unfold BinderTransactionHandler_on_item, write_to_statsd, enqueue_event; sys_unfold;
    calls_only_run.
Qed.

(** ** Specification *)

(** The method the item is about is configured: the first probe, in order,
    whose filter for the interface lists the code. *)
Definition configured (task : ResolvedTask) (name : string) (code : Z) (mc : MethodConfig) : Prop :=
  exists before probe after ic,
    rt_resolved_probes task = before ++ probe :: after /\
    pr_binder_transaction_filters probe !! name = Some ic /\ get_method ic code = Some mc /\
    Forall (fun p => forall ic', pr_binder_transaction_filters p !! name = Some ic' ->
                     get_method ic' code = None) before.

(** The field a configured position stands for. *)
Inductive carries (name : string) (item : BinderTransaction) : AtomFieldPosition -> Field -> Prop :=
| carries_uid : carries name item AFP_CALLING_UID
    {| field_value := VInt32 (bt_calling_uid item); field_annotations := [IsUid true] |}
| carries_name : carries name item AFP_INTERFACE_NAME
    {| field_value := VString name; field_annotations := [] |}
| carries_code : carries name item AFP_CODE
    {| field_value := VInt32 (bt_code item); field_annotations := [] |}
| carries_time : carries name item AFP_KTIME_NS
    {| field_value := VInt64 (bt_timestamp_ns item); field_annotations := [] |}.

(** What is left to do once the atom is written: if the configuration asks for an
    event, the clock is read, and the bridge service is sent the event; it flushes
    exactly in the mode [Flush], and its answers decide the outcome. *)
Definition sends (name : string) (item : BinderTransaction) (config : option EventServiceConfig)
    (tr : list ev) (o : outcome (result unit)) : Prop :=
  match config with
  | None => tr = [] /\ o = Val (Ok tt)
  | Some c => exists now sent, tr = existT SystemTime_now_millis now :: sent /\
      ((~ (0 <= now <= ity_max I64)%Z /\ sent = [] /\ exists msg, o = Panics msg) \/
       ((0 <= now <= ity_max I64)%Z /\
        ((exists e, sent = [existT BridgeService_get (Err e) : ev] /\ o = Val (Err e)) \/
         exists u flush answer,
           sent = [existT BridgeService_get (Ok u) : ev;
                   existT (BS_enqueueEvent
                     {| ev_uid := bt_calling_uid item; ev_timestampMs := now; ev_payloadId := 1;
                        ev_payload := [string_entry "INTERFACE_NAME" name;
                                       int_entry "CODE" (bt_code item)] |} flush) answer] /\
           (flush = true <-> esc_mode c = Flush) /\ o = Val answer)))
  end.

(** What is done for an item of a configured method: the atom first, if one is
    wanted, and the event only after the writer accepted it. *)
Definition reported (name : string) (item : BinderTransaction) (mc : MethodConfig)
    (tr : list ev) (o : outcome (result unit)) : Prop :=
  match mc_atom_config mc with
  | None => sends name item (mc_event_service_config mc) tr o
  | Some ac =>
      if decide (AFP_UNKNOWN ∈ ac_atom_field_positions ac)
      then tr = [] /\ o = Val (Err (EAnyhow "Unknown atom field position"))
      else exists a answer rest,
        tr = existT (AtomWriter_write_unstructured a) answer :: rest /\
        atom_id a = ac_atom_id ac /\
        Forall2 (carries name item) (ac_atom_field_positions ac) (atom_fields a) /\
        match answer with
        | Err e => rest = [] /\ o = Val (Err e)
        | Ok _ => sends name item (mc_event_service_config mc) rest o
        end
  end.

(** ** Lemmas *)

Lemma find_method_config_Some task name code mc :
  find_method_config task name code = Some mc <-> configured task name code mc.
Proof.
  unfold find_method_config, configured. generalize (rt_resolved_probes task) as l.
  induction l as [|p l IH]; cbn.
  - split; [done|]. by intros ([|] & ? & ? & ? & ? & _).
  - split.
    + destruct (pr_binder_transaction_filters p !! name) as [ic|] eqn:Hp; cbn.
      * destruct (get_method ic code) as [m|] eqn:Hg.
        { intros [= ->]. exists [], p, l, ic. naive_solver. }
        intros (b & q & a & ic' & -> & Hq & Hc & HF)%IH.
        exists (p :: b), q, a, ic'. split_and!; [done..|]. constructor; [|done]. naive_solver.
      * intros (b & q & a & ic' & -> & Hq & Hc & HF)%IH.
        exists (p :: b), q, a, ic'. split_and!; [done..|]. constructor; [|done]. naive_solver.
    + intros ([|p' b] & q & a & ic' & Heq & Hq & Hc & HF); cbn in Heq; injection Heq as -> ->.
      * rewrite Hq. cbn. by rewrite Hc.
      * apply Forall_cons in HF as [Hp HF].
        assert (Hrec : find_map (fun ic => get_method ic code)
          (omap (fun probe => pr_binder_transaction_filters probe !! name) (b ++ q :: a)) = Some mc)
          by (apply IH; eauto 10).
        destruct (pr_binder_transaction_filters p' !! name) as [ic|] eqn:Hn; cbn; [|exact Hrec].
        rewrite (Hp ic eq_refl). exact Hrec.
Qed.

Lemma find_method_config_None task name code :
  find_method_config task name code = None <->
  Forall (fun p => forall ic, pr_binder_transaction_filters p !! name = Some ic ->
                   get_method ic code = None) (rt_resolved_probes task).
Proof.
  unfold find_method_config. generalize (rt_resolved_probes task) as l.
  induction l as [|p l IH]; cbn; [split; [constructor|done]|].
  rewrite Forall_cons, <- IH.
  destruct (pr_binder_transaction_filters p !! name) as [ic|] eqn:Hp; cbn; [|naive_solver].
  destruct (get_method ic code) eqn:Hg; naive_solver.
Qed.

Lemma configured_unique task name code mc mc' :
  configured task name code mc -> configured task name code mc' -> mc = mc'.
Proof. rewrite <- !find_method_config_Some. congruence. Qed.

(** The fields of the atom, when every position is known. *)
Lemma rmapM_atom_field name item l :
  match rmapM (atom_field (bt_calling_uid item) name (bt_code item) (bt_timestamp_ns item)) l with
  | Ok fields => AFP_UNKNOWN ∉ l /\ Forall2 (carries name item) l fields
  | Err e => AFP_UNKNOWN ∈ l /\ e = EAnyhow "Unknown atom field position"
  end.
Proof.
  induction l as [|p l IH]; cbn [rmapM]; [split; [apply not_elem_of_nil|constructor]|].
  destruct p; cbn; destruct (rmapM _ l) as [fields|e]; cbn in *;
    rewrite ?not_elem_of_cons, ?elem_of_cons;
    destruct IH as [IH1 IH2]; (split; [naive_solver|]); try done; by constructor; [constructor|].
Qed.

Lemma wp_sends name item config h :
  wp (match config with
      | Some c =>
          let! now := get_current_timestamp_millis in
          enqueue_event (bt_calling_uid item) now name (bt_code item) (flush_of c)
      | None => mret (Ok tt)
      end h)
    (fun tr x => sends name item config tr x.1).
Proof.
  destruct config as [c|]; [|done].
  unfold enqueue_event, sends. sys_unfold.
  wp_run; eexists _, _; (split; [reflexivity|]).
  all: repeat match goal with
    | H : try_into I64 _ = Ok _ |- _ => apply try_into_Ok in H as [-> ?]
    | H : try_into I64 _ = Err _ |- _ => apply try_into_Err in H as [_ ?]
    end.
  all: assert (ity_min I64 <= 0)%Z by (vm_compute; congruence); bool_simpl.
  - left. split_and!; [lia|done|eauto].
  - right. split; [lia|]. right. eexists _, (flush_of c), _. split; [reflexivity|].
    destruct a1. split; [unfold flush_of; by destruct (esc_mode c)|done].
  - right. split; [lia|]. right. eexists _, (flush_of c), _. split; [reflexivity|].
    split; [unfold flush_of; by destruct (esc_mode c)|done].
  - right. split; [lia|]. left. eauto.
  - left. split_and!; [lia|done|eauto].
Qed.

(** ** Properties *)

(** C33. Every branch of a binder transaction.  An item without an interface name,
    one that no probe of the task is configured for (the first probe that is wins),
    or whose code (or whose timestamp, when an atom is wanted) does not fit the
    signed type of the report, is the error that says so, and nothing is sent
    anywhere.  Otherwise the atom that the configuration asks for is written first,
    with one field per configured position: the caller's uid, annotated as one, the
    interface, the code, or the time; an unknown position is an error before
    anything is sent, and an atom that is refused ends in the writer's error with
    no event sent.  Then the event, if one is wanted, goes to the bridge service
    with the uid, the interface, the code and the current time, flushing exactly
    when the configuration says so, and the result is the service's answer. *)
Theorem binder_on_item_spec (task : ResolvedTask) (item : BinderTransaction) h tr o h'
    (H : exec (BinderTransactionHandler_on_item task item h) tr (o, h')) :
  match bytes_as_nonempty_str (bt_interface_descriptor item) with
  | Err e => tr = [] /\ o = Val (Err e)
  | Ok name =>
      ((forall mc, ~ configured task name (bt_code item) mc) /\ tr = [] /\
       o = Val (Err (EAnyhow
         "No config found for binder transaction: interface_descriptor={}, code={}"))) \/
      exists mc, configured task name (bt_code item) mc /\
        let fits := (ity_min I32 <= bt_code item <= ity_max I32)%Z /\
          (mc_atom_config mc <> None -> (ity_min I64 <= bt_timestamp_ns item <= ity_max I64)%Z) in
        (~ fits /\ tr = [] /\ o = Val (Err ETryFromInt)) \/
        (fits /\ reported name item mc tr o)
  end.
Proof.
  unfold BinderTransactionHandler_on_item, write_to_statsd in H. unfold pure, write in H.
  wp_start H.
  destruct (bytes_as_nonempty_str (bt_interface_descriptor item)) as [name|e]; [|done].
  wp_cbn. destruct (find_method_config task name (bt_code item)) as [mc|] eqn:Hf.
  2: { left. split; [|done]. intros mc Hmc%find_method_config_Some. congruence. }
  apply find_method_config_Some in Hf. wp_cbn.
  destruct (try_into I32 (bt_code item)) as [code|e] eqn:Hc.
  2: { right. exists mc. apply try_into_Err in Hc as [-> Hc]. split; [done|]. left. by split; [intros []|]. }
  apply try_into_Ok in Hc as [-> Hc]. wp_cbn.
  destruct (mc_atom_config mc) as [ac|] eqn:Hac; wp_cbn.
  2: { eapply wp_mono; [|apply wp_sends]. intros tr [o h'] Hs. right. exists mc. split; [done|].
       right. split; [split; [done|congruence]|]. unfold reported. by rewrite Hac. }
  destruct (try_into I64 (bt_timestamp_ns item)) as [ts|e] eqn:Hts.
  2: { right. exists mc. apply try_into_Err in Hts as [-> Hts]. split; [done|]. left.
       split; [|done]. intros [_ Hx]. apply Hts, Hx. congruence. }
  apply try_into_Ok in Hts as [-> Hts]. wp_cbn.
  pose proof (rmapM_atom_field name item (ac_atom_field_positions ac)) as Hfs.
  destruct (rmapM _ _) as [fields|e]; destruct Hfs as [Hun Hfs]; wp_cbn.
  2: { right. exists mc. split; [done|]. right. split; [by split|]. unfold reported. rewrite Hac.
       rewrite decide_True by done. by subst. }
  assert (forall answer rest o,
    match answer with
    | Err e => rest = [] /\ o = Val (Err e)
    | Ok _ => sends name item (mc_event_service_config mc) rest o
    end -> reported name item mc (existT (AtomWriter_write_unstructured
      {| atom_id := ac_atom_id ac; atom_fields := fields |}) answer :: rest) o) as Hrep.
  { intros answer rest o Hx. unfold reported. rewrite Hac, decide_False by done.
    eexists _, answer, rest. split_and!; [reflexivity|done..]. }
  intros [[]|e]; wp_cbn.
  - eapply wp_mono; [|apply wp_sends]. intros tr [o h'] Hs. right. exists mc. split; [done|].
    right. split; [by split|]. by apply Hrep.
  - right. exists mc. split; [done|]. right. split; [by split|]. by apply (Hrep (Err e) []).
Qed.

(** ** Witness *)

Definition binder_probe : ResolvedProbe :=
  {| pr_method_descriptor := mkMethodDescriptor "android.os.Binder" "execTransactInternal" [];
     pr_offsets := some_offsets;
     pr_bpf_program_path := prefix_bpf BINDER_BPF_PROGRAM_NAME;
     pr_binder_transaction_filters :=
       {[ "android.app.IFoo" := {| ic_methods := {[ 3%Z :=
            {| mc_event_service_config := Some {| esc_mode := Flush |};
               mc_atom_config := Some {| ac_atom_id := 1200;
                 ac_atom_field_positions := [AFP_CODE; AFP_CALLING_UID] |} |} ]} |} ]} |}.

Definition binder_task : ResolvedTask :=
  {| rt_id := 1; rt_duration := from_secs 10; rt_resolved_process := some_process;
     rt_bpf_map_paths := ∅; rt_statsd_logging_config := None;
     rt_resolved_probes := [binder_probe] |}.

Definition binder_item : BinderTransaction :=
  {| bt_interface_descriptor := c_array 128 "android.app.IFoo"; bt_code := 3;
     bt_calling_uid := 10050; bt_timestamp_ns := 77 |}.

Lemma binder_on_item_spec_witness :
  exists tr, exec (BinderTransactionHandler_on_item binder_task binder_item mkBinderTransactionHandler)
      tr (Val (Ok tt), mkBinderTransactionHandler) /\
    exists mc, configured binder_task "android.app.IFoo" 3 mc /\
      reported "android.app.IFoo" binder_item mc tr (Val (Ok tt)).
Proof.
  eexists.
  assert (exec (BinderTransactionHandler_on_item binder_task binder_item mkBinderTransactionHandler)
    _ (Val (Ok tt), mkBinderTransactionHandler)) as H by run_in benign_env.
  split; [exact H|].
  pose proof (@binder_on_item_spec binder_task binder_item _ _ _ _ H) as Hs.
  assert (bytes_as_nonempty_str (bt_interface_descriptor binder_item) = Ok "android.app.IFoo") as Hn
    by (vm_compute; reflexivity).
  rewrite Hn in Hs. destruct Hs as [(_ & [=] & _)|(mc & Hc & [(_ & [=] & _)|[_ Hr]])].
  exists mc. split; [exact Hc|exact Hr].
Defined.
