(* ===== verification/Disruptive.v ===== *)
(** * Disruptive: apps that disable launcher activities or bind with
    background-activity-launch privileges ([daemon/core/bpf_handler/disruptive_app.rs]) *)

From S2P Require Import Prelude Effects RustStd Data System Fixtures Handler.

Local Open Scope rust_scope.
Local Open Scope string_scope.
Local Open Scope list_scope.

(** ** Disabled components *)

Definition COMPONENT_ENABLED_STATE_DISABLED : Z := 2.

Record ComponentEnabledSettingHandler := mkComponentEnabledSettingHandler {}.

(** The two calls of [getUidForPackage] the handler chooses from. *)
Definition calling_package_of (calling_package_name : string) : string :=
  if String.eqb calling_package_name "shell" then "com.android.shell" else calling_package_name.

Definition check_disabled_launcher_activity_and_log_to_statsd (package_name class_name : string)
    (new_state : Z) (calling_package_name : string) :
    Sys ComponentEnabledSettingHandler (result bool) :=
  if (new_state <? COMPONENT_ENABLED_STATE_DISABLED)%Z then mret (Ok false)
  else
    let? _ := bridge_service_get in
    let? is_launcher_activity := isLauncherActivity package_name class_name true in
    let! user_build := is_user_build in
    let? _ :=
      if negb user_build then
        write_codegen (SetComponentEnabledSettingReported package_name class_name new_state
          calling_package_name is_launcher_activity)
      else mret (Ok tt) in
    let? _ :=
      if is_launcher_activity && negb (is_empty calling_package_name) then
        let? calling_uid := getUidForPackage (calling_package_of calling_package_name) in
        let? disabled_activity_uid := getUidForPackage package_name in
        write_codegen (DisabledLauncherActivityUidsReported calling_uid disabled_activity_uid)
      else mret (Ok tt) in
    mret (Ok is_launcher_activity).

Definition disabled_activity_event (uid timestamp_ms : Z)
    (package_name class_name calling_package_name : string) : BridgeEvent :=
  {| ev_uid := uid; ev_timestampMs := timestamp_ms;
     ev_payloadId := payload_id PDisabledLauncherActivity;
     ev_payload := [string_entry "PACKAGE_NAME" package_name;
                    string_entry "CLASS_NAME" class_name;
                    string_entry "CALLING_PACKAGE_NAME" calling_package_name] |}.

Definition ComponentEnabled_enqueue (package_name class_name calling_package_name : string) :
    Sys ComponentEnabledSettingHandler (result unit) :=
  let? _ := bridge_service_get in
  let? uid := getUidForPackage package_name in
  let! now := get_current_timestamp_millis in
  let? _ := enqueueEvent
    (disabled_activity_event uid now package_name class_name calling_package_name) false in
  mret (Ok tt).

Definition ComponentEnabled_on_item (task : ResolvedTask) (data : ComponentEnabledSetting) :
    Sys ComponentEnabledSettingHandler (result unit) :=
  if (ce_error_code data <? 0)%Z then
    mret (Err (EUprobeStats (BpfProgramError (ce_error_code data))))
  else
    let? package_name := pure (map_err (fun _ => EUprobeStats (BpfDataInvalid 1))
                                 (bytes_as_nonempty_str (ce_package_name data))) in
    let? class_name := pure (map_err (fun _ => EUprobeStats (BpfDataInvalid 2))
                               (bytes_as_nonempty_str (ce_class_name data))) in
    let new_state := ce_new_state data in
    let? calling_package_name := pure (bytes_as_str (ce_calling_package_name data)) in
    let? is_disabled_launcher_activity :=
      check_disabled_launcher_activity_and_log_to_statsd package_name class_name new_state
        calling_package_name in
    let? _ :=
      if is_disabled_launcher_activity : bool then
        ComponentEnabled_enqueue package_name class_name calling_package_name
      else mret (Ok tt) in
    mret (Ok tt).

#[export] Instance ComponentEnabled_Handler : Handler ComponentEnabledSettingHandler := {
  MAP_PATH := "/sys/fs/bpf/uprobestats/map_DisruptiveApp_ComponentEnabledSetting_output_buf";
  PROG_PATH := Some "/sys/fs/bpf/uprobestats/prog_DisruptiveApp_uprobe_set_component_enabled_setting";
  T := TyComponentEnabledSetting;
  on_item := ComponentEnabled_on_item;
  on_finished := default_on_finished;
  handler_default := mkComponentEnabledSettingHandler
}.

(** ** Binding with background-activity-launch flags *)

Definition BIND_ALLOW_BACKGROUND_ACTIVITY_STARTS : Z := 0x00100000.

Record BindServiceLockedHandler := mkBindServiceLockedHandler {}.

Definition has_bal_flag (flags : Z) : bool :=
  negb (Z.land flags BIND_ALLOW_BACKGROUND_ACTIVITY_STARTS =? 0)%Z.

Definition BindService_log_to_statsd (intent_package intent_action intent_component_name_package
    intent_component_name_class : string) (flags : Z) (calling_package : string) :
    Sys BindServiceLockedHandler (result unit) :=
  let! user_build := is_user_build in
  let? _ :=
    if negb user_build then
      write_codegen (BindServiceLockedWithBalFlagsReported intent_package flags calling_package
        intent_action intent_component_name_package intent_component_name_class)
    else mret (Ok tt) in
  let binder_package := calling_package in
  let bindee_package :=
    if negb (is_empty intent_package) then intent_package else intent_component_name_package in
  if negb (is_empty binder_package) && negb (is_empty bindee_package) then
    let? _ := bridge_service_get in
    let? binder_uid := getUidForPackage binder_package in
    let? bindee_uid := getUidForPackage bindee_package in
    let? _ := write_codegen (BindServiceLockedWithBalFlagsUidsReported binder_uid bindee_uid) in
    mret (Ok tt)
  else mret (Ok tt).

Definition bind_event (timestamp_ms : Z) (intent_package intent_action
    intent_component_name_package intent_component_name_class calling_package : string) :
    BridgeEvent :=
  {| ev_uid := 0; ev_timestampMs := timestamp_ms;
     ev_payloadId := payload_id PBindAllowBackgroundActivityStarts;
     ev_payload := [string_entry "CALLING_PACKAGE" calling_package;
                    string_entry "INTENT_PACKAGE" intent_package;
                    string_entry "INTENT_ACTION" intent_action;
                    string_entry "INTENT_COMPONENT_NAME_PACKAGE" intent_component_name_package;
                    string_entry "INTENT_COMPONENT_NAME_CLASS" intent_component_name_class] |}.

Definition BindService_enqueue (intent_package intent_action intent_component_name_package
    intent_component_name_class calling_package : string) :
    Sys BindServiceLockedHandler (result unit) :=
  let? _ := bridge_service_get in
  let! now := get_current_timestamp_millis in
  let? _ := enqueueEvent
    (bind_event now intent_package intent_action intent_component_name_package
       intent_component_name_class calling_package) false in
  mret (Ok tt).

Definition BindService_on_item (task : ResolvedTask) (data : BindServiceLocked) :
    Sys BindServiceLockedHandler (result unit) :=
  if (bs_error_code data <? 0)%Z then
    mret (Err (EUprobeStats (BpfProgramError (bs_error_code data))))
  else
    let? calling_package := pure (bytes_as_str (bs_calling_package data)) in
    let? intent_package := pure (bytes_as_str (bs_intent_package data)) in
    let? intent_action := pure (bytes_as_str (bs_intent_action data)) in
    let? intent_component_name_package :=
      pure (bytes_as_str (bs_intent_component_name_package data)) in
    let? intent_component_name_class :=
      pure (bytes_as_str (bs_intent_component_name_class data)) in
    let flags := bs_bind_flags data in
    if is_empty calling_package && is_empty intent_package && is_empty intent_action
       && is_empty intent_component_name_package && is_empty intent_component_name_class
    then mret (Err (EUprobeStats (BpfDataInvalid 1)))
    else if negb (has_bal_flag (bs_bind_flags data)) then mret (Ok tt)
    else
      let? _ := BindService_log_to_statsd intent_package intent_action
        intent_component_name_package intent_component_name_class (as_ity I64 flags)
        calling_package in
      let? _ := BindService_enqueue intent_package intent_action intent_component_name_package
        intent_component_name_class calling_package in
      mret (Ok tt).

#[export] Instance BindService_Handler : Handler BindServiceLockedHandler := {
  MAP_PATH := "/sys/fs/bpf/uprobestats/map_DisruptiveApp_BindServiceLocked_output_buf";
  PROG_PATH := Some "/sys/fs/bpf/uprobestats/prog_DisruptiveApp_uprobe_bind_service_locked";
  T := TyBindServiceLocked;
  on_item := BindService_on_item;
  on_finished := default_on_finished;
  handler_default := mkBindServiceLockedHandler
}.

#[export] Instance ComponentEnabled_Laws : HandlerLaws ComponentEnabledSettingHandler.
Proof.
  split; [| |exact default_on_finished_errors];
    cbn [on_item on_finished ComponentEnabled_Handler];
    unfold ComponentEnabled_on_item, check_disabled_launcher_activity_and_log_to_statsd,
      ComponentEnabled_enqueue; sys_unfold; cbn zeta; calls_only_run.
Qed.

#[export] Instance BindService_Laws : HandlerLaws BindServiceLockedHandler.
Proof.
  split; [| |exact default_on_finished_errors];
    cbn [on_item on_finished BindService_Handler];
    unfold BindService_on_item, BindService_log_to_statsd, BindService_enqueue; sys_unfold;
    cbn zeta; calls_only_run.
Qed.

(** ** Specification *)

(** The fields of an item, validated. *)
Definition component_fields (data : ComponentEnabledSetting) : result (string * string * string) :=
  if (ce_error_code data <? 0)%Z then Err (EUprobeStats (BpfProgramError (ce_error_code data)))
  else
    match bytes_as_nonempty_str (ce_package_name data) with
    | Err _ => Err (EUprobeStats (BpfDataInvalid 1))
    | Ok p =>
        match bytes_as_nonempty_str (ce_class_name data) with
        | Err _ => Err (EUprobeStats (BpfDataInvalid 2))
        | Ok c => let^ caller := bytes_as_str (ce_calling_package_name data) in Ok (p, c, caller)
        end
    end.

Record bind_fields := mkBindFields {
  bf_calling_package : string;
  bf_intent_package : string;
  bf_intent_action : string;
  bf_component_package : string;
  bf_component_class : string
}.

Definition bind_fields_of (data : BindServiceLocked) : result bind_fields :=
  if (bs_error_code data <? 0)%Z then Err (EUprobeStats (BpfProgramError (bs_error_code data)))
  else
    let^ a := bytes_as_str (bs_calling_package data) in
    let^ b := bytes_as_str (bs_intent_package data) in
    let^ c := bytes_as_str (bs_intent_action data) in
    let^ d := bytes_as_str (bs_intent_component_name_package data) in
    let^ e := bytes_as_str (bs_intent_component_name_class data) in
    if forallb is_empty [a; b; c; d; e] then Err (EUprobeStats (BpfDataInvalid 1))
    else Ok (mkBindFields a b c d e).

Definition bindee (f : bind_fields) : string :=
  if negb (is_empty (bf_intent_package f)) then bf_intent_package f else bf_component_package f.

(** The environment answered [x] to [c] in the exchange. *)
Definition answered (tr : list ev) (c : SysCall) (x : SysResp c) : Prop :=
  (existT (P := resp SysI) c x : ev) ∈ tr.

(** The build the daemon runs on, as the exchange shows it. *)
Definition on_user_build (tr : list ev) : Prop :=
  Forall (fun e : ev => match e with
                        | existT DeviceProperties_is_user_build b => b = true
                        | _ => True
                        end) tr.

(** Atoms that name packages, classes or intents; an activity is a class. *)
Definition names_package (a : CodegenAtom) : bool :=
  match a with
  | SetComponentEnabledSettingReported _ _ _ _ _
  | BindServiceLockedWithBalFlagsReported _ _ _ _ _ _
  | AndroidGraphicsBitmapScaled _ _ _ _ _ _ _
  | AndroidGraphicsBitmapAllocationSnapshot _ _ _ _ _ _ _ => true
  | DisabledLauncherActivityUidsReported _ _
  | BindServiceLockedWithBalFlagsUidsReported _ _
  | AndroidGraphicsBitmapAllocated _ _ _ => false
  end.

(** No such atom was handed to the writer, whatever it answered. *)
Definition no_package_names (tr : list ev) : Prop :=
  Forall (fun e : ev => match e with
                        | existT (AtomWriter_write_codegen a) _ => names_package a = false
                        | _ => True
                        end) tr.

(** The bit test of the handler. *)
Lemma has_bal_flag_spec (flags : Z) : has_bal_flag flags = Z.testbit flags 20.
Proof.
  unfold has_bal_flag, BIND_ALLOW_BACKGROUND_ACTIVITY_STARTS.
  change 0x00100000%Z with (2 ^ 20)%Z.
  destruct (Z.testbit flags 20) eqn:Hb.
  - apply negb_true_iff, Z.eqb_neq. intros H.
    apply (f_equal (fun z => Z.testbit z 20)) in H. rewrite Z.land_spec, Hb in H. done.
  - apply negb_false_iff, Z.eqb_eq. apply Z.bits_inj_iff'. intros n Hn.
    rewrite Z.land_spec, Z.bits_0, Z.pow2_bits_eqb by lia.
    destruct (Z.eqb_spec 20 n) as [<-|]; [by rewrite Hb|apply andb_false_r].
Qed.

(** A leaf of the privacy proof: the device said it is a user build, so the
    branch that names packages was not taken. *)
Ltac user_build_leaf :=
  match goal with Hub : on_user_build _ |- _ => unfold on_user_build in Hub end;
  repeat match goal with
  | H : Forall _ (_ :: _) |- _ => apply Forall_cons in H as [? H]
  end;
  bool_simpl; subst; try discriminate;
  unfold no_package_names; trace_cbn; repeat constructor.

(** A successful leaf: the equations on the trace determine the answers, which
    are then found in it. *)
Ltac in_trace := repeat first [apply list_elem_of_here | apply list_elem_of_further].

Ltac success_leaf :=
  split_and!;
  first [ solve [in_trace] | reflexivity
        | intros ?; first [ discriminate | split_and!; solve [in_trace] ] ].

(** ** Properties *)

Lemma component_private (task : ResolvedTask) data h tr o h' :
  exec (ComponentEnabled_on_item task data h) tr (o, h') -> on_user_build tr -> no_package_names tr.
Proof.
  intros H. unfold ComponentEnabled_on_item, check_disabled_launcher_activity_and_log_to_statsd,
    ComponentEnabled_enqueue in H. sys_unfold_in H. wp_start H. wp_run; user_build_leaf.
Qed.

Lemma bind_private (task : ResolvedTask) data h tr o h' :
  exec (BindService_on_item task data h) tr (o, h') -> on_user_build tr -> no_package_names tr.
Proof.
  intros H. unfold BindService_on_item, BindService_log_to_statsd, BindService_enqueue in H.
  sys_unfold_in H. wp_start H. wp_run; user_build_leaf.
Qed.

(** Privacy on user builds.  Whatever the item and the answers, if the device
    reports a user build, neither handler hands an atom with a package, class or
    intent name to statsd. *)
Theorem disruptive_user_build_privacy (task : ResolvedTask) :
  (forall data h tr o h', exec (ComponentEnabled_on_item task data h) tr (o, h') ->
     on_user_build tr -> no_package_names tr) /\
  (forall data h tr o h', exec (BindService_on_item task data h) tr (o, h') ->
     on_user_build tr -> no_package_names tr).
Proof. split; intros data h tr o h'; [apply component_private|apply bind_private]. Qed.

(** The refusals that end an item: of the bridge service or the writer. *)
Definition refused_with (e : error) (x : ev) : Prop :=
  match x with
  | existT BridgeService_get (Err e') => e' = e
  | existT (BS_isLauncherActivity _ _ _) (Err e') => e' = e
  | existT (BS_getUidForPackage _) (Err e') => e' = e
  | existT (BS_enqueueEvent _ _) (Err e') => e' = e
  | existT (AtomWriter_write_codegen _) (Err e') => e' = e
  | _ => False
  end.

(** C36. Every branch of a component-setting item.  A BPF error code, or a
    malformed package or class name, is the [UprobeStatsError] that says so, and
    nothing is sent.  A state below "disabled" (2) succeeds without effects.
    Otherwise success means: the package-naming atom was written exactly on
    non-user builds, with the item's strings and state; the uid atom exactly for a
    launcher activity with a known caller, with the uids the bridge gave for the
    caller, where "shell" stands for com.android.shell, and for the package; and
    one unflushed event, carrying the package, the class and the caller as the item
    has them, the package's uid and the current time, exactly for a launcher
    activity.  An error is the refusal of the last call made, and the only panic is
    a clock that does not fit an [i64]. *)
Theorem component_on_item_spec (task : ResolvedTask) (data : ComponentEnabledSetting) h tr o h'
    (H : exec (ComponentEnabled_on_item task data h) tr (o, h')) :
  match component_fields data with
  | Err e => tr = [] /\ o = Val (Err e)
  | Ok (pkg, cls, caller) =>
      if (ce_new_state data <? 2)%Z then tr = [] /\ o = Val (Ok tt)
      else match o with
      | Val (Ok _) => exists launcher user_build caller_uid pkg_uid event_uid now,
          answered tr (BS_isLauncherActivity pkg cls true) (Ok launcher) /\
          answered tr DeviceProperties_is_user_build user_build /\
          codegen_atoms tr =
            (if user_build : bool then []
             else [SetComponentEnabledSettingReported pkg cls (ce_new_state data) caller launcher]) ++
            (if launcher && negb (is_empty caller)
             then [DisabledLauncherActivityUidsReported caller_uid pkg_uid] else []) /\
          (launcher && negb (is_empty caller) = true ->
             answered tr (BS_getUidForPackage
               (if String.eqb caller "shell" then "com.android.shell" else caller)) (Ok caller_uid) /\
             answered tr (BS_getUidForPackage pkg) (Ok pkg_uid)) /\
          enqueued tr =
            (if launcher
             then [({| ev_uid := event_uid; ev_timestampMs := now; ev_payloadId := 2;
                       ev_payload := [string_entry "PACKAGE_NAME" pkg; string_entry "CLASS_NAME" cls;
                                      string_entry "CALLING_PACKAGE_NAME" caller] |}, false)]
             else []) /\
          (launcher = true -> answered tr (BS_getUidForPackage pkg) (Ok event_uid) /\
                              answered tr SystemTime_now_millis now)
      | Val (Err e) => match last tr with Some x => refused_with e x | None => False end
      | Panics _ => exists now, last tr = Some (existT SystemTime_now_millis now : ev) /\
          ~ (0 <= now <= ity_max I64)%Z
      | NoFuel => False
      end
  end.
Proof.
  unfold ComponentEnabled_on_item, check_disabled_launcher_activity_and_log_to_statsd,
    ComponentEnabled_enqueue in H. sys_unfold_in H. unfold component_fields. wp_start H.
  destruct (ce_error_code data <? 0)%Z; [cbn; done|].
  destruct (bytes_as_nonempty_str (ce_package_name data)) as [pkg|]; [|cbn; done].
  destruct (bytes_as_nonempty_str (ce_class_name data)) as [cls|]; [|cbn; done].
  destruct (bytes_as_str (ce_calling_package_name data)) as [caller|]; [|cbn; done].
  wp_cbn. change (ce_new_state data <? COMPONENT_ENABLED_STATE_DISABLED)%Z
    with (ce_new_state data <? 2)%Z.
  destruct (ce_new_state data <? 2)%Z; [cbn; done|].
  wp_cbn. intros [[]|e]; wp_cbn; [|done].
  intros [launcher|e]; wp_cbn; [|done]. intros user_build. wp_cbn.
  destruct user_build; cbn [negb]; [|wp_cbn; intros [[]|e]; wp_cbn; [|done]].
  all: destruct launcher; cbn [andb]; [destruct (is_empty caller) eqn:Hec; cbn [negb]|].
  all: wp_run; try done.
  all: try match goal with
    | H : try_into I64 _ = Ok _ |- _ => apply try_into_Ok in H as [-> _]
    | H : try_into I64 _ = Err _ |- _ => apply try_into_Err in H as [_ H]
    end.
  all: try solve [eexists; split; [reflexivity|];
    assert (ity_min I64 <= 0)%Z by (vm_compute; congruence); bool_simpl; lia].
  all: trace_cbn; unfold answered.
  all: eexists _, _, _, _, _, _; success_leaf.
  Unshelve. all: exact 0%Z.
Qed.

(** Every branch of a bind item.  A BPF error code or an item whose five
    strings are all empty is the [UprobeStatsError] that says so and sends
    nothing; an item without the background-activity-launch bit (bit 20)
    succeeds without effects.  Otherwise success means: the naming atom was
    written exactly on non-user builds, the uid atom exactly when both sides are
    known (the intent's package, else its component's, is the bound side), and
    one unflushed event carrying the five strings was sent. *)
Theorem bind_on_item_spec (task : ResolvedTask) (data : BindServiceLocked) h tr o h'
    (Hflags : (ity_min I64 <= bs_bind_flags data <= ity_max I64)%Z)
    (H : exec (BindService_on_item task data h) tr (o, h')) :
  match bind_fields_of data with
  | Err e => tr = [] /\ o = Val (Err e)
  | Ok f =>
      if negb (Z.testbit (bs_bind_flags data) 20) then tr = [] /\ o = Val (Ok tt)
      else
        o = Val (Ok tt) -> exists user_build binder_uid bindee_uid now,
          answered tr DeviceProperties_is_user_build user_build /\
          codegen_atoms tr =
            (if user_build : bool then []
             else [BindServiceLockedWithBalFlagsReported (bf_intent_package f) (bs_bind_flags data)
                     (bf_calling_package f) (bf_intent_action f) (bf_component_package f)
                     (bf_component_class f)]) ++
            (if negb (is_empty (bf_calling_package f)) && negb (is_empty (bindee f))
             then [BindServiceLockedWithBalFlagsUidsReported binder_uid bindee_uid] else []) /\
          (negb (is_empty (bf_calling_package f)) && negb (is_empty (bindee f)) = true ->
             answered tr (BS_getUidForPackage (bf_calling_package f)) (Ok binder_uid) /\
             answered tr (BS_getUidForPackage (bindee f)) (Ok bindee_uid)) /\
          enqueued tr =
            [(bind_event now (bf_intent_package f) (bf_intent_action f) (bf_component_package f)
                (bf_component_class f) (bf_calling_package f), false)] /\
          answered tr SystemTime_now_millis now
  end.
Proof.
  unfold BindService_on_item, BindService_log_to_statsd, BindService_enqueue in H.
  sys_unfold_in H. rewrite has_bal_flag_spec, (as_ity_id I64) in H by done.
  unfold bind_fields_of, bindee. wp_start H.
  destruct (bs_error_code data <? 0)%Z; [cbn; done|].
  destruct (bytes_as_str (bs_calling_package data)) as [a|]; [|cbn; done].
  destruct (bytes_as_str (bs_intent_package data)) as [b|]; [|cbn; done].
  destruct (bytes_as_str (bs_intent_action data)) as [c|]; [|cbn; done].
  destruct (bytes_as_str (bs_intent_component_name_package data)) as [d|]; [|cbn; done].
  destruct (bytes_as_str (bs_intent_component_name_class data)) as [e|]; [|cbn; done].
  wp_cbn. cbn [forallb]. rewrite andb_true_r, !andb_assoc.
  destruct (is_empty a && is_empty b && is_empty c && is_empty d && is_empty e); [cbn; done|].
  cbn [rbind bf_calling_package bf_intent_package bf_intent_action bf_component_package
    bf_component_class].
  destruct (Z.testbit (bs_bind_flags data) 20); cbn [negb]; [|cbn; done].
  wp_cbn. intros user_build.
  destruct user_build; cbn [negb]; [|wp_cbn; intros [[]|?]; wp_cbn; [|done]].
  all: match goal with
       | |- context [if negb (is_empty ?y) && negb (is_empty ?x) then _ else _] =>
           destruct (negb (is_empty y) && negb (is_empty x)) eqn:Hboth
       end.
  all: wp_run; try done.
  all: try match goal with H : try_into I64 _ = Ok _ |- _ => apply try_into_Ok in H as [-> _] end.
  all: trace_cbn; unfold answered.
  all: eexists _, _, _, _; success_leaf.
  Unshelve. all: exact 0%Z.
Qed.

(** ** Witnesses *)

Definition disruptive_task : ResolvedTask :=
  {| rt_id := 1; rt_duration := from_secs 10; rt_resolved_process := some_process;
     rt_bpf_map_paths := ∅; rt_statsd_logging_config := None; rt_resolved_probes := [] |}.

Definition component_item : ComponentEnabledSetting :=
  {| ce_error_code := 0; ce_package_name := c_array 128 "com.example";
     ce_class_name := c_array 128 "com.example.Main"; ce_new_state := 2;
     ce_calling_package_name := c_array 128 "shell" |}.

Definition bind_item : BindServiceLocked :=
  {| bs_error_code := 0; bs_intent_action := c_array 128 "";
     bs_intent_package := c_array 128 ""; bs_intent_component_name_package := c_array 128 "com.b";
     bs_intent_component_name_class := c_array 128 "com.b.S"; bs_bind_flags := 0x00100001;
     bs_calling_package := c_array 128 "com.a" |}.

(** A device that is not a user build. *)
Definition userdebug_env : Env SysI := fun c past =>
  match c return SysResp c with
  | DeviceProperties_is_user_build => false
  | c' => benign_env c' past
  end.

Lemma component_on_item_spec_witness :
  exists tr, exec (ComponentEnabled_on_item disruptive_task component_item mkComponentEnabledSettingHandler)
      tr (Val (Ok tt), mkComponentEnabledSettingHandler) /\
    exists launcher, answered tr (BS_isLauncherActivity "com.example" "com.example.Main" true) (Ok launcher).
Proof.
  eexists.
  assert (exec (ComponentEnabled_on_item disruptive_task component_item mkComponentEnabledSettingHandler)
    _ (Val (Ok tt), mkComponentEnabledSettingHandler)) as H by run_in userdebug_env.
  split; [exact H|].
  pose proof (@component_on_item_spec disruptive_task component_item _ _ _ _ H) as Hs.
  assert (component_fields component_item = Ok ("com.example", "com.example.Main", "shell"))
    as Hf by (vm_compute; reflexivity).
  rewrite Hf in Hs. destruct Hs as (launcher & _ & _ & _ & _ & _ & Hl & _).
  exists launcher. exact Hl.
Defined.

Lemma bind_on_item_spec_witness :
  exists tr, exec (BindService_on_item disruptive_task bind_item mkBindServiceLockedHandler)
      tr (Val (Ok tt), mkBindServiceLockedHandler) /\
    exists b, answered tr DeviceProperties_is_user_build b.
Proof.
  eexists.
  assert (exec (BindService_on_item disruptive_task bind_item mkBindServiceLockedHandler)
    _ (Val (Ok tt), mkBindServiceLockedHandler)) as H by run_in userdebug_env.
  split; [exact H|].
  assert (ity_min I64 <= bs_bind_flags bind_item <= ity_max I64)%Z as Hflags
    by (split; vm_compute; congruence).
  pose proof (@bind_on_item_spec disruptive_task bind_item _ _ _ _ Hflags H) as Hs.
  assert (bind_fields_of bind_item = Ok (mkBindFields "com.a" "" "" "com.b" "com.b.S"))
    as Hf by (vm_compute; reflexivity).
  rewrite Hf in Hs. destruct (Hs eq_refl) as (b & _ & _ & _ & Hb & _).
  exists b. exact Hb.
Defined.

Lemma disruptive_user_build_privacy_witness :
  exists tr, exec (ComponentEnabled_on_item disruptive_task component_item mkComponentEnabledSettingHandler)
      tr (Val (Ok tt), mkComponentEnabledSettingHandler) /\ no_package_names tr.
Proof.
  eexists.
  assert (exec (ComponentEnabled_on_item disruptive_task component_item mkComponentEnabledSettingHandler)
    _ (Val (Ok tt), mkComponentEnabledSettingHandler)) as H by run_in benign_env.
  split; [exact H|].
  refine (proj1 (@disruptive_user_build_privacy disruptive_task) _ _ _ _ _ H _).
  repeat constructor.
Defined.
