(* ===== verification/Generic.v ===== *)
(** * Generic: the handlers that log one configured atom per item
    ([daemon/core/bpf_handler/generic_instrumentation.rs],
    [daemon/core/bpf_handler/process_management.rs]) *)

From S2P Require Import Prelude Effects RustStd Data System Fixtures Handler.

Local Open Scope rust_scope.
Local Open Scope string_scope.
Local Open Scope list_scope.

Definition JAVA_ARGUMENT_REGISTER_OFFSET : Z := 2.

(** ** Generic instrumentation *)

Record CallTimestampHandler := mkCallTimestampHandler {}.

Definition CallTimestamp_on_item (task : ResolvedTask) (data : CallTimestamp) :
    Sys CallTimestampHandler (result unit) :=
  match rt_statsd_logging_config task with
  | None => mret (Ok tt)
  | Some statsd_logging_config =>
      let? atom_id := mret (logging_atom_id statsd_logging_config) in
      let? id := mret (try_into U32 atom_id) in
      let? _ := write {| atom_id := id;
                         atom_fields := [Field_new (VInt32 (as_ity I32 (ct_event data)));
                                         Field_new (VInt64 (as_ity I64 (ct_timestampNs data)))] |} in
      mret (Ok tt)
  end.

Record CallResultHandler := mkCallResultHandler {}.

(** The body of the loop over [primitive_argument_positions]. *)
Definition register_field {Tg : Target} (data : CallResult) (primitive_argument_position : Z) :
    outcome (result Field) :=
  obind (add_int I32 JAVA_ARGUMENT_REGISTER_OFFSET primitive_argument_position) (fun sum =>
  match try_into U64 sum with
  | Err e => Val (Err e)
  | Ok register_index =>
      obind (index_list (cr_regs data) (Z.to_nat register_index)) (fun raw =>
      Val (Ok (Field_new (VInt64 (as_ity I64 raw)))))
  end).

Definition CallResult_on_item {Tg : Target} (task : ResolvedTask) (data : CallResult) :
    Sys CallResultHandler (result unit) :=
  match rt_statsd_logging_config task with
  | None => mret (Ok tt)
  | Some statsd_logging_config =>
      let? atom_id := mret (logging_atom_id statsd_logging_config) in
      let? fields := collect (fun p => lift_outcome (register_field data p))
                       (slc_primitive_argument_positions statsd_logging_config) in
      let? id := mret (try_into U32 atom_id) in
      let? _ := write {| atom_id := id; atom_fields := fields |} in
      mret (Ok tt)
  end.

#[export] Instance CallTimestamp_Handler : Handler CallTimestampHandler := {
  MAP_PATH := "/sys/fs/bpf/uprobestats/map_GenericInstrumentation_call_timestamp_buf";
  PROG_PATH := Some "/sys/fs/bpf/uprobestats/prog_GenericInstrumentation_uprobe_call_timestamp";
  T := TyCallTimestamp;
  on_item := CallTimestamp_on_item;
  on_finished := default_on_finished;
  handler_default := mkCallTimestampHandler
}.

#[export] Instance CallResult_Handler {Tg : Target} : Handler CallResultHandler := {
  MAP_PATH := "/sys/fs/bpf/uprobestats/map_GenericInstrumentation_call_detail_buf";
  PROG_PATH := Some "/sys/fs/bpf/uprobestats/prog_GenericInstrumentation_uprobe_call_detail";
  T := TyCallResult;
  on_item := CallResult_on_item;
  on_finished := default_on_finished;
  handler_default := mkCallResultHandler
}.

(** ** Process management *)

Record SetUidTempAllowlistStateRecordHandler := mkSetUidTempAllowlistStateRecordHandler {}.

Definition SetUid_on_item (task : ResolvedTask) (data : SetUidTempAllowlistStateRecord) :
    Sys SetUidTempAllowlistStateRecordHandler (result unit) :=
  match rt_statsd_logging_config task with
  | None => mret (Ok tt)
  | Some statsd_logging_config =>
      let? atom_id := mret (logging_atom_id statsd_logging_config) in
      let? id := mret (try_into U32 atom_id) in
      let? uid := mret (try_into I32 (su_uid data)) in
      let? _ := write {| atom_id := id;
                         atom_fields := [Field_new (VInt32 uid);
                                         Field_new (VBool (su_onAllowlist data))] |} in
      mret (Ok tt)
  end.

Record UpdateDeviceIdleTempAllowlistRecordHandler := mkUpdateDeviceIdleTempAllowlistRecordHandler {}.

Definition UpdateDeviceIdle_on_item (task : ResolvedTask) (data : UpdateDeviceIdleTempAllowlistRecord) :
    Sys UpdateDeviceIdleTempAllowlistRecordHandler (result unit) :=
  match rt_statsd_logging_config task with
  | None => mret (Ok tt)
  | Some statsd_logging_config =>
      let? atom_id := mret (logging_atom_id statsd_logging_config) in
      let? id := mret (try_into U32 atom_id) in
      let? reason := pure (bytes_as_str (ud_reason data)) in
      let? _ := write {| atom_id := id;
                         atom_fields := [Field_new (VInt32 (ud_changing_uid data));
                                         Field_new (VBool (ud_adding data));
                                         Field_new (VInt64 (as_ity I64 (ud_duration_ms data)));
                                         Field_new (VInt32 (ud_type data));
                                         Field_new (VInt32 (ud_reason_code data));
                                         Field_new (VString reason);
                                         Field_new (VInt32 (ud_calling_uid data))] |} in
      mret (Ok tt)
  end.

#[export] Instance SetUid_Handler : Handler SetUidTempAllowlistStateRecordHandler := {
  MAP_PATH := "/sys/fs/bpf/uprobestats/map_ProcessManagement_output_buf";
  PROG_PATH := None;
  T := TySetUidTempAllowlistStateRecord;
  on_item := SetUid_on_item;
  on_finished := default_on_finished;
  handler_default := mkSetUidTempAllowlistStateRecordHandler
}.

#[export] Instance UpdateDeviceIdle_Handler : Handler UpdateDeviceIdleTempAllowlistRecordHandler := {
  MAP_PATH := "/sys/fs/bpf/uprobestats/map_ProcessManagement_update_device_idle_temp_allowlist_records";
  PROG_PATH := None;
  T := TyUpdateDeviceIdleTempAllowlistRecord;
  on_item := UpdateDeviceIdle_on_item;
  on_finished := default_on_finished;
  handler_default := mkUpdateDeviceIdleTempAllowlistRecordHandler
}.

#[export] Instance CallTimestamp_Laws : HandlerLaws CallTimestampHandler.
Proof.
  split; [| |exact default_on_finished_errors];
    cbn [on_item on_finished CallTimestamp_Handler]; unfold CallTimestamp_on_item;
    sys_unfold; calls_only_run.
Qed.

Lemma register_field_fuel {Tg : Target} data p : register_field data p <> NoFuel.
Proof.
  unfold register_field, add_int, checked, index_list.
  destruct (in_ity _ _), overflow_checks; cbn; try done; destruct (try_into _ _); cbn; try done;
    destruct (_ !! _); done.
Qed.

#[export] Instance CallResult_Laws {Tg : Target} : HandlerLaws CallResultHandler.
Proof.
  split; [| |exact default_on_finished_errors];
    cbn [on_item on_finished CallResult_Handler]; unfold CallResult_on_item;
    sys_unfold; calls_only_run; apply register_field_fuel.
Qed.

#[export] Instance SetUid_Laws : HandlerLaws SetUidTempAllowlistStateRecordHandler.
Proof.
  split; [| |exact default_on_finished_errors];
    cbn [on_item on_finished SetUid_Handler]; unfold SetUid_on_item;
    sys_unfold; calls_only_run.
Qed.

#[export] Instance UpdateDeviceIdle_Laws : HandlerLaws UpdateDeviceIdleTempAllowlistRecordHandler.
Proof.
  split; [| |exact default_on_finished_errors];
    cbn [on_item on_finished UpdateDeviceIdle_Handler]; unfold UpdateDeviceIdle_on_item;
    sys_unfold; calls_only_run.
Qed.

(** ** Specification *)

(** The contract these handlers share: nothing without a logging config, an
    error without an atom id; otherwise exactly one write, of the atom with that
    id and the item's fields, whose result is the handler's. *)
Definition logs_one_atom (task : ResolvedTask) (fields : result (list Field)) (tr : list ev)
    (o : outcome (result unit)) : Prop :=
  match rt_statsd_logging_config task with
  | None => tr = [] /\ o = Val (Ok tt)
  | Some c =>
      match slc_atom_id c, fields with
      | Some id, Ok fs =>
          if in_ity U32 id then
            exists r, tr = [existT (AtomWriter_write_unstructured
                              {| atom_id := id; atom_fields := fs |}) r : ev] /\ o = Val r
          else tr = [] /\ o = Val (Err ETryFromInt)
      | _, _ => tr = [] /\ exists e, o = Val (Err e)
      end
  end.

Ltac one_write :=
  first [ done | eexists; split; reflexivity | split; [done|eauto]
        | match goal with a : unit |- _ => destruct a; subst; eexists; split; reflexivity end ].

(** ** Properties *)

(** The handlers without argument capture.  Call timestamps, temp-allowlist
    changes and device-idle records each keep the shared contract, with the
    fields of the item in the atom's order: wrapping [as] conversions for the
    timestamps, a checked one for the uid, and the reason as a string. *)
Theorem simple_handlers_log_one_atom (task : ResolvedTask) :
  (forall data h tr o h', exec (CallTimestamp_on_item task data h) tr (o, h') ->
     logs_one_atom task
       (Ok [Field_new (VInt32 (as_ity I32 (ct_event data)));
            Field_new (VInt64 (as_ity I64 (ct_timestampNs data)))]) tr o) /\
  (forall data h tr o h', exec (SetUid_on_item task data h) tr (o, h') ->
     logs_one_atom task
       (let^ uid := try_into I32 (su_uid data) in
        Ok [Field_new (VInt32 uid); Field_new (VBool (su_onAllowlist data))]) tr o) /\
  (forall data h tr o h', exec (UpdateDeviceIdle_on_item task data h) tr (o, h') ->
     logs_one_atom task
       (let^ reason := bytes_as_str (ud_reason data) in
        Ok [Field_new (VInt32 (ud_changing_uid data)); Field_new (VBool (ud_adding data));
            Field_new (VInt64 (as_ity I64 (ud_duration_ms data)));
            Field_new (VInt32 (ud_type data)); Field_new (VInt32 (ud_reason_code data));
            Field_new (VString reason); Field_new (VInt32 (ud_calling_uid data))]) tr o).
Proof.
  unfold logs_one_atom. split_and!; intros data h tr o h' H;
    unfold CallTimestamp_on_item, SetUid_on_item, UpdateDeviceIdle_on_item, logging_atom_id in H;
    sys_unfold_in H; wp_start H;
    (destruct (rt_statsd_logging_config task) as [c|]; [|done]);
    (destruct (slc_atom_id c) as [id|]; cbn [ok_or]; [|cbn; eauto]);
    wp_cbn; change (try_into U32 id) with (if in_ity U32 id then Ok id else Err ETryFromInt).
  - destruct (in_ity U32 id); wp_run; one_write.
  - destruct (try_into I32 (su_uid data)), (in_ity U32 id); wp_run; one_write.
  - destruct (bytes_as_str (ud_reason data)), (in_ity U32 id); wp_run; one_write.
Qed.

(** ** Captured arguments *)

(** A captured value: the register of a Java argument position. *)
Definition captured (data : CallResult) (position : Z) : Field :=
  Field_new (VInt64 (as_ity I64 (nth (Z.to_nat (position + 2)) (cr_regs data) 0%Z))).

Definition position_ok (position : Z) : Prop := (-2 <= position <= 7)%Z.

(** [collect] of steps without effects. *)
Fixpoint ocollect {A B} (g : A -> outcome (result B)) (l : list A) : outcome (result (list B)) :=
  match l with
  | [] => Val (Ok [])
  | a :: l' =>
      match g a with
      | Val (Ok b) =>
          match ocollect g l' with
          | Val (Ok bs) => Val (Ok (b :: bs))
          | o => o
          end
      | Val (Err e) => Val (Err e)
      | Panics m => Panics m
      | NoFuel => NoFuel
      end
  end.

Lemma collect_lift {E S A B} (g : A -> outcome (result B)) (l : list A) (s : S) :
  collect (E := E) (fun a => lift_outcome (g a)) l s = Ret (ocollect g l, s).
Proof.
  induction l as [|a l IH]; [done|].
  cbn [collect ocollect]. unfold mtry at 1, mbind at 1, lift_outcome at 1. cbn [pbind].
  destruct (g a) as [[b|e]| |]; [|done..].
  unfold mtry at 1, mbind at 1. rewrite IH. cbn [pbind].
  by destruct (ocollect g l) as [[bs|e]| |].
Qed.

Section Captured.
Context {Tg : Target} (data : CallResult) (Hregs : length (cr_regs data) = 10%nat).

Lemma register_field_ok p : position_ok p -> register_field data p = Val (Ok (captured data p)).
Proof using Hregs.
  intros Hp. unfold position_ok in Hp. unfold register_field, add_int, checked,
    JAVA_ARGUMENT_REGISTER_OFFSET.
  assert (in_ity I32 (2 + p) = true) as -> by (apply in_ity_spec; cbn; lia). cbn [obind].
  unfold try_into. assert (in_ity U64 (2 + p) = true) as -> by (apply in_ity_spec; cbn; lia).
  unfold index_list.
  assert (Z.to_nat (2 + p) < length (cr_regs data)) as Hlt by lia.
  destruct (lookup_lt_is_Some_2 _ _ Hlt) as [x Hx]. rewrite Hx. cbn [obind].
  unfold captured. rewrite (Z.add_comm p 2).
  by rewrite nth_lookup, Hx.
Qed.

(** A position outside the registers never gives a field. *)
Lemma register_field_bad p : wf_i32 p -> ~ position_ok p ->
  (exists m, register_field data p = Panics m /\ (7 < p)%Z) \/
  (register_field data p = Val (Err ETryFromInt) /\
    ((p < -2)%Z \/ overflow_checks = false)).
Proof using Hregs.
  intros Hwf Hp. unfold position_ok, wf_i32 in *. unfold register_field, add_int, checked,
    JAVA_ARGUMENT_REGISTER_OFFSET.
  destruct (in_ity I32 (2 + p)) eqn:Hin.
  - cbn [obind]. unfold try_into. destruct (in_ity U64 (2 + p)) eqn:Hu.
    + apply in_ity_spec in Hu. cbn in Hu. left. unfold index_list.
      rewrite lookup_ge_None_2 by lia. cbn. eexists. split; [done|lia].
    + right. split; [done|]. left. apply not_true_iff_false in Hu. rewrite in_ity_spec in Hu.
      cbn in Hu. lia.
  - apply not_true_iff_false in Hin. rewrite in_ity_spec in Hin. cbn in Hin.
    destruct overflow_checks; [left; eexists; split; [done|lia]|]. right.
    assert (as_ity I32 (2 + p) = 2 + p - 4294967296)%Z as ->.
    { unfold as_ity. cbn. replace (2 + p - -2147483648)%Z
        with ((2 + p - 2147483648) + 1 * 4294967296)%Z by lia.
      change (2147483647 - -2147483648 + 1)%Z with 4294967296%Z.
      rewrite Z.mod_add, Z.mod_small by lia. lia. }
    cbn [obind]. unfold try_into.
    assert (in_ity U64 (2 + p - 4294967296) = false) as -> by
      (apply not_true_iff_false; rewrite in_ity_spec; cbn; lia).
    cbn. eauto.
Qed.

Lemma ocollect_registers ps : Forall wf_i32 ps ->
  (Forall position_ok ps /\ ocollect (register_field data) ps = Val (Ok (map (captured data) ps))) \/
  (~ Forall position_ok ps /\
    ((exists m, ocollect (register_field data) ps = Panics m /\ Exists (fun p => 7 < p)%Z ps) \/
     (ocollect (register_field data) ps = Val (Err ETryFromInt) /\
        (Exists (fun p => p < -2)%Z ps \/ overflow_checks = false)))).
Proof using Hregs.
  induction 1 as [|p ps Hp Hps IH]; cbn; [left; by split|].
  destruct (decide (-2 <= p <= 7)%Z) as [Hok|Hbad].
  - rewrite (register_field_ok p Hok). destruct IH as [[HF ->]|(HF & [(m & -> & He)|(-> & He)])].
    + left. split; [by constructor|done].
    + right. split; [by intros [_ ?]%Forall_cons|]. left. eauto.
    + right. split; [by intros [_ ?]%Forall_cons|]. right. split; [done|].
      destruct He; [by left; right|by right].
  - right. split; [by intros [? _]%Forall_cons|].
    destruct (register_field_bad p Hp Hbad) as [(m & -> & Hgt)|[-> He]].
    + left. eauto.
    + right. split; [done|]. destruct He; [by left; left|by right].
Qed.

End Captured.

(** Argument capture.  With a logging config, the positions -2 to 7 are the
    ten captured registers (argument 0 is register 2): if all are in that range
    the handler logs exactly one atom with the registers as [i64], in order.
    Otherwise nothing is ever written and the handler does not succeed: it panics
    when a position is past the last register, and returns the conversion error
    for one below -2 (or for an overflowing one in a build that wraps). *)
Theorem call_result_captures {Tg : Target} (task : ResolvedTask) (data : CallResult) c id h tr o h'
    (Hregs : length (cr_regs data) = 10%nat)
    (Hc : rt_statsd_logging_config task = Some c) (Hid : slc_atom_id c = Some id)
    (Hps : Forall wf_i32 (slc_primitive_argument_positions c))
    (H : exec (CallResult_on_item task data h) tr (o, h')) :
  (Forall position_ok (slc_primitive_argument_positions c) ->
     logs_one_atom task (Ok (map (captured data) (slc_primitive_argument_positions c))) tr o) /\
  (~ Forall position_ok (slc_primitive_argument_positions c) ->
     tr = [] /\
     ((exists m, o = Panics m /\ Exists (fun p => 7 < p)%Z (slc_primitive_argument_positions c)) \/
      (o = Val (Err ETryFromInt) /\
        (Exists (fun p => p < -2)%Z (slc_primitive_argument_positions c) \/
         overflow_checks = false)))).
Proof.
  unfold CallResult_on_item in H. sys_unfold_in H. unfold logs_one_atom. rewrite Hc in H |- *.
  unfold logging_atom_id in H. rewrite Hid in H |- *. cbn [ok_or] in H.
  rewrite exec_mtry_mret in H. unfold mtry at 1, mbind at 1 in H. rewrite collect_lift in H.
  cbn [pbind] in H.
  destruct (ocollect_registers data Hregs _ Hps) as [[HF Ho]|(HF & [(m & Ho & He)|(Ho & He)])];
    rewrite Ho in H; cbn [mret] in H.
  - split; [intros _|done]. rewrite exec_mtry_mret in H. unfold try_into in H.
    destruct (in_ity U32 id); [|by destruct H as [-> [= ->]]].
    wp_start H. wp_run; one_write.
  - split; [done|intros _]. destruct H as [-> [= ->]]. eauto.
  - split; [done|intros _]. destruct H as [-> [= ->]]. eauto.
Qed.

(** ** Witnesses *)

Definition logging_task (positions : list Z) : ResolvedTask :=
  {| rt_id := 1; rt_duration := from_secs 10; rt_resolved_process := some_process;
     rt_bpf_map_paths := ∅;
     rt_statsd_logging_config :=
       Some {| slc_atom_id := Some 900%Z; slc_primitive_argument_positions := positions |};
     rt_resolved_probes := [] |}.

Definition call_result_item : CallResult :=
  {| cr_pc := 4096; cr_regs := [100; 101; 102; 103; 104; 105; 106; 107; 108; 18446744073709551615]%Z |}.

Lemma call_result_captures_witness :
  exists tr r, exec (@CallResult_on_item target64 (logging_task [0; 7]%Z) call_result_item mkCallResultHandler)
      tr (Val r, mkCallResultHandler) /\
    logs_one_atom (logging_task [0; 7]%Z)
      (Ok [Field_new (VInt64 102); Field_new (VInt64 (-1))]) tr (Val r).
Proof.
  eexists _, _.
  assert (exec (@CallResult_on_item target64 (logging_task [0; 7]%Z) call_result_item mkCallResultHandler)
    _ (Val _, mkCallResultHandler)) as H by run_in benign_env.
  split; [exact H|].
  assert (Forall wf_i32 [0; 7]%Z) as Hps by (repeat constructor; vm_compute; congruence).
  assert (Forall position_ok [0; 7]%Z) as Hok by (repeat constructor; vm_compute; congruence).
  exact (proj1 (@call_result_captures target64 (logging_task [0; 7]%Z) call_result_item
    _ 900%Z _ _ _ _ eq_refl eq_refl eq_refl Hps H) Hok).
Defined.

Lemma simple_handlers_log_one_atom_witness :
  exists tr, exec (CallTimestamp_on_item (logging_task []) {| ct_event := 3; ct_timestampNs := 9 |}
        mkCallTimestampHandler) tr (Val (Ok tt), mkCallTimestampHandler) /\
    logs_one_atom (logging_task []) (Ok [Field_new (VInt32 3); Field_new (VInt64 9)]) tr (Val (Ok tt)).
Proof.
  eexists.
  assert (exec (CallTimestamp_on_item (logging_task []) {| ct_event := 3; ct_timestampNs := 9 |}
    mkCallTimestampHandler) _ (Val (Ok tt), mkCallTimestampHandler)) as H by run_in benign_env.
  split; [exact H|].
  exact (proj1 (@simple_handlers_log_one_atom (logging_task [])) _ _ _ _ _ H).
Defined.
