(* ===== verification/ArtTest.v ===== *)
(** * ArtTest: the handlers that check method identifiers in tests
    ([daemon/core/bpf_handler/art_test.rs]; registered with feature art-test only) *)

From S2P Require Import Prelude Effects RustStd Data System Fixtures Guardrail ConfigResolver Handler.

Local Open Scope rust_scope.
Local Open Scope string_scope.
Local Open Scope list_scope.

(** [DefaultHasher]: an unspecified function from strings to [u64]. *)
Class StringHash := {
  default_hash : string -> Z;
  default_hash_u64 : forall s, wf_u64 (default_hash s)
}.

Definition string_to_i64_hash {SH : StringHash} (s : string) : Z := as_ity I64 (default_hash s).

(** [assert_eq!(a, b)]. *)
Definition assert_eq {S} (a b : Z) : Sys S unit :=
  if (a =? b)%Z then mret tt else panic "assertion `left == right` failed".

(** [task.resolved_probes\[0\].offsets.method_identifier()]. *)
Definition api_method_identifier {Tg : Target} (task : ResolvedTask) : outcome Z :=
  obind (index_list (rt_resolved_probes task) 0) (fun probe => method_identifier (pr_offsets probe)).

Section ArtTest.
Context {Tg : Target} {SH : StringHash}.

Record JitHandler := mkJitHandler {}.

Definition Jit_on_item (task : ResolvedTask) (item : StartActivityAsUser) :
    Sys JitHandler (result unit) :=
  let? calling_package := pure (bytes_as_str (sa_calling_package item)) in
  let! api := lift_outcome (api_method_identifier task) in
  let! _ := assert_eq api (sa_method_identifier item) in
  match rt_statsd_logging_config task with
  | None => mret (Ok tt)
  | Some statsd_logging_config =>
      let? atom_id := mret (logging_atom_id statsd_logging_config) in
      let! id := lift_outcome (unwrap (try_into U32 atom_id)) in
      let? _ := write {| atom_id := id;
                         atom_fields :=
                           [Field_new (VInt64 (sa_validate_incoming_user item));
                            Field_new (VInt64 (sa_user_id item));
                            Field_new (VInt64 (string_to_i64_hash calling_package))] |} in
      mret (Ok tt)
  end.

Record AotHandler := mkAotHandler {}.

(** The reason is read twice: as an argument of [debug!], evaluated only when
    debug logging is on, and for the atom. *)
Definition Aot_on_item (task : ResolvedTask) (item : UpdateDeviceIdleTempAllowlistRecord) :
    Sys AotHandler (result unit) :=
  let! api := lift_outcome (api_method_identifier task) in
  let! debug := log_debug_enabled in
  let? _ := if debug : bool then pure (bytes_as_str (ud_reason item)) else mret (Ok EmptyString) in
  let! _ := assert_eq api (ud_method_identifier item) in
  match rt_statsd_logging_config task with
  | None => mret (Ok tt)
  | Some statsd_logging_config =>
      let? atom_id := mret (logging_atom_id statsd_logging_config) in
      let? reason := pure (bytes_as_str (ud_reason item)) in
      let? id := mret (try_into U32 atom_id) in
      let? _ := write {| atom_id := id;
                         atom_fields :=
                           [Field_new (VInt64 (if ud_adding item then 1 else 0));
                            Field_new (VInt64 (ud_reason_code item));
                            Field_new (VInt64 (string_to_i64_hash reason))] |} in
      mret (Ok tt)
  end.

End ArtTest.

#[export] Instance Jit_Handler {Tg : Target} {SH : StringHash} : Handler JitHandler := {
  MAP_PATH := "/sys/fs/bpf/uprobestats/map_ArtTest_output_buf_jit";
  PROG_PATH := None;
  T := TyStartActivityAsUser;
  on_item := Jit_on_item;
  on_finished := default_on_finished;
  handler_default := mkJitHandler
}.

#[export] Instance Aot_Handler {Tg : Target} {SH : StringHash} : Handler AotHandler := {
  MAP_PATH := "/sys/fs/bpf/uprobestats/map_ArtTest_output_buf_aot";
  PROG_PATH := None;
  T := TyUpdateDeviceIdleTempAllowlistRecord;
  on_item := Aot_on_item;
  on_finished := default_on_finished;
  handler_default := mkAotHandler
}.

Lemma api_method_identifier_fuel {Tg : Target} task : api_method_identifier task <> NoFuel.
Proof.
  unfold api_method_identifier, index_list, method_identifier, add_int, checked.
  destruct (_ !! _); cbn; [|done]. destruct (ends_with _ _); [done|].
  destruct (in_ity _ _), overflow_checks; done.
Qed.

Lemma unwrap_fuel {A} (r : result A) : unwrap r <> NoFuel.
Proof. by destruct r. Qed.

#[export] Instance Jit_Laws {Tg : Target} {SH : StringHash} : HandlerLaws JitHandler.
Proof.
  split; [| |exact default_on_finished_errors];
    cbn [on_item on_finished Jit_Handler]; unfold Jit_on_item, assert_eq;
    sys_unfold; calls_only_run; first [apply api_method_identifier_fuel | apply unwrap_fuel].
Qed.

#[export] Instance Aot_Laws {Tg : Target} {SH : StringHash} : HandlerLaws AotHandler.
Proof.
  split; [| |exact default_on_finished_errors];
    cbn [on_item on_finished Aot_Handler]; unfold Aot_on_item, assert_eq;
    sys_unfold; calls_only_run; apply api_method_identifier_fuel.
Qed.

(** ** Properties *)

(** An atom of the test handlers certifies the method identifier.  Whenever
    either handler writes an atom, or returns without panicking or an error, the
    identifier the BPF program saw is the one computed from the first resolved
    probe's offsets; a task without probes always panics or errors. *)
Theorem art_test_atom_certifies_method {Tg : Target} {SH : StringHash} (task : ResolvedTask) :
  (forall item h tr o h', exec (Jit_on_item task item h) tr (o, h') ->
     atoms tr <> [] \/ o = Val (Ok tt) ->
     api_method_identifier task = Val (sa_method_identifier item)) /\
  (forall item h tr o h', exec (Aot_on_item task item h) tr (o, h') ->
     atoms tr <> [] \/ o = Val (Ok tt) ->
     api_method_identifier task = Val (ud_method_identifier item)).
Proof.
  split; intros item h tr o h' H; unfold Jit_on_item, Aot_on_item, assert_eq in H;
    sys_unfold_in H; wp_start H.
  - destruct (bytes_as_str (sa_calling_package item)); [|cbn; intros [?|?]; done].
    destruct (api_method_identifier task) as [api|m|]; [|cbn; intros [?|?]; done..].
    wp_cbn. destruct (Z.eqb_spec api (sa_method_identifier item)) as [->|_].
    + eapply wp_mono; [|apply wp_exec]; [intros ? ? _ _; reflexivity|]. done.
    + cbn. intros [?|?]; done.
  - destruct (api_method_identifier task) as [api|m|]; [|cbn; intros [?|?]; done..].
    wp_cbn. intros debug.
    destruct (Z.eqb_spec api (ud_method_identifier item)) as [->|_].
    + eapply wp_mono; [|apply wp_exec]; [intros ? ? _ _; reflexivity|]. done.
    + destruct debug; [destruct (bytes_as_str (ud_reason item))|]; cbn; intros [?|?]; done.
Qed.

(** ** Witness *)

Definition constant_hash : StringHash.
Proof. refine {| default_hash := fun _ => 5%Z |}. intros _; split; vm_compute; congruence. Defined.

Definition art_task : ResolvedTask :=
  {| rt_id := 1; rt_duration := from_secs 10; rt_resolved_process := some_process;
     rt_bpf_map_paths := ∅;
     rt_statsd_logging_config :=
       Some {| slc_atom_id := Some 900%Z; slc_primitive_argument_positions := [] |};
     rt_resolved_probes :=
       [{| pr_method_descriptor := mkMethodDescriptor "A" "b" []; pr_offsets := some_offsets;
           pr_bpf_program_path := "p"; pr_binder_transaction_filters := ∅ |}] |}.

Definition jit_item : StartActivityAsUser :=
  {| sa_method_identifier := 1234; sa_calling_package := c_array 16 "a"; sa_request_code := 0;
     sa_start_flags := 0; sa_user_id := 0; sa_validate_incoming_user := 1; sa_x0 := 0 |}.

Lemma art_test_atom_certifies_method_witness :
  exists tr, exec (@Jit_on_item target64 constant_hash art_task jit_item mkJitHandler) tr
      (Val (Ok tt), mkJitHandler) /\
    @api_method_identifier target64 art_task = Val (sa_method_identifier jit_item).
Proof.
  eexists.
  assert (exec (@Jit_on_item target64 constant_hash art_task jit_item mkJitHandler) _
    (Val (Ok tt), mkJitHandler)) as H by run_in benign_env.
  split; [exact H|].
  exact (proj1 (@art_test_atom_certifies_method target64 constant_hash art_task) _ _ _ _ _ H
    (or_intror eq_refl)).
Defined.
