(* ===== verification/TestKit.v ===== *)
(** * TestKit: running the unit tests of the source on the model

    The test modules of [daemon/core] drive a handler, or the resolver, against test
    doubles: a writer that keeps the atoms, a bridge service that answers as the
    test expects it to be called, fixed device properties, mocked resolvers.  Here
    a test is a predicate transformer over the handler's state and the doubles;
    [passes] says that it ends without a panic, an unexpected call or a failed
    assertion, whatever the calls answer that no double stands for. *)

From S2P Require Import Prelude Effects RustStd Data System Fixtures Handler.

Local Open Scope rust_scope.
Local Open Scope list_scope.

(** ** Test doubles *)

(** What a mock accepts, with its answer, and how often it has still to be called
    ([None]: any number of times). *)
Record Expectation := mkExpectation {
  ex_answer : forall c : SysCall, option (SysResp c);
  ex_times : option nat
}.

(** The doubles of one test: [TestAtomWriter], [TestDeviceProperties] and the
    expectations of the mocks, in the order they were set. *)
Record Doubles := mkDoubles {
  written : list UnstructuredAtom;
  codegen_written : list CodegenAtom;
  double_is_user_build : bool;
  expected : list Expectation
}.

Definition set_written (l : list UnstructuredAtom) (w : Doubles) : Doubles :=
  mkDoubles l (codegen_written w) (double_is_user_build w) (expected w).
Definition set_codegen_written (l : list CodegenAtom) (w : Doubles) : Doubles :=
  mkDoubles (written w) l (double_is_user_build w) (expected w).
Definition set_expected (l : list Expectation) (w : Doubles) : Doubles :=
  mkDoubles (written w) (codegen_written w) (double_is_user_build w) l.

(** A call is answered by the first expectation that accepts it and is not used up. *)
Fixpoint answer_expected (c : SysCall) (l : list Expectation) :
    option (SysResp c * list Expectation) :=
  match l with
  | [] => None
  | e :: l' =>
      match ex_times e, ex_answer e c with
      | None, Some r => Some (r, e :: l')
      | Some (S n), Some r => Some (r, mkExpectation (ex_answer e) (Some n) :: l')
      | _, _ => match answer_expected c l' with Some (r, l2) => Some (r, e :: l2) | None => None end
      end
  end.

(** No double stands for the clock (it reads some time after the epoch) and the
    random generator (any number). *)
Inductive Reply (c : SysCall) : Type :=
| Answers (r : SysResp c) (w : Doubles)
| Whatever (w : Doubles)
| Unexpected.
Arguments Answers {c} r w.
Arguments Whatever {c} w.
Arguments Unexpected {c}.

Definition reply (w : Doubles) (c : SysCall) : Reply c :=
  match c return Reply c with
  | AtomWriter_write_unstructured atom =>
      @Answers (AtomWriter_write_unstructured atom) (Ok tt) (set_written (written w ++ [atom]) w)
  | AtomWriter_write_codegen atom =>
      @Answers (AtomWriter_write_codegen atom) (Ok tt)
        (set_codegen_written (codegen_written w ++ [atom]) w)
  | BridgeService_get => @Answers BridgeService_get (Ok tt) w
  | DeviceProperties_is_user_build =>
      @Answers DeviceProperties_is_user_build (double_is_user_build w) w
  | SystemTime_now_millis => @Answers SystemTime_now_millis 1700000000000%Z w
  | Rng_gen_i64 => Whatever w
  | c' =>
      match answer_expected c' (expected w) with
      | Some (r, l) => Answers r (set_expected l w)
      | None => Unexpected
      end
  end.

(** Run against the doubles: every result they allow satisfies [Q]. *)
Fixpoint doubled {A} (p : Prog SysI A) (w : Doubles) (Q : A -> Doubles -> Prop) : Prop :=
  match p with
  | Ret a => Q a w
  | Vis c k =>
      match reply w c with
      | Answers r w' => doubled (k r) w' Q
      | Whatever w' => forall r, doubled (k r) w' Q
      | Unexpected => False
      end
  end.

(** ** Tests *)

(** What must hold of the handler and the doubles for the rest to pass. *)
Definition Test (H A : Type) : Type := (A -> H * Doubles -> Prop) -> H * Doubles -> Prop.

Section Test.
Context {H : Type}.

Definition tret {A} (a : A) : Test H A := fun Q => Q a.
Definition tbind {A B} (t : Test H A) (k : A -> Test H B) : Test H B := fun Q => t (fun a => k a Q).

(** A call of a method; it must not panic. *)
Definition method {A} (m : Sys H A) : Test H A := fun Q '(h, w) =>
  doubled (m h) w (fun '(o, h') w' =>
    match o with Val a => Q a (h', w') | _ => False end).

(** [m?] and [m.unwrap()]. *)
Definition tries {A} (m : Sys H (result A)) : Test H A := fun Q =>
  method m (fun r s => match r with Ok a => Q a s | Err _ => False end).

(** [assert!(..)]. *)
Definition asserts (b : bool) : Test H unit := fun Q s => b = true /\ Q tt s.

Definition the_doubles : Test H Doubles := fun Q s => Q s.2 s.

(** [written.clear()]. *)
Definition clear_written : Test H unit := fun Q '(h, w) =>
  Q tt (h, set_codegen_written [] (set_written [] w)).

(** The test ends; the mocks verify that they were called. *)
Definition satisfied (e : Expectation) : bool :=
  match ex_times e with Some (S _) => false | _ => true end.

Definition passes (handler : H) (w : Doubles) (t : Test H unit) : Prop :=
  t (fun _ '(_, w') => forallb satisfied (expected w') = true) (handler, w).

End Test.

Arguments Test H A : clear implicits.

Notation "'do!' x ':=' t 'in' k" := (tbind t (fun x => k))
  (at level 10, x pattern, t at level 100, k at level 200) : rust_scope.

(** A fresh set of doubles. *)
Definition doubles (mocks : list Expectation) : Doubles :=
  mkDoubles [] [] false mocks.
Definition doubles_on (is_user_build : bool) (mocks : list Expectation) : Doubles :=
  mkDoubles [] [] is_user_build mocks.

(** [expect_m().with(eq(..)).returning(..)], and [.times(n)] of it. *)
Definition times (n : nat) (e : Expectation) : Expectation :=
  mkExpectation (ex_answer e) (Some n).
Definition once : Expectation -> Expectation := times 1.

Definition expect_getUidForPackage (name : string) (r : result Z) : Expectation :=
  mkExpectation (fun c => match c return option (SysResp c) with
    | BS_getUidForPackage n => if String.eqb n name then Some r else None
    | _ => None
    end) None.

Definition expect_packageHasEnabledAccessibilityService (name : string) (r : result bool) :
    Expectation :=
  mkExpectation (fun c => match c return option (SysResp c) with
    | BS_packageHasEnabledAccessibilityService n => if String.eqb n name then Some r else None
    | _ => None
    end) None.

Definition expect_isLauncherActivity (r : result bool) : Expectation :=
  mkExpectation (fun c => match c return option (SysResp c) with
    | BS_isLauncherActivity _ _ _ => Some r
    | _ => None
    end) None.

Definition expect_enqueueEvent (matches : BridgeEvent -> bool -> bool) : Expectation :=
  mkExpectation (fun c => match c return option (SysResp c) with
    | BS_enqueueEvent event flush => if matches event flush then Some (Ok tt) else None
    | _ => None
    end) None.

(** [event.payload.iter().any(|e| e.key == key && matches!(&e.value, ..))]. *)
Definition has_string (event : BridgeEvent) (key value : string) : bool :=
  existsb (fun e => String.eqb (entry_key e) key &&
    match entry_value e with StringValue s => String.eqb s value | IntValue _ => false end)
    (ev_payload event).

Definition has_int (event : BridgeEvent) (key : string) (value : Z) : bool :=
  existsb (fun e => String.eqb (entry_key e) key &&
    match entry_value e with IntValue v => (v =? value)%Z | StringValue _ => false end)
    (ev_payload event).

Definition is_err {A} (r : result A) : bool := negb (is_ok r).

(** [Status::new_service_specific_error(-1, None)]; the exception code is the binder
    runtime's [EX_SERVICE_SPECIFIC]. *)
Definition service_specific_status : error := EStatus {| exception_code := -8; service_specific_error := -1 |}.

(** The other order in which a hash map of two entries may be walked. *)
Definition reversed_order : HashOrder.
Proof.
  refine {| map_iter := fun K V _ _ m => rev (map_to_list m);
            set_iter := fun K _ _ s => rev (elements s) |};
    intros; symmetry; apply Permutation_rev.
Defined.

(** A test runs by evaluation; what no double answers stays arbitrary. *)
Ltac run_test := vm_compute; repeat first [reflexivity | split | intros ?].
