(* ===== verification/TestAccessibility.v ===== *)
(** * TestAccessibility: the unit tests of [core/bpf_handler/accessibility.rs] *)

From S2P Require Import Prelude Effects RustStd Data System Fixtures Handler Accessibility TestKit.

Local Open Scope rust_scope.
Local Open Scope string_scope.
Local Open Scope list_scope.

Definition TEST_PACKAGE_NAME : string := "pkg.name".
Definition TEST_PERMISSION_NAME : string := "android.permission.A".
Definition TEST_UID : Z := 123.
Definition TEST_A11Y_CODE : Z := 456.

Definition a11y_handler : AccessibilityHandler := {| ah_events := ∅ |}.

Definition a11y_task : ResolvedTask :=
  {| rt_id := 1; rt_duration := from_secs 0;
     rt_resolved_process := {| rp_pid := 0; rp_uid := TEST_UID; rp_name := TEST_PACKAGE_NAME |};
     rt_bpf_map_paths := ∅; rt_statsd_logging_config := None; rt_resolved_probes := [] |}.

Definition create_permission_event (pkg_name perm_name : string) (timestamp : Z) : AccessibilityEvent :=
  {| ae_error_code := 0; ae_timestamp_ns := timestamp; ae_variant := 1;
     ae_package_name := c_array 128 pkg_name; ae_permission_name := c_array 128 perm_name;
     ae_uid := 0; ae_code := 0 |}.

Definition create_a11y_event (uid code timestamp : Z) : AccessibilityEvent :=
  {| ae_error_code := 0; ae_timestamp_ns := timestamp; ae_variant := 2;
     ae_package_name := c_array 128 ""; ae_permission_name := c_array 128 "";
     ae_uid := uid; ae_code := code |}.

Definition expect_enqueue_a11y_event (uid timestamp code : Z) : Expectation :=
  once (expect_enqueueEvent (fun event flush =>
    negb flush && (ev_uid event =? uid)%Z && (ev_timestampMs event =? as_millis timestamp)%Z &&
    (ev_payloadId event =? payload_id PBinderTransaction)%Z &&
    has_int event "CODE" code &&
    has_string event "INTERFACE_NAME" "android.accessibilityservice.IAccessibilityServiceConnection")).

Definition expect_enqueue_permission_grant_event (uid timestamp : Z) (permission_name : string) :
    Expectation :=
  once (expect_enqueueEvent (fun event flush =>
    negb flush && (ev_uid event =? uid)%Z && (ev_timestampMs event =? as_millis timestamp)%Z &&
    (ev_payloadId event =? payload_id PRuntimePermissionGrant)%Z &&
    has_string event "PERMISSION_NAME" permission_name)).

(** The atom a test expects. *)
Definition expected_grant (uid : Z) (permission_name : string) (timestamp : Z) (calls : list (Z * Z)) :
    UnstructuredAtom :=
  {| atom_id := ATOM_ID_ACCESSIBILITY_RUNTIME_PERMISSION_GRANT;
     atom_fields :=
       [Field_new_with_annotation (VInt32 uid) (IsUid true);
        Field_new (VString permission_name);
        Field_new (VInt64 (as_millis timestamp));
        Field_new (VInt32Vec calls.*1);
        Field_new (VInt64Vec (as_millis <$> calls.*2))] |}.

Section Tests.
Context {O : HashOrder}.

Notation item data := (AccessibilityHandler_on_item a11y_task data).
Notation finish := AccessibilityHandler_on_finished.
Notation a11y_test mocks t := (passes a11y_handler (doubles mocks) t).
Notation "'wrote' l" := (do! w := the_doubles in asserts (bool_decide (written w = l)))
  (at level 10, l at level 9).

(** The mocks of a package with an enabled service. *)
Definition enabled_package (name : string) (uid : Z) : list Expectation :=
  [expect_packageHasEnabledAccessibilityService name (Ok true);
   expect_getUidForPackage name (Ok uid)].

Definition permission_grant_after_a11y_event_is_reported : Prop :=
  let a11y_timestamp := from_secs 1 in
  let permission_timestamp := from_secs 2 in
  a11y_test
    (enabled_package TEST_PACKAGE_NAME TEST_UID ++
     [expect_enqueue_a11y_event TEST_UID a11y_timestamp TEST_A11Y_CODE;
      expect_enqueue_permission_grant_event TEST_UID permission_timestamp TEST_PERMISSION_NAME])
    (do! _ := tries (item (create_a11y_event TEST_UID TEST_A11Y_CODE a11y_timestamp)) in
     do! _ := tries (item (create_permission_event TEST_PACKAGE_NAME TEST_PERMISSION_NAME
                             permission_timestamp)) in
     do! _ := tries finish in
     wrote [expected_grant TEST_UID TEST_PERMISSION_NAME permission_timestamp
              [(TEST_A11Y_CODE, a11y_timestamp)]]).

Definition non_android_permission_is_ignored : Prop :=
  a11y_test []
    (do! _ := tries (item (create_permission_event TEST_PACKAGE_NAME "com.example.permission"
                             (from_millis 2000))) in
     do! _ := tries finish in
     wrote []).

Definition no_enabled_a11y_service_is_ignored : Prop :=
  a11y_test [expect_packageHasEnabledAccessibilityService TEST_PACKAGE_NAME (Ok false)]
    (do! _ := tries (item (create_permission_event TEST_PACKAGE_NAME TEST_PERMISSION_NAME
                             (from_millis 2000))) in
     do! _ := tries finish in
     wrote []).

Definition package_has_enabled_a11y_service_error_is_propagated : Prop :=
  a11y_test
    [expect_packageHasEnabledAccessibilityService TEST_PACKAGE_NAME (Err service_specific_status)]
    (do! result := method (item (create_permission_event TEST_PACKAGE_NAME TEST_PERMISSION_NAME
                                   (from_millis 2000))) in
     asserts (is_err result)).

Definition get_uid_for_package_error_is_propagated : Prop :=
  a11y_test
    [expect_packageHasEnabledAccessibilityService TEST_PACKAGE_NAME (Ok true);
     expect_getUidForPackage TEST_PACKAGE_NAME (Err service_specific_status)]
    (do! result := method (item (create_permission_event TEST_PACKAGE_NAME TEST_PERMISSION_NAME
                                   (from_millis 2000))) in
     asserts (is_err result)).

Definition a11y_event_after_permission_grant_is_ignored : Prop :=
  let permission_timestamp := from_millis 1 in
  let a11y_timestamp := from_millis 2 in
  a11y_test
    (enabled_package TEST_PACKAGE_NAME TEST_UID ++
     [expect_enqueue_a11y_event TEST_UID a11y_timestamp TEST_A11Y_CODE;
      expect_enqueue_permission_grant_event TEST_UID permission_timestamp TEST_PERMISSION_NAME])
    (do! _ := tries (item (create_a11y_event TEST_UID TEST_A11Y_CODE a11y_timestamp)) in
     do! _ := tries (item (create_permission_event TEST_PACKAGE_NAME TEST_PERMISSION_NAME
                             permission_timestamp)) in
     do! _ := tries finish in
     wrote [expected_grant TEST_UID TEST_PERMISSION_NAME permission_timestamp []]).

Definition a11y_event_outside_window_is_ignored : Prop :=
  let a11y_timestamp := 1000%Z in
  let permission_timestamp := (A11Y_EVENT_WINDOW + from_secs 1)%Z in
  a11y_test
    (enabled_package TEST_PACKAGE_NAME TEST_UID ++
     [expect_enqueue_a11y_event TEST_UID a11y_timestamp TEST_A11Y_CODE;
      expect_enqueue_permission_grant_event TEST_UID permission_timestamp TEST_PERMISSION_NAME])
    (do! _ := tries (item (create_a11y_event TEST_UID TEST_A11Y_CODE a11y_timestamp)) in
     do! _ := tries (item (create_permission_event TEST_PACKAGE_NAME TEST_PERMISSION_NAME
                             permission_timestamp)) in
     do! _ := tries finish in
     wrote [expected_grant TEST_UID TEST_PERMISSION_NAME permission_timestamp []]).

Definition multiple_a11y_events_are_recorded : Prop :=
  let a11y_code1 := 456%Z in
  let a11y_code2 := 789%Z in
  let a11y_timestamp1 := from_millis 10 in
  let a11y_timestamp2 := from_millis 15 in
  let permission_timestamp := from_millis 20 in
  a11y_test
    (enabled_package TEST_PACKAGE_NAME TEST_UID ++
     [expect_enqueue_a11y_event TEST_UID a11y_timestamp1 a11y_code1;
      expect_enqueue_a11y_event TEST_UID a11y_timestamp2 a11y_code2;
      expect_enqueue_permission_grant_event TEST_UID permission_timestamp TEST_PERMISSION_NAME])
    (do! _ := tries (item (create_a11y_event TEST_UID a11y_code1 a11y_timestamp1)) in
     do! _ := tries (item (create_a11y_event TEST_UID a11y_code2 a11y_timestamp2)) in
     do! _ := tries (item (create_permission_event TEST_PACKAGE_NAME TEST_PERMISSION_NAME
                             permission_timestamp)) in
     do! _ := tries finish in
     wrote [expected_grant TEST_UID TEST_PERMISSION_NAME permission_timestamp
              [(a11y_code2, a11y_timestamp2); (a11y_code1, a11y_timestamp1)]]).

Definition multiple_permission_grants : Prop :=
  let package_name_a := "pkg.name.a" in
  let permission_name_a := "android.permission.A" in
  let package_name_b := "pkg.name.b" in
  let permission_name_b := "android.permission.B" in
  let a11y_code1 := 456%Z in
  let a11y_code2 := 789%Z in
  let a11y_timestamp1 := from_millis 10 in
  let permission_timestamp_a := from_millis 20 in
  let a11y_timestamp2 := from_millis 30 in
  let permission_timestamp_b := from_millis 40 in
  a11y_test
    (enabled_package package_name_a TEST_UID ++ enabled_package package_name_b TEST_UID ++
     [expect_enqueue_permission_grant_event TEST_UID permission_timestamp_a permission_name_a;
      expect_enqueue_a11y_event TEST_UID a11y_timestamp1 a11y_code1;
      expect_enqueue_permission_grant_event TEST_UID permission_timestamp_b permission_name_b;
      expect_enqueue_a11y_event TEST_UID a11y_timestamp2 a11y_code2])
    (do! _ := tries (item (create_permission_event package_name_a permission_name_a
                             permission_timestamp_a)) in
     do! _ := tries (item (create_a11y_event TEST_UID a11y_code1 a11y_timestamp1)) in
     do! _ := tries (item (create_permission_event package_name_b permission_name_b
                             permission_timestamp_b)) in
     do! _ := tries (item (create_a11y_event TEST_UID a11y_code2 a11y_timestamp2)) in
     do! _ := tries finish in
     wrote [expected_grant TEST_UID permission_name_b permission_timestamp_b
              [(a11y_code2, a11y_timestamp2)];
            expected_grant TEST_UID permission_name_a permission_timestamp_a
              [(a11y_code1, a11y_timestamp1)]]).

Definition no_a11y_events : Prop :=
  let permission_timestamp := from_millis 20 in
  a11y_test
    (enabled_package TEST_PACKAGE_NAME TEST_UID ++
     [expect_enqueue_permission_grant_event TEST_UID permission_timestamp TEST_PERMISSION_NAME])
    (do! _ := tries (item (create_permission_event TEST_PACKAGE_NAME TEST_PERMISSION_NAME
                             permission_timestamp)) in
     do! _ := tries finish in
     wrote [expected_grant TEST_UID TEST_PERMISSION_NAME permission_timestamp []]).

Definition no_permission_grants : Prop :=
  let a11y_timestamp := from_millis 10 in
  a11y_test [expect_enqueue_a11y_event TEST_UID a11y_timestamp TEST_A11Y_CODE]
    (do! _ := tries (item (create_a11y_event TEST_UID TEST_A11Y_CODE a11y_timestamp)) in
     do! _ := tries finish in
     wrote []).

Definition invalid_variant_is_an_error : Prop :=
  a11y_test []
    (do! result := method (item
       {| ae_error_code := 0; ae_timestamp_ns := 0; ae_variant := 99;
          ae_package_name := c_array 128 ""; ae_permission_name := c_array 128 "";
          ae_uid := 0; ae_code := 0 |}) in
     asserts (is_err result)).

(** [written.sort_by_key(..)]: by the uid in the first field. *)
Definition atom_uid (a : UnstructuredAtom) : Z :=
  match atom_fields a with
  | f :: _ => match field_value f with VInt32 uid => uid | _ => 0 end
  | [] => 0
  end.

Definition multiple_uids : Prop :=
  let package_name_a := "pkg.name.a" in
  let permission_name_a := "android.permission.A" in
  let uid_a := 123%Z in
  let a11y_code_a := 456%Z in
  let a11y_timestamp_a := from_millis 10 in
  let permission_timestamp_a := from_millis 20 in
  let package_name_b := "pkg.name.b" in
  let permission_name_b := "android.permission.B" in
  let uid_b := 789%Z in
  let a11y_code_b := 101%Z in
  let a11y_timestamp_b := from_millis 30 in
  let permission_timestamp_b := from_millis 40 in
  a11y_test
    (enabled_package package_name_a uid_a ++ enabled_package package_name_b uid_b ++
     [expect_enqueue_a11y_event uid_a a11y_timestamp_a a11y_code_a;
      expect_enqueue_permission_grant_event uid_a permission_timestamp_a permission_name_a;
      expect_enqueue_a11y_event uid_b a11y_timestamp_b a11y_code_b;
      expect_enqueue_permission_grant_event uid_b permission_timestamp_b permission_name_b])
    (do! _ := tries (item (create_a11y_event uid_a a11y_code_a a11y_timestamp_a)) in
     do! _ := tries (item (create_permission_event package_name_a permission_name_a
                             permission_timestamp_a)) in
     do! _ := tries (item (create_a11y_event uid_b a11y_code_b a11y_timestamp_b)) in
     do! _ := tries (item (create_permission_event package_name_b permission_name_b
                             permission_timestamp_b)) in
     do! _ := tries finish in
     do! w := the_doubles in
     asserts (bool_decide
       (stable_sort (fun a b => (atom_uid a <=? atom_uid b)%Z) (written w) =
        [expected_grant uid_a permission_name_a permission_timestamp_a
           [(a11y_code_a, a11y_timestamp_a)];
         expected_grant uid_b permission_name_b permission_timestamp_b
           [(a11y_code_b, a11y_timestamp_b)]]))).

Definition accessibility_event_with_error_bails : Prop :=
  let event := create_a11y_event TEST_UID TEST_A11Y_CODE (from_secs 1) in
  a11y_test []
    (do! result := method (item
       {| ae_error_code := -1; ae_timestamp_ns := ae_timestamp_ns event;
          ae_variant := ae_variant event; ae_package_name := ae_package_name event;
          ae_permission_name := ae_permission_name event; ae_uid := ae_uid event;
          ae_code := ae_code event |}) in
     asserts (is_err result)).

Definition accessibility_event_empty_fields_fail : Prop :=
  a11y_test []
    (do! result := method (item (create_permission_event "" TEST_PERMISSION_NAME (from_secs 1))) in
     do! _ := asserts (is_err result) in
     do! result := method (item (create_permission_event TEST_PACKAGE_NAME "" (from_secs 1))) in
     asserts (is_err result)).

Definition accessibility_tests : Prop :=
  permission_grant_after_a11y_event_is_reported /\ non_android_permission_is_ignored /\
  no_enabled_a11y_service_is_ignored /\ package_has_enabled_a11y_service_error_is_propagated /\
  get_uid_for_package_error_is_propagated /\ a11y_event_after_permission_grant_is_ignored /\
  a11y_event_outside_window_is_ignored /\ multiple_a11y_events_are_recorded /\
  multiple_permission_grants /\ no_a11y_events /\ no_permission_grants /\
  invalid_variant_is_an_error /\ multiple_uids /\ accessibility_event_with_error_bails /\
  accessibility_event_empty_fields_fail.

End Tests.

(** In either order the map of events may be walked. *)
Lemma accessibility_tests_pass : @accessibility_tests canonical_order /\ @accessibility_tests reversed_order.
Proof. run_test. Qed.
