(* ===== verification/TestDisruptive.v ===== *)
(** * TestDisruptive: the unit tests of [core/bpf_handler/disruptive_app.rs] *)

From S2P Require Import Prelude Effects RustStd Data System Fixtures Handler Disruptive TestKit.

Local Open Scope rust_scope.
Local Open Scope string_scope.
Local Open Scope list_scope.

Definition plain_task : ResolvedTask :=
  {| rt_id := 1; rt_duration := from_secs 0;
     rt_resolved_process := {| rp_pid := 0; rp_uid := 0; rp_name := "" |};
     rt_bpf_map_paths := ∅; rt_statsd_logging_config := None; rt_resolved_probes := [] |}.

Notation component_item data := (ComponentEnabled_on_item plain_task data).
Notation bind_item data := (BindService_on_item plain_task data).
Notation component_test user mocks t := (passes mkComponentEnabledSettingHandler (doubles_on user mocks) t).
Notation bind_test user mocks t := (passes mkBindServiceLockedHandler (doubles_on user mocks) t).

Definition c_str_arr (n : nat) (s : string) : list byte := c_array n s.

Definition create_component_enabled_setting (package_name class_name : string) (new_state : Z)
    (calling_package_name : string) : ComponentEnabledSetting :=
  {| ce_error_code := 0; ce_package_name := c_str_arr 128 package_name;
     ce_class_name := c_str_arr 128 class_name; ce_new_state := new_state;
     ce_calling_package_name := c_str_arr 128 calling_package_name |}.

Definition create_bind_service_locked (intent_package intent_component_name_package calling_package : string)
    (bind_flags : Z) (intent_action intent_component_name_class : option string) : BindServiceLocked :=
  {| bs_error_code := 0; bs_intent_package := c_str_arr 128 intent_package;
     bs_intent_component_name_package := c_str_arr 128 intent_component_name_package;
     bs_calling_package := c_str_arr 128 calling_package; bs_bind_flags := bind_flags;
     bs_intent_action := c_str_arr 128 (default "" intent_action);
     bs_intent_component_name_class := c_str_arr 128 (default "" intent_component_name_class) |}.

Definition expect_enqueue_disabled_launcher_activity_event (disabled_uid : Z)
    (disabled_pkg class_name calling_pkg : string) : Expectation :=
  once (expect_enqueueEvent (fun event _ =>
    (ev_uid event =? disabled_uid)%Z &&
    (ev_payloadId event =? payload_id PDisabledLauncherActivity)%Z &&
    has_string event "PACKAGE_NAME" disabled_pkg && has_string event "CLASS_NAME" class_name &&
    has_string event "CALLING_PACKAGE_NAME" calling_pkg)).

Definition expect_enqueue_bind_service_with_bal_event (binder_pkg intent_pkg intent_action component_pkg
    component_class : string) : Expectation :=
  once (expect_enqueueEvent (fun event _ =>
    (ev_uid event =? 0)%Z &&
    (ev_payloadId event =? payload_id PBindAllowBackgroundActivityStarts)%Z &&
    has_string event "CALLING_PACKAGE" binder_pkg && has_string event "INTENT_PACKAGE" intent_pkg &&
    has_string event "INTENT_ACTION" intent_action &&
    has_string event "INTENT_COMPONENT_NAME_PACKAGE" component_pkg &&
    has_string event "INTENT_COMPONENT_NAME_CLASS" component_class)).

(** The [if let] patterns the tests match atoms against. *)
Definition is_component_reported (a : CodegenAtom) : bool :=
  match a with SetComponentEnabledSettingReported _ _ _ _ _ => true | _ => false end.

Definition is_bind_reported (a : CodegenAtom) : bool :=
  match a with BindServiceLockedWithBalFlagsReported _ _ _ _ _ _ => true | _ => false end.

(** [assert!(matches!(err.downcast_ref(), Some(BpfDataInvalid(_))))]. *)
Definition is_data_invalid {A} (r : result A) : bool :=
  match r with
  | Err e => match downcast_uprobestats e with Some (BpfDataInvalid _) => true | _ => false end
  | Ok _ => false
  end.

Definition is_program_error {A} (point : Z) (r : result A) : bool :=
  match r with
  | Err e => match downcast_uprobestats e with Some (BpfProgramError p) => (p =? point)%Z | _ => false end
  | Ok _ => false
  end.

(** ** Disabled components *)

Definition component_enabled_setting_enabled_is_ignored : Prop :=
  component_test false []
    (do! _ := tries (component_item (create_component_enabled_setting "pkg" "cls" 1 "caller")) in
     do! w := the_doubles in
     asserts (bool_decide (codegen_written w = []))).

Definition assert_component_enabled_setting_launcher_activity (is_user_build : bool) : Prop :=
  let CALLING_PKG := "caller" in
  let DISABLED_PKG := "pkg" in
  let CLASS_NAME := "cls" in
  let CALLING_UID := 123%Z in
  let DISABLED_UID := 456%Z in
  component_test is_user_build
    [expect_isLauncherActivity (Ok true);
     expect_getUidForPackage CALLING_PKG (Ok CALLING_UID);
     expect_getUidForPackage DISABLED_PKG (Ok DISABLED_UID);
     expect_enqueue_disabled_launcher_activity_event DISABLED_UID DISABLED_PKG CLASS_NAME CALLING_PKG]
    (do! _ := tries (component_item (create_component_enabled_setting DISABLED_PKG CLASS_NAME
                       COMPONENT_ENABLED_STATE_DISABLED CALLING_PKG)) in
     do! w := the_doubles in
     asserts (bool_decide (codegen_written w =
       (if is_user_build then []
        else [SetComponentEnabledSettingReported DISABLED_PKG CLASS_NAME
                COMPONENT_ENABLED_STATE_DISABLED CALLING_PKG true]) ++
       [DisabledLauncherActivityUidsReported CALLING_UID DISABLED_UID]))).

Definition component_enabled_setting_launcher_activity : Prop :=
  assert_component_enabled_setting_launcher_activity true /\
  assert_component_enabled_setting_launcher_activity false.

Definition component_enabled_setting_non_launcher_activity : Prop :=
  let CALLING_PKG := "caller" in
  let DISABLED_PKG := "pkg" in
  let CLASS_NAME := "cls" in
  component_test false [expect_isLauncherActivity (Ok false)]
    (do! _ := tries (component_item (create_component_enabled_setting DISABLED_PKG CLASS_NAME
                       COMPONENT_ENABLED_STATE_DISABLED CALLING_PKG)) in
     do! w := the_doubles in
     asserts (match codegen_written w with [atom] => is_component_reported atom | _ => false end)).

Definition component_enabled_setting_shell_caller : Prop :=
  let CALLING_PKG := "shell" in
  let DISABLED_PKG := "pkg" in
  let CLASS_NAME := "cls" in
  let CALLING_UID := 123%Z in
  let DISABLED_UID := 456%Z in
  component_test true
    [expect_isLauncherActivity (Ok true);
     expect_getUidForPackage "com.android.shell" (Ok CALLING_UID);
     expect_getUidForPackage DISABLED_PKG (Ok DISABLED_UID);
     expect_enqueue_disabled_launcher_activity_event DISABLED_UID DISABLED_PKG CLASS_NAME CALLING_PKG]
    (do! _ := tries (component_item (create_component_enabled_setting DISABLED_PKG CLASS_NAME
                       COMPONENT_ENABLED_STATE_DISABLED CALLING_PKG)) in
     do! w := the_doubles in
     asserts (bool_decide (codegen_written w =
       [DisabledLauncherActivityUidsReported CALLING_UID DISABLED_UID]))).

Definition component_enabled_setting_empty_fields_fail : Prop :=
  component_test false [expect_isLauncherActivity (Ok false)]
    (do! result := method (component_item (create_component_enabled_setting "" "cls"
                             COMPONENT_ENABLED_STATE_DISABLED "caller")) in
     do! _ := asserts (is_data_invalid result) in
     do! result := method (component_item (create_component_enabled_setting "pkg" ""
                             COMPONENT_ENABLED_STATE_DISABLED "caller")) in
     do! _ := asserts (is_data_invalid result) in
     do! result := method (component_item (create_component_enabled_setting "pkg" "cls"
                             COMPONENT_ENABLED_STATE_DISABLED "")) in
     asserts (is_ok result)).

Definition component_enabled_setting_with_error_bails : Prop :=
  let data := create_component_enabled_setting "pkg" "cls" 2 "caller" in
  component_test false []
    (do! result := method (component_item
       {| ce_error_code := -1; ce_package_name := ce_package_name data;
          ce_class_name := ce_class_name data; ce_new_state := ce_new_state data;
          ce_calling_package_name := ce_calling_package_name data |}) in
     do! _ := asserts (is_program_error (-1) result) in
     do! w := the_doubles in
     asserts (bool_decide (codegen_written w = []))).

(** ** Bound services *)

Definition bind_service_locked_no_bal_is_ignored : Prop :=
  bind_test false []
    (do! _ := tries (bind_item (create_bind_service_locked "pkg" "comp_pkg" "caller" 0 None None)) in
     do! w := the_doubles in
     asserts (bool_decide (codegen_written w = []))).

Definition assert_bind_service_locked_with_bal (is_user_build : bool) : Prop :=
  let BINDER_PKG := "caller" in
  let BINDEE_PKG := "pkg" in
  let BINDER_UID := 123%Z in
  let BINDEE_UID := 456%Z in
  let INTENT_ACTION := "action" in
  let COMPONENT_PACKAGE := "comp_pkg" in
  let COMPONENT_CLASS := "comp_cls" in
  bind_test is_user_build
    [expect_getUidForPackage BINDER_PKG (Ok BINDER_UID);
     expect_getUidForPackage BINDEE_PKG (Ok BINDEE_UID);
     expect_enqueue_bind_service_with_bal_event BINDER_PKG BINDEE_PKG INTENT_ACTION COMPONENT_PACKAGE
       COMPONENT_CLASS]
    (do! _ := tries (bind_item (create_bind_service_locked BINDEE_PKG COMPONENT_PACKAGE BINDER_PKG
                       BIND_ALLOW_BACKGROUND_ACTIVITY_STARTS (Some INTENT_ACTION) (Some COMPONENT_CLASS))) in
     do! w := the_doubles in
     do! _ := asserts (length (codegen_written w) =? if is_user_build then 1 else 2)%nat in
     do! _ := asserts (is_user_build || match codegen_written w with
                                        | atom1 :: _ => is_bind_reported atom1
                                        | [] => false
                                        end) in
     asserts (bool_decide (last (codegen_written w) =
       Some (BindServiceLockedWithBalFlagsUidsReported BINDER_UID BINDEE_UID)))).

Definition bind_service_locked_with_bal : Prop :=
  assert_bind_service_locked_with_bal true /\ assert_bind_service_locked_with_bal false.

Definition bind_service_locked_with_bal_empty_intent_package : Prop :=
  let BINDER_PKG := "caller" in
  let BINDEE_PKG := "comp_pkg" in
  let BINDER_UID := 123%Z in
  let BINDEE_UID := 456%Z in
  bind_test true
    [expect_getUidForPackage BINDER_PKG (Ok BINDER_UID);
     expect_getUidForPackage BINDEE_PKG (Ok BINDEE_UID);
     expect_enqueue_bind_service_with_bal_event BINDER_PKG "" "" BINDEE_PKG ""]
    (do! _ := tries (bind_item (create_bind_service_locked "" BINDEE_PKG BINDER_PKG
                       BIND_ALLOW_BACKGROUND_ACTIVITY_STARTS None None)) in
     do! w := the_doubles in
     asserts (bool_decide (codegen_written w =
       [BindServiceLockedWithBalFlagsUidsReported BINDER_UID BINDEE_UID]))).

(** Only [BindServiceLockedWithBalFlagsReported] is written, and no uid asked for. *)
Definition bind_without_uids (intent_package component_package calling_package : string) : Prop :=
  bind_test false
    [expect_enqueue_bind_service_with_bal_event calling_package intent_package "" component_package ""]
    (do! _ := tries (bind_item (create_bind_service_locked intent_package component_package
                       calling_package BIND_ALLOW_BACKGROUND_ACTIVITY_STARTS None None)) in
     do! w := the_doubles in
     asserts (match codegen_written w with [atom] => is_bind_reported atom | _ => false end)).

Definition bind_service_locked_empty_calling_package_no_uid_atom : Prop :=
  bind_without_uids "pkg" "comp_pkg" "".

Definition bind_service_locked_empty_intent_packages_no_uid_atom : Prop :=
  bind_without_uids "" "" "caller".

Definition bind_service_locked_all_empty_fails : Prop :=
  bind_test false []
    (do! result := method (bind_item (create_bind_service_locked "" "" "" 0 None None)) in
     asserts (is_err result)).

Definition bind_service_locked_with_error_bails : Prop :=
  let data := create_bind_service_locked "pkg" "comp_pkg" "caller"
                BIND_ALLOW_BACKGROUND_ACTIVITY_STARTS None None in
  bind_test false []
    (do! result := method (bind_item
       {| bs_error_code := -1; bs_intent_package := bs_intent_package data;
          bs_intent_component_name_package := bs_intent_component_name_package data;
          bs_calling_package := bs_calling_package data; bs_bind_flags := bs_bind_flags data;
          bs_intent_action := bs_intent_action data;
          bs_intent_component_name_class := bs_intent_component_name_class data |}) in
     do! _ := asserts (is_program_error (-1) result) in
     do! w := the_doubles in
     asserts (bool_decide (codegen_written w = []))).

Definition disruptive_tests : Prop :=
  component_enabled_setting_enabled_is_ignored /\ component_enabled_setting_launcher_activity /\
  component_enabled_setting_non_launcher_activity /\ component_enabled_setting_shell_caller /\
  component_enabled_setting_empty_fields_fail /\ component_enabled_setting_with_error_bails /\
  bind_service_locked_no_bal_is_ignored /\ bind_service_locked_with_bal /\
  bind_service_locked_with_bal_empty_intent_package /\
  bind_service_locked_empty_calling_package_no_uid_atom /\
  bind_service_locked_empty_intent_packages_no_uid_atom /\ bind_service_locked_all_empty_fails /\
  bind_service_locked_with_error_bails.

Lemma disruptive_tests_pass : disruptive_tests.
Proof. run_test. Qed.
