(* ===== verification/TestHandlers.v ===== *)
(** * TestHandlers: the unit tests of [core/bpf_handler/binder_transaction.rs],
    [bitmap_allocation.rs], [process_management.rs] and
    [generic_instrumentation.rs] *)

From S2P Require Import Prelude Effects RustStd Data System Fixtures ConfigResolver Handler.
From S2P Require Import BinderHandler Bitmap Generic TestKit.

Local Open Scope rust_scope.
Local Open Scope string_scope.
Local Open Scope list_scope.

(** ** Binder transactions *)

Definition TEST_INTERFACE_NAME : string := "com.android.internal.os.IBinderTest".
Definition TEST_CODE : Z := 1.
Definition TEST_CALLING_UID : Z := 1000.
Definition TEST_TIMESTAMP_NS : Z := 1000000000.

Definition MethodConfigs : Type := list (Z * option EventServiceConfig * option AtomConfig).

(** The loop of [insert_method(..).unwrap()]. *)
Definition interface_config_of (method_configs : MethodConfigs) : result InterfaceConfig :=
  rfold (fun ic '(method_id, event_service_config, atom_config) =>
    let '(ic', r) := insert_method ic method_id
      {| mc_event_service_config := event_service_config; mc_atom_config := atom_config |} in
    rmap (fun _ => ic') r) InterfaceConfig_default method_configs.

Definition binder_test_task (interface_config : InterfaceConfig) : ResolvedTask :=
  {| rt_id := 1; rt_duration := from_secs 0;
     rt_resolved_process := {| rp_pid := 0; rp_uid := TEST_CALLING_UID; rp_name := "test_process" |};
     rt_resolved_probes :=
       [{| pr_method_descriptor :=
             {| md_fully_qualified_class_name := "test_class"; md_method_name := "test_method";
                md_fully_qualified_parameters := [] |};
           pr_offsets :=
             {| of_container_path := "test_path"; of_container_offset := 0; of_method_offset := 0 |};
           pr_bpf_program_path := "test_bpf";
           pr_binder_transaction_filters := {[ TEST_INTERFACE_NAME := interface_config ]} |}];
     rt_bpf_map_paths := ∅; rt_statsd_logging_config := None |}.

(** [setup_handler_and_task], and the test that uses them. *)
Definition binder_test (mocks : list Expectation) (method_configs : MethodConfigs)
    (t : ResolvedTask -> Test BinderTransactionHandler unit) : Prop :=
  match interface_config_of method_configs with
  | Ok interface_config =>
      passes mkBinderTransactionHandler (doubles mocks) (t (binder_test_task interface_config))
  | Err _ => False
  end.

Definition expect_binder_transaction (expected_interface : string) (expected_code : Z)
    (expected_flush : bool) : Expectation :=
  once (expect_enqueueEvent (fun event flush =>
    Bool.eqb flush expected_flush && (ev_uid event =? TEST_CALLING_UID)%Z &&
    (ev_payloadId event =? payload_id PBinderTransaction)%Z &&
    has_string event "INTERFACE_NAME" expected_interface &&
    has_int event "CODE" (as_ity I32 expected_code))).

Definition create_binder_transaction (interface_name : string) (code calling_uid timestamp_ns : Z) :
    BinderTransaction :=
  {| bt_interface_descriptor := c_array 128 interface_name; bt_code := code;
     bt_calling_uid := calling_uid; bt_timestamp_ns := timestamp_ns |}.

Notation transaction interface code :=
  (create_binder_transaction interface code TEST_CALLING_UID TEST_TIMESTAMP_NS).
Notation buffered := (Some {| esc_mode := Buffer |}).
Notation flushed := (Some {| esc_mode := Flush |}).

Definition binder_transaction_event_is_reported : Prop :=
  binder_test [expect_binder_transaction TEST_INTERFACE_NAME TEST_CODE false]
    [(TEST_CODE, buffered, None)] (fun task =>
    do! _ := tries (BinderTransactionHandler_on_item task (transaction TEST_INTERFACE_NAME TEST_CODE)) in
    tret tt).

(** [expect_enqueueEvent().times(0)]. *)
Definition no_enqueueEvent : Expectation := times 0 (expect_enqueueEvent (fun _ _ => true)).

Definition binder_transaction_ignored_for_unknown_interface : Prop :=
  binder_test [no_enqueueEvent] [(TEST_CODE, buffered, None)] (fun task =>
    do! result := method (BinderTransactionHandler_on_item task
      (transaction "com.android.internal.os.IOtherInterface" TEST_CODE)) in
    asserts (is_err result)).

Definition binder_transaction_ignored_for_unknown_code : Prop :=
  binder_test [no_enqueueEvent] [(TEST_CODE, buffered, None)] (fun task =>
    do! result := method (BinderTransactionHandler_on_item task
      (transaction TEST_INTERFACE_NAME (TEST_CODE + 1))) in
    asserts (is_err result)).

Definition binder_transaction_flush_flag_respected : Prop :=
  binder_test [expect_binder_transaction TEST_INTERFACE_NAME TEST_CODE true]
    [(TEST_CODE, flushed, None)] (fun task =>
    do! _ := tries (BinderTransactionHandler_on_item task (transaction TEST_INTERFACE_NAME TEST_CODE)) in
    tret tt).

Definition test_atom_config : AtomConfig :=
  {| ac_atom_id := 100;
     ac_atom_field_positions := [AFP_INTERFACE_NAME; AFP_CODE; AFP_CALLING_UID; AFP_KTIME_NS] |}.

Definition binder_transaction_atom_is_reported : Prop :=
  binder_test [] [(TEST_CODE, None, Some test_atom_config)] (fun task =>
    do! _ := tries (BinderTransactionHandler_on_item task (transaction TEST_INTERFACE_NAME TEST_CODE)) in
    do! w := the_doubles in
    asserts (match written w with
      | [atom] => (atom_id atom =? 100)%Z &&
          bool_decide (take 4 (field_value <$> atom_fields atom) =
            [VString TEST_INTERFACE_NAME; VInt32 (as_ity I32 TEST_CODE); VInt32 TEST_CALLING_UID;
             VInt64 (as_ity I64 TEST_TIMESTAMP_NS)])
      | _ => false
      end)).

Definition binder_transaction_reports_both_atom_and_event : Prop :=
  binder_test [expect_binder_transaction TEST_INTERFACE_NAME TEST_CODE false]
    [(TEST_CODE, buffered, Some test_atom_config)] (fun task =>
    do! _ := tries (BinderTransactionHandler_on_item task (transaction TEST_INTERFACE_NAME TEST_CODE)) in
    do! w := the_doubles in
    asserts (match written w with [atom] => (atom_id atom =? 100)%Z | _ => false end)).

Definition binder_transaction_handles_multiple_methods : Prop :=
  binder_test
    [expect_binder_transaction TEST_INTERFACE_NAME 1 false;
     expect_binder_transaction TEST_INTERFACE_NAME 2 false]
    [(1%Z, buffered, None); (2%Z, buffered, None)] (fun task =>
    do! _ := tries (BinderTransactionHandler_on_item task (transaction TEST_INTERFACE_NAME 1)) in
    do! _ := tries (BinderTransactionHandler_on_item task (transaction TEST_INTERFACE_NAME 2)) in
    tret tt).

Definition binder_transaction_empty_interface_fails : Prop :=
  binder_test [] [(TEST_CODE, buffered, None)] (fun task =>
    do! result := method (BinderTransactionHandler_on_item task (transaction "" TEST_CODE)) in
    asserts (is_err result)).

Definition binder_tests : Prop :=
  binder_transaction_event_is_reported /\ binder_transaction_ignored_for_unknown_interface /\
  binder_transaction_ignored_for_unknown_code /\ binder_transaction_flush_flag_respected /\
  binder_transaction_atom_is_reported /\ binder_transaction_reports_both_atom_and_event /\
  binder_transaction_handles_multiple_methods /\ binder_transaction_empty_interface_fails.

Lemma binder_tests_pass : binder_tests.
Proof. run_test. Qed.

(** ** Bitmaps *)

Definition create_task (uid : Z) : ResolvedTask :=
  {| rt_id := 1; rt_duration := from_secs 0;
     rt_resolved_process := {| rp_pid := 0; rp_uid := uid; rp_name := "" |};
     rt_resolved_probes := []; rt_bpf_map_paths := ∅; rt_statsd_logging_config := None |}.

(** The [BitmapEvent] literals of the tests. *)
Definition bitmap_event (type_ native_ptr bitmap_size width height scaled_width scaled_height
    pixel_storage_type : Z) : BitmapEvent :=
  {| be_type := type_; be_native_ptr := native_ptr; be_bitmap_size := bitmap_size; be_width := width;
     be_height := height; be_scaled_width := scaled_width; be_scaled_height := scaled_height;
     be_pixel_storage_type := pixel_storage_type; be_activity_name := c_array 128 "" |}.

Definition bitmap_allocation_handler_v0_writes_atom : Prop :=
  let event := bitmap_event K_BITMAP_EVENT_TYPE_ALLOCATION 0 0 100 200 0 0 0 in
  passes mkBitmapAllocationHandlerV0 (doubles [])
    (do! _ := tries (BitmapV0_on_item (create_task 1001) event) in
     do! w := the_doubles in
     asserts (bool_decide (codegen_written w = [AndroidGraphicsBitmapAllocated 1001 100 200]))).

(** The atom is a snapshot of the given type of one bitmap of the task. *)
Definition is_snapshot (uid width height snapshot_type : Z) (a : CodegenAtom) : bool :=
  match a with
  | AndroidGraphicsBitmapAllocationSnapshot uid' width' height' _ _ snapshot_type' _ =>
      (uid' =? uid)%Z && (width' =? width)%Z && (height' =? height)%Z &&
      (snapshot_type' =? snapshot_type)%Z
  | _ => false
  end.

Section Bitmap.
Context {Tg : Target} {O : HashOrder}.

Definition bitmap_allocation_handler_v1_allocation_writes_atom : Prop :=
  let event := bitmap_event K_BITMAP_EVENT_TYPE_ALLOCATION 0 0 150 250 0 0 0 in
  passes BitmapV1_default (doubles [])
    (do! _ := tries (BitmapV1_on_item (create_task 1002) event) in
     do! w := the_doubles in
     asserts (bool_decide (codegen_written w = [AndroidGraphicsBitmapAllocated 1002 150 250]))).

Definition bitmap_allocation_handler_v1_scaled_writes_atom : Prop :=
  let event := bitmap_event K_BITMAP_EVENT_TYPE_BITMAP_SCALED 0 0 100 100 200 200 1 in
  passes BitmapV1_default (doubles [])
    (do! _ := tries (BitmapV1_on_item (create_task 1003) event) in
     do! w := the_doubles in
     asserts (bool_decide (codegen_written w =
       [AndroidGraphicsBitmapScaled 1003 100 100 200 200 1 ""]))).

Definition bitmap_allocation_handler_v1_on_finished_writes_snapshot_atoms : Prop :=
  let alloc_event := bitmap_event K_BITMAP_EVENT_TYPE_ALLOCATION 1234 10000 50 50 0 0 0 in
  passes BitmapV1_default (doubles [])
    (do! _ := tries (BitmapV1_on_item (create_task 1004) alloc_event) in
     do! _ := clear_written in
     do! _ := tries BitmapV1_on_finished in
     do! w := the_doubles in
     asserts (match codegen_written w with
       | [atom_max; atom_rand] => is_snapshot 1004 50 50 1 atom_max && is_snapshot 1004 50 50 2 atom_rand
       | _ => false
       end)).

Definition bitmap_allocation_handler_v1_deallocation_removes_from_snapshot : Prop :=
  let alloc_event := bitmap_event K_BITMAP_EVENT_TYPE_ALLOCATION 1234 10000 50 50 0 0 0 in
  let dealloc_event := bitmap_event K_BITMAP_EVENT_TYPE_DEALLOCATION 1234 10000 0 0 0 0 0 in
  passes BitmapV1_default (doubles [])
    (do! _ := tries (BitmapV1_on_item (create_task 1005) alloc_event) in
     do! _ := tries (BitmapV1_on_item (create_task 1005) dealloc_event) in
     do! _ := clear_written in
     do! _ := tries BitmapV1_on_finished in
     do! w := the_doubles in
     asserts (match codegen_written w with
       | [atom_max] => is_snapshot 1005 50 50 1 atom_max
       | _ => false
       end)).

Definition bitmap_tests : Prop :=
  bitmap_allocation_handler_v0_writes_atom /\ bitmap_allocation_handler_v1_allocation_writes_atom /\
  bitmap_allocation_handler_v1_scaled_writes_atom /\
  bitmap_allocation_handler_v1_on_finished_writes_snapshot_atoms /\
  bitmap_allocation_handler_v1_deallocation_removes_from_snapshot.

End Bitmap.

(** Whatever the build, and in either hash order. *)
Lemma bitmap_tests_pass {Tg : Target} :
  @bitmap_tests Tg canonical_order /\ @bitmap_tests Tg reversed_order.
Proof. destruct Tg as [[] ?]; run_test. Qed.

(** ** Process management *)

Definition create_task_with_atom_id (id : Z) : ResolvedTask :=
  {| rt_id := 1; rt_duration := from_secs 0;
     rt_resolved_process := {| rp_pid := 0; rp_uid := 0; rp_name := "" |};
     rt_resolved_probes := []; rt_bpf_map_paths := ∅;
     rt_statsd_logging_config :=
       Some {| slc_atom_id := Some id; slc_primitive_argument_positions := [] |} |}.

Definition create_task_without_logging_config : ResolvedTask := create_task 0.

(** The one atom a test expects. *)
Notation "'wrote_atom' id values" := (do! w := the_doubles in
    asserts (bool_decide (written w = [{| atom_id := id; atom_fields := map Field_new values |}])))
  (at level 10, id at level 9, values at level 9).
Notation wrote_nothing := (do! w := the_doubles in asserts (bool_decide (written w = []))).

Definition set_uid_temp_allowlist_state_record_handler_writes_atom : Prop :=
  passes mkSetUidTempAllowlistStateRecordHandler (doubles [])
    (do! _ := tries (SetUid_on_item (create_task_with_atom_id 123)
                       {| su_uid := 456; su_onAllowlist := true |}) in
     wrote_atom 123 [VInt32 456; VBool true]).

Definition set_uid_temp_allowlist_state_record_handler_no_logging_config_does_not_write_atom : Prop :=
  passes mkSetUidTempAllowlistStateRecordHandler (doubles [])
    (do! _ := tries (SetUid_on_item create_task_without_logging_config
                       {| su_uid := 456; su_onAllowlist := true |}) in
     wrote_nothing).

Definition update_device_idle_temp_allowlist_record_handler_writes_atom : Prop :=
  let data := {| ud_changing_uid := 1001; ud_adding := true; ud_duration_ms := 5000; ud_type := 1;
                 ud_reason_code := 2; ud_reason := c_array 256 "test reason"; ud_calling_uid := 1002;
                 ud_method_identifier := 0 |} in
  passes mkUpdateDeviceIdleTempAllowlistRecordHandler (doubles [])
    (do! _ := tries (UpdateDeviceIdle_on_item (create_task_with_atom_id 123) data) in
     wrote_atom 123 [VInt32 1001; VBool true; VInt64 5000; VInt32 1; VInt32 2; VString "test reason";
                     VInt32 1002]).

Definition update_device_idle_temp_allowlist_record_handler_no_logging_config_does_not_write_atom : Prop :=
  let data := {| ud_changing_uid := 0; ud_adding := false; ud_duration_ms := 0; ud_type := 0;
                 ud_reason_code := 0; ud_reason := c_array 256 ""; ud_calling_uid := 0;
                 ud_method_identifier := 0 |} in
  passes mkUpdateDeviceIdleTempAllowlistRecordHandler (doubles [])
    (do! _ := tries (UpdateDeviceIdle_on_item create_task_without_logging_config data) in
     wrote_nothing).

(** ** Generic instrumentation *)

Definition call_timestamp_handler_writes_atom : Prop :=
  passes mkCallTimestampHandler (doubles [])
    (do! _ := tries (CallTimestamp_on_item (create_task_with_atom_id 123)
                       {| ct_event := 456; ct_timestampNs := 789 |}) in
     wrote_atom 123 [VInt32 456; VInt64 789]).

(** [primitive_argument_positions.push(..)]. *)
Definition with_argument_positions (positions : list Z) (task : ResolvedTask) : ResolvedTask :=
  {| rt_id := rt_id task; rt_duration := rt_duration task;
     rt_resolved_process := rt_resolved_process task; rt_resolved_probes := rt_resolved_probes task;
     rt_bpf_map_paths := rt_bpf_map_paths task;
     rt_statsd_logging_config :=
       option_map (fun c => {| slc_atom_id := slc_atom_id c;
                               slc_primitive_argument_positions :=
                                 slc_primitive_argument_positions c ++ positions |})
         (rt_statsd_logging_config task) |}.

Definition call_result_handler_writes_atom {Tg : Target} : Prop :=
  let task := with_argument_positions [1; 3]%Z (create_task_with_atom_id 123) in
  let register n := Z.to_nat (JAVA_ARGUMENT_REGISTER_OFFSET + n) in
  let data := {| cr_pc := 0;
                 cr_regs := <[register 3%Z := 103%Z]> (<[register 1%Z := 101%Z]> (replicate 10 0%Z)) |} in
  passes mkCallResultHandler (doubles [])
    (do! _ := tries (CallResult_on_item task data) in
     wrote_atom 123 [VInt64 101; VInt64 103]).

Definition call_timestamp_handler_no_logging_config_does_not_write_atom : Prop :=
  passes mkCallTimestampHandler (doubles [])
    (do! _ := tries (CallTimestamp_on_item create_task_without_logging_config
                       {| ct_event := 456; ct_timestampNs := 789 |}) in
     wrote_nothing).

Definition call_result_handler_no_logging_config_does_not_write_atom {Tg : Target} : Prop :=
  passes mkCallResultHandler (doubles [])
    (do! _ := tries (CallResult_on_item create_task_without_logging_config
                       {| cr_pc := 0; cr_regs := replicate 10 0%Z |}) in
     wrote_nothing).

Definition logging_tests {Tg : Target} : Prop :=
  set_uid_temp_allowlist_state_record_handler_writes_atom /\
  set_uid_temp_allowlist_state_record_handler_no_logging_config_does_not_write_atom /\
  update_device_idle_temp_allowlist_record_handler_writes_atom /\
  update_device_idle_temp_allowlist_record_handler_no_logging_config_does_not_write_atom /\
  call_timestamp_handler_writes_atom /\ call_result_handler_writes_atom /\
  call_timestamp_handler_no_logging_config_does_not_write_atom /\
  call_result_handler_no_logging_config_does_not_write_atom.

Lemma logging_tests_pass {Tg : Target} : logging_tests.
Proof. destruct Tg as [[] ?]; run_test. Qed.
