(* ===== verification/TestConfig.v ===== *)
(** * TestConfig: the unit tests of [core/config_resolver.rs] and of its
    [guardrail.rs] *)

From S2P Require Import Prelude Effects RustStd Data System Fixtures Guardrail ConfigResolver TestKit.

Local Open Scope rust_scope.
Local Open Scope string_scope.
Local Open Scope list_scope.

(** ** Builders *)

(** [Task::new()], [ProbeConfig::new()]: every field unset. *)
Definition Task_new : Task := mkTask [] [] None None None None None.
Definition ProbeConfig_new : ProbeConfig := mkProbeConfig None None None None [] [].

Definition make_task (duration : Z) : Task := mkTask [] [] None (Some duration) None None None.

Definition make_probe (bpf_name cls meth : string) : ProbeConfig :=
  mkProbeConfig (Some bpf_name) None (Some cls) (Some meth) [] [].

Definition default_probe : ProbeConfig := make_probe "test.bpf.o" "com.example.Test" "testMethod".

Definition default_resolved_process : ResolvedProcess :=
  {| rp_name := "test_process"; rp_pid := 123; rp_uid := 456 |}.

Definition make_filter (interface : option string) (methods : list (Z * option bool * option Z)) :
    BinderTransactionFilter :=
  {| btf_interface_name := interface;
     btf_method_configs := map (fun '(method_id, flush, atom_id) =>
       {| pmc_method_id := Some method_id;
          pmc_event_service_config := option_map (fun f => {| pesc_flush := Some f |}) flush;
          pmc_atom_config :=
            option_map (fun id => {| pac_atom_id := Some id; pac_atom_field_positions := [] |}) atom_id |})
       methods |}.

Definition default_filter : BinderTransactionFilter :=
  make_filter (Some "test.interface") [(1%Z, Some false, None)].

Definition with_filters (filters : list BinderTransactionFilter) (probe : ProbeConfig) : ProbeConfig :=
  mkProbeConfig (pb_bpf_name probe) (pb_method_signature probe) (pb_fully_qualified_class_name probe)
    (pb_method_name probe) (pb_fully_qualified_parameters probe) filters.

(** The text of an error, up to the values formatted into it. *)
Fixpoint error_text (e : error) : string :=
  match e with
  | EAnyhow fmt => fmt
  | EContext msg _ => msg
  | EReportedToStatsd e' => error_text e'
  | _ => ""
  end.

Definition assert_err_contains {A} (r : result A) (substring : string) : bool :=
  match r with Err e => str_contains (error_text e) substring | Ok _ => false end.

(** A [ConfigError]; the test cases are transparent ones. *)
Definition assert_config_err_contains {A} (r : ConfigError + A) (substring : string) : bool :=
  match r with
  | inl (Other e) => str_contains (error_text e) substring
  | _ => false
  end.

(** [MockProcessResolver] and [MockOffsetResolver]: the same answer to every call. *)
Definition MockProcessResolver (r : result ResolvedProcess) : Expectation :=
  mkExpectation (fun c => match c return option (SysResp c) with
    | ProcessResolver_resolve_process _ _ _ => Some r
    | _ => None
    end) None.

Definition MockProcessResolver_success : Expectation := MockProcessResolver (Ok default_resolved_process).

Definition MockOffsetResolver (r : result (option ExecutableMethodFileOffsets)) : Expectation :=
  mkExpectation (fun c => match c return option (SysResp c) with
    | OffsetResolver_resolve_offsets _ _ => Some r
    | _ => None
    end) None.

Definition MockOffsetResolver_success : Expectation :=
  MockOffsetResolver (Ok (Some {| of_container_path := "/path/to/file"; of_container_offset := 0;
                                  of_method_offset := 1234 |})).
Definition MockOffsetResolver_none : Expectation := MockOffsetResolver (Ok None).

Notation resolver_test mocks t := (@passes unit tt (doubles mocks) t).

Section Tests.
Context {T : Target} {F : Flags}.

(** [resolve_task_simple], [resolve_probes_simple] *)
Definition resolve_task_simple (task : Task) (check : result ResolvedTask -> bool) : Prop :=
  resolver_test [MockProcessResolver_success; MockOffsetResolver_none]
    (do! r := method (resolve_single_task task 0) in asserts (check r)).

Definition resolve_probes_simple (probes : list ProbeConfig) (resolver : Expectation)
    (check : result (list ResolvedProbe) -> bool) : Prop :=
  resolver_test [resolver]
    (do! r := method (resolve_probes probes default_resolved_process) in asserts (check r)).

(** ** Tasks *)

Definition resolve_single_task_success : Prop :=
  resolve_task_simple (make_task 10) (fun r => match r with
    | Ok t => (rp_pid (rt_resolved_process t) =? rp_pid default_resolved_process)%Z &&
        (rp_uid (rt_resolved_process t) =? rp_uid default_resolved_process)%Z &&
        String.eqb (rp_name (rt_resolved_process t)) (rp_name default_resolved_process)
    | Err _ => false
    end).

Definition resolve_single_task_no_duration : Prop :=
  resolve_task_simple Task_new (fun r => assert_err_contains r "Task duration is required").

Definition resolve_single_task_process_resolver_error : Prop :=
  resolver_test [MockProcessResolver (Err (EAnyhow "process not found")); MockOffsetResolver_none]
    (do! r := method (resolve_single_task (make_task 10) 0) in
     asserts (assert_err_contains r "process not found")).

Definition resolve_single_task_zero_duration : Prop :=
  resolve_task_simple (make_task 0) (fun r => assert_err_contains r "must be greater than 0").

(** ** Probes *)

Definition resolve_probes_success : Prop :=
  resolve_probes_simple [default_probe] MockOffsetResolver_success (fun r => match r with
    | Ok [p] => String.eqb (of_container_path (pr_offsets p)) "/path/to/file" &&
        (of_method_offset (pr_offsets p) =? 1234)%Z
    | _ => false
    end).

Definition resolve_probes_offset_not_found : Prop :=
  resolve_probes_simple [default_probe] MockOffsetResolver_none
    (fun r => assert_err_contains r "Failed to get offsets").

Definition resolve_probes_missing_bpf_name : Prop :=
  let probe := mkProbeConfig None None (Some "com.example.Test") (Some "testMethod") [] [] in
  resolve_probes_simple [probe] MockOffsetResolver_none
    (fun r => assert_err_contains r "bpf_name is required").

Definition resolve_probes_missing_method_name : Prop :=
  let probe := mkProbeConfig (Some "test.bpf.o") None (Some "com.example.Test") None [] [] in
  resolve_probes_simple [probe] MockOffsetResolver_none
    (fun r => assert_err_contains r "method_name is required").

Definition resolve_probes_multiple_probes : Prop :=
  let probe1 := make_probe "test1.bpf.o" "com.example.Test1" "testMethod1" in
  let probe2 := make_probe "test2.bpf.o" "com.example.Test2" "testMethod2" in
  resolve_probes_simple [probe1; probe2] MockOffsetResolver_success
    (fun r => match r with Ok [_; _] => true | _ => false end).

Definition resolve_probes_missing_class_name : Prop :=
  let probe := mkProbeConfig (Some "test.bpf.o") None None (Some "testMethod") [] [] in
  resolve_probes_simple [probe] MockOffsetResolver_none
    (fun r => assert_err_contains r "fully_qualified_class_name is required").

Definition resolve_probes_offset_resolver_error : Prop :=
  resolve_probes_simple [default_probe] (MockOffsetResolver (Err (EAnyhow "resolver error")))
    (fun r => assert_err_contains r "resolver error").

Definition resolver_tests : Prop :=
  resolve_single_task_success /\ resolve_single_task_no_duration /\
  resolve_single_task_process_resolver_error /\ resolve_single_task_zero_duration /\
  resolve_probes_success /\ resolve_probes_offset_not_found /\ resolve_probes_missing_bpf_name /\
  resolve_probes_missing_method_name /\ resolve_probes_multiple_probes /\
  resolve_probes_missing_class_name /\ resolve_probes_offset_resolver_error.

(** ** Filters *)

(** The filters of a probe for the binder program. *)
Definition filters_test (filters : list BinderTransactionFilter)
    (check : result (gmap string InterfaceConfig) -> bool) : Prop :=
  check (resolve_binder_transaction_filters (with_filters filters ProbeConfig_new)
           BINDER_BPF_PROGRAM_NAME) = true.

(** What a successful test looks up: the one interface, with [n] methods. *)
Definition interface_check (n : nat) (check : InterfaceConfig -> bool)
    (r : result (gmap string InterfaceConfig)) : bool :=
  match r with
  | Ok m => (size m =? 1)%nat &&
      match m !! "test.interface" with
      | Some ic => (size (ic_methods ic) =? n)%nat && check ic
      | None => false
      end
  | Err _ => false
  end.

Definition has_mode (ic : InterfaceConfig) (method_id : Z) (mode : EventMode) : bool :=
  bool_decide (mc_event_service_config <$> get_method ic method_id = Some (Some {| esc_mode := mode |})).

Definition has_atom_id (ic : InterfaceConfig) (method_id atom_id : Z) : bool :=
  match get_method ic method_id with
  | Some {| mc_atom_config := Some ac |} => (ac_atom_id ac =? atom_id)%Z
  | _ => false
  end.

Definition resolve_binder_transaction_filters_success : Prop :=
  filters_test [make_filter (Some "test.interface") [(1%Z, Some false, None); (2%Z, Some true, None)]]
    (interface_check 2 (fun ic => has_mode ic 1 Buffer && has_mode ic 2 Flush)).

Definition resolve_binder_transaction_filters_atom_config_success : Prop :=
  filters_test
    [make_filter (Some "test.interface") [(1%Z, None, Some 100%Z); (2%Z, None, Some 200%Z)]]
    (interface_check 2 (fun ic => has_atom_id ic 1 100 && has_atom_id ic 2 200)).

Definition resolve_binder_transaction_filters_both_configs_success : Prop :=
  filters_test [make_filter (Some "test.interface") [(1%Z, Some true, Some 100%Z)]]
    (interface_check 1 (fun ic => has_mode ic 1 Flush && has_atom_id ic 1 100)).

Definition resolve_binder_transaction_filters_atom_config_invalid_id : Prop :=
  filters_test
    [{| btf_interface_name := Some "test.interface";
        btf_method_configs :=
          [{| pmc_method_id := Some 1%Z; pmc_event_service_config := None;
              pmc_atom_config :=
                Some {| pac_atom_id := Some 0%Z; pac_atom_field_positions := [] |} |}] |}]
    (fun r => assert_err_contains r "atom_config.atom_id must be positive integer").

Definition resolve_binder_transaction_filters_negative_method_id : Prop :=
  filters_test [make_filter (Some "test.interface") [((-1)%Z, Some false, None)]]
    (fun r => assert_err_contains r
  "binder_transaction_filter.method_config.method_id is required and must be a positive integer").

Definition resolve_binder_transaction_filters_missing_event_service_config : Prop :=
  filters_test [make_filter (Some "test.interface") [(1%Z, None, None)]]
    (fun r => assert_err_contains r
  "either method_config.event_service_config, method_config.atom_config, or both, must be present").

Definition resolve_binder_transaction_filters_empty_filters_for_binder_bpf : Prop :=
  filters_test [] (fun r => assert_err_contains r "requires at least one binder_transaction_filter").

Definition resolve_binder_transaction_filters_with_filters_for_non_binder_bpf : Prop :=
  assert_err_contains
    (resolve_binder_transaction_filters (with_filters [default_filter] ProbeConfig_new) "other.bpf.o")
    "binder_transaction_filters is only supported for" = true.

Definition resolve_binder_transaction_filters_missing_interface_name : Prop :=
  filters_test [make_filter None [(1%Z, Some false, None)]]
    (fun r => assert_err_contains r "binder_transaction_filter.interface_name is required").

Definition resolve_binder_transaction_filters_empty_interface_name : Prop :=
  filters_test [make_filter (Some "") [(1%Z, Some false, None)]]
    (fun r => assert_err_contains r "binder_transaction_filter.interface_name must be non-empty").

Definition resolve_binder_transaction_filters_duplicate_interface_names : Prop :=
  filters_test [default_filter; default_filter]
    (fun r => assert_err_contains r "Duplicate interface_name").

Definition resolve_binder_transaction_filters_duplicate_method_ids : Prop :=
  filters_test [make_filter (Some "test.interface") [(1%Z, Some false, None); (1%Z, Some false, None)]]
    (fun r => assert_err_contains r "Duplicate method_id").

Definition resolve_binder_transaction_filters_empty_method_ids : Prop :=
  filters_test [make_filter (Some "test.interface") []]
    (fun r => assert_err_contains r "binder_transaction_filter.method_configs must be non-empty").

Definition filters_tests : Prop :=
  resolve_binder_transaction_filters_success /\
  resolve_binder_transaction_filters_atom_config_success /\
  resolve_binder_transaction_filters_both_configs_success /\
  resolve_binder_transaction_filters_atom_config_invalid_id /\
  resolve_binder_transaction_filters_negative_method_id /\
  resolve_binder_transaction_filters_missing_event_service_config /\
  resolve_binder_transaction_filters_empty_filters_for_binder_bpf /\
  resolve_binder_transaction_filters_with_filters_for_non_binder_bpf /\
  resolve_binder_transaction_filters_missing_interface_name /\
  resolve_binder_transaction_filters_empty_interface_name /\
  resolve_binder_transaction_filters_duplicate_interface_names /\
  resolve_binder_transaction_filters_duplicate_method_ids /\
  resolve_binder_transaction_filters_empty_method_ids.

Definition prefix_bpf_test : Prop := prefix_bpf "my_map" = "/sys/fs/bpf/uprobestats/my_map".

(** ** Configs in bytes *)

Section Bytes.
Context (parse_from_bytes : list byte -> option UprobestatsConfig)
        (write_to_bytes : UprobestatsConfig -> list byte).

Definition no_tasks : UprobestatsConfig := {| cfg_tasks := [] |}.
Definition unset_task : UprobestatsConfig := {| cfg_tasks := [Task_new] |}.
Definition multiple_tasks : UprobestatsConfig := {| cfg_tasks := [make_task 10; make_task 20] |}.
Definition garbage : list byte := ["222"; "173"; "190"; "239"]%byte.

(** What the tests rely on of the protobuf library. *)
Record Protobuf : Prop := {
  proto_roundtrip c : c ∈ [no_tasks; unset_task; multiple_tasks] ->
    parse_from_bytes (write_to_bytes c) = Some c;
  proto_empty : parse_from_bytes [] = Some no_tasks;
  proto_garbage : parse_from_bytes garbage = None
}.

(** [resolve_config(..)] with the mocks. *)
Definition resolve_config_err (config : UprobestatsConfig) (substring : string) : Prop :=
  resolver_test [MockProcessResolver_success; MockOffsetResolver_none]
    (do! r := method (resolve_config parse_from_bytes (write_to_bytes config) false) in
     asserts (assert_config_err_contains r substring)).

(** The number is formatted into the text. *)
Definition resolve_single_task_no_tasks : Prop :=
  resolve_config_err no_tasks "Config must have exactly one task, got ".

Definition resolve_single_task_multiple_tasks : Prop :=
  resolve_config_err multiple_tasks "Config must have exactly one task, got ".

Definition read_config_from_bytes_valid : Prop :=
  read_config_from_bytes parse_from_bytes (write_to_bytes unset_task) = Ok unset_task.

Definition read_config_from_bytes_invalid : Prop :=
  is_err (read_config_from_bytes parse_from_bytes garbage) = true.

Definition read_config_from_bytes_empty : Prop :=
  read_config_from_bytes parse_from_bytes [] = Ok no_tasks.

Definition bytes_tests : Prop :=
  resolve_single_task_no_tasks /\ resolve_single_task_multiple_tasks /\
  read_config_from_bytes_valid /\ read_config_from_bytes_invalid /\ read_config_from_bytes_empty.

Lemma bytes_tests_pass : Protobuf -> bytes_tests.
Proof.
  intros [Hr He Hg].
  unfold bytes_tests, resolve_single_task_no_tasks, resolve_single_task_multiple_tasks, resolve_config_err,
    read_config_from_bytes_valid, read_config_from_bytes_invalid, read_config_from_bytes_empty,
    resolve_config, read_config_from_bytes.
  rewrite !Hr, He, Hg by set_solver. run_test.
Qed.

End Bytes.

Lemma resolver_tests_pass : resolver_tests.
Proof. run_test. Qed.

End Tests.

Lemma filters_tests_pass {T : Target} : filters_tests /\ prefix_bpf_test.
Proof. destruct T as [? []]; run_test. Qed.

(** ** The guardrail *)

Definition setup_config (probe_configs : list ProbeConfig) : UprobestatsConfig :=
  {| cfg_tasks := [mkTask probe_configs [] None None None None None] |}.

(** [collect::<Vec<_>>().join(", ")]. *)
Definition comma_separated (l : list string) : string := String.concat ", " l.

Definition setup_probe_config (class_name method_name : string)
    (fully_qualified_parameters : list string) : ProbeConfig :=
  mkProbeConfig (Some "prog_some_bpf")
    (Some ("void " +:+ class_name +:+ "." +:+ method_name +:+ "(" +:+
           comma_separated fully_qualified_parameters +:+ ")"))
    (Some class_name) (Some method_name) fully_qualified_parameters [].

(** [is_allowed(..).unwrap()] is as given, for all pairs of a build kind and an API. *)
Definition verdicts (config : UprobestatsConfig) (cases : list (bool * bool)) (allowed : bool) : Prop :=
  forallb (fun '(is_user_build, offsets_api_enabled) =>
    match is_allowed config is_user_build offsets_api_enabled with
    | Ok b => Bool.eqb b allowed
    | Err _ => false
    end) cases = true.

Definition everything_allowed_on_userdebug : Prop :=
  verdicts (setup_config [setup_probe_config "com.android.server.am.SomeClass" "doWork" []])
    [(false, true); (false, false)] true.

Definition oom_adjuster_allowed : Prop :=
  verdicts
    (setup_config
       [setup_probe_config "com.android.server.am.OomAdjuster" "setUidTempAllowlistStateLSP"
          ["int"; "boolean"];
        setup_probe_config "com.android.server.am.OomAdjuster$$ExternalSyntheticLambda0" "accept"
          ["java.lang.String"]])
    [(false, false); (true, false); (false, true); (true, true)] true.

Definition permission_manager_allowed : Prop :=
  verdicts
    (setup_config [setup_probe_config "com.android.server.pm.permission.PermissionManagerService"
                     "grantRuntimePermission" []])
    [(true, false); (true, true)] true.

Definition with_bpf_name (name : string) (p : ProbeConfig) : ProbeConfig :=
  mkProbeConfig (Some name) (pb_method_signature p) (pb_fully_qualified_class_name p) (pb_method_name p)
    (pb_fully_qualified_parameters p) (pb_binder_transaction_filters p).

Definition a11y_service_connection_bpf_program_allowed : Prop :=
  verdicts
    (setup_config [with_bpf_name PROG_BINDER_A11Y_SERVICE_CONNECTION
                     (setup_probe_config "com.android.server.am.DisallowedClass" "doWork" [])])
    [(true, false); (true, true)] true.

Definition update_device_idle_temp_allowlist_allowed : Prop :=
  let probe := setup_probe_config "com.android.server.am.ActivityManagerService$LocalService"
                 "updateDeviceIdleTempAllowlist" [] in
  get_full_method_name probe false =
    Ok "com.android.server.am.ActivityManagerService$LocalService.updateDeviceIdleTempAllowlist()" /\
  verdicts (setup_config [probe]) [(false, false); (false, true); (true, true)] true.

Definition oom_adjuster_with_suffix_disallowed : Prop :=
  verdicts
    (setup_config [setup_probe_config "com.android.server.am.OomAdjusterWithSomeSuffix" "doWork" []])
    [(true, false); (true, true)] false.

Definition disallowed_method_in_second_task_disallowed : Prop :=
  verdicts
    (setup_config [setup_probe_config "com.android.server.am.OomAdjusterWithSomeSuffix" "doWork" [];
                   setup_probe_config "com.android.server.am.DisallowedClass" "doWork" []])
    [(true, false); (true, true)] false.

Definition guardrail_tests : Prop :=
  everything_allowed_on_userdebug /\ oom_adjuster_allowed /\ permission_manager_allowed /\
  a11y_service_connection_bpf_program_allowed /\ update_device_idle_temp_allowlist_allowed /\
  oom_adjuster_with_suffix_disallowed /\ disallowed_method_in_second_task_disallowed.

Lemma guardrail_tests_pass : guardrail_tests.
Proof. run_test. Qed.
