(* ===== verification/UnitTests.v ===== *)
(** * UnitTests: the model passes the unit tests of the source *)

From S2P Require Import Prelude Effects RustStd Data System Fixtures Guardrail ConfigResolver Handler.
From S2P Require Import Accessibility Disruptive BinderHandler Bitmap Generic.
From S2P Require Import TestKit TestAccessibility TestDisruptive TestHandlers TestConfig.

Local Open Scope rust_scope.
Local Open Scope list_scope.

(** The handlers pass their unit tests.  Every test of the source's handler
    modules passes on the model: no step panics, every call of the bridge service is
    one the test expects and is made as often as expected, every assertion holds;
    for every build, for either order in which a hash map may be walked, and for
    any number the random generator may give. *)
Theorem handlers_pass_unit_tests {Tg : Target} :
  (@accessibility_tests canonical_order /\ @accessibility_tests reversed_order) /\
  disruptive_tests /\ binder_tests /\
  (@bitmap_tests Tg canonical_order /\ @bitmap_tests Tg reversed_order) /\ logging_tests.
Proof.
  split; [exact accessibility_tests_pass|]. split; [exact disruptive_tests_pass|].
  split; [exact binder_tests_pass|]. split; [exact bitmap_tests_pass|exact logging_tests_pass].
Qed.

(** The resolver and the guardrail pass their unit tests.  With a protobuf
    library that parses what it wrote, for every build and every setting of the
    feature flags: every test of the source's resolver and guardrail modules passes
    on the model, error messages included, up to the values formatted into them. *)
Theorem config_passes_unit_tests {T : Target} {F : Flags}
    (parse_from_bytes : list byte -> option UprobestatsConfig)
    (write_to_bytes : UprobestatsConfig -> list byte)
    (H : Protobuf parse_from_bytes write_to_bytes) :
  resolver_tests /\ (filters_tests /\ prefix_bpf_test) /\ bytes_tests parse_from_bytes write_to_bytes /\
  guardrail_tests.
Proof.
  split; [exact resolver_tests_pass|]. split; [exact filters_tests_pass|].
  split; [by apply bytes_tests_pass|exact guardrail_tests_pass].
Qed.

(** A library for the three configs of the tests: the number of tasks. *)
Definition small_write (c : UprobestatsConfig) : list byte :=
  match cfg_tasks c with [] => [] | [_] => ["001"] | _ => ["002"] end%byte.

Definition small_parse (b : list byte) : option UprobestatsConfig :=
  match b with
  | [] => Some no_tasks
  | ["001"] => Some unset_task
  | ["002"] => Some multiple_tasks
  | _ => None
  end%byte.

Lemma small_protobuf : Protobuf small_parse small_write.
Proof.
  split; [|reflexivity..]. intros c Hc.
  repeat (apply elem_of_cons in Hc as [->|Hc]; [reflexivity|]). by apply not_elem_of_nil in Hc.
Defined.

Lemma config_passes_unit_tests_witness :
  @Protobuf small_parse small_write /\
  read_config_from_bytes small_parse (small_write unset_task) = Ok unset_task.
Proof.
  split; [exact small_protobuf|].
  destruct (@config_passes_unit_tests target64 all_flags _ _ small_protobuf)
    as (_ & _ & (_ & _ & H & _) & _).
  exact H.
Defined.
