(* ===== verification/StatsAtoms.v ===== *)
(** * StatsAtoms: the generated statsd functions behind the daemon's atoms
    ([daemon/android/atom.rs], [daemon/android/uprobestats_android.rs]) *)

From S2P Require Import Prelude Effects RustStd Data System Fixtures Guardrail ConfigResolver Handler.

Local Open Scope rust_scope.
Local Open Scope string_scope.
Local Open Scope list_scope.

(** ** Paths to enums.  The arms of the two [match]es, in order. *)

Fixpoint match_str {A} (arms : list (string * A)) (d : A) (s : string) : A :=
  match arms with
  | [] => d
  | (k, a) :: arms' => if String.eqb s k then a else match_str arms' d s
  end.

Definition program_arms : list (string * AttachedBpfProgram) :=
  [("prog_Accessibility_uprobe_dispatch_gesture", A_ProgAccessibilityUprobeAccessibilityServiceConnection);
   ("prog_Accessibility_uprobe_grant_runtime_permission", A_ProgAccessibilityUprobeGrantRuntimePermission);
   ("prog_Binder_uprobe_exec_transact_internal", A_ProgBinderUprobeExecTransactInternal);
   ("prog_BitmapAllocation_uprobe_activity_perform_start", A_ProgBitmapAllocationUprobeActivityPerformStart);
   ("prog_BitmapAllocation_uprobe_apply_free_function", A_ProgBitmapAllocationUprobeApplyFreeFunction);
   ("prog_BitmapAllocation_uprobe_bitmap_creation_for_snapshot", A_ProgBitmapAllocationUprobeBitmapCreationForSnapshot);
   ("prog_BitmapAllocation_uprobe_create_scaled_bitmap", A_ProgBitmapAllocationUprobeCreateScaledBitmap);
   ("prog_DisruptiveApp_uprobe_bind_service_locked", A_ProgDisruptiveAppUprobeBindServiceLocked);
   ("prog_DisruptiveApp_uprobe_set_component_enabled_setting", A_ProgDisruptiveAppUprobeSetComponentEnabledSetting);
   ("prog_GenericInstrumentation_uprobe_call_detail", A_ProgGenericInstrumentationUprobeCallDetail);
   ("prog_GenericInstrumentation_uprobe_call_timestamp", A_ProgGenericInstrumentationUprobeCallTimestamp)].

Definition map_arms : list (string * PolledMapPath) :=
  [("map_Accessibility_output_buf", P_BpfMapPathAccessibilityOutputBuf);
   ("map_Binder_output_buf", P_BpfMapPathBinderOutputBuf);
   ("map_BitmapAllocation_output", P_BpfMapPathBitmapAllocationOutput);
   ("map_DisruptiveApp_BindServiceLocked_output_buf", P_BpfMapPathDisruptiveAppBindServiceLockedOutputBuf);
   ("map_DisruptiveApp_ComponentEnabledSetting_output_buf", P_BpfMapPathDisruptiveAppComponentEnabledSettingOutputBuf);
   ("map_GenericInstrumentation_call_detail_buf", P_BpfMapPathGenericInstrumentationCallDetailBuf);
   ("map_GenericInstrumentation_call_timestamp_buf", P_BpfMapPathGenericInstrumentationCallTimestampBuf)].

Definition bpf_program_path_to_enum (path : string) : result AttachedBpfProgram :=
  match hd_error (rsplit_char "/" path) with
  | None => Err (EAnyhow "Failed to extract filename from path: {path}")
  | Some filename => Ok (match_str program_arms A_UprobeStatsBpfProgramUnspecified filename)
  end.

Definition bpf_map_path_to_enum (map_path : string) : result PolledMapPath :=
  match hd_error (rsplit_char "/" map_path) with
  | None => Err (EAnyhow "Failed to extract filename from map_path: {map_path}")
  | Some filename => Ok (match_str map_arms P_UprobeStatsBpfMapPathUnspecified filename)
  end.

Definition to_internal_error_bpf_attached_program (p : AttachedBpfProgram) : InternalErrorBpfProgram :=
  match p with
  | A_UprobeStatsBpfProgramUnspecified => I_UprobeStatsBpfProgramUnspecified
  | A_ProgAccessibilityUprobeAccessibilityServiceConnection => I_ProgAccessibilityUprobeAccessibilityServiceConnection
  | A_ProgAccessibilityUprobeGrantRuntimePermission => I_ProgAccessibilityUprobeGrantRuntimePermission
  | A_ProgBinderUprobeExecTransactInternal => I_ProgBinderUprobeExecTransactInternal
  | A_ProgBitmapAllocationOutput => I_ProgBitmapAllocationOutput
  | A_ProgBitmapAllocationUprobeActivityPerformStart => I_ProgBitmapAllocationUprobeActivityPerformStart
  | A_ProgBitmapAllocationUprobeApplyFreeFunction => I_ProgBitmapAllocationUprobeApplyFreeFunction
  | A_ProgBitmapAllocationUprobeBitmapCreationForSnapshot => I_ProgBitmapAllocationUprobeBitmapCreationForSnapshot
  | A_ProgBitmapAllocationUprobeCreateScaledBitmap => I_ProgBitmapAllocationUprobeCreateScaledBitmap
  | A_ProgDisruptiveAppUprobeBindServiceLocked => I_ProgDisruptiveAppUprobeBindServiceLocked
  | A_ProgDisruptiveAppUprobeSetComponentEnabledSetting => I_ProgDisruptiveAppUprobeSetComponentEnabledSetting
  | A_ProgGenericInstrumentationUprobeCallDetail => I_ProgGenericInstrumentationUprobeCallDetail
  | A_ProgGenericInstrumentationUprobeCallTimestamp => I_ProgGenericInstrumentationUprobeCallTimestamp
  | A_ProgKeepaliveUprobeAcquireWakeLockInternal => I_ProgKeepaliveUprobeAcquireWakeLockInternal
  | A_ProgKeepaliveUprobeReleaseWakeLockInternal => I_ProgKeepaliveUprobeReleaseWakeLockInternal
  end.

Definition to_internal_error_bpf_map_polled_path (p : PolledMapPath) : InternalErrorMapPath :=
  match p with
  | P_UprobeStatsBpfMapPathUnspecified => IM_UprobeStatsBpfMapPathUnspecified
  | P_BpfMapPathAccessibilityOutputBuf => IM_BpfMapPathAccessibilityOutputBuf
  | P_BpfMapPathBinderOutputBuf => IM_BpfMapPathBinderOutputBuf
  | P_BpfMapPathBitmapAllocationOutput => IM_BpfMapPathBitmapAllocationOutput
  | P_BpfMapPathDisruptiveAppBindServiceLockedOutputBuf => IM_BpfMapPathDisruptiveAppBindServiceLockedOutputBuf
  | P_BpfMapPathDisruptiveAppComponentEnabledSettingOutputBuf =>
      IM_BpfMapPathDisruptiveAppComponentEnabledSettingOutputBuf
  | P_BpfMapPathGenericInstrumentationCallDetailBuf => IM_BpfMapPathGenericInstrumentationCallDetailBuf
  | P_BpfMapPathGenericInstrumentationCallTimestampBuf => IM_BpfMapPathGenericInstrumentationCallTimestampBuf
  | P_BpfMapPathKeepaliveOutputBuf => IM_BpfMapPathKeepaliveOutputBuf
  end.

(** [unwrap]s panic if a path has no file name. *)
Definition write_internal_error {S} (error_type : ErrorType) (task_id : Z)
    (bpf_program_path bpf_map_path : option string) (failure_point : Z) : Sys S unit :=
  let! bpf_program_enum :=
    match bpf_program_path with
    | Some path =>
        let! p := lift_outcome (unwrap (bpf_program_path_to_enum path)) in
        mret (to_internal_error_bpf_attached_program p)
    | None => mret I_UprobeStatsBpfProgramUnspecified
    end in
  let! map_path_enum :=
    match bpf_map_path with
    | Some path =>
        let! p := lift_outcome (unwrap (bpf_map_path_to_enum path)) in
        mret (to_internal_error_bpf_map_polled_path p)
    | None => mret IM_UprobeStatsBpfMapPathUnspecified
    end in
  let! _ := ext (E := SysI)
    (stats_write_internal_error error_type task_id bpf_program_enum map_path_enum failure_point) in
  mret tt.

(** ** [CodegenAtomWriter] *)

Definition convert_to_pixel_storage_type_enum (pixel_storage_type : Z) : SnapshotPixelStorageType :=
  match pixel_storage_type with
  | 0 => Snap_PixelStorageTypeWrappedPixelRef
  | 1 => Snap_PixelStorageTypeHeap
  | 2 => Snap_PixelStorageTypeAshmem
  | 3 => Snap_PixelStorageTypeHardware
  | _ => Snap_PixelStorageTypeUnspecified
  end%Z.

Definition convert_to_bitmap_scaled_pixel_storage_type_enum (pixel_storage_type : Z) :
    ScaledPixelStorageType :=
  match pixel_storage_type with
  | 0 => Scaled_PixelStorageTypeWrappedPixelRef
  | 1 => Scaled_PixelStorageTypeHeap
  | 2 => Scaled_PixelStorageTypeAshmem
  | 3 => Scaled_PixelStorageTypeHardware
  | _ => Scaled_PixelStorageTypeUnspecified
  end%Z.

Definition convert_to_snapshot_type_enum (snapshot_type : Z) : SnapshotType :=
  match snapshot_type with
  | 1 => SnapshotTypeMaxAllocationSize
  | 2 => SnapshotTypeRandomSample
  | _ => SnapshotTypeUnspecified
  end%Z.

(** The generated function each atom is passed to. *)
Definition stats_write_of (atom : CodegenAtom) : StatsWrite :=
  match atom with
  | SetComponentEnabledSettingReported package_name class_name new_state calling_package_name
      is_launcher_activity =>
      set_component_enabled_setting_reported package_name class_name new_state
        calling_package_name is_launcher_activity
  | DisabledLauncherActivityUidsReported calling_uid disabled_activity_uid =>
      disabled_launcher_activity_uids_reported calling_uid disabled_activity_uid
  | BindServiceLockedWithBalFlagsReported intent_package flags calling_package intent_action
      intent_component_name_package intent_component_name_class =>
      bind_service_locked_with_bal_flags_reported intent_package flags calling_package
        intent_action intent_component_name_package intent_component_name_class
  | BindServiceLockedWithBalFlagsUidsReported binder_uid bindee_uid =>
      bind_service_locked_with_bal_flags_uids_reported binder_uid bindee_uid
  | AndroidGraphicsBitmapAllocated uid width height =>
      android_graphics_bitmap_allocated uid width height
  | AndroidGraphicsBitmapScaled uid width height scaled_width scaled_height pixel_storage_type
      activity_name =>
      android_graphics_bitmap_scaled uid width height scaled_width scaled_height
        (convert_to_bitmap_scaled_pixel_storage_type_enum pixel_storage_type) activity_name
  | AndroidGraphicsBitmapAllocationSnapshot uid width height pixel_storage_type snapshot_id
      snapshot_type activity_name =>
      android_graphics_bitmap_allocation_snapshot uid width height
        (convert_to_pixel_storage_type_enum pixel_storage_type) snapshot_id
        (convert_to_snapshot_type_enum snapshot_type) activity_name
  end.

Definition CodegenAtomWriter_write {S} (atom : CodegenAtom) : Sys S (result unit) :=
  let! r := ext (E := SysI) (stats_write_codegen (stats_write_of atom)) in
  mret (map_err (fun _ => EAnyhow "{e}") r).

(** ** The device *)

(** [is_user_build] of the crate: assumed unless the property says otherwise. *)
Definition android_is_user_build {S} : Sys S bool :=
  let! r := ext (E := SysI) (system_properties_read "ro.build.type") in
  match r with
  | Ok (Some val) => mret (String.eqb val "user")
  | _ => mret true
  end.

Definition is_at_least_cinnamon_bun {S} : Sys S bool :=
  let! level := ext (E := SysI) android_get_device_api_level in
  mret (37 <=? level)%Z.

(** ** Lemmas *)

Lemma bpf_program_path_to_enum_total path : exists p, bpf_program_path_to_enum path = Ok p.
Proof.
  unfold bpf_program_path_to_enum. destruct (rsplit_char_nonempty "/" path) as (p & ps & ->).
  cbn. eauto.
Qed.

Lemma bpf_map_path_to_enum_total path : exists p, bpf_map_path_to_enum path = Ok p.
Proof.
  unfold bpf_map_path_to_enum. destruct (rsplit_char_nonempty "/" path) as (p & ps & ->).
  cbn. eauto.
Qed.

(** The enum arguments of a report. *)
Definition program_enum (path : option string) : InternalErrorBpfProgram :=
  match path with
  | None => I_UprobeStatsBpfProgramUnspecified
  | Some path =>
      match bpf_program_path_to_enum path with
      | Ok p => to_internal_error_bpf_attached_program p
      | Err _ => I_UprobeStatsBpfProgramUnspecified
      end
  end.

Definition map_enum (path : option string) : InternalErrorMapPath :=
  match path with
  | None => IM_UprobeStatsBpfMapPathUnspecified
  | Some path =>
      match bpf_map_path_to_enum path with
      | Ok p => to_internal_error_bpf_map_polled_path p
      | Err _ => IM_UprobeStatsBpfMapPathUnspecified
      end
  end.

(** Reporting is one call whose answer is ignored. *)
Lemma write_internal_error_eq {S} ty id prog map point (s : S) :
  write_internal_error ty id prog map point s =
  Vis (stats_write_internal_error ty id (program_enum prog) (map_enum map) point : call SysI)
    (fun _ => Ret (Val tt, s)).
Proof.
  unfold write_internal_error, program_enum, map_enum.
  destruct prog as [p|], map as [m|]; cbn;
    repeat match goal with
    | |- context [bpf_program_path_to_enum ?p] =>
        destruct (bpf_program_path_to_enum_total p) as [? ->]; cbn
    | |- context [bpf_map_path_to_enum ?p] =>
        destruct (bpf_map_path_to_enum_total p) as [? ->]; cbn
    end; reflexivity.
Qed.

(** A step whose error is reported and marked. *)
Lemma exec_on_err_write {S A} (m : Sys S (result A)) ty id prog map point (s : S) tr o s' :
  exec (on_err m (fun e =>
          let! _ := write_internal_error ty id prog map point in mret (EReportedToStatsd e)) s)
    tr (o, s') ->
  exists t1 o1, exec (m s) t1 (o1, s') /\
    match o1 with
    | Val (Err e) => o = Val (Err (EReportedToStatsd e)) /\ exists r, tr = t1 ++
        [existT (stats_write_internal_error ty id (program_enum prog) (map_enum map) point) r : ev]
    | _ => tr = t1 /\ o = o1
    end.
Proof.
  unfold on_err. intros [H|[(msg & s2 & H & [= -> ->])|(s2 & H & [= -> ->])]]%exec_mbind.
  - destruct H as (t1 & t2 & [a|e] & s2 & -> & H1 & H2).
    + destruct H2 as [-> [= -> ->]]. exists t1, (Val (Ok a)). by rewrite app_nil_r.
    + unfold mbind in H2. rewrite write_internal_error_eq in H2.
      destruct H2 as (r & t3 & -> & -> & [= -> ->]). exists t1, (Val (Err e)). eauto.
  - exists tr, (Panics msg). done.
  - exists tr, NoFuel. done.
Qed.

Lemma makes_only_write_internal_error {S} (P : SysCall -> bool) ty id prog map point :
  (forall p m, P (stats_write_internal_error ty id p m point) = true) ->
  makes_only (E := SysI) (S := S) P (write_internal_error ty id prog map point).
Proof.
  intros HP s tr x H. rewrite write_internal_error_eq in H. destruct H as (r & t & -> & -> & _).
  constructor; [apply HP|constructor].
Qed.

Lemma match_str_spec {A} (arms : list (string * A)) d s :
  NoDup arms.*1 ->
  (forall k a, (k, a) ∈ arms -> match_str arms d k = a) /\
  (s ∉ arms.*1 -> match_str arms d s = d).
Proof.
  induction arms as [|[k a] arms IH]; intros Hnd.
  - split; [by intros ? ? ?%not_elem_of_nil|done].
  - cbn in Hnd. apply NoDup_cons in Hnd as [Hk Hnd]. destruct (IH Hnd) as [IH1 IH2].
    split.
    + intros k' a' [[= -> ->]|Hin]%elem_of_cons; cbn; [by rewrite String.eqb_refl|].
      destruct (String.eqb_spec k' k) as [->|]; [|by apply IH1].
      destruct Hk. apply (list_elem_of_fmap_2 fst) in Hin. done.
    + cbn. intros [Hne Hin]%not_elem_of_cons. destruct (String.eqb_spec s k) as [->|]; [done|].
      by apply IH2.
Qed.

(** ** Properties *)

(** Reporting an internal error never panics.  The two [unwrap]s cannot fail:
    every path, however malformed, yields an enum value.  A report is exactly one
    statsd call, whose failure is ignored, and leaves the caller's state alone. *)
Theorem write_internal_error_never_panics {S} ty id prog map point (s : S) tr o s'
    (H : exec (write_internal_error ty id prog map point s) tr (o, s')) :
  o = Val tt /\ s' = s /\ internal_errors tr = [(ty, id)] /\ length tr = 1%nat.
Proof.
  rewrite write_internal_error_eq in H. destruct H as (r & t & -> & -> & [= -> ->]). done.
Qed.

(** Enum of a path.  For a file in the uprobestats directory (or any other)
    the enum depends on the file name alone: the eleven known programs and seven
    known maps get their own, pairwise distinct values, and every other name the
    unspecified one; translating to the internal-error enums keeps the values
    distinct. *)
Theorem path_enum_spec :
  (forall dir file, str_free "/" file ->
     bpf_program_path_to_enum (dir +:+ String "/" file) =
       Ok (match_str program_arms A_UprobeStatsBpfProgramUnspecified file) /\
     bpf_map_path_to_enum (dir +:+ String "/" file) =
       Ok (match_str map_arms P_UprobeStatsBpfMapPathUnspecified file)) /\
  (forall file a, (file, a) ∈ program_arms ->
     match_str program_arms A_UprobeStatsBpfProgramUnspecified file = a) /\
  (forall file a, (file, a) ∈ map_arms ->
     match_str map_arms P_UprobeStatsBpfMapPathUnspecified file = a) /\
  (forall file, file ∉ program_arms.*1 ->
     match_str program_arms A_UprobeStatsBpfProgramUnspecified file =
       A_UprobeStatsBpfProgramUnspecified) /\
  (forall file, file ∉ map_arms.*1 ->
     match_str map_arms P_UprobeStatsBpfMapPathUnspecified file = P_UprobeStatsBpfMapPathUnspecified) /\
  Inj (=) (=) to_internal_error_bpf_attached_program /\
  Inj (=) (=) to_internal_error_bpf_map_polled_path.
Proof.
  assert (NoDup program_arms.*1 /\ NoDup map_arms.*1) as [Hp Hm]
    by (split; refine (bool_decide_unpack _ _); vm_compute; exact I).
  split_and!.
  - intros dir file Hf. unfold bpf_program_path_to_enum, bpf_map_path_to_enum.
    by rewrite !rsplit_char_file.
  - intros file a. apply (match_str_spec program_arms _ file Hp).
  - intros file a. apply (match_str_spec map_arms _ file Hm).
  - intros file. apply (match_str_spec program_arms _ file Hp).
  - intros file. apply (match_str_spec map_arms _ file Hm).
  - intros [] []; done.
  - intros [] []; done.
Qed.

(** The user-build test fails closed: the device counts as a user build
    unless the property can be read and says something else. *)
Theorem is_user_build_fails_closed {S} (s : S) tr o s'
    (H : exec (android_is_user_build s) tr (o, s')) :
  s' = s /\ (o = Val true \/
    exists v, o = Val false /\ v <> "user" /\
      tr = [existT (system_properties_read "ro.build.type") (Ok (Some v)) : ev]).
Proof.
  destruct H as ([[v|]|e] & t & -> & H).
  - cbn in H. destruct H as [-> [= -> ->]]. split; [done|].
    destruct (String.eqb_spec v "user"); [by left|right]. eauto.
  - destruct H as [-> [= -> ->]]. auto.
  - destruct H as [-> [= -> ->]]. auto.
Qed.

(** ** Witnesses *)

Lemma write_internal_error_never_panics_witness :
  exists tr, exec (write_internal_error ErrorTypeBpfProgramError 4 (Some "///") (Some "") 9 tt) tr
      (Val tt, tt) /\ internal_errors tr = [(ErrorTypeBpfProgramError, 4%Z)].
Proof.
  eexists.
  assert (exec (write_internal_error ErrorTypeBpfProgramError 4 (Some "///") (Some "") 9 tt) _
    (Val tt, tt)) as H by run_in benign_env.
  split; [exact H|].
  exact (proj1 (proj2 (proj2 (@write_internal_error_never_panics unit _ _ _ _ _ _ _ _ _ H)))).
Defined.

Lemma path_enum_spec_witness :
  bpf_map_path_to_enum (prefix_bpf "map_Binder_output_buf") = Ok P_BpfMapPathBinderOutputBuf.
Proof.
  exact (proj2 (proj1 path_enum_spec "/sys/fs/bpf/uprobestats" "map_Binder_output_buf" eq_refl)).
Defined.

Lemma is_user_build_fails_closed_witness :
  exists tr, exec (android_is_user_build tt) tr (Val true, tt) /\
    (Val true = Val true \/ exists v, Val true = Val false /\ v <> "user" /\
      tr = [existT (system_properties_read "ro.build.type") (Ok (Some v)) : ev]).
Proof.
  eexists. assert (exec (android_is_user_build tt) _ (Val true, tt)) as H by run_in benign_env.
  split; [exact H|]. exact (proj2 (@is_user_build_fails_closed unit _ _ _ _ H)).
Defined.
