(* ===== verification/Bpf.v ===== *)
(** * Bpf: the safe wrappers over the C functions ([daemon/ffi/bpf/bpf.rs],
    [daemon/ffi/c_string.rs])

    A handle is a number, zero the null pointer.  [BpfRingBuffer] and
    [BpfMapAccessor] own their handle; [with_drop] runs their destructor. *)

From S2P Require Import Prelude Effects RustStd Data System Handler.

Local Open Scope rust_scope.
Local Open Scope string_scope.
Local Open Scope list_scope.

Definition ENOENT : Z := 2.

(** [CString::new(..).context(..)]. *)
Definition c_string (s : string) : result string :=
  if no_nul s then Ok s else Err (EContext "Failed to create CString" ENul).

(** A value with a destructor goes out of scope: the destructor runs however the
    body ended (unwinding included). *)
Definition with_drop {S A} (m : Sys S A) (drop : Sys S unit) : Sys S A := fun s =>
  pbind (m s) (fun '(o, s') =>
    match o with
    | NoFuel => Ret (NoFuel, s')
    | _ => pbind (drop s') (fun '(_, s'') => Ret (o, s''))
    end).

(** ** Ring buffers *)

(** The handle [BpfRingBuffer] owns. *)
Definition BpfRingBuffer_new {S} (ty : StructTy) (map_path : string) : Sys S (result Z) :=
  let? map_path := pure (c_string map_path) in
  let! handle := ext (E := SysI) (bpfRingBufCreate map_path ty) in
  let? _ := mret (ensure (negb (handle =? 0)%Z) "Failed to create BpfRingBuffer") in
  mret (Ok handle).

Definition BpfRingBuffer_poll {S} (ty : StructTy) (handle timeout_ms : Z) :
    Sys S (result (list (struct_of ty))) :=
  let! r := ext (E := SysI) (bpfRingBufPoll ty handle timeout_ms) in
  let '(res, data) := r in
  let? _ := mret (ensure (0 <=? res)%Z "Failed to poll ring buffer. Error code: {}") in
  mret (Ok data).

Definition BpfRingBuffer_drop {S} (handle : Z) : Sys S unit :=
  ext (E := SysI) (bpfRingBufDestroy handle).

Definition bpf_ring_buffer_discard {S} (path : string) : Sys S (result bool) :=
  let? path := pure (c_string path) in
  let! res := ext (E := SysI) (bpfRingBufDiscard path) in
  let? _ := mret (ensure (0 <=? res)%Z "Failed to discard ring buffer at {}. Error code: {}") in
  mret (Ok (res =? 1)%Z).

(** ** Perf events *)

(** The [OwnedFd]. *)
Definition bpf_perf_event_open {S} (filename : string) (offset pid : Z) (bpf_program_path : string) :
    Sys S (result Z) :=
  let? filename := pure (c_string filename) in
  let? bpf_program_path := pure (c_string bpf_program_path) in
  let! fd := ext (E := SysI) (bpfPerfEventOpen filename offset pid bpf_program_path) in
  let? _ := mret (ensure (0 <=? fd)%Z "Failed to attach BPF. Error code: {}") in
  mret (Ok fd).

Definition OwnedFd_drop {S} (fd : Z) : Sys S unit := ext (E := SysI) (close_fd fd).

(** ** Maps *)

Inductive UpdateMapElemFlags := Upsert | Insert | Update.

Definition update_flags (f : UpdateMapElemFlags) : Z :=
  match f with Upsert => 0 | Insert => 1 | Update => 2 end.

Definition bpf_map_open_exclusive_rw {S} (path : string) : Sys S (result Z) :=
  let? path := pure (c_string path) in
  let! r := ext (E := SysI) (bpfMapOpenExclusiveRW path) in
  let '(res, handle) := r in
  let? _ := mret (ensure (res =? 0)%Z "Failed to open BPF map at {}: error {}") in
  mret (Ok handle).

Definition bpf_map_close {S} (handle : Z) : Sys S unit := ext (E := SysI) (bpfMapClose handle).

Definition bpf_map_update_elem {S} (handle : Z) (key : list byte) (value : list Z)
    (flags : UpdateMapElemFlags) : Sys S (result unit) :=
  let! res := ext (E := SysI) (bpfMapUpdateElem handle key value (update_flags flags)) in
  let? _ := mret (ensure (res =? 0)%Z "Failed to write to BPF map. Error code: {}") in
  mret (Ok tt).

Definition bpf_map_lookup_elem {S} (handle : Z) (key : list byte) :
    Sys S (result (option (list Z))) :=
  let! r := ext (E := SysI) (bpfMapLookupElem handle key) in
  let '(res, value) := r in
  if (res =? - ENOENT)%Z then mret (Ok None)
  else
    let? _ := mret (ensure (res =? 0)%Z "Failed to lookup BPF map element. Error code: {}") in
    mret (Ok (Some value)).

Definition bpf_map_get_first_key {S} (handle : Z) : Sys S (result (option (list byte))) :=
  let! r := ext (E := SysI) (bpfMapGetFirstKey handle) in
  let '(res, key) := r in
  if (res =? - ENOENT)%Z then mret (Ok None)
  else
    let? _ := mret (ensure (res =? 0)%Z "Failed to get first BPF map key. Error code: {}") in
    mret (Ok (Some key)).

Definition bpf_map_delete_elem {S} (handle : Z) (key : list byte) : Sys S (result bool) :=
  let! res := ext (E := SysI) (bpfMapDeleteElem handle key) in
  if (res =? - ENOENT)%Z then mret (Ok false)
  else
    let? _ := mret (ensure (res =? 0)%Z "Failed to delete BPF map element. Error code: {}") in
    mret (Ok true).

(** ** Lemmas *)

Lemma c_string_Ok (s t : string) : c_string s = Ok t <-> t = s /\ no_nul s = true.
Proof. unfold c_string. destruct (no_nul s); naive_solver. Qed.

(** The body runs first, then the destructor; the outcome is the body's. *)
Lemma exec_with_drop {S A} (m : Sys S A) (drop : Sys S unit) s tr o s' :
  exec (with_drop m drop s) tr (o, s') ->
  (o = NoFuel /\ exec (m s) tr (NoFuel, s')) \/
  (o <> NoFuel /\ exists t1 t2 s1 o2, tr = t1 ++ t2 /\ exec (m s) t1 (o, s1) /\
     exec (drop s1) t2 (o2, s')).
Proof.
  unfold with_drop. intros (t1 & t2 & [o1 s1] & -> & H1 & H2)%exec_bind.
  destruct o1 as [a|msg|].
  - apply exec_bind in H2 as (t3 & t4 & [o2 s2] & -> & H2 & -> & [= -> ->]).
    right. split; [done|]. rewrite app_nil_r. eauto 10.
  - apply exec_bind in H2 as (t3 & t4 & [o2 s2] & -> & H2 & -> & [= -> ->]).
    right. split; [done|]. rewrite app_nil_r. eauto 10.
  - destruct H2 as [-> [= -> ->]]. rewrite app_nil_r. by left.
Qed.

Lemma steady_with_drop {S A} (m : Sys S A) (drop : Sys S unit) :
  steady (E := SysI) m -> steady (E := SysI) drop -> steady (E := SysI) (with_drop m drop).
Proof.
  intros Hm Hd s tr o s' [[-> [-> _]%Hm]|(_ & t1 & t2 & s1 & o2 & -> & H1 & H2)]%exec_with_drop;
    [done|]. apply Hm in H1 as [-> Hn]. apply Hd in H2 as [-> _]. done.
Qed.

Lemma returns_with_drop {S A} (m : Sys S A) (drop : Sys S unit) :
  returns (E := SysI) m -> returns (E := SysI) (with_drop m drop).
Proof.
  intros Hm s tr o s' [[-> H]|(_ & t1 & t2 & s1 & o2 & -> & H & _)]%exec_with_drop; by eapply Hm.
Qed.

Ltac returns_sys := repeat first [apply returns_with_drop | progress returns_run].

Ltac steady_sys := repeat first [apply steady_with_drop | progress steady_run].

Lemma exec_with_drop_Val {S A} (m : Sys S A) (drop : Sys S unit) s tr a s' :
  exec (with_drop m drop s) tr (Val a, s') ->
  exists t1 t2 s1 o2, tr = t1 ++ t2 /\ exec (m s) t1 (Val a, s1) /\ exec (drop s1) t2 (o2, s').
Proof.
  intros [[[=] _]|(_ & t1 & t2 & s1 & o2 & -> & H1 & H2)]%exec_with_drop. eauto 10.
Qed.

Lemma makes_only_with_drop {S A} (P : SysCall -> bool) (m : Sys S A) (drop : Sys S unit) :
  makes_only (E := SysI) P m -> makes_only (E := SysI) P drop ->
  makes_only (E := SysI) P (with_drop m drop).
Proof.
  intros Hm Hd s tr [o s'] [[-> H]|(_ & t1 & t2 & s1 & o2 & -> & H1 & H2)]%exec_with_drop.
  - by eapply Hm.
  - apply Forall_app. split; [by eapply Hm|by eapply Hd].
Qed.
