(* ===== verification/Bridge.v ===== *)
(** * Bridge: the client of the bridge service ([android/bridge_service.rs])

    The binder of the service is looked up at most once: a [LazyLock] keeps the
    answer, an error included.  The cell is the state of these operations. *)

From S2P Require Import Prelude Effects RustStd Data System Fixtures StatsAtoms.

Local Open Scope rust_scope.
Local Open Scope list_scope.

Definition UPROBESTATS_BRIDGE_SERVICE_NAME : string := "uprobestats_bridge".

(** The [LazyLock], once it was forced. *)
Definition BridgeCell : Type := option (result unit).

(** Its initialiser. *)
Definition lookup_bridge_service {S} : Sys S (result unit) :=
  let! supported := is_at_least_cinnamon_bun in
  if negb supported then
    mret (Err (EAnyhow
      "UprobeStatsBridgeService is not supported below the CINNAMON_BUN platform SDK level"))
  else
    let! r := ext (E := SysI) (get_interface UPROBESTATS_BRIDGE_SERVICE_NAME) in
    match r with
    | Ok service => mret (Ok service)
    | Err e => mret (Err (EContext "Failed to get {UPROBESTATS_BRIDGE_SERVICE_NAME} service" e))
    end.

Definition UPROBESTATS_BRIDGE_SERVICE : Sys BridgeCell (result unit) :=
  let! cell := get_state in
  match cell with
  | Some r => mret r
  | None =>
      let! r := lookup_bridge_service in
      let! _ := put_state (Some r) in
      mret r
  end.

Definition DefaultUprobeStatsBridgeService_get : Sys BridgeCell (result unit) :=
  let! r := UPROBESTATS_BRIDGE_SERVICE in
  match r with
  | Ok s => mret (Ok s)
  | Err _ => mret (Err (EAnyhow "{e}"))
  end.

(** ** Any number of clients *)

Fixpoint bridge_gets (n : nat) : Sys BridgeCell (list (result unit)) :=
  match n with
  | 0%nat => mret []
  | S n =>
      let! r := DefaultUprobeStatsBridgeService_get in
      let! rs := bridge_gets n in
      mret (r :: rs)
  end.

(** What a client gets of the cell: the error is formatted anew. *)
Definition client_answer (r : result unit) : result unit :=
  match r with Ok s => Ok s | Err _ => Err (EAnyhow "{e}") end.

(** The one lookup, and what it gives. *)
Definition looked_up_once (tr : list ev) (r : result unit) : Prop :=
  exists level,
    ((level < 37)%Z /\ tr = [existT android_get_device_api_level level : ev] /\ exists e, r = Err e) \/
    ((37 <= level)%Z /\ exists answer,
       tr = [existT android_get_device_api_level level : ev;
             existT (get_interface UPROBESTATS_BRIDGE_SERVICE_NAME) answer : ev] /\
       (r = Ok tt <-> answer = Ok tt)).

Lemma exec_bridge_get cell tr o cell' :
  exec (DefaultUprobeStatsBridgeService_get cell) tr (o, cell') ->
  exists r, cell' = Some r /\ o = Val (client_answer r) /\
    match cell with Some r' => r = r' /\ tr = [] | None => looked_up_once tr r end.
Proof.
  destruct cell as [[[]|e]|].
  1,2: intros [-> [= -> ->]]; eexists; by split_and!.
  intros (level & t & -> & H). cbn in H. destruct (Z.leb_spec 37 level); cbn in H.
  - destruct H as ([[]|e] & t' & -> & -> & [= -> ->]); eexists; split_and!; try done;
      exists level; right; (split; [done|]); eexists; (split; [done|]); naive_solver.
  - destruct H as [-> [= -> ->]]. eexists. split_and!; try done. exists level. left. eauto.
Qed.

Lemma exec_bridge_gets_cached n r tr o cell' :
  exec (bridge_gets n (Some r)) tr (o, cell') ->
  o = Val (replicate n (client_answer r)) /\ tr = [] /\ cell' = Some r.
Proof.
  revert tr o cell'. induction n as [|n IH]; intros tr o cell'; cbn [bridge_gets]; [by intros [-> [= -> ->]]|].
  intros [(t1 & t2 & r1 & c1 & -> & H1 & H2)|[(m & c1 & H & _)|(c1 & H & _)]]%exec_mbind;
    [|by apply exec_bridge_get in H as (? & _ & ? & _)..].
  apply exec_bridge_get in H1 as (? & -> & [= ->] & -> & ->).
  apply exec_mbind in H2 as [(t3 & t4 & rs & c2 & -> & H1 & H2)|[(m & c2 & H & _)|(c2 & H & _)]];
    [|by apply IH in H as (? & _)..].
  apply IH in H1 as ([= ->] & -> & ->). by destruct H2 as [-> [= -> ->]].
Qed.

(** The bridge service is looked up once.  Whatever the number of clients that
    ask for it, the level of the platform is read once and the service manager is
    asked at most once, below level 37 not at all; all clients get the same answer,
    the service exactly when the lookup found it: a failed lookup is never
    repeated. *)
Theorem bridge_looked_up_once n tr o cell'
    (H : exec (bridge_gets (S n) None) tr (o, cell')) :
  exists r, o = Val (replicate (S n) (client_answer r)) /\ cell' = Some r /\ looked_up_once tr r.
Proof.
  cbn [bridge_gets] in H.
  apply exec_mbind in H as [(t1 & t2 & r & c1 & -> & H1 & H2)|[(m & c1 & H & _)|(c1 & H & _)]];
    [|by apply exec_bridge_get in H as (? & _ & ? & _)..].
  apply exec_bridge_get in H1 as (c & -> & [= ->] & Hr).
  apply exec_mbind in H2 as [(t3 & t4 & rs & c2 & -> & H1 & H2)|[(m & c2 & H & _)|(c2 & H & _)]];
    [|by apply exec_bridge_gets_cached in H as (? & _)..].
  apply exec_bridge_gets_cached in H1 as ([= ->] & -> & ->). destruct H2 as [-> [= -> ->]].
  exists c. split; [done|]. split; [done|]. by rewrite !app_nil_r.
Qed.

(** The service manager finds nothing for the first client. *)
Definition no_bridge_env : Env SysI := fun c past =>
  match c return SysResp c with
  | get_interface _ => Err (EAnyhow "NAME_NOT_FOUND")
  | c' => benign_env c' past
  end.

Lemma bridge_looked_up_once_witness :
  exists tr e, exec (bridge_gets 3 None) tr
    (Val (replicate 3 (Err (EAnyhow "{e}"))), Some (Err e)) /\ looked_up_once tr (Err e).
Proof.
  eexists _, _.
  assert (exec (bridge_gets 3 None) _ (Val (replicate 3 (Err (EAnyhow "{e}"))), Some (Err _))) as H
    by run_in no_bridge_env.
  split; [exact H|].
  destruct (@bridge_looked_up_once _ _ _ _ H) as (r & _ & [= <-] & Hr). exact Hr.
Defined.
