(* ===== verification/Ownership.v ===== *)
(** * Ownership: the C objects the wrappers own

    The wrappers of [daemon/ffi] own objects of the C libraries and release
    them in their destructors.  [owns P m Q] says of a method [m] that is given
    the objects [P]: when it comes to an outcome it has released every object it
    was given or acquired, except those its value still owns, [Q].  It is a
    triple in the style of Hoare logic, with one rule per construct of the
    monad, so that a function is shown to be free of leaks by walking through
    it. *)

From S2P Require Import Prelude Effects RustStd Data System Bpf.

Local Open Scope rust_scope.
Local Open Scope list_scope.

Inductive Object :=
| OTargetProcess (h : Z)
| OMethodDescriptor (h : Z)
| OOffsets (h : Z)
| OStatsEvent (h : Z)
| OObserver (h : Z)
| OProcessList (h : Z)
| ORingBuffer (h : Z)
| OFd (h : Z).

(** What a call that succeeded hands to the caller. *)
Definition acquires (e : ev) : list Object :=
  match e with
  | existT (TargetProcess_create _ _ _) h => [OTargetProcess h]
  | existT (MethodDescriptor_create _ _ _) h => [OMethodDescriptor h]
  | existT (getExecutableMethodFileOffsets _ _) (status, h) =>
      if (status =? 0)%Z && negb (h =? 0)%Z then [OOffsets h] else []
  | existT AStatsEvent_obtain h => if (h =? 0)%Z then [] else [OStatsEvent h]
  | existT createProcessObserver h => if (h =? 0)%Z then [] else [OObserver h]
  | existT getRunningAppProcesses (status, h) =>
      if (status =? 0)%Z && negb (h =? 0)%Z then [OProcessList h] else []
  | existT (bpfRingBufCreate _ _) h => if (h =? 0)%Z then [] else [ORingBuffer h]
  | existT (bpfPerfEventOpen _ _ _ _) fd => if (0 <=? fd)%Z then [OFd fd] else []
  | _ => []
  end.

Definition releases (e : ev) : list Object :=
  match e with
  | existT (TargetProcess_destroy h) _ => [OTargetProcess h]
  | existT (MethodDescriptor_destroy h) _ => [OMethodDescriptor h]
  | existT (Offsets_destroy h) _ => [OOffsets h]
  | existT (AStatsEvent_release h) _ => [OStatsEvent h]
  | existT (destroyProcessObserver h) _ => [OObserver h]
  | existT (RunningAppProcessInfoList_destroy h) _ => [OProcessList h]
  | existT (bpfRingBufDestroy h) _ => [ORingBuffer h]
  | existT (close_fd fd) _ => [OFd fd]
  | _ => []
  end.

Definition acquired (tr : list ev) : list Object := flat_map acquires tr.
Definition released (tr : list ev) : list Object := flat_map releases tr.

(** What is owned at the end: by the value, or by nobody. *)
Definition owned_by {A} (Q : A -> list Object) (o : outcome A) : list Object :=
  match o with Val a => Q a | _ => [] end.

Definition owns {S A} (P : list Object) (m : Sys S A) (Q : A -> list Object) : Prop :=
  forall s tr o s', exec (m s) tr (o, s') -> o <> NoFuel ->
    P ++ acquired tr ≡ₚ released tr ++ owned_by Q o.

(** Nothing leaks: every object acquired is released, and nothing else. *)
Notation tidy m := (owns [] m (fun _ => [])).

Lemma acquired_app t1 t2 : acquired (t1 ++ t2) = acquired t1 ++ acquired t2.
Proof. apply flat_map_app. Qed.

Lemma released_app t1 t2 : released (t1 ++ t2) = released t1 ++ released t2.
Proof. apply flat_map_app. Qed.

Lemma tidy_exec {S A} (m : Sys S A) s tr o s' :
  tidy m -> exec (m s) tr (o, s') -> o <> NoFuel -> acquired tr ≡ₚ released tr.
Proof.
  intros Hm H Ho. specialize (Hm _ _ _ _ H Ho). cbn in Hm. rewrite Hm.
  destruct o; cbn; by rewrite ?app_nil_r.
Qed.

Section Rules.
Context {S : Type}.

Lemma owns_perm {A} P P' (m : Sys S A) Q : P ≡ₚ P' -> owns P' m Q -> owns P m Q.
Proof. intros HP Hm s tr o s' H Ho. rewrite HP. by apply (Hm _ _ _ _ H). Qed.

Lemma owns_mret {A} (a : A) Q : owns (Q a) (mret a : Sys S A) Q.
Proof. intros s tr o s' [-> [= -> ->]] _. cbn. by rewrite app_nil_r. Qed.

Lemma owns_panic {A} msg Q : owns [] (panic msg : Sys S A) Q.
Proof. intros s tr o s' [-> [= -> ->]] _. done. Qed.

Lemma owns_lift {A} (r : outcome A) : owns [] (lift_outcome r : Sys S A) (fun _ => []).
Proof. intros s tr o s' [-> [= -> ->]] _. by destruct r. Qed.

Lemma owns_no_fuel {A} P Q : owns P (no_fuel : Sys S A) Q.
Proof. intros s tr o s' [-> [= -> ->]] Ho. done. Qed.

Lemma owns_mbind {A B} P (m : Sys S A) Q (k : A -> Sys S B) R :
  owns P m Q -> (forall a, owns (Q a) (k a) R) -> owns P (mbind m k) R.
Proof.
  intros Hm Hk s tr o s' H Ho.
  apply exec_mbind in H as [H|[(msg & s1 & H & [= -> ->])|(s1 & H & [= -> ->])]]; [| |done].
  - destruct H as (t1 & t2 & a & s1 & -> & H1 & H2).
    specialize (Hm _ _ _ _ H1 ltac:(done)). specialize (Hk a _ _ _ _ H2 Ho). cbn in Hm.
    rewrite acquired_app, released_app, (assoc_L (++)), Hm, <- !(assoc_L (++)), Hk. done.
  - by apply (Hm _ _ _ _ H).
Qed.

Lemma owns_mtry {A B} P (m : Sys S (result A)) Q (k : A -> Sys S (result B)) R :
  owns P m Q -> (forall a, owns (Q (Ok a)) (k a) R) -> (forall e, Q (Err e) = R (Err e)) ->
  owns P (mtry m k) R.
Proof.
  intros Hm Hk He. apply (owns_mbind _ _ Q); [done|]. intros [a|e]; [done|].
  rewrite He. apply owns_mret.
Qed.

(** A test between two calls. *)
Lemma owns_mtry_mret {A B} P (r : result A) (k : A -> Sys S (result B)) R :
  (forall a, r = Ok a -> owns P (k a) R) -> (forall e, r = Err e -> P = R (Err e)) ->
  owns P (mtry (mret r) k) R.
Proof.
  intros Hk He. destruct r as [a|e]; [by apply (Hk a)|].
  rewrite (He e eq_refl). apply (owns_mret (Err e : result B) R).
Qed.

(** A call that acquires nothing, whatever it answers. *)
Lemma owns_ext_free (c : SysCall) :
  (forall r : SysResp c, acquires (@existT SysCall SysResp c r) = [] /\ releases (@existT SysCall SysResp c r) = []) ->
  forall P, owns P (ext (E := SysI) c : Sys S _) (fun _ => P).
Proof.
  intros Hc P s tr o s' (r & t & -> & -> & [= -> ->]) _.
  destruct (Hc r) as [Ha Hr].
  change (P ++ acquires (@existT SysCall SysResp c r) ++ [] ≡ₚ
    (releases (@existT SysCall SysResp c r) ++ []) ++ P).
  by rewrite Ha, Hr, app_nil_r.
Qed.

(** A call that acquires. *)
Lemma owns_ext_acquire (c : SysCall) :
  (forall r : SysResp c, releases (@existT SysCall SysResp c r) = []) ->
  owns [] (ext (E := SysI) c : Sys S _) (fun r => acquires (@existT SysCall SysResp c r)).
Proof.
  intros Hc s tr o s' (r & t & -> & -> & [= -> ->]) _.
  change (acquires (@existT SysCall SysResp c r) ++ [] ≡ₚ
    (releases (@existT SysCall SysResp c r) ++ []) ++ acquires (@existT SysCall SysResp c r)).
  by rewrite (Hc r), !app_nil_r.
Qed.

(** The destructor of the objects [P]. *)
Definition drops (P : list Object) (drop : Sys S unit) : Prop :=
  forall s tr o s', exec (drop s) tr (o, s') -> acquired tr = [] /\ released tr = P.

(** A call that releases an object explicitly. *)
Lemma owns_ext_release x (c : SysCall) :
  (forall r : SysResp c, acquires (@existT SysCall SysResp c r) = [] /\
     releases (@existT SysCall SysResp c r) = [x]) ->
  owns [x] (ext (E := SysI) c : Sys S _) (fun _ => []).
Proof.
  intros Hc s tr o s' (r & t & -> & -> & [= -> ->]) _. destruct (Hc r) as [Ha Hr].
  change (x :: acquires (@existT SysCall SysResp c r) ++ [] ≡ₚ
    (releases (@existT SysCall SysResp c r) ++ []) ++ []).
  by rewrite Ha, Hr.
Qed.

(** Objects go out of scope: their destructor releases them, however the body
    ended. *)
Lemma owns_with_drop {A} P (m : Sys S A) (drop : Sys S unit) Q :
  drops P drop -> owns [] m Q -> owns P (with_drop m drop) Q.
Proof.
  intros Hd Hm s tr o s' H Ho.
  apply exec_with_drop in H as [[-> _]|(_ & t1 & t2 & s1 & o2 & -> & H1 & H2)]; [done|].
  specialize (Hm _ _ _ _ H1 Ho). cbn in Hm. apply Hd in H2 as [Ha Hr].
  rewrite acquired_app, released_app, Ha, Hr, app_nil_r, Hm, (comm (++) (released t1) P).
  by rewrite (assoc_L (++)).
Qed.

Lemma owns_for_each {A} P (l : list A) (body : A -> Sys S (result unit)) :
  (forall a, owns P (body a) (fun _ => P)) -> owns P (for_each l body) (fun _ => P).
Proof.
  intros Hb. induction l as [|a l IH]; cbn [for_each].
  - apply (owns_mret _ (fun _ => P)).
  - apply (owns_mtry _ _ (fun _ => P)); [apply Hb|intros ?; exact IH|done].
Qed.

End Rules.

Arguments drops {S} P drop.

(** Walk through a method.  [owns_step] handles the monad and the calls that
    neither acquire nor release; functions with a lemma are in the hint
    database [owns]. *)
Create HintDb owns discriminated.

Ltac drops_tac :=
  let r := fresh in
  intros ? ? ? ? (r & ? & -> & -> & [= -> ->]); split; reflexivity.

Ltac owns_ext_tac :=
  lazymatch goal with
  | |- @owns ?S _ _ (ext ?c) _ =>
      first [ refine (@owns_ext_free S c _ _); intros r; split; reflexivity
            | refine (@owns_ext_acquire S c _); intros r; reflexivity
            | refine (@owns_ext_release S _ c _); intros r; split; reflexivity ]
  end.

(** A value and what it owns: compare, case by case of the tests made. *)
Ltac owns_mret_tac :=
  lazymatch goal with
  | |- @owns ?S ?A _ (mret ?a) ?Q =>
      first [ exact (@owns_mret S A a Q)
            | bool_simpl;
              repeat match goal with
              | |- context [(?x =? ?y)%Z] => destruct (x =? y)%Z eqn:?; bool_simpl
              | |- context [(?x <=? ?y)%Z] => destruct (x <=? y)%Z eqn:?; bool_simpl
              end;
              first [ lia | match goal with |- owns _ (mret ?b) ?R => exact (@owns_mret S A b R) end ] ]
  end.

(** Decide what is owned by the tests already made. *)
Ltac owns_cond :=
  bool_simpl;
  repeat match goal with
  | |- owns ?P _ _ =>
      match P with
      | context [(?x =? ?y)%Z] => destruct (x =? y)%Z eqn:?; bool_simpl; try (exfalso; lia)
      | context [(?x <=? ?y)%Z] => destruct (x <=? y)%Z eqn:?; bool_simpl; try (exfalso; lia)
      end
  end;
  cbn [andb negb].

Ltac owns_step :=
  lazymatch goal with
  | |- forall _, _ => intros ?
  | |- owns (acquires _) _ _ => cbn [acquires]
  | |- owns ((fun _ => _) _) _ _ => cbv beta
  | |- owns _ (mret _) _ => owns_mret_tac
  | |- owns (if _ then _ else _) (with_drop _ _) _ => progress owns_cond
  | |- owns _ (panic _) _ => apply owns_panic
  | |- owns _ no_fuel _ => apply owns_no_fuel
  | |- owns _ (lift_outcome _) _ => apply owns_lift
  | |- owns _ (ext _) _ => owns_ext_tac
  | |- owns _ (for_each _ _) _ => apply owns_for_each
  | |- owns (if ?b then _ else _) (mtry (mret (ensure _ _)) _) _ =>
      destruct b eqn:?; cbn [ensure negb]
  | |- owns ?P (mtry (mret _) _) _ =>
      apply owns_mtry_mret;
        [ let H := fresh in intros ? H; try discriminate H
        | let H := fresh in intros ? H; first [discriminate H | reflexivity] ]
  | |- owns ?P (mbind _ _) _ =>
      first [ eapply owns_mbind; [solve [eauto 1 with owns nocore]|]
            | eapply owns_mbind; [owns_ext_tac|]
            | apply (owns_mbind _ _ (fun _ => P)) ]
  | |- owns ?P (mtry _ _) _ =>
      first [ eapply owns_mtry; [solve [eauto 1 with owns nocore]| |reflexivity]
            | apply (owns_mtry _ _ (fun _ => P)); [| |reflexivity] ]
  | |- owns _ (with_drop _ _) _ => apply owns_with_drop; [first [solve [eauto 1 with owns nocore] | drops_tac]|]
  | |- owns _ (match ?x with _ => _ end) _ => destruct x eqn:?
  | |- owns _ (let _ := _ in _) _ => cbv zeta
  end.

Ltac owns_run := repeat first [solve [eauto 1 with owns nocore] | owns_step].
