(* ===== verification/Statsd.v ===== *)
(** * Statsd: the writer of unstructured atoms ([daemon/ffi/statsd/statssocket.rs])

    [AStatsEventWriter] turns an [UnstructuredAtom] into calls of the NDK's
    [AStatsEvent] functions.  An [AStatsEvent] is the handle it wraps; its
    destructor is [AStatsEvent_release]. *)

From S2P Require Import Prelude Effects RustStd Data System Fixtures Bpf Ownership.

Local Open Scope rust_scope.
Local Open Scope string_scope.
Local Open Scope list_scope.

Section Statsd.
(** [ASTATSLOG_ANNOTATION_ID_IS_UID] of the NDK. *)
Context (AnnotationIds_ASTATSLOG_ANNOTATION_ID_IS_UID : Z).
Context {S : Type}.

(** The atom id is set before the handle is checked. *)
Definition AStatsEvent_new (atom_id : Z) : Sys S Z :=
  let! event := ext (E := SysI) AStatsEvent_obtain in
  let! _ := ext (E := SysI) (AStatsEvent_setAtomId event atom_id) in
  if (event =? 0)%Z then panic "called `Option::unwrap()` on a `None` value" else mret event.

Definition write_bool (event : Z) (value : bool) : Sys S unit :=
  ext (E := SysI) (AStatsEvent_writeBool event value).

Definition write_int32 (event value : Z) : Sys S unit :=
  ext (E := SysI) (AStatsEvent_writeInt32 event value).

Definition write_int64 (event value : Z) : Sys S unit :=
  ext (E := SysI) (AStatsEvent_writeInt64 event value).

Definition write_string (event : Z) (value : string) : Sys S (result unit) :=
  let? value := mret (c_string value) in
  let! _ := ext (E := SysI) (AStatsEvent_writeString event value) in
  mret (Ok tt).

Definition write_int32_slice (event : Z) (value : list Z) : Sys S unit :=
  ext (E := SysI) (AStatsEvent_writeInt32Array event value).

Definition write_int64_slice (event : Z) (value : list Z) : Sys S unit :=
  ext (E := SysI) (AStatsEvent_writeInt64Array event value).

Definition add_bool_annotation (event annotation_id : Z) (value : bool) : Sys S unit :=
  ext (E := SysI) (AStatsEvent_addBoolAnnotation event annotation_id value).

(** [AStatsEvent::write]; it takes the event, whose destructor the caller's
    scope below runs. *)
Definition event_write (event : Z) : Sys S (result unit) :=
  let! res := ext (E := SysI) (AStatsEvent_write event) in
  if (res <? 0)%Z then mret (Err (EAnyhow "Failed to write event. Error code: {res}"))
  else mret (Ok tt).

Definition AStatsEvent_drop (event : Z) : Sys S unit :=
  ext (E := SysI) (AStatsEvent_release event).

Definition write_value (event : Z) (value : AtomValue) : Sys S (result unit) :=
  match value with
  | VBool value => let! _ := write_bool event value in mret (Ok tt)
  | VInt32 value => let! _ := write_int32 event value in mret (Ok tt)
  | VInt64 value => let! _ := write_int64 event value in mret (Ok tt)
  | VString value => write_string event value
  | VInt32Vec value => let! _ := write_int32_slice event value in mret (Ok tt)
  | VInt64Vec value => let! _ := write_int64_slice event value in mret (Ok tt)
  end.

Definition write_annotation (event : Z) (annotation : FieldAnnotation) : Sys S (result unit) :=
  match annotation with
  | IsUid value =>
      let! _ := add_bool_annotation event AnnotationIds_ASTATSLOG_ANNOTATION_ID_IS_UID value in
      mret (Ok tt)
  end.

Definition write_field (event : Z) (field : Field) : Sys S (result unit) :=
  let? _ := write_value event (field_value field) in
  for_each (field_annotations field) (write_annotation event).

Definition AStatsEventWriter_write (atom : UnstructuredAtom) : Sys S (result unit) :=
  let! event := AStatsEvent_new (atom_id atom) in
  with_drop
    (let? _ := for_each (atom_fields atom) (write_field event) in event_write event)
    (AStatsEvent_drop event).

(** ** The calls an atom stands for *)

Definition value_call (h : Z) (v : AtomValue) : SysCall :=
  match v with
  | VBool b => AStatsEvent_writeBool h b
  | VInt32 z => AStatsEvent_writeInt32 h z
  | VInt64 z => AStatsEvent_writeInt64 h z
  | VString s => AStatsEvent_writeString h s
  | VInt32Vec l => AStatsEvent_writeInt32Array h l
  | VInt64Vec l => AStatsEvent_writeInt64Array h l
  end.

Definition annotation_call (h : Z) (a : FieldAnnotation) : SysCall :=
  match a with
  | IsUid b => AStatsEvent_addBoolAnnotation h AnnotationIds_ASTATSLOG_ANNOTATION_ID_IS_UID b
  end.

Definition field_calls (h : Z) (f : Field) : list SysCall :=
  value_call h (field_value f) :: map (annotation_call h) (field_annotations f).

(** A C string holds no NUL. *)
Definition encodable (f : Field) : bool :=
  match field_value f with VString s => no_nul s | _ => true end.

(** How the library reads the calls on the event [h] back: a write starts a field,
    an annotation belongs to the field written last.  Any other call, a call on
    another event, or an annotation that is not [IS_UID], spoils the event. *)
Definition annotate (fields : list Field) (a : FieldAnnotation) : option (list Field) :=
  match rev fields with
  | [] => None
  | f :: before => Some (rev before ++ [mkField (field_value f) (field_annotations f ++ [a])])
  end.

Definition read_call (h : Z) (fields : list Field) (c : SysCall) : option (list Field) :=
  let field h' v := if (h' =? h)%Z then Some (fields ++ [mkField v []]) else None in
  match c with
  | AStatsEvent_writeBool h' b => field h' (VBool b)
  | AStatsEvent_writeInt32 h' z => field h' (VInt32 z)
  | AStatsEvent_writeInt64 h' z => field h' (VInt64 z)
  | AStatsEvent_writeString h' s => field h' (VString s)
  | AStatsEvent_writeInt32Array h' l => field h' (VInt32Vec l)
  | AStatsEvent_writeInt64Array h' l => field h' (VInt64Vec l)
  | AStatsEvent_addBoolAnnotation h' id b =>
      if (h' =? h)%Z && (id =? AnnotationIds_ASTATSLOG_ANNOTATION_ID_IS_UID)%Z
      then annotate fields (IsUid b) else None
  | _ => None
  end.

(** The event is complete when it is written, once, and released. *)
Fixpoint read_calls (h : Z) (fields : list Field) (l : list SysCall) : option (list Field) :=
  match l with
  | [] => None
  | c :: rest =>
      match c, rest with
      | AStatsEvent_write h', [AStatsEvent_release h''] =>
          if (h' =? h)%Z && (h'' =? h)%Z then Some fields else None
      | _, _ => read_call h fields c ≫= fun fields => read_calls h fields rest
      end
  end.

(** The event and the atom that an exchange with the library is about. *)
Definition read_atom (l : list SysCall) : option (Z * UnstructuredAtom) :=
  match l with
  | AStatsEvent_obtain :: AStatsEvent_setAtomId h id :: rest =>
      (fun fields => (h, {| atom_id := id; atom_fields := fields |})) <$> read_calls h [] rest
  | _ => None
  end.

Definition calls (tr : list ev) : list SysCall := map (@projT1 _ _) tr.

(** ** Lemmas *)

Lemma calls_app t1 t2 : calls (t1 ++ t2) = calls t1 ++ calls t2.
Proof. apply map_app. Qed.

Lemma annotate_snoc fields v l a :
  annotate (fields ++ [mkField v l]) a = Some (fields ++ [mkField v (l ++ [a])]).
Proof. unfold annotate. rewrite rev_app_distr. cbn. by rewrite rev_involutive. Qed.

Lemma read_value h fields v rest :
  read_calls h fields (value_call h v :: rest) = read_calls h (fields ++ [mkField v []]) rest.
Proof. destruct v; cbn; by rewrite Z.eqb_refl. Qed.

Lemma read_annotations h fields v l before rest :
  read_calls h (fields ++ [mkField v before]) (map (annotation_call h) l ++ rest) =
    read_calls h (fields ++ [mkField v (before ++ l)]) rest.
Proof.
  revert before. induction l as [|[b] l IH]; intros before; [by rewrite app_nil_r|].
  cbn [map app annotation_call read_calls read_call]. rewrite !Z.eqb_refl. cbn [andb].
  rewrite annotate_snoc. cbn. by rewrite IH, <- (assoc_L (++)).
Qed.

Lemma read_fields h fields l rest :
  read_calls h fields (flat_map (field_calls h) l ++ rest) = read_calls h (fields ++ l) rest.
Proof.
  revert fields. induction l as [|[v l'] l IH]; intros fields; cbn [flat_map]; [by rewrite app_nil_r|].
  unfold field_calls at 1. cbn [field_value field_annotations].
  rewrite <- (assoc_L (++)), <- app_comm_cons, read_value.
  rewrite (read_annotations h fields v l' []), IH, <- (assoc_L (++)). done.
Qed.

Lemma exec_write_annotations event l s tr o s' :
  exec (for_each l (write_annotation event) s) tr (o, s') ->
  s' = s /\ o = Val (Ok tt) /\ calls tr = map (annotation_call event) l.
Proof.
  revert tr. induction l as [|[b] l IH]; intros tr H; cbn [for_each] in H.
  - by destruct H as [-> [= -> ->]].
  - cbn in H. destruct H as ([] & t & -> & H). apply IH in H as (-> & -> & Hc).
    cbn. by rewrite <- Hc.
Qed.

Lemma exec_write_value event v s tr o s' :
  exec (write_value event v s) tr (o, s') ->
  s' = s /\
  if encodable (Field_new v) then o = Val (Ok tt) /\ calls tr = [value_call event v]
  else o = Val (Err (EContext "Failed to create CString" ENul)) /\ tr = [].
Proof.
  destruct v; cbn; intros H;
    try by destruct H as ([] & t & -> & -> & [= -> ->]).
  unfold encodable, c_string in *. cbn in *. destruct (no_nul s0); cbn in H.
  - by destruct H as ([] & t & -> & -> & [= -> ->]).
  - by destruct H as [-> [= -> ->]].
Qed.

Lemma exec_write_field event f s tr o s' :
  exec (write_field event f s) tr (o, s') ->
  s' = s /\
  if encodable f then o = Val (Ok tt) /\ calls tr = field_calls event f
  else o = Val (Err (EContext "Failed to create CString" ENul)) /\ tr = [].
Proof.
  unfold write_field. intros H.
  assert (encodable f = encodable (Field_new (field_value f))) as -> by done.
  apply exec_mtry in H as [(t1 & t2 & [] & s1 & -> & H1 & H2)
    |[(e & s1 & H & [= -> ->])|[(m & s1 & H & _)|(s1 & H & _)]]].
  - apply exec_write_value in H1 as [-> H1].
    apply exec_write_annotations in H2 as (-> & -> & Hc2). split; [done|].
    destruct (encodable _); destruct H1 as [[= ] Hc1]. split; [done|].
    by rewrite calls_app, Hc1, Hc2.
  - apply exec_write_value in H as [-> H]. split; [done|].
    destruct (encodable _); [by destruct H|]. destruct H as [[= ->] ->]. done.
  - apply exec_write_value in H as [_ H]. destruct (encodable _); by destruct H.
  - apply exec_write_value in H as [_ H]. destruct (encodable _); by destruct H.
Qed.

(** The fields are written in order, up to the first that is not encodable. *)
Lemma exec_write_fields event fields s tr o s' :
  exec (for_each fields (write_field event) s) tr (o, s') ->
  s' = s /\ exists sent, calls tr = flat_map (field_calls event) sent /\
    forallb encodable sent = true /\
    ((sent = fields /\ o = Val (Ok tt)) \/
     (exists bad rest, fields = sent ++ bad :: rest /\ encodable bad = false /\
        o = Val (Err (EContext "Failed to create CString" ENul)))).
Proof.
  revert tr. induction fields as [|f fields IH]; intros tr H; cbn [for_each] in H.
  - destruct H as [-> [= -> ->]]. split; [done|]. exists []. split_and!; [done..|]. by left.
  - apply exec_mtry in H as [(t1 & t2 & [] & s1 & -> & H1 & H2)
      |[(e & s1 & H & [= -> ->])|[(m & s1 & H & _)|(s1 & H & _)]]].
    + apply exec_write_field in H1 as [-> H1].
      destruct (encodable f) eqn:Hf; destruct H1 as [[=] Hc1].
      apply IH in H2 as (-> & sent & Hc2 & Hs & Ho). split; [done|].
      exists (f :: sent). cbn. rewrite calls_app, Hc1, Hc2, Hf. split_and!; [done..|].
      destruct Ho as [[-> ->]|(bad & rest & -> & ? & ->)]; [by left|]. right. eauto.
    + apply exec_write_field in H as [-> H]. split; [done|].
      destruct (encodable f) eqn:Hf; [by destruct H|]. destruct H as [[= ->] ->].
      exists []. split_and!; [done..|]. right. by exists f, fields.
    + apply exec_write_field in H as [_ H]. destruct (encodable f); by destruct H.
    + apply exec_write_field in H as [_ H]. destruct (encodable f); by destruct H.
Qed.

(** What an atom's exchange is, the result included. *)
Definition statsd_exchange (h : Z) (atom : UnstructuredAtom) (tr : list ev)
    (res : option Z) (o : outcome (result unit)) : Prop :=
  (existT AStatsEvent_obtain h : ev) ∈ tr /\ exists sent tail,
    calls tr = AStatsEvent_obtain :: AStatsEvent_setAtomId h (atom_id atom) ::
         flat_map (field_calls h) sent ++ tail ++ [AStatsEvent_release h] /\
    forallb encodable sent = true /\
    match res with
    | Some res =>
        sent = atom_fields atom /\ tail = [AStatsEvent_write h] /\
        (existT (AStatsEvent_write h) res : ev) ∈ tr /\
        o = Val (if (res <? 0)%Z then Err (EAnyhow "Failed to write event. Error code: {res}")
                 else Ok tt)
    | None =>
        tail = [] /\ o = Val (Err (EContext "Failed to create CString" ENul)) /\
        exists bad rest, atom_fields atom = sent ++ bad :: rest /\ encodable bad = false
    end.

Lemma exec_AStatsEventWriter atom s tr o s' :
  exec (AStatsEventWriter_write atom s) tr (o, s') ->
  s' = s /\ exists h,
  if (h =? 0)%Z then
    (existT AStatsEvent_obtain 0%Z : ev) ∈ tr /\ exists msg, o = Panics msg
  else exists res, statsd_exchange h atom tr res o.
Proof.
  unfold AStatsEventWriter_write, AStatsEvent_new. intros H.
  cbn in H. destruct H as (h & ? & -> & [] & t & -> & H).
  destruct (h =? 0)%Z eqn:Hh; cbn in H.
  { destruct H as [-> [= -> ->]]. split; [done|]. exists h. rewrite Hh.
    apply Z.eqb_eq in Hh as ->. split; [by left|eauto]. }
  apply exec_with_drop in H as [[-> H]|(_ & t1 & t2 & s1 & o2 & -> & H1 & H2)].
  - apply exec_mtry in H as [(t1 & t2 & [] & s1 & -> & H1 & H2)
      |[(e & s1 & H & [= ])|[(m & s1 & H & [= ])|(s1 & H & _)]]].
    + cbn in H2. destruct H2 as (res & t & -> & H2). by destruct (res <? 0)%Z; destruct H2.
    + apply exec_write_fields in H as (_ & sent & _ & _ & [[_ ?]|(? & ? & _ & _ & ?)]); done.
  - destruct H2 as ([] & ? & -> & -> & [= -> ->]).
    apply exec_mtry in H1 as [(t3 & t4 & [] & s2 & -> & H1 & H2)
      |[(e & s2 & H & [= -> ->])|[(m & s2 & H & [= -> ->])|(s2 & H & _)]]].
    + apply exec_write_fields in H1 as (-> & sent & Hc & Hs & [[-> _]|(? & ? & _ & _ & ?)]); [|done].
      cbn in H2. destruct H2 as (res & t & -> & H2).
      assert (s1 = s /\ t = [] /\
        o = Val (if (res <? 0)%Z then Err (EAnyhow "Failed to write event. Error code: {res}")
                 else Ok tt)) as (-> & -> & Ho).
      { destruct (res <? 0)%Z; destruct H2 as [-> [= -> ->]]; done. }
      split; [done|]. exists h. rewrite Hh. exists (Some res). split; [by left|].
      exists (atom_fields atom), [AStatsEvent_write h].
      split_and!; [|done|done|done| |done].
      * cbn. do 2 f_equal. rewrite !calls_app, Hc, <- (assoc_L (++)). done.
      * set_solver.
    + apply exec_write_fields in H as (-> & sent & Hc & Hs & [[_ ?]|(bad & rest & Hf & ? & [= ->])]);
        [done|].
      split; [done|]. exists h. rewrite Hh. exists None. split; [by left|]. exists sent, [].
      split_and!; [|done..|by exists bad, rest]. cbn. by rewrite calls_app, Hc.
    + apply exec_write_fields in H as (_ & sent & _ & _ & [[_ ?]|(? & ? & _ & _ & ?)]); done.
    + apply exec_write_fields in H as (_ & sent & _ & _ & [[_ ?]|(? & ? & _ & _ & ?)]); done.
Qed.

Lemma owns_AStatsEvent_new id :
  owns [] (AStatsEvent_new id) (fun h => [OStatsEvent h]).
Proof. unfold AStatsEvent_new. owns_run. Qed.
#[local] Hint Resolve owns_AStatsEvent_new : owns.

Lemma tidy_write_field event f : tidy (write_field event f).
Proof.
  unfold write_field, write_value, write_string, write_annotation, add_bool_annotation,
    write_bool, write_int32, write_int64, write_int32_slice, write_int64_slice.
  owns_run.
Qed.
#[local] Hint Resolve tidy_write_field : owns.

Lemma tidy_AStatsEventWriter atom : tidy (AStatsEventWriter_write atom).
Proof.
  unfold AStatsEventWriter_write, AStatsEvent_drop, event_write. owns_run.
Qed.

Lemma forallb_snoc_false {A} (p : A -> bool) l x k :
  p x = false -> forallb p (l ++ x :: k) = false.
Proof. intros Hx. rewrite forallb_app. cbn. rewrite Hx. by destruct (forallb p l). Qed.

Lemma field_calls_no_write h h' l : AStatsEvent_write h' ∉ flat_map (field_calls h) l.
Proof.
  rewrite list_elem_of_In, in_flat_map. intros (f & _ & Hin).
  destruct f as [v a]. destruct Hin as [Hin|Hin]; [by destruct v|].
  apply in_map_iff in Hin as ([b] & Hb & _). done.
Qed.

(** C13. An atom reaches statsd whole, once, or not at all.  When the writer
    succeeds, everything the library was called for is exactly the atom: the event
    it obtained was given the atom's id, then every field in order, each followed
    by its annotations under the id of [IS_UID], and was then written once, with an
    answer that is not an error, and released.  An error means that the library
    refused that one complete write, or that some string holds a NUL byte, in which
    case nothing is written.  It panics only without memory for the event, and
    every event obtained is released. *)
Theorem statsd_write_faithful atom s tr o s'
    (H : exec (AStatsEventWriter_write atom s) tr (o, s')) :
  s' = s /\ acquired tr ≡ₚ released tr /\
  match o with
  | Val r =>
      (exists h res, read_atom (calls tr) = Some (h, atom) /\
         (existT AStatsEvent_obtain h : ev) ∈ tr /\
         (existT (AStatsEvent_write h) res : ev) ∈ tr /\
         (r = Ok tt <-> (0 <= res)%Z)) \/
      (r <> Ok tt /\ forallb encodable (atom_fields atom) = false /\
       forall h, AStatsEvent_write h ∉ calls tr)
  | Panics _ => (existT AStatsEvent_obtain 0%Z : ev) ∈ tr
  | NoFuel => False
  end.
Proof.
  assert (acquired tr ≡ₚ released tr \/ o = NoFuel) as Ht.
  { destruct o; [left|left|by right];
      (eapply tidy_exec; [apply tidy_AStatsEventWriter|exact H|done]). }
  apply exec_AStatsEventWriter in H as [-> (h & H)]. split; [done|].
  destruct (h =? 0)%Z.
  { destruct H as [Hin [msg ->]]. by destruct Ht. }
  destruct H as (res & Hh & sent & tail & Hc & Hs & H).
  destruct res as [res|].
  - destruct H as (-> & -> & Hin & ->). destruct Ht as [Ht|Ht]; [|done].
    split; [done|]. left. exists h, res. split_and!; [|done..|].
    + rewrite Hc. cbn [read_atom]. rewrite read_fields. cbn. rewrite Z.eqb_refl. by destruct atom.
    + destruct (Z.ltb_spec res 0); split; intros; [done|lia|lia|done].
  - destruct H as (-> & -> & bad & rest & Hf & Hbad). destruct Ht as [Ht|Ht]; [|done].
    split; [done|]. right. split_and!; [done| |].
    + rewrite Hf. by apply forallb_snoc_false.
    + intros h'. rewrite Hc. rewrite !elem_of_cons, !elem_of_app.
      pose proof (field_calls_no_write h h' sent). set_solver.
Qed.

End Statsd.

(** ** Witnesses *)

Definition example_atom : UnstructuredAtom :=
  {| atom_id := 1217;
     atom_fields := [Field_new_with_annotation (VInt32 10001) (IsUid true);
                     Field_new (VString "android.permission.CAMERA");
                     Field_new (VInt64Vec [1; 2]%Z)] |}.

Lemma statsd_write_faithful_witness :
  exists tr, exec (AStatsEventWriter_write 1%Z example_atom tt) tr (Val (Ok tt), tt) /\
    exists h, read_atom 1%Z (calls tr) = Some (h, example_atom).
Proof.
  eexists. assert (exec (AStatsEventWriter_write 1%Z example_atom tt) _ (Val (Ok tt), tt)) as H
    by run_in benign_env.
  split; [exact H|].
  destruct (proj2 (proj2 (@statsd_write_faithful 1%Z unit example_atom _ _ _ _ H)))
    as [(h & res & Hr & _)|(Hr & _)]; [by exists h|by destruct Hr].
Defined.
