(* ===== verification/Offsets.v ===== *)
(** * Offsets: where a method's code is ([daemon/android/offsets.rs],
    [daemon/ffi/dynamic_instrumentation_manager])

    [OffsetResolverImpl] asks the dynamic-instrumentation manager for the
    offsets of a method in a process.  The wrappers own the C objects they
    create; [with_drop] runs their destructors where the values go out of
    scope. *)

From S2P Require Import Prelude Effects RustStd Data System Fixtures Bpf Ownership.

Local Open Scope rust_scope.
Local Open Scope string_scope.
Local Open Scope list_scope.

(** ** The wrappers of [dynamic_instrumentation_manager.rs] *)

(** [binder::ExceptionCode], two of its constants. *)
Class BinderCodes := {
  SERVICE_SPECIFIC : Z;
  ILLEGAL_STATE : Z
}.

(** [Status::new_service_specific_error(status, None)]. *)
Definition new_service_specific_error {B : BinderCodes} (status : Z) : Status :=
  {| exception_code := SERVICE_SPECIFIC; service_specific_error := status |}.

Section Wrappers.
Context {B : BinderCodes} {S : Type}.

Definition TargetProcess_new (uid pid : Z) (process_name : string) : Sys S (result Z) :=
  let? process_name := mret (c_string process_name) in
  let! instance := ext (E := SysI) (TargetProcess_create uid pid process_name) in
  mret (Ok instance).

Definition TargetProcess_system_server : Sys S (result Z) :=
  TargetProcess_new 0 0 "system_server".

Definition TargetProcess_drop (instance : Z) : Sys S unit :=
  ext (E := SysI) (TargetProcess_destroy instance).

Definition MethodDescriptor_new (fully_qualified_class_name method_name : string)
    (fully_qualified_parameters : list string) : Sys S (result Z) :=
  let? fully_qualified_class_name := mret (c_string fully_qualified_class_name) in
  let? method_name := mret (c_string method_name) in
  let? fully_qualified_parameters := mret (rmapM c_string fully_qualified_parameters) in
  let! instance := ext (E := SysI) (MethodDescriptor_create fully_qualified_class_name method_name
                     fully_qualified_parameters) in
  mret (Ok instance).

Definition MethodDescriptor_drop (instance : Z) : Sys S unit :=
  ext (E := SysI) (MethodDescriptor_destroy instance).

(** [BinderResult<Option<Self>>]. *)
Definition ExecutableMethodFileOffsets_get (target_process method_descriptor : Z) :
    Sys S (Status + option Z) :=
  let! r := ext (E := SysI) (getExecutableMethodFileOffsets target_process method_descriptor) in
  let '(status, instance) := r in
  if negb (status =? 0)%Z then mret (inl (new_service_specific_error status))
  else mret (inr (if (instance =? 0)%Z then None else Some instance)).

Definition get_container_path (instance : Z) : Sys S string :=
  let! container_path := ext (E := SysI) (Offsets_getContainerPath instance) in
  mret (lossy_str container_path).

Definition get_container_offset (instance : Z) : Sys S Z :=
  ext (E := SysI) (Offsets_getContainerOffset instance).

Definition get_method_offset (instance : Z) : Sys S Z :=
  ext (E := SysI) (Offsets_getMethodOffset instance).

Definition ExecutableMethodFileOffsets_drop (instance : Z) : Sys S unit :=
  ext (E := SysI) (Offsets_destroy instance).

(** The destructor of an [Option]. *)
Definition drop_offsets (offsets : option Z) : Sys S unit :=
  match offsets with
  | Some instance => ExecutableMethodFileOffsets_drop instance
  | None => mret tt
  end.

End Wrappers.

(** ** [android/offsets.rs] *)

Definition MAX_RETRIES : Z := 5.

(** Rounds of the retry loop that suffice: the first try and every retry. *)
Definition RETRY_FUEL : nat := 6.

Section Resolver.
Context {B : BinderCodes} {F : Flags} {S : Type}.

(** The [loop] of [get_executable_method_file_offsets_with_retry]. *)
Fixpoint retry_loop (fuel : nat) (target_process method_descriptor retries backoff : Z) :
    Sys S (result (option Z)) :=
  match fuel with
  | O => no_fuel
  | Datatypes.S fuel' =>
      let! r := ExecutableMethodFileOffsets_get target_process method_descriptor in
      match r with
      | inr offsets => mret (Ok offsets)
      | inl status =>
          if (MAX_RETRIES <=? retries)%Z then
            mret (Err (EAnyhow "Failed after {} retries, last error: {}"))
          else if negb (exception_code status =? SERVICE_SPECIFIC)%Z then
            mret (Err (EAnyhow "Unexpected status: {status}"))
          else if negb (service_specific_error status =? ILLEGAL_STATE)%Z then
            mret (Err (EAnyhow "Unexpected service specific error: {status}"))
          else
            let! _ := ext (E := SysI) (thread_sleep backoff) in
            retry_loop fuel' target_process method_descriptor (retries + 1) (backoff * 2)
      end
  end.

Definition get_executable_method_file_offsets_with_retry (target_process method_descriptor : Z) :
    Sys S (result (option Z)) :=
  if negb use_process_observer_api then
    let! r := ExecutableMethodFileOffsets_get target_process method_descriptor in
    match r with
    | inr offsets => mret (Ok offsets)
    | inl e => mret (Err (EAnyhow "Failed to get executable method file offsets: {}"))
    end
  else retry_loop RETRY_FUEL target_process method_descriptor 0 (from_millis 10).

Definition to_method_descriptor (method_descriptor : MethodDescriptor) : Sys S (result Z) :=
  MethodDescriptor_new (md_fully_qualified_class_name method_descriptor)
    (md_method_name method_descriptor) (md_fully_qualified_parameters method_descriptor).

Definition to_target_process (target_process : ResolvedProcess) : Sys S (result Z) :=
  let? uid := mret (try_into U32 (rp_uid target_process)) in
  TargetProcess_new uid (rp_pid target_process) (rp_name target_process).

Definition to_config_resolver_offsets (offsets : Z) : Sys S ExecutableMethodFileOffsets :=
  let! container_path := get_container_path offsets in
  let! container_offset := get_container_offset offsets in
  let! method_offset := get_method_offset offsets in
  mret {| of_container_path := container_path; of_container_offset := container_offset;
          of_method_offset := method_offset |}.

Definition resolve_offsets (process : ResolvedProcess) (method : MethodDescriptor) :
    Sys S (result (option ExecutableMethodFileOffsets)) :=
  let? target_process := to_target_process process in
  with_drop
    (let? method_descriptor := to_method_descriptor method in
     with_drop
       (let? offsets :=
          get_executable_method_file_offsets_with_retry target_process method_descriptor in
        with_drop
          (match offsets with
           | None => mret (Ok None)
           | Some instance =>
               let! r := to_config_resolver_offsets instance in mret (Ok (Some r))
           end)
          (drop_offsets offsets))
       (MethodDescriptor_drop method_descriptor))
    (TargetProcess_drop target_process).

End Resolver.

(** ** What an exchange shows *)

(** The requests to the manager, each with its answer: status and offsets. *)
Definition get_of (e : ev) : option (Z * Z * (Z * Z)) :=
  match e with existT (getExecutableMethodFileOffsets tp md) r => Some (tp, md, r) | _ => None end.
Definition gets (tr : list ev) : list (Z * Z * (Z * Z)) := omap get_of tr.

Definition sleep_of (e : ev) : option Z :=
  match e with existT (thread_sleep d) _ => Some d | _ => None end.
Definition sleeps (tr : list ev) : list Z := omap sleep_of tr.

Lemma gets_app t1 t2 : gets (t1 ++ t2) = gets t1 ++ gets t2.
Proof. apply omap_app. Qed.

Lemma sleeps_app t1 t2 : sleeps (t1 ++ t2) = sleeps t1 ++ sleeps t2.
Proof. apply omap_app. Qed.

Definition nonnull (instance : Z) : option Z :=
  if (instance =? 0)%Z then None else Some instance.

(** [n] delays, doubling. *)
Fixpoint backoffs (n : nat) (backoff : Z) : list Z :=
  match n with
  | O => []
  | Datatypes.S n' => backoff :: backoffs n' (backoff * 2)
  end.

(** The delays of [get_executable_method_file_offsets_with_retry], in milliseconds. *)
Definition delays : list Z := [10; 20; 40; 80; 160]%Z.

Lemma backoffs_delays n : (n <= 5)%nat -> backoffs n (from_millis 10) = map from_millis (take n delays).
Proof. intros Hn. do 6 (destruct n as [|n]; [reflexivity|]). lia. Qed.

(** ** Lemmas *)

Section Lemmas.
Context {B : BinderCodes} {S : Type}.

Lemma exec_offsets_get tp md (s : S) tr r s' :
  exec (ExecutableMethodFileOffsets_get tp md s) tr (r, s') ->
  s' = s /\ exists status instance,
    tr = [existT (getExecutableMethodFileOffsets tp md) (status, instance) : ev] /\
    r = Val (if (status =? 0)%Z then inr (nonnull instance)
             else inl (new_service_specific_error status)).
Proof.
  intros ([status instance] & t & -> & H). cbn in H.
  destruct (status =? 0)%Z eqn:Hs; destruct H as [-> [= -> ->]]; cbn; rewrite ?Hs;
    (split; [done|]); exists status, instance; by rewrite Hs.
Qed.

(** How a loop that has made [retries] retries ends. *)
Definition retried (tp md retries backoff : Z) (tr : list ev) (o : outcome (result (option Z))) : Prop :=
  exists before status instance,
    gets tr = map (pair (tp, md)) (before ++ [(status, instance)]) /\
    Forall (fun a : Z * Z => a.1 = ILLEGAL_STATE /\ a.1 <> 0%Z) before /\
    (retries + Z.of_nat (length before) <= MAX_RETRIES)%Z /\
    sleeps tr = backoffs (length before) backoff /\
    if (status =? 0)%Z then o = Val (Ok (nonnull instance))
    else (exists e, o = Val (Err e)) /\
      (status = ILLEGAL_STATE -> retries + Z.of_nat (length before) = MAX_RETRIES)%Z.

Lemma exec_retry_loop fuel tp md retries backoff (s : S) tr o s' :
  exec (retry_loop fuel tp md retries backoff s) tr (o, s') ->
  (0 <= retries <= MAX_RETRIES)%Z -> (MAX_RETRIES < Z.of_nat fuel + retries)%Z ->
  s' = s /\ retried tp md retries backoff tr o.
Proof.
  unfold MAX_RETRIES. revert retries backoff tr. induction fuel as [|fuel IH];
    intros retries backoff tr H Hr Hf; [lia|].
  cbn [retry_loop] in H.
  apply exec_mbind in H as [(t1 & t2 & r & s1 & -> & H1 & H2)|[(? & ? & H & _)|(? & H & _)]];
    [|by apply exec_offsets_get in H as (_ & ? & ? & _ & ?)..].
  apply exec_offsets_get in H1 as (-> & status & instance & -> & [= ->]).
  assert (forall e t, t = [] -> o = Val (Err e) -> (status =? 0)%Z = false ->
    (status = ILLEGAL_STATE -> retries = 5%Z) ->
    retried tp md retries backoff
      ([existT (getExecutableMethodFileOffsets tp md) (status, instance) : ev] ++ t) o) as Hstop.
  { intros e t -> -> Hs Hi. exists [], status, instance. rewrite Hs. cbn.
    split_and!; [done|constructor|unfold MAX_RETRIES; lia|done|eauto|].
    unfold MAX_RETRIES. intros ?%Hi. lia. }
  destruct (status =? 0)%Z eqn:Hs.
  { destruct H2 as [-> [= -> ->]]. split; [done|]. exists [], status, instance. rewrite Hs. cbn.
    split_and!; [done|constructor|unfold MAX_RETRIES; lia|done..]. }
  change MAX_RETRIES with 5%Z in H2. destruct (5 <=? retries)%Z eqn:H5; bool_simpl.
  { destruct H2 as [-> [= -> ->]]. split; [done|]. eapply Hstop; [done..|lia]. }
  cbn [exception_code service_specific_error new_service_specific_error] in H2.
  rewrite Z.eqb_refl in H2. cbn [negb] in H2.
  destruct (status =? ILLEGAL_STATE)%Z eqn:Hi; cbn [negb] in H2; bool_simpl.
  - apply exec_mbind in H2 as [(t3 & t4 & [] & s2 & -> & H2 & H3)|[(? & ? & H & _)|(? & H & _)]];
      [|by destruct H as (? & ? & _ & _ & [=])..].
    destruct H2 as ([] & ? & -> & -> & [= ->]).
    apply IH in H3 as (-> & before & status' & instance' & Hg & Hb & Hl & Hsl & Ho); [|lia..].
    split; [done|]. exists ((status, instance) :: before), status', instance'.
    cbn [length]. rewrite Nat2Z.inj_succ. cbn. fold (gets t4) (sleeps t4). rewrite Hg, Hsl.
    replace (retries + Z.succ (Z.of_nat (length before)))%Z
      with (retries + 1 + Z.of_nat (length before))%Z by lia.
    split_and!; [done|by constructor|done..].
  - destruct H2 as [-> [= -> ->]]. split; [done|]. eapply Hstop; [done..|by intros ->].
Qed.

Lemma exec_with_retry {F : Flags} tp md (s : S) tr o s' :
  exec (get_executable_method_file_offsets_with_retry tp md s) tr (o, s') ->
  s' = s /\ if use_process_observer_api then retried tp md 0 (from_millis 10) tr o
    else exists status instance, gets tr = [(tp, md, (status, instance))] /\ sleeps tr = [] /\
      if (status =? 0)%Z then o = Val (Ok (nonnull instance)) else exists e, o = Val (Err e).
Proof.
  unfold get_executable_method_file_offsets_with_retry. destruct use_process_observer_api; cbn [negb].
  - intros H. by eapply exec_retry_loop.
  - intros H.
    apply exec_mbind in H as [(t1 & t2 & r & s1 & -> & H1 & H2)|[(? & ? & H & _)|(? & H & _)]];
      [|by apply exec_offsets_get in H as (_ & ? & ? & _ & ?)..].
    apply exec_offsets_get in H1 as (-> & status & instance & -> & [= ->]).
    destruct (status =? 0)%Z eqn:Hs; destruct H2 as [-> [= -> ->]]; (split; [done|]);
      exists status, instance; rewrite Hs; eauto.
Qed.

(** Ownership of the wrappers' values. *)

Definition owned_result (f : Z -> Object) (r : result Z) : list Object :=
  match r with Ok h => [f h] | Err _ => [] end.

Lemma owns_TargetProcess_new uid pid name :
  owns [] (TargetProcess_new uid pid name : Sys S _) (owned_result OTargetProcess).
Proof. unfold TargetProcess_new. owns_run. Qed.

Lemma owns_MethodDescriptor_new cls meth params :
  owns [] (MethodDescriptor_new cls meth params : Sys S _) (owned_result OMethodDescriptor).
Proof. unfold MethodDescriptor_new. owns_run. Qed.

Definition owned_offsets (r : option Z) : list Object :=
  match r with Some h => [OOffsets h] | None => [] end.

Lemma owns_offsets_get tp md :
  owns [] (ExecutableMethodFileOffsets_get tp md : Sys S _)
    (fun r => match r with inr o => owned_offsets o | inl _ => [] end).
Proof. unfold ExecutableMethodFileOffsets_get. owns_run. Qed.

Lemma drops_offsets (r : option Z) : drops (owned_offsets r) (drop_offsets r : Sys S unit).
Proof.
  destruct r; [drops_tac|]. by intros s tr o s' [-> [= -> ->]].
Qed.

Lemma owns_retry_loop fuel tp md retries backoff :
  owns [] (retry_loop fuel tp md retries backoff : Sys S _)
    (fun r => match r with Ok o => owned_offsets o | Err _ => [] end).
Proof.
  revert retries backoff. induction fuel as [|fuel IH]; intros retries backoff; cbn [retry_loop].
  - apply owns_no_fuel.
  - eapply owns_mbind; [apply owns_offsets_get|]. owns_run.
Qed.

Lemma owns_with_retry {F : Flags} tp md :
  owns [] (get_executable_method_file_offsets_with_retry tp md : Sys S _)
    (fun r => match r with Ok o => owned_offsets o | Err _ => [] end).
Proof.
  unfold get_executable_method_file_offsets_with_retry. destruct use_process_observer_api; cbn [negb].
  - apply owns_retry_loop.
  - eapply owns_mbind; [apply owns_offsets_get|]. owns_run.
Qed.

Lemma owns_to_target_process process :
  owns [] (to_target_process process : Sys S _) (owned_result OTargetProcess).
Proof.
  unfold to_target_process. eapply (owns_mtry _ _ (fun _ => [])); [owns_run| |reflexivity].
  intros uid. apply owns_TargetProcess_new.
Qed.

End Lemmas.

#[export] Hint Resolve owns_TargetProcess_new owns_MethodDescriptor_new owns_offsets_get
  owns_with_retry owns_to_target_process drops_offsets : owns.

Lemma tidy_resolve_offsets {B : BinderCodes} {F : Flags} {S} process method :
  tidy (resolve_offsets process method : Sys S _).
Proof.
  unfold resolve_offsets, to_method_descriptor, to_config_resolver_offsets,
    get_container_path, get_container_offset, get_method_offset.
  owns_run.
Qed.

(** ** The resolver *)

Section Resolver_spec.
Context {B : BinderCodes} {F : Flags} {S : Type}.

(** A request can be made for the process and the method: the user id fits and
    no name holds a NUL byte. *)
Definition process_ok (process : ResolvedProcess) : bool :=
  in_ity U32 (rp_uid process) && no_nul (rp_name process).

Definition method_ok (method : MethodDescriptor) : bool :=
  no_nul (md_fully_qualified_class_name method) && no_nul (md_method_name method) &&
  forallb no_nul (md_fully_qualified_parameters method).

Lemma rmapM_c_string (l : list string) :
  rmapM c_string l =
    if forallb no_nul l then Ok l else Err (EContext "Failed to create CString" ENul).
Proof.
  induction l as [|x l IH]; [done|]. cbn [rmapM forallb]. rewrite IH.
  unfold c_string. destruct (no_nul x), (forallb no_nul l); done.
Qed.

Lemma exec_to_target_process process (s : S) tr r s' :
  exec (to_target_process process s) tr (r, s') ->
  s' = s /\
  if process_ok process then
    exists tp, r = Val (Ok tp) /\ tr =
      [existT (TargetProcess_create (rp_uid process) (rp_pid process) (rp_name process)) tp : ev]
  else tr = [] /\ exists e, r = Val (Err e).
Proof.
  unfold to_target_process, process_ok, TargetProcess_new, try_into, c_string. intros H.
  destruct (in_ity U32 (rp_uid process)); cbn in H; [|destruct H as [-> [= -> ->]]; rewrite ?andb_false_r; cbn; eauto].
  destruct (no_nul (rp_name process)); cbn in H; [|destruct H as [-> [= -> ->]]; rewrite ?andb_false_r; cbn; eauto].
  destruct H as (tp & t & -> & -> & [= -> ->]). cbn. eauto.
Qed.

Lemma exec_to_method_descriptor method (s : S) tr r s' :
  exec (to_method_descriptor method s) tr (r, s') ->
  s' = s /\
  if method_ok method then
    exists md, r = Val (Ok md) /\ tr =
      [existT (MethodDescriptor_create (md_fully_qualified_class_name method)
        (md_method_name method) (md_fully_qualified_parameters method)) md : ev]
  else tr = [] /\ exists e, r = Val (Err e).
Proof.
  unfold to_method_descriptor, method_ok, MethodDescriptor_new. rewrite rmapM_c_string. unfold c_string.
  intros H.
  destruct (no_nul (md_fully_qualified_class_name method)); cbn in H;
    [|destruct H as [-> [= -> ->]]; rewrite ?andb_false_r; cbn; eauto].
  destruct (no_nul (md_method_name method)); cbn in H; [|destruct H as [-> [= -> ->]]; rewrite ?andb_false_r; cbn; eauto].
  destruct (forallb no_nul (md_fully_qualified_parameters method)); cbn in H;
    [|destruct H as [-> [= -> ->]]; rewrite ?andb_false_r; cbn; eauto].
  destruct H as (md & t & -> & -> & [= -> ->]). cbn. eauto.
Qed.

(** The offsets read from the C object, which then goes out of scope. *)
Definition offsets_read (tr : list ev) (offsets : option Z)
    (o : outcome (result (option ExecutableMethodFileOffsets))) : Prop :=
  match offsets with
  | None => o = Val (Ok None)
  | Some h => exists path c m,
      o = Val (Ok (Some {| of_container_path := lossy_str path; of_container_offset := c;
                           of_method_offset := m |})) /\
      (existT (Offsets_getContainerPath h) path : ev) ∈ tr /\
      (existT (Offsets_getContainerOffset h) c : ev) ∈ tr /\
      (existT (Offsets_getMethodOffset h) m : ev) ∈ tr
  end.

Lemma exec_read_offsets offsets (s : S) tr o s' :
  exec (with_drop
    (match offsets with
     | None => mret (Ok None)
     | Some instance => let! r := to_config_resolver_offsets instance in mret (Ok (Some r))
     end) (drop_offsets offsets) s) tr (o, s') ->
  s' = s /\ gets tr = [] /\ sleeps tr = [] /\ offsets_read tr offsets o.
Proof.
  destruct offsets as [h|]; cbn.
  - intros (path & ? & -> & c & ? & -> & m & ? & -> & [] & ? & -> & -> & [= -> ->]).
    split_and!; [done..|]. exists path, c, m. split_and!; [done|set_solver..].
  - by intros [-> [= -> ->]].
Qed.

Lemma with_retry_value tp md (s : S) tr o s' :
  exec (get_executable_method_file_offsets_with_retry tp md s) tr (o, s') ->
  s' = s /\ exists r, o = Val r.
Proof.
  intros [-> H]%exec_with_retry. split; [done|]. destruct use_process_observer_api.
  - destruct H as (? & status & ? & _ & _ & _ & _ & H). destruct (status =? 0)%Z; [eauto|].
    destruct H as [[e ->] _]. eauto.
  - destruct H as (status & ? & _ & _ & H). destruct (status =? 0)%Z; [eauto|].
    destruct H as [e ->]. eauto.
Qed.

(** The request and the reading of its answer, given the C objects. *)
Definition request (tp md : Z) : Sys S (result (option ExecutableMethodFileOffsets)) :=
  let? offsets := get_executable_method_file_offsets_with_retry tp md in
  with_drop
    (match offsets with
     | None => mret (Ok None)
     | Some instance => let! r := to_config_resolver_offsets instance in mret (Ok (Some r))
     end)
    (drop_offsets offsets).

Definition requested (tp md : Z) (s : S) (tr : list ev)
    (o : outcome (result (option ExecutableMethodFileOffsets))) : Prop :=
  exists t1 t2 r, tr = t1 ++ t2 /\
    exec (get_executable_method_file_offsets_with_retry tp md s) t1 (Val r, s) /\
    gets t2 = [] /\ sleeps t2 = [] /\
    match r with Ok offsets => offsets_read t2 offsets o | Err e => o = Val (Err e) end.

Lemma offsets_read_value t offsets o : offsets_read t offsets o -> exists r, o = Val r.
Proof. destruct offsets; [intros (? & ? & ? & -> & _)|intros ->]; eauto. Qed.

Lemma exec_request tp md (s : S) tr o s' :
  exec (request tp md s) tr (o, s') -> s' = s /\ (exists r, o = Val r) /\ requested tp md s tr o.
Proof.
  intros [(t1 & t2 & offsets & s1 & -> & H1 & H2)
    |[(e & s1 & H & [= -> ->])|[(m & s1 & H & _)|(s1 & H & _)]]]%exec_mtry.
  - destruct (with_retry_value _ _ _ _ _ _ H1) as [-> _].
    apply exec_read_offsets in H2 as (-> & Hg & Hs & Ho).
    split_and!; [done|by eapply offsets_read_value|]. by exists t1, t2, (Ok offsets).
  - destruct (with_retry_value _ _ _ _ _ _ H) as [-> _].
    split_and!; [done|eauto|]. exists tr, [], (Err e). by rewrite app_nil_r.
  - by apply with_retry_value in H as (_ & ? & ?).
  - by apply with_retry_value in H as (_ & ? & ?).
Qed.

(** A C object around a body that returns. *)
Lemma exec_drop_value {A} (m : Sys S A) (drop : Sys S unit) (d : list ev) (s : S) tr o s'
    (P : list ev -> outcome A -> Prop) :
  (forall t o s', exec (m s) t (o, s') -> s' = s /\ (exists r, o = Val r) /\ P t o) ->
  (forall t o s', exec (drop s) t (o, s') -> s' = s /\ t = d) ->
  exec (with_drop m drop s) tr (o, s') ->
  s' = s /\ (exists r, o = Val r) /\ exists t, tr = t ++ d /\ P t o.
Proof.
  intros Hm Hd [[-> H]|(_ & t1 & t2 & s1 & o2 & -> & H1 & H2)]%exec_with_drop.
  - by apply Hm in H as (_ & [? ?] & _).
  - apply Hm in H1 as (-> & [r ->] & HP). apply Hd in H2 as [-> ->]. split_and!; eauto.
Qed.

(** The part of [resolve_offsets] that owns the target process. *)
Definition described (tp : Z) (method : MethodDescriptor) (s : S) (tr : list ev)
    (o : outcome (result (option ExecutableMethodFileOffsets))) : Prop :=
  if method_ok method then
    exists md t, requested tp md s t o /\ tr =
      (existT (MethodDescriptor_create (md_fully_qualified_class_name method)
         (md_method_name method) (md_fully_qualified_parameters method)) md : ev) ::
      t ++ [(existT (MethodDescriptor_destroy md) tt : ev)]
  else tr = [] /\ exists e, o = Val (Err e).

Lemma exec_described tp method (s : S) tr o s' :
  exec ((let? md := to_method_descriptor method in
         with_drop (request tp md) (MethodDescriptor_drop md)) s) tr (o, s') ->
  s' = s /\ (exists r, o = Val r) /\ described tp method s tr o.
Proof.
  unfold described.
  intros [(t1 & t2 & md & s1 & -> & H1 & H2)
    |[(e & s1 & H & [= -> ->])|[(m & s1 & H & _)|(s1 & H & _)]]]%exec_mtry.
  - apply exec_to_method_descriptor in H1 as [-> H1].
    destruct (method_ok method); [|by destruct H1 as (_ & ? & ?)].
    destruct H1 as (md' & [= <-] & ->).
    eapply (exec_drop_value _ _ [(existT (MethodDescriptor_destroy md) tt : ev)] _ _ _ _
      (requested tp md s)) in H2 as (-> & Ho & t & -> & HP).
    + split_and!; [done|done|]. by exists md, t.
    + apply exec_request.
    + by intros t o1 s1 ([] & ? & -> & -> & [= -> ->]).
  - apply exec_to_method_descriptor in H as [-> H].
    destruct (method_ok method); [by destruct H as (? & ? & _)|]. destruct H as [-> [e' He]].
    split_and!; eauto.
  - apply exec_to_method_descriptor in H as [_ H].
    destruct (method_ok method); [by destruct H as (? & ? & _)|by destruct H as (_ & ? & ?)].
  - apply exec_to_method_descriptor in H as [_ H].
    destruct (method_ok method); [by destruct H as (? & ? & _)|by destruct H as (_ & ? & ?)].
Qed.

Lemma exec_resolve_offsets process method (s : S) tr o s' :
  exec (resolve_offsets process method s) tr (o, s') ->
  s' = s /\ (exists r, o = Val r) /\
  if process_ok process && method_ok method then
    exists tp md t, requested tp md s t o /\ tr =
      (existT (TargetProcess_create (rp_uid process) (rp_pid process) (rp_name process)) tp : ev) ::
      (existT (MethodDescriptor_create (md_fully_qualified_class_name method)
         (md_method_name method) (md_fully_qualified_parameters method)) md : ev) ::
      t ++ [(existT (MethodDescriptor_destroy md) tt : ev)] ++
      [(existT (TargetProcess_destroy tp) tt : ev)]
  else gets tr = [] /\ sleeps tr = [] /\ exists e, o = Val (Err e).
Proof.
  intros H. unfold resolve_offsets in H.
  apply exec_mtry in H as [(t1 & t2 & tp & s1 & -> & H1 & H2)
    |[(e & s1 & H & [= -> ->])|[(m & s1 & H & _)|(s1 & H & _)]]].
  - apply exec_to_target_process in H1 as [-> H1].
    destruct (process_ok process); [|by destruct H1 as (_ & ? & ?)].
    destruct H1 as (tp' & [= <-] & ->).
    eapply (exec_drop_value _ _ [(existT (TargetProcess_destroy tp) tt : ev)] _ _ _ _
      (described tp method s)) in H2 as (-> & Ho & t & -> & HP).
    + split_and!; [done|done|]. cbn [andb]. unfold described in HP. destruct (method_ok method).
      * destruct HP as (md & t' & HP & ->). exists tp, md, t'. split; [done|].
        cbn. by rewrite <- (assoc_L (++)).
      * destruct HP as [-> He]. cbn. eauto.
    + apply exec_described.
    + by intros t o1 s1 ([] & ? & -> & -> & [= -> ->]).
  - apply exec_to_target_process in H as [-> H].
    destruct (process_ok process); [by destruct H as (? & ? & _)|]. destruct H as [-> [e' He]].
    cbn. split_and!; eauto.
  - apply exec_to_target_process in H as [_ H].
    destruct (process_ok process); [by destruct H as (? & ? & _)|by destruct H as (_ & ? & ?)].
  - apply exec_to_target_process in H as [_ H].
    destruct (process_ok process); [by destruct H as (? & ? & _)|by destruct H as (_ & ? & ?)].
Qed.

Lemma offsets_read_mono t1 t2 offsets o : t1 ⊆ t2 -> offsets_read t1 offsets o -> offsets_read t2 offsets o.
Proof. destruct offsets; [|done]. intros Ht (p & c & m & ? & ? & ? & ?). exists p, c, m. set_solver. Qed.

(** What the requests were, and what came of them. *)
Definition answered_requests (tp md : Z) (tr : list ev)
    (o : outcome (result (option ExecutableMethodFileOffsets))) : Prop :=
  exists before status instance,
    gets tr = map (pair (tp, md)) (before ++ [(status, instance)]) /\
    Forall (fun a : Z * Z => a.1 = ILLEGAL_STATE /\ a.1 <> 0%Z) before /\
    (if use_process_observer_api then
       (length before <= 5)%nat /\ sleeps tr = map from_millis (take (length before) delays)
     else before = [] /\ sleeps tr = []) /\
    if (status =? 0)%Z then offsets_read tr (nonnull instance) o
    else (exists e, o = Val (Err e)) /\
      (use_process_observer_api = true -> status = ILLEGAL_STATE -> length before = 5%nat).

Lemma requested_answered tp md s t tr o :
  requested tp md s t o -> t ⊆ tr -> gets tr = gets t -> sleeps tr = sleeps t ->
  answered_requests tp md tr o.
Proof.
  intros (t1 & t2 & r & -> & H & Hg & Hs & Ho) Ht Hgt Hst.
  rewrite gets_app, Hg, app_nil_r in Hgt. rewrite sleeps_app, Hs, app_nil_r in Hst.
  assert (t2 ⊆ tr) as Ht2 by set_solver.
  apply exec_with_retry in H as [_ H]. unfold answered_requests. rewrite Hgt, Hst.
  destruct use_process_observer_api.
  - destruct H as (before & status & instance & -> & Hb & Hl & -> & H).
    unfold MAX_RETRIES in *. exists before, status, instance.
    split; [done|]. split; [done|]. split.
    { split; [lia|]. apply backoffs_delays. lia. }
    destruct (status =? 0)%Z.
    + destruct r as [offsets|e]; [|done]. injection H as ->. by eapply offsets_read_mono.
    + destruct H as [[e [= ->]] Hi]. split; [eauto|]. intros _ ?%Hi. lia.
  - destruct H as (status & instance & -> & -> & H). exists [], status, instance.
    split; [done|]. split; [constructor|]. split; [done|].
    destruct (status =? 0)%Z.
    + destruct r as [offsets|e]; [|done]. injection H as ->. by eapply offsets_read_mono.
    + destruct H as [e [= ->]]. split; [eauto|done].
Qed.

(** C18. Resolving offsets.  A process with a user id that fits and names without
    NUL are needed; otherwise nothing is asked.  The manager is then asked for
    exactly this process and method.  Without the observer API it is asked once.
    With it, it is asked again only after the answer "illegal state", at most six
    times in all, after delays of 10, 20, 40, 80 and 160 ms; the last answer
    decides: no offsets, the offsets it names (the path decoded lossily), or an
    error.  The resolver always returns, and every C object is released. *)
Theorem resolve_offsets_spec process method (s : S) tr o s'
    (H : exec (resolve_offsets process method s) tr (o, s')) :
  s' = s /\ (exists r, o = Val r) /\ acquired tr ≡ₚ released tr /\
  if process_ok process && method_ok method then
    exists tp md,
      (existT (TargetProcess_create (rp_uid process) (rp_pid process) (rp_name process)) tp : ev) ∈ tr /\
      (existT (MethodDescriptor_create (md_fully_qualified_class_name method)
         (md_method_name method) (md_fully_qualified_parameters method)) md : ev) ∈ tr /\
      answered_requests tp md tr o
  else gets tr = [] /\ sleeps tr = [] /\ exists e, o = Val (Err e).
Proof.
  assert (Hx := H). apply exec_resolve_offsets in H as (-> & [r ->] & H).
  split; [done|]. split; [eauto|]. split.
  { by eapply tidy_exec; [apply tidy_resolve_offsets|exact Hx|]. }
  destruct (process_ok process && method_ok method); [|done].
  destruct H as (tp & md & t & Ht & ->). exists tp, md. split; [set_solver|]. split; [set_solver|].
  eapply requested_answered; [exact Ht|set_solver|..].
  - cbn. fold (gets (t ++ [(existT (MethodDescriptor_destroy md) tt : ev); existT (TargetProcess_destroy tp) tt])).
    by rewrite gets_app, app_nil_r.
  - cbn. fold (sleeps (t ++ [(existT (MethodDescriptor_destroy md) tt : ev); existT (TargetProcess_destroy tp) tt])).
    by rewrite sleeps_app, app_nil_r.
Qed.

End Resolver_spec.

(** ** Witnesses *)

(** The codes of the binder runtime. *)
Definition binder_codes : BinderCodes := {| SERVICE_SPECIFIC := -8; ILLEGAL_STATE := -5 |}.

(** The manager is not ready for the first two requests. *)
Definition busy_env : Env SysI := fun c past =>
  match c return SysResp c with
  | getExecutableMethodFileOffsets _ _ =>
      if (length (gets past) <? 2)%nat then (-5, 0)%Z else (0, 13)%Z
  | c' => benign_env c' past
  end.

Definition example_method : MethodDescriptor :=
  {| md_fully_qualified_class_name := "com.android.server.am.ProcessRecord";
     md_method_name := "makeActive"; md_fully_qualified_parameters := ["int"] |}.

Definition resolve_example : Sys unit (result (option ExecutableMethodFileOffsets)) :=
  @resolve_offsets binder_codes all_flags unit some_process example_method.

Lemma resolve_offsets_spec_witness :
  exists tr, exec (resolve_example tt) tr (Val (Ok (Some some_offsets)), tt) /\
    length (gets tr) = 3%nat /\ sleeps tr = [10000000; 20000000]%Z /\ acquired tr ≡ₚ released tr.
Proof.
  eexists. assert (exec (resolve_example tt) _ (Val (Ok (Some some_offsets)), tt)) as H
    by run_in busy_env.
  split; [exact H|]. split; [reflexivity|]. split; [reflexivity|].
  exact (proj1 (proj2 (proj2 (@resolve_offsets_spec binder_codes all_flags unit some_process
    example_method tt _ _ _ H)))).
Defined.
