(* ===== verification/ActivityManager.v ===== *)
(** * ActivityManager: process observers and the list of running processes
    ([daemon/ffi/activity_manager])

    A [ProcessObserver] owns the C observer it registers; the callbacks it
    keeps alive are a value of a type with an instance of
    [ProcessObserverCallbacks], whose methods update it.  The C library calls
    the trampolines. *)

From S2P Require Import Prelude Effects RustStd Data System Fixtures Bpf Ownership.

Local Open Scope rust_scope.
Local Open Scope string_scope.
Local Open Scope list_scope.

Inductive ForegroundActivitiesState := NoForegroundActivities | HasForegroundActivities.

(** [trait ProcessObserverCallbacks]; [&mut self] is the state. *)
Class ProcessObserverCallbacks (C : Type) := {
  on_process_started : Z -> Z -> Z -> string -> string -> C -> C;
  on_foreground_activities_changed : Z -> Z -> ForegroundActivitiesState -> C -> C;
  on_foreground_services_changed : Z -> Z -> Z -> C -> C;
  on_process_died : Z -> Z -> C -> C
}.

(** [CStr::from_ptr(p).to_str().unwrap_or_default()]. *)
Definition str_or_default (bytes : list byte) : string :=
  match cstr_to_str bytes with Ok s => s | Err _ => "" end.

Section Trampolines.
Context {C : Type} `{ProcessObserverCallbacks C}.

Definition on_process_started_trampoline (callbacks : C) (e : ProcessStarted) : C :=
  on_process_started (ps_pid e) (ps_process_uid e) (ps_package_uid e)
    (str_or_default (ps_package_name e)) (str_or_default (ps_process_name e)) callbacks.

Definition on_foreground_activities_changed_trampoline (callbacks : C) (pid uid state : Z) : C :=
  let state := if (state =? 1)%Z then HasForegroundActivities else NoForegroundActivities in
  on_foreground_activities_changed pid uid state callbacks.

Definition on_foreground_services_changed_trampoline (callbacks : C)
    (pid uid service_types : Z) : C :=
  on_foreground_services_changed pid uid service_types callbacks.

Definition on_process_died_trampoline (callbacks : C) (pid uid : Z) : C :=
  on_process_died pid uid callbacks.

End Trampolines.

Section ActivityManager.
Context {S : Type}.

Definition ProcessObserver_register : Sys S (result Z) :=
  let! observer := ext (E := SysI) createProcessObserver in
  if (observer =? 0)%Z then mret (Err (EAnyhow "Failed to create process observer"))
  else
    let! _ := ext (E := SysI) (ProcessObserver_setOnProcessStarted observer) in
    let! _ := ext (E := SysI) (ProcessObserver_setOnForegroundActivitiesChanged observer) in
    let! _ := ext (E := SysI) (ProcessObserver_setOnForegroundServicesChanged observer) in
    let! _ := ext (E := SysI) (ProcessObserver_setOnProcessDied observer) in
    let! status := ext (E := SysI) (registerProcessObserver observer) in
    if negb (status =? 0)%Z then
      let! _ := ext (E := SysI) (destroyProcessObserver observer) in
      mret (Err (EAnyhow "Failed to register process observer, status: {}"))
    else mret (Ok observer).

Definition ProcessObserver_drop (observer : Z) : Sys S unit :=
  ext (E := SysI) (destroyProcessObserver observer).

(** [for i in 0..size]: [n] more entries from index [i]. *)
Fixpoint find_running (target_process_name : string) (list : Z) (n : nat) (i : Z) :
    Sys S (result (Z * Z)) :=
  match n with
  | O => mret (Err (EAnyhow "Process {} not found in running apps"))
  | Datatypes.S n' =>
      let! info := ext (E := SysI) (RunningAppProcessInfoList_get list i) in
      if (info =? 0)%Z then find_running target_process_name list n' (i + 1)
      else
        let! name := ext (E := SysI) (RunningAppProcessInfo_getProcessName info) in
        match name with
        | None => find_running target_process_name list n' (i + 1)
        | Some process_name =>
            if String.eqb (lossy_str process_name) target_process_name then
              let! pid := ext (E := SysI) (RunningAppProcessInfo_getPid info) in
              let! uid := ext (E := SysI) (RunningAppProcessInfo_getUid info) in
              mret (Ok (pid, uid))
            else find_running target_process_name list n' (i + 1)
        end
  end.

Definition get_running_process_pid_uid (target_process_name : string) : Sys S (result (Z * Z)) :=
  let! r := ext (E := SysI) getRunningAppProcesses in
  let '(status, out_list) := r in
  if negb (status =? 0)%Z then
    mret (Err (EAnyhow "Failed to get running app processes, status: {}"))
  else if (out_list =? 0)%Z then
    mret (Err (EAnyhow "Running app processes list is unexpectedly null"))
  else
    with_drop
      (let! size := ext (E := SysI) (RunningAppProcessInfoList_getSize out_list) in
       find_running target_process_name out_list (Z.to_nat size) 0)
      (ext (E := SysI) (RunningAppProcessInfoList_destroy out_list)).

(** ** Ownership *)

Lemma owns_ProcessObserver_register :
  owns [] (ProcessObserver_register : Sys S _)
    (fun r => match r with Ok h => [OObserver h] | Err _ => [] end).
Proof. unfold ProcessObserver_register. owns_run. Qed.

Lemma tidy_find_running name list n i : tidy (find_running name list n i : Sys S _).
Proof.
  revert i. induction n as [|n IH]; intros i; cbn [find_running]; owns_run.
Qed.

#[local] Hint Resolve tidy_find_running : owns.

Lemma tidy_get_running_process_pid_uid name :
  tidy (get_running_process_pid_uid name : Sys S _).
Proof. unfold get_running_process_pid_uid. owns_run. Qed.

End ActivityManager.

(** ** A list of running processes, and an activity manager that serves it *)

Record RunningProcess := mkRunningProcess {
  rn_name : option (list byte);
  rn_pid : Z;
  rn_uid : Z
}.

(** An entry may be null, and so may its name. *)
Notation ProcessList := (list (option RunningProcess)).

(** The process [get_running_process_pid_uid] is meant to find. *)
Fixpoint first_running (name : string) (ps : ProcessList) : option (Z * Z) :=
  match ps with
  | [] => None
  | Some {| rn_name := Some bytes; rn_pid := pid; rn_uid := uid |} :: ps' =>
      if String.eqb (lossy_str bytes) name then Some (pid, uid) else first_running name ps'
  | _ :: ps' => first_running name ps'
  end.

(** The answers of a manager with the processes [ps], entry [i] at [addr i]. *)
Definition serves (ps : ProcessList) (addr : nat -> Z) (e : ev) : Prop :=
  match e with
  | existT getRunningAppProcesses (status, list) => status = 0%Z /\ list <> 0%Z
  | existT (RunningAppProcessInfoList_getSize _) n => n = Z.of_nat (length ps)
  | existT (RunningAppProcessInfoList_get _ i) info =>
      info = match ps !! Z.to_nat i with Some (Some _) => addr (Z.to_nat i) | _ => 0%Z end
  | existT (RunningAppProcessInfo_getProcessName info) name =>
      forall i p, ps !! i = Some (Some p) -> info = addr i -> name = rn_name p
  | existT (RunningAppProcessInfo_getPid info) pid =>
      forall i p, ps !! i = Some (Some p) -> info = addr i -> pid = rn_pid p
  | existT (RunningAppProcessInfo_getUid info) uid =>
      forall i p, ps !! i = Some (Some p) -> info = addr i -> uid = rn_uid p
  | _ => True
  end.

Definition not_running : result (Z * Z) := Err (EAnyhow "Process {} not found in running apps").

Section Spec.
Context {S : Type}.

Lemma serves_get ps addr list i (info : Z) :
  serves ps addr (existT (RunningAppProcessInfoList_get list (Z.of_nat i)) info : ev) ->
  info = match ps !! i with Some (Some _) => addr i | _ => 0%Z end.
Proof. unfold serves. intros ->. by rewrite Nat2Z.id. Qed.

Lemma exec_find_running ps addr name list pre post (s : S) tr o s' :
  ps = pre ++ post -> (forall i, addr i <> 0%Z) ->
  exec (find_running name list (length post) (Z.of_nat (length pre)) s) tr (o, s') ->
  s' = s /\ (exists r, o = Val r) /\
  (Forall (serves ps addr) tr ->
     o = Val (match first_running name post with Some r => Ok r | None => not_running end)).
Proof.
  intros -> Ha. revert pre tr.
  induction post as [|entry post IH]; intros pre tr H; cbn [find_running length] in H.
  { destruct H as [-> [= -> ->]]. eauto. }
  assert (forall t, exec (find_running name list (length post) (Z.of_nat (length pre) + 1) s) t (o, s') ->
    s' = s /\ (exists r, o = Val r) /\
    (Forall (serves (pre ++ entry :: post) addr) t ->
     o = Val (match first_running name post with Some r => Ok r | None => not_running end))) as Hnext.
  { intros t Ht. specialize (IH (pre ++ [entry]) t). rewrite <- (assoc_L (++)) in IH. apply IH.
    by rewrite length_app, Nat2Z.inj_add. }
  assert ((pre ++ entry :: post) !! length pre = Some entry) as Hl
    by (rewrite lookup_app_r, Nat.sub_diag by lia; done).
  destruct H as (info & t & -> & H). cbn [pbind] in H.
  destruct (info =? 0)%Z eqn:Hi; bool_simpl.
  { apply Hnext in H as (-> & Ho & H). split_and!; [done|done|].
    intros [Hg%serves_get HF]%Forall_cons. rewrite Hl in Hg.
    destruct entry as [p|]; [by destruct (Ha (length pre)); rewrite <- Hg|]. by apply H. }
  destruct H as (bytes & t' & -> & H). cbn [pbind] in H.
  assert (serves (pre ++ entry :: post) addr (existT (RunningAppProcessInfoList_get list
    (Z.of_nat (length pre))) info) -> exists p, entry = Some p /\ info = addr (length pre)) as Hp.
  { intros Hg%serves_get. rewrite Hl in Hg. destruct entry as [p|]; [eauto|done]. }
  destruct bytes as [bytes|].
  2: { apply Hnext in H as (-> & Ho & H). split_and!; [done|done|].
    intros [(p & -> & ->)%Hp [Hn HF]%Forall_cons]%Forall_cons.
    specialize (Hn _ _ Hl eq_refl). destruct p as [[b|] pid uid]; [done|]. by apply H. }
  destruct (String.eqb (lossy_str bytes) name) eqn:Hname.
  - destruct H as (pid & ? & -> & uid & ? & -> & -> & [= -> ->]). split_and!; [done|eauto|].
    intros [(p & -> & ->)%Hp [Hn [Hpid [Huid _]%Forall_cons]%Forall_cons]%Forall_cons]%Forall_cons.
    specialize (Hn _ _ Hl eq_refl). specialize (Hpid _ _ Hl eq_refl). specialize (Huid _ _ Hl eq_refl).
    destruct p as [b ? ?]. cbn in *. subst. by rewrite Hname.
  - apply Hnext in H as (-> & Ho & H). split_and!; [done|done|].
    intros [(p & -> & ->)%Hp [Hn HF]%Forall_cons]%Forall_cons.
    specialize (Hn _ _ Hl eq_refl). destruct p as [b pid uid]. cbn in Hn. subst b. cbn.
    rewrite Hname. by apply H.
Qed.
(** The process that is looked up.  Asking for the pid and uid of a running
    process always comes to a result and releases the list it obtained.  If the
    activity manager serves a list of processes, the result is the first entry of
    the list whose name, decoded lossily, is the one asked for; entries that are
    null or have no name are passed over, and without a match it is an error. *)
Theorem running_process_spec name (s : S) tr o s'
    (H : exec (get_running_process_pid_uid name s) tr (o, s')) :
  s' = s /\ (exists r, o = Val r) /\ acquired tr ≡ₚ released tr /\
  forall ps addr, (forall i, addr i <> 0%Z) -> Forall (serves ps addr) tr ->
    o = Val (match first_running name ps with Some r => Ok r | None => not_running end).
Proof.
  assert (Hx := H). unfold get_running_process_pid_uid in H.
  assert (s' = s /\ (exists r, o = Val r) /\ forall ps addr, (forall i, addr i <> 0%Z) ->
    Forall (serves ps addr) tr ->
    o = Val (match first_running name ps with Some r => Ok r | None => not_running end))
    as (-> & [r ->] & Hs).
  { destruct H as ([status list] & t & -> & H). cbn [pbind] in H.
    destruct (status =? 0)%Z eqn:Hst; cbn [negb] in H;
      [destruct (list =? 0)%Z eqn:Hl|]; bool_simpl.
    - destruct H as [-> [= -> ->]]. split_and!; [done|eauto|].
      by intros ps addr _ [[_ ?] _]%Forall_cons.
    - apply exec_with_drop in H as [[-> H]|(_ & t1 & t2 & s1 & o2 & -> & H1 & H2)].
      + destruct H as (n & t1 & -> & H). cbn [pbind] in H.
        rewrite <- (length_replicate (Z.to_nat n) (None : option RunningProcess)) in H.
        apply (exec_find_running _ (fun _ => 1%Z) name list [] _ _ _ _ _ eq_refl) in H
          as (_ & [? ?] & _); done.
      + destruct H2 as ([] & ? & -> & -> & [= -> ->]). destruct H1 as (n & t3 & -> & H). cbn [pbind] in H.
        assert (Hn := H).
        rewrite <- (length_replicate (Z.to_nat n) (None : option RunningProcess)) in Hn.
        apply (exec_find_running _ (fun _ => 1%Z) name list [] _ _ _ _ _ eq_refl) in Hn
          as (-> & Ho & _); [|done].
        split_and!; [done|done|]. intros ps addr Ha [_ HF]%Forall_cons.
        apply Forall_app in HF as [[Hsize HF]%Forall_cons _]. cbn in Hsize. subst n.
        rewrite Nat2Z.id in H.
        apply (exec_find_running _ addr name list [] _ _ _ _ _ eq_refl Ha) in H as (_ & _ & H).
        by apply H.
    - destruct H as [-> [= -> ->]]. split_and!; [done|eauto|].
      by intros ps addr _ [[? _] _]%Forall_cons. }
  split_and!; [done|eauto| |done].
  by eapply tidy_exec; [apply tidy_get_running_process_pid_uid|exact Hx|].
Qed.

End Spec.

(** ** Witnesses *)

Definition example_processes : ProcessList :=
  [None; Some {| rn_name := None; rn_pid := 1; rn_uid := 2 |};
   Some {| rn_name := Some (list_byte_of_string "com.a"); rn_pid := 10; rn_uid := 11 |};
   Some {| rn_name := Some (list_byte_of_string "com.a"); rn_pid := 20; rn_uid := 21 |}].

Definition example_addr (i : nat) : Z := (1000 + Z.of_nat i)%Z.

Definition processes_env : Env SysI := fun c past =>
  let entry (info : Z) := default None (example_processes !! Z.to_nat (info - 1000)) in
  match c return SysResp c with
  | RunningAppProcessInfoList_getSize _ => 4%Z
  | RunningAppProcessInfoList_get _ i =>
      match default None (example_processes !! Z.to_nat i) with
      | Some _ => example_addr (Z.to_nat i)
      | None => 0%Z
      end
  | RunningAppProcessInfo_getProcessName info =>
      match entry info with Some p => rn_name p | None => None end
  | RunningAppProcessInfo_getPid info => match entry info with Some p => rn_pid p | None => 0%Z end
  | RunningAppProcessInfo_getUid info => match entry info with Some p => rn_uid p | None => 0%Z end
  | c' => benign_env c' past
  end.

Lemma running_process_spec_witness :
  exists tr, exec (get_running_process_pid_uid "com.a" tt) tr (Val (Ok (10, 11)%Z), tt) /\
    acquired tr ≡ₚ released tr.
Proof.
  eexists. assert (exec (get_running_process_pid_uid "com.a" tt) _ (Val (Ok (10, 11)%Z), tt)) as H
    by run_in processes_env.
  split; [exact H|].
  destruct (@running_process_spec unit "com.a" tt _ _ _ H) as (_ & _ & Ht & _). exact Ht.
Defined.
