(* ===== verification/Poll.v ===== *)
(** * Poll: draining a ring buffer into its handler until the time is up
    ([daemon/android/bpf_handler.rs])

    The loop reads the clock before each poll; [fuel] bounds its iterations and
    [NoFuel] marks a run that was cut, which the termination property excludes. *)

From S2P Require Import Prelude Effects RustStd Data System Fixtures Guardrail ConfigResolver Handler.
From S2P Require Import Accessibility Bitmap BinderHandler Disruptive Generic ArtTest StatsAtoms Bpf.

Local Open Scope rust_scope.
Local Open Scope string_scope.
Local Open Scope list_scope.

(** The error type and failure point of a handler's error. *)
Definition classify_item_error (e : error) : ErrorType * Z :=
  match downcast_uprobestats e with
  | Some (BpfProgramError point) => (ErrorTypeBpfProgramError, point)
  | Some (BpfDataInvalid point) => (ErrorTypeBpfRingBufferDataInvalid, point)
  | None => (ErrorTypeTaskExecutionFailed, 0%Z)
  end.

Section Loop.
Context {Tg : Target} {H : Type} `{Handler H}.

(** The three [map_err] closures: write an internal error, mark the error. *)
Definition report (error_type : ErrorType) (task : ResolvedTask) (map_path : string)
    (failure_point : Z) (e : error) : Sys H error :=
  let! _ := write_internal_error error_type (rt_id task) (PROG_PATH H) (Some map_path)
              failure_point in
  mret (EReportedToStatsd e).

Definition report_item_error (task : ResolvedTask) (map_path : string) (e : error) : Sys H error :=
  let '(error_type, failure_point) := classify_item_error e in
  report error_type task map_path failure_point e.

(** The [while let] loop, with the events counted so far. *)
Fixpoint poll_loop (fuel : nat) (map_path : string) (task : ResolvedTask) (timer : Timer)
    (handle total_events : Z) : Sys H (result Z) :=
  match fuel with
  | O => no_fuel
  | Datatypes.S fuel' =>
      let! remaining := Timer_remaining_millis timer in
      match remaining with
      | None => mret (Ok total_events)
      | Some remaining_millis =>
          let? remaining_millis := mret (try_into I32 remaining_millis) in
          let? result :=
            on_err (BpfRingBuffer_poll (T H) handle remaining_millis)
              (report ErrorTypeBpfRingBufferPollFailed task map_path 0) in
          let! total_events := lift_outcome
            (add_int I64 total_events (as_ity I64 (Z.of_nat (length result)))) in
          let? _ := for_each result (fun i =>
            on_err (on_item task i) (report_item_error task map_path)) in
          poll_loop fuel' map_path task timer handle total_events
      end
  end.

(** Everything after the ring buffer is created: it is dropped at the end. *)
Definition poll_created (fuel : nat) (map_path : string) (task : ResolvedTask) (duration : Z)
    (timer : Timer) (handle : Z) : Sys H (result unit) :=
  let? total_events := poll_loop fuel map_path task timer handle 0 in
  let? _ := on_finished in
  let? path_enum := mret (bpf_map_path_to_enum map_path) in
  let? duration_ms := mret (try_into I64 (as_millis duration)) in
  let! _ := ext (E := SysI)
    (stats_write_bpf_map_polled path_enum duration_ms total_events (rt_id task)) in
  mret (Ok tt).

Definition poll_loop_generic {S} (fuel : nat) (map_path : string) (task : ResolvedTask)
    (duration : Z) : Sys S (result unit) :=
  if negb (String.eqb map_path (MAP_PATH H)) then
    mret (Err (EAnyhow "map_path mismatch: {} != {}"))
  else
    with_local (handler_default H)
      (let! timer := Timer_new duration in
       let? handle :=
         on_err (BpfRingBuffer_new (T H) map_path)
           (report ErrorTypeBpfRingBufferCreateFailed task map_path 0) in
       with_drop (poll_created fuel map_path task duration timer handle)
         (BpfRingBuffer_drop handle)).

End Loop.

Arguments poll_loop_generic {Tg} H {_ S} fuel map_path task duration.

(** ** The registry *)

Section Registry.
Context {Tg : Target} {F : Flags} {O : HashOrder} {SH : StringHash} {S : Type}.

(** [is_at_least_cinnamon_bun()], read once when the registry is first used. *)
Variable at_least_cinnamon_bun : bool.

Definition HandlerFn : Type := nat -> string -> ResolvedTask -> Z -> Sys S (result unit).

Definition register_handler (H : Type) `{Handler H} (registry : gmap string HandlerFn) :
    gmap string HandlerFn :=
  <[MAP_PATH H := fun fuel => poll_loop_generic H fuel]> registry.

Definition HANDLER_REGISTRY : gmap string HandlerFn :=
  let map := ∅ in
  let map := if enable_bitmap_snapshot then register_handler BitmapAllocationHandlerV1 map
             else register_handler BitmapAllocationHandlerV0 map in
  let map := register_handler CallTimestampHandler map in
  let map := register_handler CallResultHandler map in
  let map := register_handler SetUidTempAllowlistStateRecordHandler map in
  let map := register_handler UpdateDeviceIdleTempAllowlistRecordHandler map in
  let map := if enable_binder_transaction then register_handler BinderTransactionHandler map
             else map in
  let map :=
    if at_least_cinnamon_bun then
      let map := if a11y_runtime_permission then register_handler AccessibilityHandler map
                 else map in
      if uprobestats_monitor_disruptive_app_activities then
        register_handler ComponentEnabledSettingHandler
          (register_handler BindServiceLockedHandler map)
      else map
    else map in
  if feature_art_test then register_handler AotHandler (register_handler JitHandler map)
  else map.

Definition poll_registry (fuel : nat) (map_path : string) (task : ResolvedTask) (duration : Z) :
    Sys S (result unit) :=
  match HANDLER_REGISTRY !! map_path with
  | None => mret (Err (EAnyhow "unsupported map_path: {}"))
  | Some poll_loop_fn => poll_loop_fn fuel map_path task duration
  end.

End Registry.

(** ** What an exchange shows of a poll *)

Definition instant_of (e : ev) : option Z :=
  match e with existT Instant_now t => Some t | _ => None end.
Definition instants (tr : list ev) : list Z := omap instant_of tr.

(** Ring buffers obtained, and given back. *)
Definition created_of (e : ev) : option Z :=
  match e with
  | existT (bpfRingBufCreate _ _) h => if (h =? 0)%Z then None else Some h
  | _ => None
  end.
Definition created (tr : list ev) : list Z := omap created_of tr.

Definition destroyed_of (e : ev) : option Z :=
  match e with existT (bpfRingBufDestroy h) _ => Some h | _ => None end.
Definition destroyed (tr : list ev) : list Z := omap destroyed_of tr.

(** Items a successful poll delivered. *)
Definition delivered_of (e : ev) : Z :=
  match e with
  | existT (bpfRingBufPoll _ _ _) (res, items) =>
      if (0 <=? res)%Z then Z.of_nat (length items) else 0%Z
  | _ => 0%Z
  end.
Definition delivered (tr : list ev) : Z := fold_right Z.add 0%Z (map delivered_of tr).

Definition polled_of (e : ev) : option (PolledMapPath * Z * Z * Z) :=
  match e with
  | existT (stats_write_bpf_map_polled p d n id) _ => Some (p, d, n, id)
  | _ => None
  end.
Definition polled (tr : list ev) : list (PolledMapPath * Z * Z * Z) := omap polled_of tr.

(** The failures of ring buffers and probes, and the reports made. *)
Definition account_of (e : ev) : option ((ErrorType * Z) + ErrorType) :=
  match e with
  | existT (stats_write_internal_error ty id _ _ _) _ => Some (inl (ty, id))
  | existT (bpfRingBufCreate _ _) handle =>
      if (handle =? 0)%Z then Some (inr ErrorTypeBpfRingBufferCreateFailed) else None
  | existT (bpfRingBufPoll _ _ _) (res, _) =>
      if (0 <=? res)%Z then None else Some (inr ErrorTypeBpfRingBufferPollFailed)
  | existT (bpfPerfEventOpen _ _ _ _) fd =>
      if (0 <=? fd)%Z then None else Some (inr ErrorTypeBpfProgramAttachFailed)
  | _ => None
  end.
Definition accounts (tr : list ev) : list ((ErrorType * Z) + ErrorType) := omap account_of tr.

Lemma instants_app t1 t2 : instants (t1 ++ t2) = instants t1 ++ instants t2.
Proof. apply omap_app. Qed.
Lemma created_app t1 t2 : created (t1 ++ t2) = created t1 ++ created t2.
Proof. apply omap_app. Qed.
Lemma destroyed_app t1 t2 : destroyed (t1 ++ t2) = destroyed t1 ++ destroyed t2.
Proof. apply omap_app. Qed.
Lemma polled_app t1 t2 : polled (t1 ++ t2) = polled t1 ++ polled t2.
Proof. apply omap_app. Qed.
Lemma accounts_app t1 t2 : accounts (t1 ++ t2) = accounts t1 ++ accounts t2.
Proof. apply omap_app. Qed.
Lemma internal_errors_accounts tr :
  internal_errors tr = omap (fun x => match x with inl r => Some r | inr _ => None end) (accounts tr).
Proof.
  unfold internal_errors, accounts. induction tr as [|[c r] tr IH]; [done|]. cbn in *.
  destruct c; cbn; rewrite ?IH; try done.
  - by destruct (r =? 0)%Z.
  - destruct r as [res items]. by destruct (0 <=? res)%Z.
  - by destruct (0 <=? r)%Z.
Qed.
Lemma delivered_app t1 t2 : delivered (t1 ++ t2) = (delivered t1 + delivered t2)%Z.
Proof. unfold delivered. induction t1; cbn [app map fold_right]; lia. Qed.
Lemma delivered_nonneg tr : (0 <= delivered tr)%Z.
Proof.
  unfold delivered. induction tr as [|[c r] tr IH]; cbn [map fold_right]; [lia|].
  assert (0 <= delivered_of (existT c r))%Z; [|lia].
  destruct c; cbn; try lia. destruct r as [res items]. destruct (0 <=? res)%Z; lia.
Qed.

Hint Rewrite instants_app created_app destroyed_app polled_app delivered_app accounts_app
  : traces.

(** Handlers show none of it. *)
Definition silent (tr : list ev) : Prop :=
  instants tr = [] /\ created tr = [] /\ destroyed tr = [] /\ polled tr = [] /\
  delivered tr = 0%Z /\ accounts tr = [].

Lemma handler_silent (tr : list ev) :
  Forall (fun e : ev => handler_call (projT1 e) = true) tr -> silent tr.
Proof.
  unfold silent. induction 1 as [|[c r] tr Hc Htr (IH1 & IH2 & IH3 & IH4 & IH5 & IH6)]; [done|].
  cbn in Hc. unfold instants, created, destroyed, polled, delivered, accounts in *.
  destruct c; try discriminate Hc; cbn in *; split_and!; done.
Qed.

Lemma silent_app t1 t2 : silent t1 -> silent t2 -> silent (t1 ++ t2).
Proof.
  intros (A1 & A2 & A3 & A4 & A5 & A6) (B1 & B2 & B3 & B4 & B5 & B6). unfold silent.
  autorewrite with traces. rewrite A1, A2, A3, A4, A5, A6, B1, B2, B3, B4, B5, B6. done.
Qed.

(** ** One failure, one report, and a mark *)

(** What a poll's outcome says about the failures and reports in its exchange.  A
    marked error is that of a failing ring buffer, reported under its own type, or
    that of an item; an unmarked one was not reported, and it is a number that
    does not fit, or the writer's when the handler finishes. *)
Definition accounted (id : Z) {A} (o : outcome (result A)) (tr : list ev) : Prop :=
  match o with
  | Val (Err e) =>
      (exists e0, e = EReportedToStatsd e0 /\
         ((exists ty, accounts tr = [inr ty; inl (ty, id)]) \/
          accounts tr = [inl ((classify_item_error e0).1, id)])) \/
      (accounts tr = [] /\ writing_error tr e)
  | NoFuel => True
  | _ => accounts tr = []
  end.

Lemma accounted_mid id {A} (o : outcome (result A)) t1 t2 t3 :
  accounts t1 = [] -> accounts t3 = [] -> accounted id o t2 -> accounted id o (t1 ++ t2 ++ t3).
Proof.
  intros H1 H3 H.
  assert (accounts (t1 ++ t2 ++ t3) = accounts t2) as E
    by (autorewrite with traces; by rewrite H1, H3, app_nil_r).
  destruct o as [[a|e]|m|]; cbn in *; rewrite ?E; try done.
  destruct H as [H|[Hn H]]; [by left|]. right. split; [done|]. by apply writing_error_mid.
Qed.

Lemma accounted_after id {A} (o : outcome (result A)) t1 t2 :
  accounts t1 = [] -> accounted id o t2 -> accounted id o (t1 ++ t2).
Proof. intros H1 H. rewrite <- (app_nil_r t2). by apply accounted_mid. Qed.

Lemma accounted_before id {A} (o : outcome (result A)) t1 t2 :
  accounts t2 = [] -> accounted id o t1 -> accounted id o (t1 ++ t2).
Proof. intros H1 H. by apply (accounted_mid id o [] t1 t2). Qed.

Section LoopLemmas.
Context {Tg : Target} {H : Type} `{HL : HandlerLaws H}.
Implicit Types (task : ResolvedTask) (s : H) (tr : list ev).

Lemma exec_report ty task path pt e s tr o s' :
  exec (report (H := H) ty task path pt e s) tr (o, s') ->
  o = Val (EReportedToStatsd e) /\ s' = s /\ accounts tr = [inl (ty, rt_id task)] /\
  instants tr = [] /\ created tr = [] /\ destroyed tr = [] /\ polled tr = [] /\
  delivered tr = 0%Z.
Proof.
  unfold report. intros Hx. unfold mbind in Hx. rewrite write_internal_error_eq in Hx.
  destruct Hx as (r & t & -> & -> & [= -> ->]). done.
Qed.

(** The loop over the delivered items. *)
Lemma exec_items task path items s tr o s' :
  exec (for_each items (fun i => on_err (on_item task i) (report_item_error task path)) s)
    tr (o, s') ->
  instants tr = [] /\ created tr = [] /\ destroyed tr = [] /\ polled tr = [] /\
  delivered tr = 0%Z /\ o <> NoFuel /\
  match o with
  | Val (Err e) => exists e0, e = EReportedToStatsd e0 /\
      accounts tr = [inl ((classify_item_error e0).1, rt_id task)]
  | _ => accounts tr = []
  end.
Proof using HL.
  revert s tr. induction items as [|i items IH]; intros s tr Hx; cbn [for_each] in Hx.
  { destruct Hx as [-> [= -> ->]]. done. }
  assert (Hi : forall s t x s1,
    exec (on_err (on_item task i) (report_item_error task path) s) t (x, s1) ->
    instants t = [] /\ created t = [] /\ destroyed t = [] /\ polled t = [] /\
    delivered t = 0%Z /\ x <> NoFuel /\
    match x with
    | Val (Err e) => exists e0, e = EReportedToStatsd e0 /\
        accounts t = [inl ((classify_item_error e0).1, rt_id task)]
    | _ => accounts t = []
    end).
  { clear s tr IH Hx. intros s t x s1 Hx. unfold on_err in Hx.
    apply exec_mbind in Hx as [Hx|[(m & s2 & Hx & [= -> ->])|(s2 & Hx & [= -> ->])]].
    - destruct Hx as (t1 & t2 & r & s2 & -> & H1 & H2).
      apply on_item_calls in H1 as [(A1 & A2 & A3 & A4 & A5 & A6)%handler_silent _].
      destruct r as [[]|e].
      + destruct H2 as [-> [= -> ->]]. rewrite app_nil_r. done.
      + apply exec_mbind in H2 as [H2|[(m & s3 & H2 & _)|(s3 & H2 & _)]].
        * destruct H2 as (t3 & t4 & e' & s3 & -> & H2 & -> & [= -> ->]).
          unfold report_item_error in H2. destruct (classify_item_error e) as [ty pt] eqn:Hcl.
          apply exec_report in H2 as ([= ->] & -> & Hie & B1 & B2 & B3 & B4 & B5).
          autorewrite with traces. rewrite A1, A2, A3, A4, A5, A6, Hie, B1, B2, B3, B4, B5.
          split_and!; try done. exists e. by rewrite Hcl.
        * unfold report_item_error in H2. destruct (classify_item_error e).
          by apply exec_report in H2 as [? _].
        * unfold report_item_error in H2. destruct (classify_item_error e).
          by apply exec_report in H2 as [? _].
    - apply on_item_calls in Hx as [(A1 & A2 & A3 & A4 & A5 & A6)%handler_silent _]. done.
    - by apply on_item_calls in Hx as [_ ?]. }
  apply exec_mtry in Hx as [Hx|[(e & s1 & Hx & [= -> ->])|[(m & s1 & Hx & [= -> ->])|(s1 & Hx & [= -> ->])]]].
  - destruct Hx as (t1 & t2 & [] & s1 & -> & H1 & H2).
    apply Hi in H1 as (A1 & A2 & A3 & A4 & A5 & _ & A6).
    apply IH in H2 as (B1 & B2 & B3 & B4 & B5 & B6 & B7).
    autorewrite with traces. by rewrite A1, A2, A3, A4, A5, A6, B1, B2, B3, B4, B5.
  - by apply Hi in Hx.
  - by apply Hi in Hx.
  - by apply Hi in Hx.
Qed.

(** A failing step whose error is reported. *)
Lemma exec_on_err_report {A} (m : Sys H (result A)) ty task path pt s tr o s' :
  exec (on_err m (report ty task path pt) s) tr (o, s') ->
  exists t1 o1 s1, exec (m s) t1 (o1, s1) /\
    match o1 with
    | Val (Err e) => o = Val (Err (EReportedToStatsd e)) /\ exists t2, tr = t1 ++ t2 /\
        accounts t2 = [inl (ty, rt_id task)] /\
        instants t2 = [] /\ created t2 = [] /\ destroyed t2 = [] /\ polled t2 = [] /\
        delivered t2 = 0%Z
    | _ => tr = t1 /\ o = o1
    end.
Proof.
  unfold on_err. intros [Hx|[(msg & s2 & Hx & [= -> ->])|(s2 & Hx & [= -> ->])]]%exec_mbind.
  - destruct Hx as (t1 & t2 & [a|e] & s2 & -> & H1 & H2).
    + destruct H2 as [-> [= -> ->]]. exists t1, (Val (Ok a)), s2. by rewrite app_nil_r.
    + exists t1, (Val (Err e)), s2. split; [done|].
      apply exec_mbind in H2 as [H2|[(m' & s3 & H2 & _)|(s3 & H2 & _)]];
        [|by apply exec_report in H2 as [? _]..].
      destruct H2 as (t3 & t4 & e' & s3 & -> & H2 & -> & [= -> ->]).
      apply exec_report in H2 as ([= ->] & -> & Hie & B1 & B2 & B3 & B4 & B5).
      split; [done|]. exists t3. by rewrite app_nil_r.
  - exists tr, (Panics msg), s2. done.
  - exists tr, NoFuel, s2. done.
Qed.

Lemma exec_BpfRingBuffer_poll ty handle ms s tr o s' :
  exec (BpfRingBuffer_poll ty handle ms s) tr (o, s') ->
  silent (tail tr) /\ exists r, tr = [existT (bpfRingBufPoll ty handle ms) r : ev] /\ s' = s /\
    if (0 <=? r.1)%Z then o = Val (Ok r.2) else exists e, o = Val (Err e).
Proof.
  unfold BpfRingBuffer_poll. intros Hx. wp_start Hx. wp_cbn. intros [res items]. wp_cbn.
  destruct (0 <=? res)%Z eqn:Hres; cbn; split; try done; eexists; (split; [done|]); cbn;
    rewrite Hres; eauto.
Qed.

(** One poll: its items, or an error that was reported. *)
Lemma exec_poll_once ty task path handle ms s tr o s' :
  exec (on_err (BpfRingBuffer_poll ty handle ms)
          (report ErrorTypeBpfRingBufferPollFailed task path 0) s) tr (o, s') ->
  instants tr = [] /\ created tr = [] /\ destroyed tr = [] /\ polled tr = [] /\
  match o with
  | Val (Ok items) => delivered tr = Z.of_nat (length items) /\ accounts tr = []
  | Val (Err e) => exists e0, e = EReportedToStatsd e0 /\
      accounts tr = [inr ErrorTypeBpfRingBufferPollFailed;
                     inl (ErrorTypeBpfRingBufferPollFailed, rt_id task)]
  | _ => False
  end.
Proof.
  intros (t1 & o1 & s1 & (_ & [res items] & -> & -> & Ho)%exec_BpfRingBuffer_poll & Hx)%exec_on_err_report.
  cbn in Ho. destruct (0 <=? res)%Z eqn:Hres.
  - subst o1. destruct Hx as [-> ->]. unfold delivered. cbn. rewrite Hres, Z.add_0_r. done.
  - destruct Ho as [e ->]. destruct Hx as (-> & t2 & -> & A1 & A2 & A3 & A4 & A5 & _).
    autorewrite with traces. rewrite A1, A2, A3, A4, A5. cbn. rewrite Hres. eauto 10.
Qed.

(** A clock reading that leaves time on the timer. *)
Definition in_time (timer : Timer) (now : Z) : Prop :=
  (as_millis (duration_saturating_sub now (timer_now timer)) <= as_millis (timer_duration timer))%Z.

(** What an execution of the loop shows. *)
Record loop_facts (fuel : nat) task (timer : Timer) (total : Z) tr (o : outcome (result Z)) : Prop := {
  lf_created : created tr = [];
  lf_destroyed : destroyed tr = [];
  lf_polled : polled tr = [];
  lf_reported : accounted (rt_id task) o tr;
  lf_fuel : o = NoFuel -> length (instants tr) = fuel /\ Forall (in_time timer) (instants tr);
  lf_total z : o = Val (Ok z) -> (0 <= total)%Z -> (total + delivered tr <= ity_max I64)%Z ->
    z = (total + delivered tr)%Z
}.

(** A round that ends the loop with an error or a panic. *)
Lemma loop_facts_abort fuel task timer total tr o :
  created tr = [] -> destroyed tr = [] -> polled tr = [] -> accounted (rt_id task) o tr ->
  o <> NoFuel -> (forall z, o <> Val (Ok z)) -> loop_facts fuel task timer total tr o.
Proof. intros ????? Ho. split; try done. intros z Hz. by destruct (Ho z). Qed.

(** A reading of the clock with time left. *)
Lemma loop_facts_clock fuel task timer total tr o now :
  in_time timer now -> loop_facts fuel task timer total tr o ->
  loop_facts (Datatypes.S fuel) task timer total ((existT Instant_now now : ev) :: tr) o.
Proof.
  intros Hnow [H1 H2 H3 H4 H5 H6]. split; try done; [by apply (accounted_after _ _ [_])|].
  intros Hn. apply H5 in Hn as [<- HF]. split; [done|by constructor].
Qed.

(** The handler, for the items of a round. *)
Lemma loop_facts_items fuel task timer total t tr o :
  instants t = [] -> created t = [] -> destroyed t = [] -> polled t = [] -> delivered t = 0%Z ->
  accounts t = [] ->
  loop_facts fuel task timer total tr o -> loop_facts fuel task timer total (t ++ tr) o.
Proof.
  intros A1 A2 A3 A4 A5 A6 [H1 H2 H3 H4 H5 H6].
  split; autorewrite with traces; rewrite ?A1, ?A2, ?A3, ?A4, ?A5; try done.
  by apply accounted_after.
Qed.

(** A round that delivered [n] items and went on. *)
Lemma loop_facts_round fuel task timer total total' n t tr o :
  instants t = [] -> created t = [] -> destroyed t = [] -> polled t = [] -> accounts t = [] ->
  delivered t = n -> (0 <= n)%Z -> add_int I64 total (as_ity I64 n) = Val total' ->
  loop_facts fuel task timer total' tr o -> loop_facts fuel task timer total (t ++ tr) o.
Proof.
  intros A1 A2 A3 A4 A5 A6 Hn Htot [H1 H2 H3 H4 H5 H6].
  split; autorewrite with traces; rewrite ?A1, ?A2, ?A3, ?A4, ?A6; try done.
  - by apply accounted_after.
  - intros z Hz Htotal Hle. pose proof (delivered_nonneg tr). cbn [ity_max] in Hle, H6.
    assert (total' = total + n)%Z as ->; [|rewrite (H6 z Hz); lia].
    unfold add_int, checked in Htot. rewrite as_ity_id in Htot by (cbn; lia).
    assert (in_ity I64 (total + n) = true) as Hin by (apply in_ity_spec; cbn; lia).
    rewrite Hin in Htot. congruence.
Qed.

Lemma exec_poll_loop fuel task path timer handle total s tr o s' :
  exec (poll_loop fuel path task timer handle total s) tr (o, s') ->
  loop_facts fuel task timer total tr o.
Proof using HL.
  revert total s tr. induction fuel as [|fuel IH]; intros total s tr Hx.
  { destruct Hx as [-> [= -> ->]]. by split. }
  cbn [poll_loop] in Hx. unfold Timer_remaining_millis in Hx.
  apply exec_mbind in Hx as [Hx|[(m & s2 & Hx & _)|(s2 & Hx & _)]];
    [|by destruct Hx as (? & ? & _ & _ & [=])..].
  destruct Hx as (t1 & t2 & rem & s2 & -> & (now & t0 & -> & -> & [= -> ->]) & Hx).
  destruct (as_millis (timer_duration timer) -
    as_millis (duration_saturating_sub now (timer_now timer)) <? 0)%Z eqn:Hrem.
  { destruct Hx as [-> [= -> ->]]. split; try done. intros z [= <-] _ _. unfold delivered. cbn. lia. }
  apply Z.ltb_ge in Hrem. apply loop_facts_clock; [unfold in_time; lia|].
  rewrite exec_mtry_mret in Hx. destruct (try_into I32 _) as [ms|e] eqn:Hms; cycle 1.
  { destruct Hx as [-> [= -> ->]]. apply loop_facts_abort; try done. right.
    apply try_into_Err in Hms as [-> _]. split; [done|by left]. }
  apply exec_mtry in Hx as [Hx|[(e & s1 & Hx & [= -> ->])|[(m & s1 & Hx & _)|(s1 & Hx & _)]]];
    [|apply exec_poll_once in Hx|by apply exec_poll_once in Hx as (_ & _ & _ & _ & [])..]; cycle 1.
  { destruct Hx as (A1 & A2 & A3 & A4 & e0 & -> & A5). apply loop_facts_abort; try done. left. eauto 10. }
  destruct Hx as (t3 & t4 & items & s1 & -> & (A1 & A2 & A3 & A4 & A5 & A6)%exec_poll_once & Hx).
  apply exec_mbind in Hx as [Hx|[(m & s3 & Hx & [= -> ->])|(s3 & Hx & _)]]; cycle 1.
  { destruct Hx as [-> _]. rewrite app_nil_r. by apply loop_facts_abort. }
  { destruct Hx as [_ [= Hx _]]. exfalso. unfold add_int, checked in Hx.
    by destruct (in_ity _ _), overflow_checks. }
  destruct Hx as (t5 & t6 & total' & s3 & -> & [-> [= Htot ->]] & Hx). cbn [app] in *.
  eapply loop_facts_round; try eassumption; [lia|by symmetry|].
  apply exec_mtry in Hx as [Hx|[(e & s1' & Hx & [= -> ->])|[(m & s1' & Hx & [= -> ->])|(s1' & Hx & _)]]];
    [|apply exec_items in Hx..].
  - destruct Hx as (t7 & t8 & [] & s4 & -> & (B1 & B2 & B3 & B4 & B5 & _ & B6)%exec_items & Hx).
    apply IH in Hx. eapply loop_facts_items; eassumption.
  - destruct Hx as (B1 & B2 & B3 & B4 & B5 & _ & e0 & -> & B6).
    apply loop_facts_abort; try done. left. eauto.
  - destruct Hx as (B1 & B2 & B3 & B4 & B5 & _ & B6). by apply loop_facts_abort.
  - by destruct Hx as (_ & _ & _ & _ & _ & ? & _).
Qed.

(** The body that owns the ring buffer. *)
Lemma exec_poll_created fuel task path duration timer handle s tr o s' :
  exec (poll_created fuel path task duration timer handle s) tr (o, s') ->
  created tr = [] /\ destroyed tr = [] /\ accounted (rt_id task) o tr /\
  (o = NoFuel -> length (instants tr) = fuel /\ Forall (in_time timer) (instants tr)) /\
  (o = Val (Ok tt) -> (delivered tr <= ity_max I64)%Z ->
     exists p, bpf_map_path_to_enum path = Ok p /\
       polled tr = [(p, as_millis duration, delivered tr, rt_id task)]).
Proof using HL.
  unfold poll_created. intros Hx.
  apply exec_mtry in Hx as [Hx|[(e & s1 & Hx & [= -> ->])|[(m & s1 & Hx & [= -> ->])|(s1 & Hx & [= -> ->])]]];
    [|apply exec_poll_loop in Hx as [A1 A2 A3 A4 A5 _]; split_and!; try done; naive_solver..].
  destruct Hx as (t1 & t2 & total & s1 & -> & Hx & H2).
  apply exec_poll_loop in Hx as [A1 A2 A3 A4 _ A6]. cbn [accounted] in A4.
  apply exec_mtry in H2 as [Hx|[(e & s2 & Hx & [= -> ->])|[(m & s2 & Hx & [= -> ->])|(s2 & Hx & _)]]];
    [|pose proof Hx as Hf; apply on_finished_calls in Hx as [(B1 & B2 & B3 & B4 & B5 & B6)%handler_silent Hn]..];
    cycle 1.
  { autorewrite with traces. rewrite A1, A2, B2, B3. split_and!; try done.
    apply accounted_after; [done|]. right. split; [done|]. by apply on_finished_errors in Hf. }
  { autorewrite with traces. rewrite A1, A2, B2, B3. split_and!; try done.
    by apply accounted_after. }
  { done. }
  destruct Hx as (t3 & t4 & [] & s2 & -> &
    [(B1 & B2 & B3 & B4 & B5 & B6)%handler_silent _]%on_finished_calls & Hx).
  destruct (bpf_map_path_to_enum_total path) as [p Hp]. rewrite Hp, exec_mtry_mret in Hx.
  rewrite exec_mtry_mret in Hx. destruct (try_into I64 (as_millis duration)) as [ms|e] eqn:Hms; cycle 1.
  { destruct Hx as [-> [= -> ->]]. autorewrite with traces. rewrite A1, A2, B2, B3.
    split_and!; try done. right. autorewrite with traces. rewrite A4, B6.
    apply try_into_Err in Hms as [-> _]. split; [done|by left]. }
  apply try_into_Ok in Hms as [-> _]. destruct Hx as (r & t5 & -> & -> & [= -> ->]).
  autorewrite with traces. rewrite A1, A2, A3, B2, B3, B4. split_and!; try done.
  - cbn. autorewrite with traces. by rewrite A4, B6.
  - intros _. repeat match goal with |- context [delivered ?l] =>
      lazymatch l with _ :: _ => change (delivered l) with 0%Z end end.
    rewrite B5. intros Hle. exists p. split; [done|]. cbn.
    assert (total = delivered t1 + (0 + 0))%Z as <-; [|done]. specialize (A6 total eq_refl). lia.
Qed.

Lemma exec_BpfRingBuffer_new ty path s tr o s' :
  exec (BpfRingBuffer_new ty path s) tr (o, s') ->
  instants tr = [] /\ destroyed tr = [] /\ polled tr = [] /\ delivered tr = 0%Z /\
  match o with
  | Val (Ok handle) => created tr = [handle] /\ accounts tr = []
  | Val (Err _) => created tr = [] /\
      (no_nul path = true -> accounts tr = [inr ErrorTypeBpfRingBufferCreateFailed])
  | _ => False
  end.
Proof.
  unfold BpfRingBuffer_new, pure. intros Hx. wp_start Hx. unfold c_string.
  destruct (no_nul path); [|by cbn]. wp_cbn. intros handle. wp_cbn.
  destruct (handle =? 0)%Z eqn:Hz; cbn; split_and!; try done; unfold created, accounts; cbn;
    by rewrite Hz.
Qed.

(** The ring buffer is destroyed however the poll ends. *)
Lemma exec_poll_handle fuel task path duration timer handle s tr o s' :
  exec (with_drop (poll_created fuel path task duration timer handle) (BpfRingBuffer_drop handle) s)
    tr (o, s') ->
  created tr = [] /\ (o <> NoFuel -> destroyed tr = [handle]) /\ accounted (rt_id task) o tr /\
  (o = NoFuel -> length (instants tr) = fuel /\ Forall (in_time timer) (instants tr)) /\
  (o = Val (Ok tt) -> (delivered tr <= ity_max I64)%Z ->
     exists p, bpf_map_path_to_enum path = Ok p /\
       polled tr = [(p, as_millis duration, delivered tr, rt_id task)]).
Proof using HL.
  intros [[-> Hx]|(Hn & t3 & t4 & s4 & o2 & -> & Hx & (r & t5 & -> & -> & _))]%exec_with_drop;
    apply exec_poll_created in Hx as (B1 & B2 & B3 & B4 & B5); [done|].
  match goal with |- context [t3 ++ ?l] => set (dr := l) in * end.
  assert (created dr = [] /\ destroyed dr = [handle] /\ polled dr = [] /\
    accounts dr = [] /\ delivered dr = 0%Z) as (E1 & E2 & E3 & E4 & E5) by done.
  clearbody dr. autorewrite with traces. rewrite B1, B2, E1, E2, E3, E5, app_nil_r, Z.add_0_r.
  split_and!; try done.
  - by apply accounted_before.
  - by rewrite app_nil_r.
Qed.

Lemma exec_poll_loop_generic {S} fuel path task duration (u : S) tr o (u' : S) :
  exec (poll_loop_generic H fuel path task duration u) tr (o, u') ->
  u' = u /\ (path = MAP_PATH H -> no_nul path = true -> accounted (rt_id task) o tr) /\
  (o <> NoFuel -> destroyed tr = created tr) /\
  (o = NoFuel -> exists start rest, instants tr = start :: rest /\ length rest = fuel /\
     Forall (in_time (mkTimer start duration)) rest) /\
  (o = Val (Ok tt) -> path = MAP_PATH H /\ ((delivered tr <= ity_max I64)%Z ->
     exists p, bpf_map_path_to_enum path = Ok p /\
       polled tr = [(p, as_millis duration, delivered tr, rt_id task)])).
Proof using HL.
  unfold poll_loop_generic. destruct (String.eqb_spec path (MAP_PATH H)) as [->|Hne]; cbn [negb].
  2: { intros [-> [= -> ->]]. by split_and!. }
  unfold with_local. intros (tr' & t' & [o' h'] & -> & Hx & -> & [= -> ->])%exec_bind.
  rewrite app_nil_r. split; [done|].
  apply exec_mbind in Hx as [Hx|[(m & s2 & Hx & _)|(s2 & Hx & _)]];
    [|by destruct Hx as (? & ? & _ & _ & [=])..].
  destruct Hx as (hd & tr & timer & s2 & -> & (start & t0 & -> & -> & [= -> ->]) & Hx).
  match goal with |- context [instants (?h ++ tr)] => set (hd := h) end.
  assert (created hd = [] /\ destroyed hd = [] /\ polled hd = [] /\ accounts hd = [] /\
    delivered hd = 0%Z /\ instants hd = [start]) as (D1 & D2 & D3 & D4 & D5 & D6) by done.
  clearbody hd.
  rewrite created_app, destroyed_app, polled_app, delivered_app, instants_app, D1, D2, D3, D5, D6.
  cbn [app].
  apply exec_mtry in Hx as [Hx|[(e & s1 & Hx & [= -> ->])|[(m & s1 & Hx & [= -> ->])|(s1 & Hx & [= -> ->])]]];
    [|apply exec_on_err_report in Hx as (t1 & o1 & s3 & H1 & Ho);
      apply exec_BpfRingBuffer_new in H1 as (A1 & A2 & A3 & A4 & A5)..].
  - destruct Hx as (t1 & t2 & handle & s1 & -> & Hx & H2).
    apply exec_on_err_report in Hx as (t1' & o1 & s3 & H1 & Ho).
    apply exec_BpfRingBuffer_new in H1 as (A1 & A2 & A3 & A4 & A5).
    destruct o1 as [[handle'|e]| |]; [|by destruct Ho|done..].
    destruct Ho as [-> [= <-]], A5 as [A5 A6].
    apply exec_poll_handle in H2 as (B1 & B2 & B3 & B4 & B5).
    autorewrite with traces. rewrite A1, A2, A3, A4, A5, B1, app_nil_r. cbn [app]. split_and!; try done.
    + intros _ _. by do 2 (apply accounted_after; [done|]).
    + intros [Hl HF]%B4. by exists start, (instants t2).
    + intros Hok. split; [done|]. rewrite !Z.add_0_l. by apply B5.
  - destruct o1 as [[handle|e']| |]; [by destruct Ho|..]; try done.
    destruct Ho as ([= ->] & t2 & -> & Hie & E1 & E2 & E3 & E4 & E5), A5 as [A5 A6].
    autorewrite with traces. rewrite A2, A5, E2, E3. split_and!; try done.
    intros _ Hp. apply accounted_after; [done|]. left. exists e'. split; [done|]. left.
    exists ErrorTypeBpfRingBufferCreateFailed. autorewrite with traces. by rewrite (A6 Hp), Hie.
  - destruct o1 as [[handle|e']| |]; by destruct Ho.
  - destruct o1 as [[handle|e']| |]; by destruct Ho.
Qed.

End LoopLemmas.

(** ** Lemmas on the registry *)

Section RegistryLemmas.
Context {Tg : Target} {F : Flags} {O : HashOrder} {SH : StringHash} {S : Type}.
Variable at_least_cinnamon_bun : bool.

(** The handlers the registry can hold. *)
Inductive registrable : forall H, Handler H -> Prop :=
| reg_bitmap_v0 : registrable BitmapAllocationHandlerV0 _
| reg_bitmap_v1 : registrable BitmapAllocationHandlerV1 _
| reg_call_timestamp : registrable CallTimestampHandler _
| reg_call_result : registrable CallResultHandler _
| reg_set_uid : registrable SetUidTempAllowlistStateRecordHandler _
| reg_update_device_idle : registrable UpdateDeviceIdleTempAllowlistRecordHandler _
| reg_binder : registrable BinderTransactionHandler _
| reg_accessibility : registrable AccessibilityHandler _
| reg_component_enabled : registrable ComponentEnabledSettingHandler _
| reg_bind_service : registrable BindServiceLockedHandler _
| reg_jit : registrable JitHandler _
| reg_aot : registrable AotHandler _.

(** What holds of the loop of every handler the registry can hold holds of every
    registered function. *)
Lemma registry_cases (P : string -> HandlerFn (S := S) -> Prop) :
  (forall H HH, registrable H HH -> P (@MAP_PATH H HH) (fun fuel => poll_loop_generic H fuel)) ->
  forall path f, HANDLER_REGISTRY at_least_cinnamon_bun !! path = Some f -> P path f.
Proof.
  intros HP path f. unfold HANDLER_REGISTRY, register_handler.
  assert (Hins : forall H HH (m : gmap string HandlerFn), registrable H HH ->
    (forall path f, m !! path = Some f -> P path f) ->
    forall path f, <[@MAP_PATH H HH := fun fuel => poll_loop_generic H fuel]> m !! path = Some f ->
      P path f).
  { intros H HH m Hr Hm p g [[<- <-]|[_ Hl]]%lookup_insert_Some; [by apply HP|by apply Hm]. }
  assert (Hem : forall path f, (∅ : gmap string HandlerFn) !! path = Some f -> P path f)
    by (intros p g Hl; by rewrite lookup_empty in Hl).
  revert path f.
  destruct enable_bitmap_snapshot, enable_binder_transaction, at_least_cinnamon_bun,
    a11y_runtime_permission, uprobestats_monitor_disruptive_app_activities, feature_art_test;
    repeat (apply Hins; [constructor|]); exact Hem.
Qed.

(** What holds of every lawful handler's loop holds of every registered function. *)
Lemma registry_ind (P : string -> HandlerFn (S := S) -> Prop) :
  (forall H `{HL : HandlerLaws H}, P (MAP_PATH H) (fun fuel => poll_loop_generic H fuel)) ->
  forall path f, HANDLER_REGISTRY at_least_cinnamon_bun !! path = Some f -> P path f.
Proof. intros HP. apply registry_cases. intros H HH []; apply HP; exact _. Qed.

(** The map paths that have a handler, by the flags that enable them. *)
Definition registered_paths : list string :=
  (if feature_art_test then [MAP_PATH AotHandler; MAP_PATH JitHandler] else []) ++
  (if at_least_cinnamon_bun && uprobestats_monitor_disruptive_app_activities
   then [MAP_PATH ComponentEnabledSettingHandler; MAP_PATH BindServiceLockedHandler] else []) ++
  (if at_least_cinnamon_bun && a11y_runtime_permission
   then [MAP_PATH AccessibilityHandler] else []) ++
  (if enable_binder_transaction then [MAP_PATH BinderTransactionHandler] else []) ++
  [MAP_PATH UpdateDeviceIdleTempAllowlistRecordHandler;
   MAP_PATH SetUidTempAllowlistStateRecordHandler; MAP_PATH CallResultHandler;
   MAP_PATH CallTimestampHandler; MAP_PATH BitmapAllocationHandlerV1].

Lemma registry_dom :
  dom (HANDLER_REGISTRY (S := S) at_least_cinnamon_bun) = list_to_set registered_paths.
Proof.
  unfold HANDLER_REGISTRY, register_handler, registered_paths.
  destruct enable_bitmap_snapshot, enable_binder_transaction, at_least_cinnamon_bun,
    a11y_runtime_permission, uprobestats_monitor_disruptive_app_activities, feature_art_test;
    rewrite !dom_insert_L, dom_empty_L; reflexivity.
Qed.

End RegistryLemmas.

(** ** The calls a poll makes *)

Definition poll_call (c : SysCall) : bool :=
  handler_call c ||
  match c with
  | Instant_now | bpfRingBufCreate _ _ | bpfRingBufPoll _ _ _ | bpfRingBufDestroy _
  | stats_write_bpf_map_polled _ _ _ _ | Schedule_first => true
  | stats_write_internal_error ty _ _ _ _ => execution_error ty
  | _ => false
  end.

Lemma makes_only_handler {S A} (m : Sys S A) :
  calls_only (E := SysI) handler_call m -> makes_only (E := SysI) poll_call m.
Proof.
  intros Hm s tr [o s'] [H _]%Hm. eapply Forall_impl; [exact H|]. intros e He. cbn beta in *.
  unfold poll_call. by rewrite He.
Qed.

Lemma makes_only_report {Tg : Target} {H : Type} `{Handler H} ty task path pt e :
  execution_error ty = true ->
  makes_only (E := SysI) poll_call (report (H := H) ty task path pt e).
Proof.
  intros Hty. unfold report. apply makes_only_mbind; [|intros _; apply makes_only_calls, calls_only_mret].
  by apply makes_only_write_internal_error.
Qed.

Lemma makes_only_poll_loop {Tg : Target} {H : Type} `{HL : HandlerLaws H} fuel path task timer
    handle total :
  makes_only (E := SysI) poll_call (poll_loop (H := H) fuel path task timer handle total).
Proof.
  assert (Hitem : forall e, execution_error (classify_item_error e).1 = true).
  { intros e. unfold classify_item_error. by destruct (downcast_uprobestats e) as [[]|]. }
  revert total. induction fuel as [|fuel IH]; intros total; cbn [poll_loop];
    unfold Timer_remaining_millis, BpfRingBuffer_poll; makes_only_run;
    first [ by apply makes_only_report | apply IH | apply makes_only_handler, on_item_calls | idtac ].
  match goal with |- context [report_item_error _ _ ?e] => specialize (Hitem e) end.
  unfold report_item_error. destruct (classify_item_error _). by apply makes_only_report.
Qed.

Lemma makes_only_poll_loop_generic {Tg : Target} {H : Type} `{HL : HandlerLaws H} {S} fuel path
    task duration :
  makes_only (E := SysI) (S := S) poll_call (poll_loop_generic H fuel path task duration).
Proof.
  unfold poll_loop_generic. destruct (negb _); [makes_only_run|].
  unfold with_local. intros s tr [o s'] (t1 & t2 & [o1 h1] & -> & Hx & -> & _)%exec_bind.
  rewrite app_nil_r. revert Hx. generalize (o1, h1), (handler_default H).
  intros x h Hx. revert h t1 x Hx. change (makes_only (E := SysI) poll_call
    (let! timer := Timer_new duration in
     let? handle := on_err (BpfRingBuffer_new (T H) path)
       (report ErrorTypeBpfRingBufferCreateFailed task path 0) in
     with_drop (poll_created fuel path task duration timer handle) (BpfRingBuffer_drop handle))).
  unfold Timer_new, BpfRingBuffer_new, pure, BpfRingBuffer_drop. makes_only_run;
    [by apply makes_only_report|].
  apply makes_only_with_drop; [|makes_only_run].
  unfold poll_created. makes_only_run;
    [apply makes_only_poll_loop|apply makes_only_handler, on_finished_calls].
Qed.

Lemma makes_only_poll_registry {Tg : Target} {F : Flags} {O : HashOrder} {SH : StringHash} {S}
    bun fuel path task duration :
  makes_only (E := SysI) (S := S) poll_call (poll_registry bun fuel path task duration).
Proof.
  unfold poll_registry. destruct (HANDLER_REGISTRY bun !! path) as [f|] eqn:Hf; [|makes_only_run].
  refine (registry_ind bun (fun path f =>
    makes_only (E := SysI) poll_call (f fuel path task duration)) _ path f Hf).
  intros H ? HL. apply makes_only_poll_loop_generic.
Qed.

(** ** Properties *)

Section Properties.
Context {Tg : Target} {F : Flags} {O : HashOrder} {SH : StringHash} {S : Type}.
Implicit Types (task : ResolvedTask) (s : S).

Lemma poll_registry_accounted bun fuel path task duration s tr o s' :
  exec (poll_registry bun fuel path task duration s) tr (o, s') ->
  s' = s /\
  (accounted (rt_id task) o tr \/
   (tr = [] /\ path ∉ registered_paths bun /\
    o = Val (Err (EAnyhow "unsupported map_path: {}")))).
Proof.
  intros H. unfold poll_registry in H. destruct (HANDLER_REGISTRY bun !! path) as [f|] eqn:Hf.
  - revert H. refine (registry_cases bun (fun p f =>
      exec (f fuel p task duration s) tr (o, s') -> s' = s /\ (accounted (rt_id task) o tr \/ _)) _ path f Hf).
    intros H HH Hr Hx. assert (HandlerLaws H) by (destruct Hr; exact _).
    assert (no_nul (MAP_PATH H) = true) by (by destruct Hr).
    apply exec_poll_loop_generic in Hx as (-> & Ha & _). split; [done|]. left. by apply Ha.
  - destruct H as [-> [= -> ->]]. split; [done|]. right. split_and!; [done| |done].
    assert (path ∉ dom (HANDLER_REGISTRY (S := S) bun)) as Hn by (by apply not_elem_of_dom).
    by rewrite registry_dom, elem_of_list_to_set in Hn.
Qed.

(** A writer that does not claim its errors were reported. *)
Definition unmarked_answers (tr : list ev) : Prop :=
  forall e, writer_refused tr e -> is_reported e = false.


(** The ring buffer is released.  Whatever happens to a poll (success, error
    at any step, a panicking handler), every ring buffer it obtained is destroyed
    exactly once, and nothing else is. *)
Theorem poll_releases_ring_buffer bun fuel path task duration s tr o s'
    (H : exec (poll_registry bun fuel path task duration s) tr (o, s')) :
  o <> NoFuel -> destroyed tr = created tr.
Proof.
  unfold poll_registry in H. destruct (HANDLER_REGISTRY bun !! path) as [f|] eqn:Hf.
  - revert H. refine (registry_ind bun (fun path f =>
      exec (f fuel path task duration s) tr (o, s') -> o <> NoFuel -> destroyed tr = created tr) _ path f Hf).
    intros H ? HL Hx. apply (exec_poll_loop_generic (HL := HL)) in Hx. naive_solver.
  - by destruct H as [-> [= -> ->]].
Qed.

(** Any [k] consecutive readings of the clock take at least a millisecond. *)
Definition ticking (k : nat) (l : list Z) : Prop :=
  forall i j a b, l !! i = Some a -> l !! j = Some b -> (i + k <= j)%nat ->
    (a + NANOS_PER_MILLI <= b)%Z.

Lemma ticking_sublist k (l l' : list Z) : l `sublist_of` l' -> ticking k l' -> ticking k l.
Proof.
  intros Hs Ht i j a b Hi Hj Hij.
  destruct (sublist_lookup_spread l l' i j a b Hs Hi Hj) as (i' & j' & Hi' & Hj' & ?); [lia|].
  apply (Ht i' j'); [done..|lia].
Qed.

Lemma ticking_sorted (l : list Z) :
  StronglySorted (fun a b => (a + NANOS_PER_MILLI <= b)%Z) l -> ticking 1 l.
Proof.
  induction 1 as [|x l Hs IH HF]; intros i j a b Hi Hj Hij; [by rewrite lookup_nil in Hj|].
  destruct j as [|j]; [lia|]. destruct i as [|i].
  - injection Hi as ->. rewrite Forall_lookup in HF. by apply (HF j).
  - apply (IH i j a b Hi Hj). lia.
Qed.

(** A clock that ticks leaves the timer. *)
Lemma ticking_in_time k start duration l :
  ticking k (start :: l) -> Forall (in_time (mkTimer start duration)) l -> (0 < k)%nat ->
  (Z.of_nat (length l) < Z.of_nat k * (Z.max 0 (as_millis duration) + 1))%Z.
Proof.
  intros Ht HF Hk.
  assert (Hm : forall m b, (start :: l) !! (m * k)%nat = Some b ->
    (start + Z.of_nat m * NANOS_PER_MILLI <= b)%Z).
  { intros m. induction m as [|m IH]; intros b Hb; [cbn in Hb; injection Hb as ->; lia|].
    destruct ((start :: l) !! (m * k)%nat) as [a|] eqn:Ha.
    - specialize (IH a eq_refl). specialize (Ht (m * k)%nat (Datatypes.S m * k)%nat a b Ha Hb).
      lia.
    - apply lookup_ge_None in Ha. apply lookup_lt_Some in Hb. lia. }
  destruct (decide (Z.of_nat (length l) < Z.of_nat k * (Z.max 0 (as_millis duration) + 1))%Z)
    as [|Hge]; [done|exfalso].
  set (m := Z.to_nat (Z.max 0 (as_millis duration) + 1)).
  assert (m * k < length (start :: l))%nat as [b Hb]%lookup_lt_is_Some by (cbn; lia).
  specialize (Hm m b Hb). destruct (m * k)%nat as [|i] eqn:Hi; [lia|]. cbn in Hb.
  rewrite Forall_lookup in HF. specialize (HF i b Hb).
  unfold in_time, duration_saturating_sub, as_millis, NANOS_PER_MILLI in *.
  cbn [timer_now timer_duration] in HF.
  assert (Z.of_nat m <= duration / 1000000)%Z; [|lia].
  etransitivity; [|exact HF]. apply Z.div_le_lower_bound; lia.
Qed.

Lemma poll_registry_fuel k bun fuel path task duration s tr o s' :
  exec (poll_registry bun fuel path task duration s) tr (o, s') ->
  ticking k (instants tr) -> (0 < k)%nat ->
  (Z.of_nat k * (Z.max 0 (as_millis duration) + 1) <= Z.of_nat fuel)%Z ->
  o <> NoFuel.
Proof.
  intros H Htick Hk Hfuel.
  unfold poll_registry in H. destruct (HANDLER_REGISTRY bun !! path) as [f|] eqn:Hf.
  - revert H. refine (registry_ind bun (fun path f =>
      exec (f fuel path task duration s) tr (o, s') -> o <> NoFuel) _ path f Hf).
    intros H ? HL Hx Ho. apply (exec_poll_loop_generic (HL := HL)) in Hx as (_ & _ & _ & Hn & _).
    destruct (Hn Ho) as (start & rest & Hi & Hl & HF). rewrite Hi in Htick.
    pose proof (ticking_in_time k start duration rest Htick HF Hk). lia.
  - by destruct H as [-> [= -> ->]].
Qed.

(** Polling terminates.  If the clock moves by at least a millisecond over any
    [k] readings, a poll of [d] milliseconds comes to an outcome within
    [k * (d + 1)] iterations of its loop, whatever the ring buffer delivers and the
    handler does: with that much fuel it is never cut. *)
Theorem poll_terminates k bun fuel path task duration s tr o s'
    (H : exec (poll_registry bun fuel path task duration s) tr (o, s'))
    (Htick : ticking k (instants tr)) (Hk : (0 < k)%nat)
    (Hfuel : (Z.of_nat k * (Z.max 0 (as_millis duration) + 1) <= Z.of_nat fuel)%Z) :
  o <> NoFuel.
Proof. by apply (poll_registry_fuel k _ _ _ _ _ _ _ _ _ H). Qed.

(** A successful poll is accounted for.  It used a registered map, and it told
    statsd exactly once that the map was polled, for the task, with the map's
    enum, the duration in milliseconds and the number of items delivered. *)
Theorem poll_success_accounted bun fuel path task duration s tr s'
    (H : exec (poll_registry bun fuel path task duration s) tr (Val (Ok tt), s'))
    (Hmax : (delivered tr <= ity_max I64)%Z) :
  path ∈ registered_paths bun /\
  exists p, bpf_map_path_to_enum path = Ok p /\
  polled tr = [(p, as_millis duration, delivered tr, rt_id task)].
Proof.
  unfold poll_registry in H. destruct (HANDLER_REGISTRY bun !! path) as [f|] eqn:Hf.
  - split.
    + assert (path ∈ dom (HANDLER_REGISTRY (S := S) bun)) as Hin by (apply elem_of_dom; eauto).
      rewrite registry_dom in Hin. by apply elem_of_list_to_set in Hin.
    + revert H. refine (registry_ind bun (fun path f =>
        exec (f fuel path task duration s) tr (Val (Ok tt), s') ->
        exists p, bpf_map_path_to_enum path = Ok p /\
          polled tr = [(p, as_millis duration, delivered tr, rt_id task)]) _ path f Hf).
      intros H ? HL Hx. apply (exec_poll_loop_generic (HL := HL)) in Hx as (_ & _ & _ & _ & Hok).
      by apply Hok.
  - by destruct H as [_ [=]].
Qed.

(** The registry.  The handled maps are exactly those enabled by the flags,
    pairwise distinct (no handler replaces another), each a file of the
    uprobestats directory, and any other path is refused without effects. *)
Theorem registry_spec bun :
  NoDup (registered_paths bun) /\
  (forall path, path ∈ registered_paths bun <->
     is_Some (HANDLER_REGISTRY (S := S) bun !! path)) /\
  (forall path, path ∈ registered_paths bun -> exists name, path = prefix_bpf name) /\
  (forall fuel path task duration s tr o s', path ∉ registered_paths bun ->
     exec (poll_registry bun fuel path task duration s) tr (o, s') ->
     tr = [] /\ o = Val (Err (EAnyhow "unsupported map_path: {}")) /\ s' = s).
Proof.
  assert (Hdom : forall path, path ∈ registered_paths bun <->
     is_Some (HANDLER_REGISTRY (S := S) bun !! path)).
  { intros path. rewrite <- elem_of_dom, registry_dom. by rewrite elem_of_list_to_set. }
  split_and!.
  - unfold registered_paths.
    destruct enable_binder_transaction, bun, a11y_runtime_permission,
      uprobestats_monitor_disruptive_app_activities, feature_art_test;
      refine (bool_decide_unpack _ _); vm_compute; exact I.
  - exact Hdom.
  - intros path. unfold registered_paths.
    destruct enable_binder_transaction, bun, a11y_runtime_permission,
      uprobestats_monitor_disruptive_app_activities, feature_art_test; cbn [andb app];
      rewrite ?elem_of_cons, ?elem_of_nil; intros Hin; repeat destruct Hin as [->|Hin];
      try done; eexists; unfold prefix_bpf, BPF_DIR; reflexivity.
  - intros fuel path task duration s tr o s' Hn H. unfold poll_registry in H.
    rewrite Hdom, <- eq_None_not_Some in Hn. 
    destruct (HANDLER_REGISTRY bun !! path) as [f|] eqn:Hf; [|by destruct H as [-> [= -> ->]]].
    discriminate Hn.
Qed.

End Properties.

(** ** Long durations *)

(** The first check of the loop, when the time left is too long. *)
Lemma exec_poll_loop_first {Tg : Target} {H : Type} `{Handler H} fuel path task timer handle total
    (s : H) tr o s' :
  exec (poll_loop (Datatypes.S fuel) path task timer handle total s) tr (o, s') ->
  exists now rest, tr = existT Instant_now now :: rest /\
    ((2147483647 < as_millis (timer_duration timer) -
        as_millis (duration_saturating_sub now (timer_now timer)))%Z ->
     rest = [] /\ o = Val (Err ETryFromInt) /\ s' = s).
Proof.
  cbn [poll_loop]. unfold Timer_remaining_millis. intros Hx.
  apply exec_mbind in Hx as [Hx|[(m & s2 & Hx & _)|(s2 & Hx & _)]];
    [|by destruct Hx as (? & ? & _ & _ & [=])..].
  destruct Hx as (t1 & t2 & rem & s2 & -> & (now & t0 & -> & -> & [= -> ->]) & Hx).
  exists now, t2. split; [done|]. intros Hlong.
  destruct (Z.ltb_spec (as_millis (timer_duration timer) -
    as_millis (duration_saturating_sub now (timer_now timer))) 0); [lia|].
  rewrite exec_mtry_mret in Hx. destruct (try_into I32 _) as [ms|e] eqn:Hms.
  - apply try_into_Ok in Hms as [_ Hms]. cbn in Hms. lia.
  - apply try_into_Err in Hms as [-> _]. by destruct Hx as [-> [= -> ->]].
Qed.

Lemma exec_poll_created_first {Tg : Target} {H : Type} `{Handler H} fuel path task duration timer
    handle (s : H) tr o s' :
  exec (poll_created (Datatypes.S fuel) path task duration timer handle s) tr (o, s') ->
  exists now rest, tr = existT Instant_now now :: rest /\
    ((2147483647 < as_millis (timer_duration timer) -
        as_millis (duration_saturating_sub now (timer_now timer)))%Z ->
     rest = [] /\ o = Val (Err ETryFromInt) /\ s' = s).
Proof.
  unfold poll_created. intros Hx.
  apply exec_mtry in Hx as [Hx|[(e & s1 & Hx & [= -> ->])|[(m & s1 & Hx & [= -> ->])|(s1 & Hx & [= -> ->])]]].
  - destruct Hx as (t1 & t2 & total & s1 & -> & Hx & _).
    apply exec_poll_loop_first in Hx as (now & rest & -> & Hl).
    exists now, (rest ++ t2). split; [done|]. by intros (_ & [=] & _)%Hl.
  - apply exec_poll_loop_first in Hx as (now & rest & -> & Hl). exists now, rest. naive_solver.
  - apply exec_poll_loop_first in Hx as (now & rest & -> & Hl). exists now, rest. naive_solver.
  - apply exec_poll_loop_first in Hx as (now & rest & -> & Hl). exists now, rest. naive_solver.
Qed.

(** A poll longer than [i32::MAX] milliseconds (24.8 days) never works.  If
    the time remaining at the first check does not fit the kernel's timeout, the
    ring buffer is never polled and the result is the conversion error, not
    reported to statsd (nor marked). *)
Theorem poll_long_duration_fails {Tg : Target} {H : Type} `{HL : HandlerLaws H} {S} fuel task
    duration (s : S) tr o s'
    (Hx : exec (poll_loop_generic H (Datatypes.S fuel) (MAP_PATH H) task duration s) tr (o, s'))
    (Hfirst : forall start first rest, instants tr = start :: first :: rest ->
       (2147483647 < as_millis duration - as_millis (duration_saturating_sub first start))%Z) :
  delivered tr = 0%Z /\ polled tr = [] /\ (exists e, o = Val (Err e)) /\
  (created tr <> [] -> o = Val (Err ETryFromInt) /\ accounts tr = []).
Proof.
  unfold poll_loop_generic in Hx. rewrite String.eqb_refl in Hx.
  cbn [negb] in Hx. unfold with_local in Hx.
  apply exec_bind in Hx as (tr' & t' & [o' h'] & -> & Hx & -> & [= -> ->]). rewrite app_nil_r in *.
  apply exec_mbind in Hx as [Hx|[(m & s2 & Hx & _)|(s2 & Hx & _)]];
    [|by destruct Hx as (? & ? & _ & _ & [=])..].
  destruct Hx as (hd & tr & timer & s2 & -> & (start & t0 & -> & -> & [= -> ->]) & Hx).
  match goal with |- context [delivered (?h ++ tr)] => set (hd := h) in * end.
  assert (created hd = [] /\ polled hd = [] /\ accounts hd = [] /\
    delivered hd = 0%Z /\ instants hd = [start]) as (D1 & D3 & D4 & D5 & D6) by done.
  clearbody hd. autorewrite with traces in *. rewrite D1, D3, D4, D5, D6 in *. cbn [app] in *.
  apply exec_mtry in Hx as [Hx|[(e & s1 & Hx & [= -> ->])|[(m & s1 & Hx & [= -> ->])|(s1 & Hx & [= -> ->])]]];
    [|apply exec_on_err_report in Hx as (t1 & o1 & s3 & Hnew & Ho);
      pose proof (exec_BpfRingBuffer_new _ _ _ _ _ _ Hnew) as (A1 & A2 & A3 & A4 & A5)..].
  - destruct Hx as (t1 & t2 & handle & s1 & -> & Hx & H2).
    apply exec_on_err_report in Hx as (t1' & o1 & s3 & Hnew & Ho).
    apply exec_BpfRingBuffer_new in Hnew as (A1 & A2 & A3 & A4 & A5).
    destruct o1 as [[handle'|e]| |]; [|by destruct Ho|done..].
    destruct Ho as [-> [= <-]], A5 as [A5 A6].
    autorewrite with traces in *. rewrite A1, A3, A4, A5, A6 in *. cbn [app] in *.
    apply exec_with_drop in H2 as [[-> H2]|(Hn & t3 & t4 & s4 & o2 & -> & H2 & Hdrop)];
      apply exec_poll_created_first in H2 as (now & rest & -> & Hlong).
    + destruct (Hlong (Hfirst _ _ _ eq_refl)) as (_ & [=] & _).
    + destruct (Hlong (Hfirst _ _ _ eq_refl)) as (-> & -> & _).
      destruct Hdrop as (r & t5 & -> & -> & _). cbn. naive_solver.
  - destruct o1 as [[handle|e']| |]; [by destruct Ho|..]; try done.
    destruct Ho as ([= ->] & t2 & -> & Hie & E1 & E2 & E3 & E4 & E5), A5 as [A5 A6].
    autorewrite with traces. rewrite A3, A5, E2, E4, A4, E5.
    split_and!; [done|done|eauto|done].
  - destruct o1 as [[handle|e']| |]; by destruct Ho.
  - destruct o1 as [[handle|e']| |]; by destruct Ho.
Qed.

(** ** Witnesses *)

(** A second passes between two events; each poll delivers a call timestamp. *)
Definition ticking_env : Env SysI := fun c past =>
  match c return SysResp c with
  | Instant_now => (Z.of_nat (length past) * NANOS_PER_SEC)%Z
  | bpfRingBufPoll ty _ _ =>
      match ty return Z * list (struct_of ty) with
      | TyCallTimestamp => (1%Z, [{| ct_event := 1; ct_timestampNs := 5 |}])
      | _ => (0%Z, [])
      end
  | c' => benign_env c' past
  end.

Definition timestamp_map : string :=
  prefix_bpf "map_GenericInstrumentation_call_timestamp_buf".

Definition poll_task : ResolvedTask :=
  {| rt_id := 7; rt_duration := from_secs 4; rt_resolved_process := some_process;
     rt_bpf_map_paths := {[ timestamp_map ]};
     rt_statsd_logging_config :=
       Some {| slc_atom_id := Some 900%Z; slc_primitive_argument_positions := [] |};
     rt_resolved_probes := [] |}.

Definition poll_run (fuel : nat) : Prog SysI (outcome (result unit) * unit) :=
  @poll_registry target64 all_flags canonical_order constant_hash unit true fuel timestamp_map
    poll_task (from_secs 4) tt.

(** A task whose logging has no atom id: its first item is an error. *)
Definition unlogged_task : ResolvedTask :=
  {| rt_id := 7; rt_duration := from_secs 4; rt_resolved_process := some_process;
     rt_bpf_map_paths := {[ timestamp_map ]};
     rt_statsd_logging_config :=
       Some {| slc_atom_id := None; slc_primitive_argument_positions := [] |};
     rt_resolved_probes := [] |}.

Definition failing_poll : Prog SysI (outcome (result unit) * unit) :=
  @poll_registry target64 all_flags canonical_order constant_hash unit true 4001 timestamp_map
    unlogged_task (from_secs 4) tt.


Lemma poll_releases_ring_buffer_witness :
  exists tr, exec (poll_run 4001) tr (Val (Ok tt), tt) /\ destroyed tr = [1%Z] /\ created tr = [1%Z].
Proof.
  eexists. assert (exec (poll_run 4001) _ (Val (Ok tt), tt)) as H by run_in ticking_env.
  split; [exact H|]. split; [|vm_compute; reflexivity].
  refine (eq_trans (@poll_releases_ring_buffer target64 all_flags canonical_order constant_hash unit
    _ _ _ _ _ _ _ _ _ H ltac:(discriminate)) _).
  vm_compute; reflexivity.
Defined.

Lemma poll_terminates_witness :
  exists tr o, exec (poll_run 4001) tr (o, tt) /\ o <> NoFuel.
Proof.
  eexists _, _. assert (exec (poll_run 4001) _ (_, tt)) as H by run_in ticking_env.
  split; [exact H|].
  refine (@poll_terminates target64 all_flags canonical_order constant_hash unit 1
    _ _ _ _ _ _ _ _ _ H _ _ _).
  - apply ticking_sorted. vm_compute. repeat constructor; vm_compute; congruence.
  - repeat constructor.
  - vm_compute. congruence.
Defined.

Lemma poll_success_accounted_witness :
  exists tr, exec (poll_run 4001) tr (Val (Ok tt), tt) /\
    polled tr = [(P_BpfMapPathGenericInstrumentationCallTimestampBuf, 4000%Z, 1%Z, 7%Z)].
Proof.
  eexists. assert (exec (poll_run 4001) _ (Val (Ok tt), tt)) as H by run_in ticking_env.
  split; [exact H|].
  destruct (@poll_success_accounted target64 all_flags canonical_order constant_hash unit
    _ _ _ _ _ _ _ _ H ltac:(vm_compute; congruence)) as [_ (p & Hp & Hpolled)].
  rewrite Hpolled. vm_compute in Hp. injection Hp as <-. vm_compute. reflexivity.
Defined.

Lemma registry_spec_witness :
  exec (@poll_registry target64 all_flags canonical_order constant_hash unit true 1 "nowhere"
    poll_task 0%Z tt) [] (Val (Err (EAnyhow "unsupported map_path: {}")), tt) /\ [] = @nil ev.
Proof.
  assert (exec (@poll_registry target64 all_flags canonical_order constant_hash unit true 1 "nowhere"
    poll_task 0%Z tt) [] (Val (Err (EAnyhow "unsupported map_path: {}")), tt)) as H
    by run_in benign_env.
  split; [exact H|].
  assert ("nowhere" ∉ @registered_paths target64 all_flags canonical_order constant_hash true) as Hn
    by (refine (bool_decide_unpack _ _); vm_compute; exact I).
  exact (proj1 (proj2 (proj2 (proj2 (@registry_spec target64 all_flags canonical_order constant_hash
    unit true))) _ _ _ _ _ _ _ _ Hn H)).
Defined.

Lemma poll_long_duration_fails_witness :
  exists tr o, exec (@poll_loop_generic target64 CallTimestampHandler _ unit 1 timestamp_map poll_task
      (from_millis 2147483648) tt) tr (o, tt) /\
    delivered tr = 0%Z.
Proof.
  eexists _, _.
  assert (exec (@poll_loop_generic target64 CallTimestampHandler _ unit 1 timestamp_map poll_task
    (from_millis 2147483648) tt) _ (_, tt)) as H by run_in benign_env.
  split; [exact H|].
  refine (proj1 (@poll_long_duration_fails target64 CallTimestampHandler _ _ unit _ _ _ _ _ _ _ H _)).
  intros start first rest Hi. vm_compute in Hi. injection Hi as <- <- _. vm_compute. reflexivity.
Defined.
