(* ===== verification/Privacy.v ===== *)
(** * Privacy: what polling hands to statsd on a user build

    The handlers of the registry are linked with the writers and the build type of
    the device, so that the whole path from the system property to the statsd
    function is one program: on a user build the generated statsd functions are
    given no name of a package, a class or an intent, but for the activity that
    the bitmap atoms name on every build. *)

From S2P Require Import Prelude Effects Link RustStd Data System Fixtures Handler.
From S2P Require Import Accessibility Bitmap BinderHandler Disruptive Generic ArtTest StatsAtoms.
From S2P Require Import Bpf Statsd Poll.

Local Open Scope rust_scope.
Local Open Scope list_scope.

(** ** A property of every exchange, closed under concatenation *)

Class Closed (Q : list ev -> Prop) := {
  closed_nil : Q [];
  closed_app t1 t2 : Q t1 -> Q t2 -> Q (t1 ++ t2)
}.

#[export] Instance Forall_closed (P : ev -> Prop) : Closed (Forall P).
Proof. split; [constructor|]. intros t1 t2 ? ?. by apply Forall_app. Qed.

Section Keeps.
#[local] Set Default Proof Using "All".
Context (Q : list ev -> Prop) {HQ : Closed Q}.

Definition keeps {S A} (m : Sys S A) : Prop := forall s tr x, exec (m s) tr x -> Q tr.

Lemma keeps_mret {S A} (a : A) : keeps (mret a : Sys S A).
Proof. intros s tr x [-> ->]. apply closed_nil. Qed.

Lemma keeps_no_fuel {S A} : keeps (no_fuel : Sys S A).
Proof. intros s tr x [-> ->]. apply closed_nil. Qed.

Lemma keeps_lift {S A} (o : outcome A) : keeps (lift_outcome o : Sys S A).
Proof. intros s tr x [-> ->]. apply closed_nil. Qed.

Lemma keeps_mbind {S A B} (m : Sys S A) (k : A -> Sys S B) :
  keeps m -> (forall a, keeps (k a)) -> keeps (mbind m k).
Proof.
  intros Hm Hk s tr x [H|[(msg & s1 & H & ->)|(s1 & H & ->)]]%exec_mbind; [|by eapply Hm..].
  destruct H as (t1 & t2 & a & s1 & -> & H1 & H2). apply closed_app; [by eapply Hm|by eapply Hk].
Qed.

Lemma keeps_mtry {S A B} (m : Sys S (result A)) (k : A -> Sys S (result B)) :
  keeps m -> (forall a, keeps (k a)) -> keeps (mtry m k).
Proof. intros Hm Hk. apply keeps_mbind; [done|]. intros [a|e]; [apply Hk|apply keeps_mret]. Qed.

Lemma keeps_for_each {S A} (l : list A) (body : A -> Sys S (result unit)) :
  (forall a, keeps (body a)) -> keeps (for_each l body).
Proof.
  intros Hb. induction l as [|a l IH]; cbn; [apply keeps_mret|]. by apply keeps_mtry.
Qed.

Lemma keeps_with_drop {S A} (m : Sys S A) (drop : Sys S unit) :
  keeps m -> keeps drop -> keeps (with_drop m drop).
Proof.
  intros Hm Hd s tr [o s'] [[-> H]|(_ & t1 & t2 & s1 & o2 & -> & H1 & H2)]%exec_with_drop;
    [by eapply Hm|]. apply closed_app; [by eapply Hm|by eapply Hd].
Qed.

Lemma keeps_with_local {S L A} (l : L) (m : Sys L A) : keeps m -> keeps (with_local l m : Sys S A).
Proof.
  intros Hm s tr x H. unfold with_local in H. apply exec_bind in H as (t1 & t2 & [o s'] & -> & H1 & H2).
  destruct H2 as [-> _]. rewrite app_nil_r. by eapply Hm.
Qed.

Lemma keeps_ext {S} c : (forall r, Q [existT c r : ev]) -> keeps (ext (E := SysI) c : Sys S _).
Proof. intros Hc s tr x (r & t & -> & -> & ->). apply (Hc r). Qed.

(** Calls that keep it one by one. *)
Lemma keeps_makes_only {S A} (P : SysCall -> bool) (m : Sys S A) :
  (forall c r, P c = true -> Q [existT c r : ev]) -> makes_only (E := SysI) P m -> keeps m.
Proof.
  intros HP Hm s tr x H. apply Hm in H. induction H as [|[c r] tr Hc _ IH]; [apply closed_nil|].
  by apply (closed_app [_]); [apply HP|].
Qed.

End Keeps.

Ltac keeps_step :=
  lazymatch goal with
  | |- forall _, _ => intros ?
  | |- keeps ?Q (mret _) => apply (keeps_mret Q)
  | |- keeps ?Q no_fuel => apply (keeps_no_fuel Q)
  | |- keeps ?Q (panic _) => apply (keeps_lift Q (Panics _))
  | |- keeps ?Q (lift_outcome _) => apply (keeps_lift Q)
  | |- keeps ?Q (mbind _ _) => apply (keeps_mbind Q)
  | |- keeps ?Q (on_err _ _) => apply (keeps_mbind Q)
  | |- keeps ?Q (mtry _ _) => apply (keeps_mtry Q)
  | |- keeps ?Q (for_each _ _) => apply (keeps_for_each Q)
  | |- keeps ?Q (with_drop _ _) => apply (keeps_with_drop Q)
  | |- keeps ?Q (with_local _ _) => apply (keeps_with_local Q)
  | |- @keeps ?Q ?S _ (ext ?c) => refine (@keeps_ext Q _ S c _); intros ?; solve [by repeat constructor | by intros _; repeat constructor]
  | |- keeps _ (match ?x with _ => _ end) => destruct x
  end.

(** ** Discreet exchanges *)

(** The names of packages, classes and intents among the arguments of a statsd
    function. *)
Definition names_in_statsd (w : StatsWrite) : list string :=
  match w with
  | set_component_enabled_setting_reported package_name class_name _ calling_package_name _ =>
      [package_name; class_name; calling_package_name]
  | disabled_launcher_activity_uids_reported _ _ => []
  | bind_service_locked_with_bal_flags_reported intent_package _ calling_package intent_action
      intent_component_name_package intent_component_name_class =>
      [intent_package; calling_package; intent_action; intent_component_name_package;
       intent_component_name_class]
  | bind_service_locked_with_bal_flags_uids_reported _ _ => []
  | android_graphics_bitmap_allocated _ _ _ => []
  | android_graphics_bitmap_scaled _ _ _ _ _ _ activity_name => [activity_name]
  | android_graphics_bitmap_allocation_snapshot _ _ _ _ _ _ activity_name => [activity_name]
  end.

(** Those that name an activity. *)
Definition names_activity (a : CodegenAtom) : bool :=
  match a with
  | AndroidGraphicsBitmapScaled _ _ _ _ _ _ _
  | AndroidGraphicsBitmapAllocationSnapshot _ _ _ _ _ _ _ => true
  | _ => false
  end.

Definition bitmap_write (w : StatsWrite) : bool :=
  match w with
  | android_graphics_bitmap_scaled _ _ _ _ _ _ _
  | android_graphics_bitmap_allocation_snapshot _ _ _ _ _ _ _ => true
  | _ => false
  end.

Lemma names_in_statsd_of a : names_package a = false <-> names_in_statsd (stats_write_of a) = [].
Proof. by destruct a. Qed.

Lemma bitmap_write_of a : bitmap_write (stats_write_of a) = names_activity a.
Proof. by destruct a. Qed.

(** The ring buffer of the bitmap handlers. *)
Definition bitmap_path : string := "/sys/fs/bpf/uprobestats/map_BitmapAllocation_output".

(** [bitmaps] says whether it is the bitmaps that are polled. *)
Definition discreet_call (bitmaps : bool) (c : SysCall) : bool :=
  match c with
  | AtomWriter_write_codegen a => negb (names_package a) || bitmaps && names_activity a
  | stats_write_codegen _ => false
  | _ => true
  end.

(** On a user build, no call names a package, class or intent; those for bitmaps
    may name the activity. *)
Definition discreet (bitmaps : bool) (tr : list ev) : Prop :=
  on_user_build tr -> Forall (fun e : ev => discreet_call bitmaps (projT1 e) = true) tr.

#[export] Instance discreet_closed bitmaps : Closed (discreet bitmaps).
Proof.
  split; [by intros _|]. intros t1 t2 H1 H2 [? ?]%Forall_app. apply Forall_app. auto.
Qed.

Lemma discreet_one bitmaps c r : discreet_call bitmaps c = true -> discreet bitmaps [existT c r : ev].
Proof. intros Hc _. by repeat constructor. Qed.

Notation kept b := (keeps (discreet b)).

Lemma kept_calls {S A} bitmaps (m : Sys S A) :
  makes_only (E := SysI) (discreet_call bitmaps) m -> kept bitmaps m.
Proof.
  apply (keeps_makes_only _). intros c r. apply discreet_one.
Qed.

(** A handler that names packages only off user builds. *)
Lemma kept_handler {S A} bitmaps (m : Sys S A) :
  calls_only (E := SysI) handler_call m ->
  (forall s tr o s', exec (m s) tr (o, s') -> on_user_build tr -> no_package_names tr) ->
  kept bitmaps m.
Proof.
  intros Hc Hp s tr [o s'] H Hu. specialize (Hp _ _ _ _ H Hu). apply Hc in H as [H _].
  clear Hu. induction tr as [|[c r] tr IH]; [done|].
  apply Forall_cons in Hp as [Hn Hp], H as [Hh H]. constructor; [|by apply IH].
  destruct c; try done. cbn in *. by rewrite Hn.
Qed.

(** *** The handlers and the loop *)

Section Handlers.
Context {Tg : Target} {O : HashOrder} {SH : StringHash}.

Ltac handler_calls :=
  apply kept_calls, makes_only_calls;
  cbn [on_item on_finished BitmapV0_Handler BitmapV1_Handler CallTimestamp_Handler CallResult_Handler
       SetUid_Handler UpdateDeviceIdle_Handler BinderTransactionHandler_Handler
       AccessibilityHandler_Handler Jit_Handler Aot_Handler ComponentEnabled_Handler
       BindService_Handler];
  unfold BitmapV0_on_item, BitmapV1_on_item, BitmapV1_allocation, BitmapV1_deallocation,
    BitmapV1_scaled, BitmapV1_on_finished, CallTimestamp_on_item, CallResult_on_item, SetUid_on_item,
    UpdateDeviceIdle_on_item, BinderTransactionHandler_on_item, write_to_statsd, enqueue_event,
    AccessibilityHandler_on_item, handle_permission_grant_event, handle_a11y_event,
    AccessibilityHandler_on_finished, Jit_on_item, Aot_on_item, assert_eq;
  sys_unfold; cbn zeta; calls_only_run;
  first [apply checked_fuel | apply register_field_fuel | apply Event_into_fuel
        | apply api_method_identifier_fuel | apply unwrap_fuel].

Lemma registrable_discreet bitmaps H HH : registrable H HH ->
  bitmaps = bool_decide (@MAP_PATH H HH = bitmap_path) ->
  (forall task data, kept bitmaps (on_item task data : Sys H _)) /\ kept bitmaps (on_finished : Sys H _).
Proof.
  intros [] Hb; cbv in Hb; subst bitmaps; (split; [intros task data|]); try solve [handler_calls].
  - apply kept_handler; [apply on_item_calls|apply component_private].
  - apply kept_handler; [apply on_item_calls|apply bind_private].
Qed.

(** ** Polling *)

Lemma kept_report {H} {HH : Handler H} bitmaps ty task path point e :
  kept bitmaps (report ty task path point e : Sys H error).
Proof.
  unfold report. repeat keeps_step. apply kept_calls. by apply makes_only_write_internal_error.
Qed.

Lemma kept_poll_loop {H} {HH : Handler H} bitmaps fuel path task timer handle n :
  (forall data, kept bitmaps (on_item task data : Sys H _)) ->
  kept bitmaps (poll_loop fuel path task timer handle n : Sys H _).
Proof.
  intros Hi. revert n. induction fuel as [|fuel IH]; intros n; cbn [poll_loop];
    unfold Timer_remaining_millis, BpfRingBuffer_poll, report_item_error;
    repeat first [apply kept_report | apply Hi | apply IH | keeps_step].
Qed.

Lemma kept_poll_loop_generic {S H} {HH : Handler H} bitmaps fuel path task duration :
  registrable H HH -> bitmaps = bool_decide (MAP_PATH H = bitmap_path) ->
  kept bitmaps (poll_loop_generic H fuel path task duration : Sys S _).
Proof.
  intros Hr Hb. destruct (registrable_discreet _ _ _ Hr Hb) as [Hi Hf].
  unfold poll_loop_generic, poll_created, Timer_new, BpfRingBuffer_new, BpfRingBuffer_drop, pure.
  repeat first [apply kept_report | apply kept_poll_loop | apply Hi | apply Hf | keeps_step].
Qed.

Lemma kept_poll_registry {F : Flags} {S} bitmaps bun fuel path task duration :
  bitmaps = bool_decide (path = bitmap_path) ->
  kept bitmaps (poll_registry bun fuel path task duration : Sys S _).
Proof.
  unfold poll_registry. destruct (HANDLER_REGISTRY bun !! path) as [f|] eqn:Hf; [|intros _; by keeps_step].
  revert Hf. refine (registry_cases bun (fun p f => bitmaps = bool_decide (p = bitmap_path) ->
    kept bitmaps (f fuel path task duration)) _ path f).
  intros H HH Hr. by apply kept_poll_loop_generic.
Qed.

End Handlers.

(** ** Polling on the device *)

Section Device.
Context {Tg : Target} {F : Flags} {O : HashOrder} {SH : StringHash}.
Context (ASTATSLOG_ANNOTATION_ID_IS_UID : Z) (at_least_cinnamon_bun : bool).

(** The writers and the build type the registry gives its handlers. *)
Definition device_handlers (c : call SysI) : option (Prog SysI (outcome (resp SysI c))) :=
  match c return option (Prog SysI (outcome (SysResp c))) with
  | AtomWriter_write_unstructured atom =>
      Some (stateless (AStatsEventWriter_write ASTATSLOG_ANNOTATION_ID_IS_UID atom))
  | AtomWriter_write_codegen atom => Some (stateless (CodegenAtomWriter_write atom))
  | DeviceProperties_is_user_build => Some (stateless android_is_user_build)
  | _ => None
  end.

Definition device_poll (fuel : nat) (map_path : string) (task : ResolvedTask) (duration : Z) :
    Prog SysI (outcome (outcome (result unit) * unit)) :=
  link device_handlers (poll_registry at_least_cinnamon_bun fuel map_path task duration tt).

(** The system property, when it can be read, says "user". *)
Definition says_user (tr : list ev) : Prop :=
  Forall (fun e : ev => match e with
    | existT (system_properties_read name) (Ok (Some v)) => name = "ro.build.type" -> v = "user"
    | _ => True
    end) tr.

(** The statsd functions were called without names; when the bitmaps are polled,
    with that of the activity at most. *)
Definition private_call (map_path : string) (c : SysCall) : Prop :=
  match c with
  | stats_write_codegen w =>
      names_in_statsd w = [] \/ (map_path = bitmap_path /\ bitmap_write w = true)
  | _ => True
  end.

Definition private (map_path : string) (tr : list ev) : Prop :=
  Forall (fun e : ev => private_call map_path (projT1 e)) tr.

#[local] Instance private_closed map_path : Closed (private map_path) := Forall_closed _.

Lemma writer_private map_path atom :
  keeps (private map_path) (AStatsEventWriter_write ASTATSLOG_ANNOTATION_ID_IS_UID atom : Sys unit _).
Proof.
  unfold AStatsEventWriter_write, AStatsEvent_new, write_field, write_value, write_annotation,
    write_string, write_bool, write_int32, write_int64, write_int32_slice, write_int64_slice,
    add_bool_annotation, event_write, AStatsEvent_drop.
  repeat keeps_step.
Qed.

Lemma exec_is_user_build tr o :
  exec (android_is_user_build tt) tr (o, tt) ->
  exists r, tr = [existT (system_properties_read "ro.build.type") r : ev] /\
    o = Val (match r with Ok (Some v) => String.eqb v "user" | _ => true end).
Proof.
  intros (r & t & -> & H). exists r. by destruct r as [[v|]|e]; destruct H as [-> [= ->]].
Qed.

(** Links from the components to the system. *)
Lemma links_on_user_build tr0 tr :
  links device_handlers tr0 tr -> says_user tr -> on_user_build tr0.
Proof.
  intros Hl Hu. unfold on_user_build. apply Forall_forall. intros [c b] Hin. destruct c; try done.
  destruct (links_elem _ _ _ _ _ _ Hl Hin eq_refl) as (t & H & Ht).
  apply exec_stateless, exec_is_user_build in H as (r & -> & [= ->]).
  assert ((existT (system_properties_read "ro.build.type") r : ev) ∈ tr) as Hr
    by (apply Ht, elem_of_cons; by left).
  unfold says_user in Hu. rewrite Forall_forall in Hu. specialize (Hu _ Hr). cbn in Hu.
  destruct r as [[v|]|e]; [|done..]. by rewrite Hu.
Qed.

Notation bitmaps map_path := (bool_decide (map_path = bitmap_path)).

Lemma links_private map_path tr0 tr :
  links device_handlers tr0 tr ->
  Forall (fun e : ev => discreet_call (bitmaps map_path) (projT1 e) = true) tr0 -> private map_path tr.
Proof.
  intros Hl Hd. rewrite Forall_forall in Hd. apply Forall_forall. intros e Hin.
  destruct (links_from _ _ _ _ Hl Hin) as [[H _]|(c & r & q & t & Hc & Hq & H & Ht)].
  - specialize (Hd _ H). destruct e as [[] ?]; done.
  - specialize (Hd _ Hc). cbn [projT1] in Hd.
    destruct c; try discriminate Hq; apply (inj Some) in Hq as <-; apply exec_stateless in H.
    + apply (writer_private map_path) in H. unfold private in H. rewrite Forall_forall in H. by apply H.
    + destruct H as (x & t' & -> & -> & _). apply list_elem_of_singleton in Ht as ->.
      cbn in Hd |- *. apply orb_true_iff in Hd as [Hd|[Hp Ha]%andb_true_iff].
      * left. by apply names_in_statsd_of, negb_true_iff.
      * right. by rewrite bitmap_write_of, bool_decide_eq_true in *.
    + apply exec_is_user_build in H as (x & -> & _). by apply list_elem_of_singleton in Ht as ->.
Qed.

(** An implementation that does not end well is the writer's. *)
Lemma abort_private c q pre t1 t o' fuel map_path task duration :
  device_handlers c = Some q -> links device_handlers pre t1 -> exec q t o' -> (forall r, o' <> Val r) ->
  says_user t1 ->
  (forall r, exists rest a,
     exec (poll_registry at_least_cinnamon_bun fuel map_path task duration tt)
       (pre ++ existT c r :: rest) a /\
     Forall (fun e : ev => projT2 e = benign_env (projT1 e) []) rest) ->
  private map_path (t1 ++ t).
Proof.
  intros Hq Hl Hx Hv Hu Hp. destruct (Hp (benign_env c [])) as (rest & a & Ha & Hr).
  apply (kept_poll_registry (bitmaps map_path)) in Ha; [|done].
  assert (on_user_build (pre ++ existT c (benign_env c []) :: rest)) as Hb.
  { apply Forall_app. split; [by eapply links_on_user_build|]. constructor; [by destruct c|].
    eapply Forall_impl; [exact Hr|]. intros [c' r'] He. cbn in He. subst. by destruct c'. }
  apply Ha, Forall_app in Hb as [Hb _]. apply Forall_app. split; [by eapply links_private|].
  destruct c; try discriminate Hq; apply (inj Some) in Hq as <-; apply exec_stateless in Hx.
  - by apply (writer_private map_path) in Hx.
  - destruct Hx as (x & t' & _ & _ & [= ->]). exfalso. by apply (Hv (map_err (fun _ => EAnyhow "{e}") x)).
  - apply exec_is_user_build in Hx as (x & _ & ->). exfalso. by eapply Hv.
Qed.

End Device.

(** ** Witnesses *)

(** A user build whose launcher components are being disabled; a millisecond
    passes with every event. *)
Definition disabling_env : Env SysI := fun c past =>
  match c return SysResp c with
  | Instant_now => (Z.of_nat (length past) * NANOS_PER_MILLI)%Z
  | bpfRingBufPoll ty _ _ =>
      match ty return Z * list (struct_of ty) with
      | TyComponentEnabledSetting => (1%Z, [component_item])
      | _ => (0%Z, [])
      end
  | c' => benign_env c' past
  end.

Definition disabling_poll : Prog SysI (outcome (outcome (result unit) * unit)) :=
  @device_poll target64 all_flags canonical_order constant_hash 1 true 30
    (MAP_PATH ComponentEnabledSettingHandler) disruptive_task (from_millis 20).

(** The statsd functions called for atoms of the handlers. *)
Definition statsd_writes (tr : list ev) : list StatsWrite :=
  omap (fun e : ev => match projT1 e with stats_write_codegen w => Some w | _ => None end) tr.

