(* ===== verification/Process.v ===== *)
(** * Process: finding the process to instrument ([daemon/android/process.rs])

    [ProcessResolverImpl] finds a running process by name, or waits for an app
    to start: with the process observer of the activity manager, or, where that
    API is off, with a uprobe of the system server and the ring buffer it
    fills. *)

From S2P Require Import Prelude Effects RustStd Data System Fixtures ConfigResolver Handler Bpf Poll.
From S2P Require Import Ownership Offsets ActivityManager.

Local Open Scope rust_scope.
Local Open Scope string_scope.
Local Open Scope list_scope.

Definition CLASS_PROCESS_RECORD : string := "com.android.server.am.ProcessRecord".
Definition METHOD_MAKE_ACTIVE : string := "makeActive".
Definition METHOD_MAKE_ACTIVE_PARAMS : list string :=
  ["com.android.server.am.ApplicationThreadDeferred"; "com.android.server.am.ProcessStatsService"].
Definition CLASS_PROCESS_PROFILE_RECORD : string := "com.android.server.am.ProcessProfileRecord".
Definition METHOD_ON_PROCESS_ACTIVE : string := "onProcessActive".
Definition METHOD_ON_PROCESS_ACTIVE_PARAMS : list string :=
  ["android.app.IApplicationThread"; "com.android.server.am.ProcessStatsService"].

Definition BPF_PROG_PROCESS_MANAGEMENT_MAKE_ACTIVE : string :=
  "prog_ProcessManagement_uprobe_make_active".
Definition BPF_PROG_PROCESS_MANAGEMENT_ON_PROCESS_ACTIVE : string :=
  "prog_ProcessManagement_uprobe_on_process_active".
Definition BPF_MAP_PROCESS_MANAGEMENT : string :=
  "map_ProcessManagement_process_change_output_buf".

(** ** The observer *)

(** The sender is the list of the messages sent. *)
Record AppStartObserver := mkAppStartObserver {
  sender : list ResolvedProcess;
  target_process_name : option string
}.

Definition AppStartObserver_on_process_started (pid process_uid package_uid : Z)
    (package_name process_name : string) (self : AppStartObserver) : AppStartObserver :=
  let resolved :=
    {| rp_pid := pid; rp_uid := as_ity I32 process_uid; rp_name := process_name |} in
  let send := {| sender := sender self ++ [resolved];
                 target_process_name := target_process_name self |} in
  match target_process_name self with
  | Some target_name => if negb (String.eqb target_name process_name) then self else send
  | None => send
  end.

#[export] Instance AppStartObserver_callbacks : ProcessObserverCallbacks AppStartObserver := {
  on_process_started := AppStartObserver_on_process_started;
  on_foreground_activities_changed := fun _ _ _ self => self;
  on_foreground_services_changed := fun _ _ _ self => self;
  on_process_died := fun _ _ self => self
}.

Section Process.
Context {B : BinderCodes} {F : Flags} {S : Type}.

(** [AID_SYSTEM] of the platform's user ids. *)
Context (AID_SYSTEM : Z).

Definition wait_for_app_start_observer (process_name : option string) (duration : Z) :
    Sys S (result ResolvedProcess) :=
  let observer_callbacks :=
    {| sender := []; target_process_name := process_name |} in
  let? observer := ProcessObserver_register in
  with_drop
    (let! started := ext (E := SysI) (recv_timeout duration) in
     let callbacks := fold_left on_process_started_trampoline started observer_callbacks in
     match sender callbacks with
     | resolved :: _ => mret (Ok resolved)
     | [] => mret (Err (EAnyhow "Timeout waiting for process start: {}"))
     end)
    (ProcessObserver_drop observer).

(** ** The process id from [/proc] *)

Definition proc_path (file : list byte) : string := "/proc/" +:+ string_of_list_byte file.

Fixpoint find_pid (process_name : string) (entries : list (option (list byte))) :
    Sys S (option Z) :=
  match entries with
  | [] => mret None
  | None :: _ => mret None
  | Some file :: rest =>
      let path := proc_path file in
      let! dir := ext (E := SysI) (is_dir path) in
      if dir : bool then
        let! cmdline_bytes := ext (E := SysI) (read_file (path +:+ "/cmdline")) in
        match cmdline_bytes with
        | None => find_pid process_name rest
        | Some cmdline_bytes =>
            let cmdline := lossy_str cmdline_bytes in
            if String.eqb cmdline process_name || starts_with cmdline process_name then
              match cstr_to_str file with
              | Err _ => find_pid process_name rest
              | Ok pid_str =>
                  match parse_i32 pid_str with
                  | Some pid => mret (Some pid)
                  | None => find_pid process_name rest
                  end
              end
            else find_pid process_name rest
        end
      else find_pid process_name rest
  end.

Definition get_pid (process_name : string) : Sys S (option Z) :=
  let! entries := ext (E := SysI) (read_dir "/proc") in
  match entries with
  | None => mret None
  | Some entries => find_pid process_name entries
  end.

(** ** The offsets of the system server's methods *)

(** The shared shape of the two functions below; the temporaries of the call are
    dropped in reverse. *)
Definition system_server_offsets (cls meth : string) (params : list string)
    (context not_found : string) : Sys S (result Z) :=
  let? target_process := TargetProcess_system_server in
  let? offsets :=
    with_drop
      (let? method_descriptor := MethodDescriptor_new cls meth params in
       with_drop
         (let! r := ExecutableMethodFileOffsets_get target_process method_descriptor in
          match r with
          | inl status => mret (Err (EContext context (EStatus status)))
          | inr offsets => mret (Ok offsets)
          end)
         (MethodDescriptor_drop method_descriptor))
      (TargetProcess_drop target_process) in
  match offsets with
  | Some offsets => mret (Ok offsets)
  | None => mret (Err (EAnyhow not_found))
  end.

Definition get_ProcessRecord_makeActive_offsets : Sys S (result Z) :=
  system_server_offsets CLASS_PROCESS_RECORD METHOD_MAKE_ACTIVE METHOD_MAKE_ACTIVE_PARAMS
    "Failed to get offsets for ProcessRecord#makeActive"
    "Could not find offsets for ProcessRecord#makeActive".

Definition get_onProcessActive_offsets : Sys S (result Z) :=
  system_server_offsets CLASS_PROCESS_PROFILE_RECORD METHOD_ON_PROCESS_ACTIVE
    METHOD_ON_PROCESS_ACTIVE_PARAMS
    "Failed to get offsets for ProcessProfileRecord#onProcessActive"
    "Could not find offsets for ProcessProfileRecord#onProcessActive".

(** ** Waiting with a uprobe *)

(** The [for] loop over the items of one poll. *)
Fixpoint find_change (process_name : option string) (changes : list ProcessChange) :
    result (option ResolvedProcess) :=
  match changes with
  | [] => Ok None
  | process_change :: changes' =>
      let^ result_process_name := bytes_as_str (pc_process_name process_change) in
      if match process_name with
         | None => true
         | Some process_name => String.eqb process_name result_process_name
         end
      then
        if (pc_pid process_change <=? 0)%Z then find_change process_name changes'
        else Ok (Some {| rp_pid := pc_pid process_change; rp_uid := pc_uid process_change;
                         rp_name := result_process_name |})
      else find_change process_name changes'
  end.

(** The [while let] loop. *)
Fixpoint app_start_loop (fuel : nat) (process_name : option string) (timer : Timer)
    (ring_buffer : Z) : Sys S (result ResolvedProcess) :=
  match fuel with
  | O => no_fuel
  | Datatypes.S fuel' =>
      let! remaining_millis := Timer_remaining_millis timer in
      match remaining_millis with
      | None =>
          mret (Err (EAnyhow "Timeout waiting duration {:?} for process_name {:?}"))
      | Some remaining_millis =>
          let? timeout := mret (try_into I32 remaining_millis) in
          let? changes := BpfRingBuffer_poll TyProcessChange ring_buffer timeout in
          let? found := mret (find_change process_name changes) in
          match found with
          | Some process => mret (Ok process)
          | None => app_start_loop fuel' process_name timer ring_buffer
          end
      end
  end.

(** The method to probe and its program. *)
Definition app_start_probe : Sys S (result (Z * string)) :=
  let! r := get_ProcessRecord_makeActive_offsets in
  match r with
  | Ok offsets => mret (Ok (offsets, BPF_PROG_PROCESS_MANAGEMENT_MAKE_ACTIVE))
  | Err _ =>
      let? offsets := get_onProcessActive_offsets in
      mret (Ok (offsets, BPF_PROG_PROCESS_MANAGEMENT_ON_PROCESS_ACTIVE))
  end.

(** The statement that attaches the probe: the [OwnedFd] it yields is a
    temporary, closed where the statement ends. *)
Definition attach_app_start (offsets system_server_pid : Z) (bpf_prog_name : string) :
    Sys S (result unit) :=
  let! container_path := get_container_path offsets in
  let! method_offset := get_method_offset offsets in
  let? method_offset := mret (try_into I32 method_offset) in
  let? fd := bpf_perf_event_open container_path method_offset system_server_pid
               (prefix_bpf bpf_prog_name) in
  let! _ := OwnedFd_drop fd in
  mret (Ok tt).

(** From the timer to the end. *)
Definition poll_app_start (fuel : nat) (process_name : option string) (duration : Z) :
    Sys S (result ResolvedProcess) :=
  let! timer := Timer_new duration in
  let? ring_buffer := BpfRingBuffer_new TyProcessChange (prefix_bpf BPF_MAP_PROCESS_MANAGEMENT) in
  with_drop (app_start_loop fuel process_name timer ring_buffer) (BpfRingBuffer_drop ring_buffer).

Definition wait_for_app_start_uprobe (fuel : nat) (process_name : option string) (duration : Z) :
    Sys S (result ResolvedProcess) :=
  let! pid := get_pid "system_server" in
  let? system_server_pid := mret (ok_or pid (EAnyhow "failed to get system server pid")) in
  let? probe := app_start_probe in
  let '(offsets, bpf_prog_name) := probe in
  with_drop
    (let? _ := attach_app_start offsets system_server_pid bpf_prog_name in
     poll_app_start fuel process_name duration)
    (ExecutableMethodFileOffsets_drop offsets).

Definition wait_for_app_start (fuel : nat) (process_name : option string) (duration : Z) :
    Sys S (result ResolvedProcess) :=
  if use_process_observer_api then wait_for_app_start_observer process_name duration
  else wait_for_app_start_uprobe fuel process_name duration.

(** ** [ProcessResolverImpl::resolve_process] *)

Definition resolve_process_by_name (target_process_name : option string) :
    Sys S (result ResolvedProcess) :=
  let? process_name :=
    mret (ok_or target_process_name (EAnyhow "Process name is required for selection type {:?}")) in
  if String.eqb process_name "system_server" then
    let! pid := get_pid process_name in
    let? pid := mret (ok_or pid (EAnyhow "Can't find pid for {}")) in
    let? uid := mret (try_into I32 AID_SYSTEM) in
    mret (Ok {| rp_pid := pid; rp_uid := uid; rp_name := process_name |})
  else
    let? found := get_running_process_pid_uid process_name in
    let '(pid, uid) := found in
    let? uid := mret (try_into I32 uid) in
    mret (Ok {| rp_pid := pid; rp_uid := uid; rp_name := process_name |}).

Definition resolve_process (fuel : nat) (target_process_name : option string)
    (target_process_selection : TargetProcessSelection) (duration : Z) :
    Sys S (result ResolvedProcess) :=
  match target_process_selection with
  | TPS_SPECIFIC_APP_PROCESS_ON_START => wait_for_app_start fuel target_process_name duration
  | TPS_ANY_APP_PROCESS_ON_START => wait_for_app_start fuel None duration
  | TPS_SPECIFIC_PROCESS_NAME | TPS_UNKNOWN => resolve_process_by_name target_process_name
  end.

End Process.

(** ** Ownership *)

Section Owns.
Context {B : BinderCodes} {F : Flags} {S : Type}.

#[local] Hint Resolve owns_ProcessObserver_register tidy_get_running_process_pid_uid : owns.

Lemma owns_BpfRingBuffer_new ty path :
  owns [] (BpfRingBuffer_new ty path : Sys S _) (owned_result ORingBuffer).
Proof. unfold BpfRingBuffer_new, pure. owns_run. Qed.

Lemma owns_bpf_perf_event_open filename offset pid program :
  owns [] (bpf_perf_event_open filename offset pid program : Sys S _) (owned_result OFd).
Proof. unfold bpf_perf_event_open, pure. owns_run. Qed.

#[local] Hint Resolve owns_BpfRingBuffer_new owns_bpf_perf_event_open : owns.

Lemma tidy_find_pid name entries : tidy (find_pid name entries : Sys S _).
Proof. induction entries as [|[file|] entries IH]; cbn [find_pid]; owns_run. Qed.

Lemma tidy_get_pid name : tidy (get_pid name : Sys S _).
Proof. unfold get_pid. owns_run. apply tidy_find_pid. Qed.

Lemma owns_system_server_offsets cls meth params c n :
  owns [] (system_server_offsets cls meth params c n : Sys S _) (owned_result OOffsets).
Proof.
  unfold system_server_offsets, TargetProcess_system_server.
  eapply owns_mtry; [apply owns_TargetProcess_new|intros tp|reflexivity].
  apply (owns_mtry _ _ (fun r => match r with Ok o => owned_offsets o | Err _ => [] end));
    owns_run; done.
Qed.

Lemma tidy_observer name duration : tidy (wait_for_app_start_observer name duration : Sys S _).
Proof. unfold wait_for_app_start_observer, ProcessObserver_drop. owns_run. Qed.

Lemma tidy_app_start_loop fuel name timer ring :
  tidy (app_start_loop fuel name timer ring : Sys S _).
Proof.
  induction fuel as [|fuel IH]; cbn [app_start_loop]; [apply owns_no_fuel|].
  unfold Timer_remaining_millis, BpfRingBuffer_poll. owns_run.
Qed.
#[local] Hint Resolve tidy_get_pid owns_system_server_offsets tidy_observer tidy_app_start_loop : owns.

(** The offsets owned with the name of their program. *)
Definition owned_probe (r : result (Z * string)) : list Object :=
  match r with Ok (h, _) => [OOffsets h] | Err _ => [] end.

Lemma owns_app_start_probe : owns [] (app_start_probe : Sys S _) owned_probe.
Proof.
  unfold app_start_probe, get_ProcessRecord_makeActive_offsets, get_onProcessActive_offsets.
  eapply owns_mbind; [apply owns_system_server_offsets|]. intros [h|e]; cbn [owned_result]; owns_run.
Qed.

Lemma tidy_attach_app_start offsets pid program :
  tidy (attach_app_start offsets pid program : Sys S _).
Proof.
  unfold attach_app_start, get_container_path, get_method_offset, OwnedFd_drop. owns_run.
Qed.

Lemma tidy_poll_app_start fuel name duration : tidy (poll_app_start fuel name duration : Sys S _).
Proof. unfold poll_app_start, Timer_new, BpfRingBuffer_drop. owns_run. Qed.

#[local] Hint Resolve owns_app_start_probe tidy_attach_app_start tidy_poll_app_start : owns.

Lemma tidy_uprobe fuel name duration : tidy (wait_for_app_start_uprobe fuel name duration : Sys S _).
Proof.
  unfold wait_for_app_start_uprobe, ExecutableMethodFileOffsets_drop. owns_run.
Qed.

Lemma tidy_resolve_process AID fuel name sel duration :
  tidy (resolve_process AID fuel name sel duration : Sys S _).
Proof.
  unfold resolve_process, wait_for_app_start, resolve_process_by_name.
  pose proof tidy_uprobe. owns_run.
Qed.

End Owns.

(** ** The methods return, with the state as it was *)

Section Steady.
Context {B : BinderCodes} {F : Flags} {S : Type}.

Lemma steady_find_pid name entries : steady (find_pid name entries : Sys S _).
Proof. induction entries as [|[file|] entries IH]; cbn [find_pid]; steady_run. Qed.

Lemma steady_get_pid name : steady (get_pid name : Sys S _).
Proof. unfold get_pid. steady_run. apply steady_find_pid. Qed.

Lemma steady_system_server_offsets cls meth params c n :
  steady (system_server_offsets cls meth params c n : Sys S _).
Proof.
  unfold system_server_offsets, TargetProcess_system_server, TargetProcess_new, MethodDescriptor_new,
    ExecutableMethodFileOffsets_get, TargetProcess_drop, MethodDescriptor_drop.
  steady_sys.
Qed.

Lemma steady_app_start_loop fuel name timer ring :
  steady (app_start_loop fuel name timer ring : Sys S _).
Proof.
  induction fuel as [|fuel IH]; cbn [app_start_loop]; [apply steady_no_fuel|].
  unfold Timer_remaining_millis, BpfRingBuffer_poll. steady_run.
Qed.

Lemma steady_find_running name list n i : steady (find_running name list n i : Sys S _).
Proof. revert i. induction n as [|n IH]; intros i; cbn [find_running]; steady_run. Qed.

#[local] Hint Resolve steady_get_pid steady_system_server_offsets steady_app_start_loop
  steady_find_running : steady.

Lemma steady_resolve_process AID fuel name sel duration :
  steady (resolve_process AID fuel name sel duration : Sys S _).
Proof.
  unfold resolve_process, resolve_process_by_name, wait_for_app_start, wait_for_app_start_observer,
    wait_for_app_start_uprobe, poll_app_start, attach_app_start, app_start_probe,
    get_ProcessRecord_makeActive_offsets, get_onProcessActive_offsets, get_container_path,
    get_method_offset, bpf_perf_event_open, OwnedFd_drop, BpfRingBuffer_new, BpfRingBuffer_drop, pure,
    Timer_new, ExecutableMethodFileOffsets_drop, ProcessObserver_register, ProcessObserver_drop,
    get_running_process_pid_uid.
  steady_sys.
Qed.

End Steady.

(** ** Where a resolved process comes from *)

Definition wanted (name : option string) (p : ResolvedProcess) : Prop :=
  match name with Some n => rp_name p = n | None => True end.

(** The process a callback announces. *)
Definition started_process (e : ProcessStarted) : ResolvedProcess :=
  {| rp_pid := ps_pid e; rp_uid := as_ity I32 (ps_process_uid e);
     rp_name := str_or_default (ps_process_name e) |}.

(** A callback announced [p], and none before it a wanted process; or an item of
    the ring buffer did, with a pid. *)
Definition announced (name : option string) (tr : list ev) (p : ResolvedProcess) : Prop :=
  (exists d before e after,
     (existT (recv_timeout d) (before ++ e :: after) : ev) ∈ tr /\ p = started_process e /\
     Forall (fun e' => ~ wanted name (started_process e')) before) \/
  (exists handle timeout res changes c,
     (existT (bpfRingBufPoll TyProcessChange handle timeout) (res, changes) : ev) ∈ tr /\
     c ∈ changes /\ (0 < pc_pid c)%Z /\ pc_pid c = rp_pid p /\ pc_uid c = rp_uid p /\
     bytes_as_str (pc_process_name c) = Ok (rp_name p)).

(** The directory of [/proc] a pid was read from: its command line starts with
    the name. *)
Definition found_in_proc (name : string) (tr : list ev) (pid : Z) : Prop :=
  exists file cmdline pid_str,
    (existT (read_file (proc_path file +:+ "/cmdline")) (Some cmdline) : ev) ∈ tr /\
    starts_with (lossy_str cmdline) name = true /\
    cstr_to_str file = Ok pid_str /\ parse_i32 pid_str = Some pid.

(** The entry of the activity manager's list a process was read from. *)
Definition found_running (name : string) (tr : list ev) (pid uid : Z) : Prop :=
  exists info bytes,
    (existT (RunningAppProcessInfo_getProcessName info) (Some bytes) : ev) ∈ tr /\
    lossy_str bytes = name /\
    (existT (RunningAppProcessInfo_getPid info) pid : ev) ∈ tr /\
    (existT (RunningAppProcessInfo_getUid info) uid : ev) ∈ tr.

Definition wantedb (name : option string) (p : ResolvedProcess) : bool :=
  match name with Some n => String.eqb n (rp_name p) | None => true end.

Lemma wantedb_spec name p : wantedb name p = true <-> wanted name p.
Proof.
  destruct name as [n|]; cbn; [|done]. rewrite String.eqb_eq. split; by intros ->.
Qed.

Lemma fold_started l obs :
  sender (fold_left on_process_started_trampoline l obs) =
    sender obs ++ List.filter (wantedb (target_process_name obs)) (map started_process l).
Proof.
  revert obs. induction l as [|e l IH]; intros obs; cbn [fold_left map List.filter].
  { by rewrite app_nil_r. }
  rewrite IH. clear IH. destruct obs as [sent [n|]];
    unfold on_process_started_trampoline, AppStartObserver_callbacks, on_process_started,
      AppStartObserver_on_process_started, wantedb; cbn.
  - destruct (String.eqb n (str_or_default (ps_process_name e))); cbn; [|done].
    by rewrite <- (assoc_L (++)).
  - by rewrite <- (assoc_L (++)).
Qed.

Lemma filter_cons_split {A} (f : A -> bool) l x k :
  List.filter f l = x :: k ->
  exists before after, l = before ++ x :: after /\ f x = true /\ Forall (fun y => f y = false) before.
Proof.
  induction l as [|y l IH]; cbn; [done|]. destruct (f y) eqn:Hy.
  - intros [= -> _]. exists [], l. done.
  - intros (before & after & -> & ? & ?)%IH. exists (y :: before), after. by rewrite Forall_cons.
Qed.

Lemma find_change_Ok name changes p :
  find_change name changes = Ok (Some p) ->
  wanted name p /\ exists c, c ∈ changes /\ (0 < pc_pid c)%Z /\ pc_pid c = rp_pid p /\
    pc_uid c = rp_uid p /\ bytes_as_str (pc_process_name c) = Ok (rp_name p).
Proof.
  induction changes as [|c changes IH]; cbn [find_change]; [done|].
  intros (n & Hn & H)%rbind_Ok.
  assert (find_change name changes = Ok (Some p) -> wanted name p /\ exists c', c' ∈ c :: changes /\
    (0 < pc_pid c')%Z /\ pc_pid c' = rp_pid p /\ pc_uid c' = rp_uid p /\
    bytes_as_str (pc_process_name c') = Ok (rp_name p)) as Hrec.
  { intros (? & c' & ? & ?)%IH. split; [done|]. exists c'. split; [by right|done]. }
  destruct (match name with Some n' => String.eqb n' n | None => true end) eqn:Hw; [|by apply Hrec].
  destruct (pc_pid c <=? 0)%Z eqn:Hpid; [by apply Hrec|]. bool_simpl. injection H as <-. split.
  - destruct name as [n'|]; [|done]. cbn. by apply String.eqb_eq in Hw.
  - exists c. split_and!; [by left|lia|done..].
Qed.

Lemma starts_with_refl (n : string) : starts_with n n = true.
Proof.
  unfold starts_with. induction n as [|a n IH]; [done|]. cbn.
  by destruct (ascii_dec a a).
Qed.

Section Sound.
Context {B : BinderCodes} {F : Flags} {S : Type}.
Implicit Types (s : S) (p : ResolvedProcess).

Lemma announced_mono name t1 t2 p : t1 ⊆ t2 -> announced name t1 p -> announced name t2 p.
Proof.
  intros Ht [(d & b & e & a & ? & ?)|(h & t & r & cs & c & ? & ?)];
    [left; exists d, b, e, a|right; exists h, t, r, cs, c]; split; try done; set_solver.
Qed.

Lemma observer_sound name duration s tr p s' :
  exec (wait_for_app_start_observer name duration s) tr (Val (Ok p), s') ->
  announced name tr p /\ wanted name p.
Proof.
  unfold wait_for_app_start_observer.
  intros (t1 & t2 & h & s1 & -> & _ & H)%exec_mtry_Ok.
  apply exec_with_drop_Val in H as (t3 & t4 & s2 & o2 & -> & H & _).
  destruct H as (started & t & -> & H). cbn [pbind] in H. cbv zeta in H.
  rewrite fold_started in H. cbn [sender target_process_name app] in H.
  destruct (List.filter _ _) as [|x k] eqn:Hf; [by destruct H as [_ [=]]|].
  destruct H as [-> [= <- ->]].
  apply filter_cons_split in Hf as (before & after & Hl & Hx & Hb).
  split; [|by apply wantedb_spec].
  apply map_eq_app in Hl as (l1 & l2 & -> & <- & Hl2). destruct l2 as [|e l2]; [done|].
  injection Hl2 as <- _. left. exists duration, l1, e, l2. split_and!; [set_solver|done|].
  apply Forall_map in Hb. eapply Forall_impl; [exact Hb|]. cbn. intros e' He Hw.
  apply wantedb_spec in Hw. congruence.
Qed.

Lemma app_start_loop_sound fuel name timer ring s tr p s' :
  exec (app_start_loop fuel name timer ring s) tr (Val (Ok p), s') ->
  announced name tr p /\ wanted name p.
Proof.
  revert tr. induction fuel as [|fuel IH]; intros tr H; [by destruct H as [_ [=]]|].
  cbn [app_start_loop] in H.
  apply exec_mbind_Val in H as (t1 & t2 & rem & s1 & -> & H1 & H).
  destruct H1 as (now & ? & -> & -> & [= -> ->]).
  destruct (_ <? 0)%Z; [by destruct H as [_ [=]]|].
  rewrite exec_mtry_mret in H. destruct (try_into I32 _) as [ms|]; [|by destruct H as [_ [=]]].
  apply exec_mtry_Ok in H as (t5 & t6 & changes & s3 & -> & H1 & H).
  destruct H1 as ([res items] & t & -> & H1). cbn [pbind] in H1.
  destruct (0 <=? res)%Z; [|by destruct H1 as [_ [=]]].
  destruct H1 as [-> [= -> ->]].
  rewrite exec_mtry_mret in H.
  destruct (find_change name items) as [[q|]|] eqn:Hfound; [| |by destruct H as [_ [=]]].
  - destruct H as [-> [= -> ->]].
    apply find_change_Ok in Hfound as (? & c & Hc). split; [|done]. right.
    exists ring, ms, res, items, c. split; [set_solver|done].
  - apply IH in H as [H ?]. split; [|done]. eapply announced_mono; [|exact H]. set_solver.
Qed.

Lemma find_pid_sound name entries s tr pid s' :
  exec (find_pid name entries s) tr (Val (Some pid), s') -> found_in_proc name tr pid.
Proof.
  assert (Hmono : forall t1 t2, t1 ⊆ t2 -> found_in_proc name t1 pid -> found_in_proc name t2 pid).
  { intros t1 t2 Ht (f & c & ps & ? & ?). exists f, c, ps. split; [set_solver|done]. }
  revert tr. induction entries as [|[file|] entries IH]; intros tr H; [by destruct H as [_ [=]]| |by destruct H as [_ [=]]].
  cbn [find_pid] in H. cbv zeta in H.
  destruct H as (dir & t1 & -> & H). cbn [pbind] in H.
  destruct dir; [|eapply Hmono; [|by eapply IH]; set_solver].
  destruct H as (cmdline & t2 & -> & H). cbn [pbind] in H.
  assert (exec (find_pid name entries s) t2 (Val (Some pid), s') ->
    found_in_proc name (existT (is_dir (proc_path file)) true ::
      existT (read_file (proc_path file +:+ "/cmdline")) cmdline :: t2) pid) as Hrec.
  { intros Ht. eapply Hmono; [|by eapply IH]. set_solver. }
  destruct cmdline as [cmdline|]; [|by apply Hrec].
  destruct (String.eqb _ name || _) eqn:Hc; [|by apply Hrec].
  destruct (cstr_to_str file) as [pid_str|] eqn:Hs; [|by apply Hrec].
  destruct (parse_i32 pid_str) as [z|] eqn:Hz; [|by apply Hrec].
  destruct H as [-> [= -> ->]]. exists file, cmdline, pid_str. split_and!; [set_solver| |done..].
  apply orb_true_iff in Hc as [Hc%String.eqb_eq|Hc]; [|done]. rewrite Hc.
  apply starts_with_refl.
Qed.

Lemma get_pid_sound name s tr pid s' :
  exec (get_pid name s) tr (Val (Some pid), s') -> found_in_proc name tr pid.
Proof.
  intros (entries & t & -> & H). cbn [pbind] in H. destruct entries as [entries|].
  - apply find_pid_sound in H as (f & c & ps & ? & ?). exists f, c, ps. split; [set_solver|done].
  - by destruct H as [_ [=]].
Qed.

Lemma find_running_sound name list n i s tr pid uid s' :
  exec (find_running name list n i s) tr (Val (Ok (pid, uid)), s') -> found_running name tr pid uid.
Proof.
  assert (Hmono : forall t1 t2, t1 ⊆ t2 -> found_running name t1 pid uid -> found_running name t2 pid uid).
  { intros t1 t2 Ht (f & c & ? & ? & ? & ?). exists f, c. split_and!; try done; set_solver. }
  revert i tr. induction n as [|n IH]; intros i tr H; [by destruct H as [_ [=]]|].
  cbn [find_running] in H. destruct H as (info & t1 & -> & H). cbn [pbind] in H.
  destruct (info =? 0)%Z; [eapply Hmono; [|by eapply IH]; set_solver|].
  destruct H as (bytes & t2 & -> & H). cbn [pbind] in H.
  destruct bytes as [bytes|]; [|eapply Hmono; [|by eapply IH]; set_solver].
  destruct (String.eqb_spec (lossy_str bytes) name) as [Hn|];
    [|eapply Hmono; [|by eapply IH]; set_solver].
  destruct H as (pid' & ? & -> & uid' & ? & -> & -> & [= -> -> ->]).
  exists info, bytes. split_and!; [set_solver|done|set_solver..].
Qed.

Lemma found_running_mono name t1 t2 pid uid :
  t1 ⊆ t2 -> found_running name t1 pid uid -> found_running name t2 pid uid.
Proof. intros Ht (f & c & ? & ? & ? & ?). exists f, c. split_and!; try done; set_solver. Qed.

Lemma running_sound name s tr pid uid s' :
  exec (get_running_process_pid_uid name s) tr (Val (Ok (pid, uid)), s') ->
  found_running name tr pid uid.
Proof.
  intros ([status list] & t & -> & H). cbn [pbind] in H.
  destruct (negb (status =? 0)%Z); [by destruct H as [_ [=]]|].
  destruct (list =? 0)%Z; [by destruct H as [_ [=]]|].
  apply exec_with_drop_Val in H as (t1 & t2 & s1 & o2 & -> & H & _).
  destruct H as (size & t3 & -> & H). cbn [pbind] in H. apply find_running_sound in H.
  eapply found_running_mono; [|exact H]. set_solver.
Qed.

Lemma uprobe_sound fuel name duration s tr p s' :
  exec (wait_for_app_start_uprobe fuel name duration s) tr (Val (Ok p), s') ->
  announced name tr p /\ wanted name p.
Proof.
  unfold wait_for_app_start_uprobe, poll_app_start.
  intros (t1 & t2 & pid & s1 & -> & _ & H)%exec_mbind_Val.
  apply exec_mtry_Ok in H as (t3 & t4 & ? & s2 & -> & _ & H).
  apply exec_mtry_Ok in H as (t5 & t6 & [offsets prog] & s3 & -> & _ & H).
  apply exec_with_drop_Val in H as (t7 & t8 & s4 & o2 & -> & H & _).
  apply exec_mtry_Ok in H as (t9 & t10 & ? & s5 & -> & _ & H).
  apply exec_mbind_Val in H as (t11 & t12 & timer & s6 & -> & _ & H).
  apply exec_mtry_Ok in H as (t13 & t14 & ring & s7 & -> & _ & H).
  apply exec_with_drop_Val in H as (t15 & t16 & s8 & o3 & -> & H & _).
  apply app_start_loop_sound in H as [H ?]. split; [|done].
  eapply announced_mono; [|exact H]. set_solver.
Qed.

Lemma app_start_sound fuel name duration s tr p s' :
  exec (wait_for_app_start fuel name duration s) tr (Val (Ok p), s') ->
  announced name tr p /\ wanted name p.
Proof.
  unfold wait_for_app_start.
  destruct use_process_observer_api; [apply observer_sound|apply uprobe_sound].
Qed.

(** A process that was looked up by name. *)
Definition looked_up (AID_SYSTEM : Z) (name : option string) (tr : list ev) (p : ResolvedProcess) :
    Prop :=
  name = Some (rp_name p) /\
  if String.eqb (rp_name p) "system_server" then
    rp_uid p = AID_SYSTEM /\ found_in_proc (rp_name p) tr (rp_pid p)
  else found_running (rp_name p) tr (rp_pid p) (rp_uid p).

Lemma by_name_sound AID name s tr p s' :
  exec (resolve_process_by_name AID name s) tr (Val (Ok p), s') -> looked_up AID name tr p.
Proof.
  unfold resolve_process_by_name, looked_up. rewrite exec_mtry_mret.
  destruct name as [n|]; cbn [ok_or]; [|by intros [_ [=]]].
  destruct (String.eqb n "system_server") eqn:Hn.
  - intros (t1 & t2 & pid & s1 & -> & H1 & H)%exec_mbind_Val.
    rewrite exec_mtry_mret in H. destruct pid as [pid|]; cbn [ok_or] in H; [|by destruct H as [_ [=]]].
    rewrite exec_mtry_mret in H. destruct (try_into I32 AID) as [uid|] eqn:Hu; [|by destruct H as [_ [=]]].
    destruct H as [-> [= -> ->]]. cbn. rewrite Hn, app_nil_r. apply try_into_Ok in Hu as [-> _].
    apply get_pid_sound in H1. done.
  - intros (t1 & t2 & [pid uid] & s1 & -> & H1 & H)%exec_mtry_Ok.
    rewrite exec_mtry_mret in H. destruct (try_into I32 uid) as [uid'|] eqn:Hu; [|by destruct H as [_ [=]]].
    destruct H as [-> [= -> ->]]. cbn. rewrite Hn, app_nil_r. apply try_into_Ok in Hu as [-> _].
    apply running_sound in H1. done.
Qed.

(** What a successful resolution rests on. *)
Definition located (AID_SYSTEM : Z) (name : option string) (sel : TargetProcessSelection)
    (tr : list ev) (p : ResolvedProcess) : Prop :=
  match sel with
  | TPS_SPECIFIC_APP_PROCESS_ON_START => announced name tr p /\ wanted name p
  | TPS_ANY_APP_PROCESS_ON_START => announced None tr p
  | TPS_SPECIFIC_PROCESS_NAME | TPS_UNKNOWN => looked_up AID_SYSTEM name tr p
  end.

Lemma located_mono AID name sel t1 t2 p : t1 ⊆ t2 -> located AID name sel t1 p -> located AID name sel t2 p.
Proof.
  intros Ht. unfold located, looked_up, found_in_proc, found_running. destruct sel.
  1,2: intros [-> H]; split; [done|]; destruct (String.eqb _ _); [|naive_solver];
    destruct H as [? (f & c & ps & ? & ?)]; split; [done|]; exists f, c, ps; split; [set_solver|done].
  - by apply announced_mono.
  - intros [? ?]. split; [|done]. by eapply announced_mono.
Qed.

Lemma resolve_process_located AID fuel name sel duration s tr p s' :
  exec (resolve_process AID fuel name sel duration s) tr (Val (Ok p), s') -> located AID name sel tr p.
Proof.
  intros H. destruct sel; cbn [resolve_process located] in *.
  - by apply by_name_sound in H.
  - by apply by_name_sound in H.
  - by apply app_start_sound in H as [? _].
  - by apply app_start_sound in H.
Qed.

(** C21. A resolved process is one that was found.  Whatever the system answers,
    resolving a process leaves the state alone, does not panic and releases every
    C object, observer, descriptor and ring buffer it obtained.  When it
    succeeds for a selection by name, the name is the one asked for and the pid and
    uid are what the activity manager told for it (for the system server: the pid
    of a directory of /proc and the system's uid).  When it succeeds for a
    selection on start, a start of that process was announced, by the first
    wanted callback or by an item with a positive pid, under the name asked for, if
    any. *)
Theorem resolve_process_spec AID fuel name sel duration s tr o s'
    (H : exec (resolve_process AID fuel name sel duration s) tr (o, s')) (Ho : o <> NoFuel) :
  s' = s /\ acquired tr ≡ₚ released tr /\ (exists r, o = Val r) /\
  forall p, o = Val (Ok p) -> located AID name sel tr p.
Proof.
  pose proof (steady_resolve_process AID fuel name sel duration _ _ _ _ H) as [-> Hn].
  split; [done|]. split.
  { eapply tidy_exec; [apply tidy_resolve_process|exact H|done]. }
  split. { destruct o; [eauto| |done]. by destruct (Hn msg). }
  intros p ->. by apply resolve_process_located in H.
Qed.

End Sound.

(** ** Termination *)

Section Terminates.
Context {B : BinderCodes} {F : Flags} {S : Type}.
Implicit Types (s : S).

Lemma app_start_loop_fuel fuel name timer ring s tr s' :
  exec (app_start_loop fuel name timer ring s) tr (NoFuel, s') ->
  length (instants tr) = fuel /\ Forall (in_time timer) (instants tr).
Proof.
  revert s tr. induction fuel as [|fuel IH]; intros s tr H; [by destruct H as [-> _]|].
  cbn [app_start_loop] in H.
  apply exec_mbind in H as [(t1 & t2 & rem & s1 & -> & H1 & H)|[(? & ? & _ & [=])|(s1 & H & _)]];
    [|by destruct H as (? & ? & _ & _ & [=])].
  destruct H1 as (now & ? & -> & -> & [= -> ->]).
  destruct (_ <? 0)%Z eqn:Hrem; [by destruct H as [_ [=]]|]. bool_simpl.
  rewrite exec_mtry_mret in H. destruct (try_into I32 _) as [ms|]; [|by destruct H as [_ [=]]].
  apply exec_mtry in H as [(t3 & t4 & changes & s2 & -> & H1 & H)
    |[(? & ? & _ & [=])|[(? & ? & _ & [=])|(s2 & H & _)]]].
  - destruct H1 as ([res items] & t & -> & H1). cbn [pbind] in H1.
    destruct (0 <=? res)%Z; [|by destruct H1 as [_ [=]]]. destruct H1 as [-> [= -> ->]].
    rewrite exec_mtry_mret in H.
    destruct (find_change name items) as [[q|]|]; [by destruct H as [_ [=]]| |by destruct H as [_ [=]]].
    apply IH in H as [<- HF]. cbn. fold (instants t4). split; [done|].
    constructor; [unfold in_time; lia|done].
  - destruct H as ([res items] & t & -> & H). cbn [pbind] in H.
    by destruct (0 <=? res)%Z; destruct H as [_ [=]].
Qed.

Lemma returns_find_pid name entries : returns (find_pid name entries : Sys S _).
Proof. induction entries as [|[file|] entries IH]; cbn [find_pid]; returns_run; done. Qed.

Lemma returns_get_pid name : returns (get_pid name : Sys S _).
Proof. unfold get_pid. returns_run. apply returns_find_pid. Qed.

Lemma returns_system_server_offsets cls meth params c n :
  returns (system_server_offsets cls meth params c n : Sys S _).
Proof.
  unfold system_server_offsets, TargetProcess_system_server, TargetProcess_new, MethodDescriptor_new,
    ExecutableMethodFileOffsets_get.
  returns_sys.
Qed.

Lemma returns_app_start_probe : returns (app_start_probe : Sys S _).
Proof.
  unfold app_start_probe. apply returns_mbind; [apply returns_system_server_offsets|].
  intros [h|e]; [apply returns_mret|].
  apply returns_mtry; [apply returns_system_server_offsets|]. returns_run.
Qed.

Lemma returns_attach_app_start offsets pid program :
  returns (attach_app_start offsets pid program : Sys S _).
Proof.
  unfold attach_app_start, get_container_path, get_method_offset, bpf_perf_event_open, OwnedFd_drop,
    pure. returns_run.
Qed.

Lemma returns_by_name AID name : returns (resolve_process_by_name AID name : Sys S _).
Proof.
  assert (forall l n i m, returns (find_running m l n i : Sys S _)) as Hf.
  { intros l n. induction n as [|n IH]; intros i m; cbn [find_running]; returns_run; apply IH. }
  unfold resolve_process_by_name, get_running_process_pid_uid.
  returns_sys; first [apply returns_get_pid | apply Hf].
Qed.

Lemma returns_observer name duration : returns (wait_for_app_start_observer name duration : Sys S _).
Proof. unfold wait_for_app_start_observer, ProcessObserver_register. returns_sys. Qed.

(** A method that returns is not where fuel runs out. *)
Lemma mtry_NoFuel {A C} (m : Sys S (result A)) (k : A -> Sys S (result C)) s tr s' :
  returns (E := SysI) m -> exec (mtry m k s) tr (NoFuel, s') ->
  exists t1 t2 a s1, tr = t1 ++ t2 /\ exec (k a s1) t2 (NoFuel, s').
Proof.
  intros Hm [H|[(? & ? & _ & [=])|[(? & ? & _ & [=])|(s1 & H & _)]]]%exec_mtry.
  - destruct H as (t1 & t2 & a & s1 & -> & _ & H). eauto 10.
  - by apply Hm in H as [? ?].
Qed.

Lemma mbind_NoFuel {A C} (m : Sys S A) (k : A -> Sys S C) s tr s' :
  returns (E := SysI) m -> exec (mbind m k s) tr (NoFuel, s') ->
  exists t1 t2 a s1, tr = t1 ++ t2 /\ exec (m s) t1 (Val a, s1) /\ exec (k a s1) t2 (NoFuel, s').
Proof.
  intros Hm [H|[(? & ? & _ & [=])|(s1 & H & _)]]%exec_mbind.
  - destruct H as (t1 & t2 & a & s1 & -> & H1 & H). eauto 10.
  - by apply Hm in H as [? ?].
Qed.

Lemma with_drop_NoFuel {A} (m : Sys S A) drop s tr s' :
  exec (with_drop m drop s) tr (NoFuel, s') -> exec (m s) tr (NoFuel, s').
Proof. by intros [[_ H]|(? & _)]%exec_with_drop. Qed.

Lemma uprobe_fuel fuel name duration s tr s' :
  exec (wait_for_app_start_uprobe fuel name duration s) tr (NoFuel, s') ->
  exists start rest, (start :: rest) `sublist_of` instants tr /\ length rest = fuel /\
    Forall (in_time (mkTimer start duration)) rest.
Proof.
  unfold wait_for_app_start_uprobe.
  intros (t1 & t2 & pid & s1 & -> & _ & H)%mbind_NoFuel; [|apply returns_get_pid].
  apply mtry_NoFuel in H as (t3 & t4 & ? & s2 & -> & H); [|apply returns_mret].
  apply mtry_NoFuel in H as (t5 & t6 & [offsets prog] & s3 & -> & H); [|apply returns_app_start_probe].
  apply with_drop_NoFuel in H.
  apply mtry_NoFuel in H as (t7 & t8 & ? & s4 & -> & H); [|apply returns_attach_app_start].
  unfold poll_app_start in H.
  apply mbind_NoFuel in H as (t9 & t10 & timer & s5 & -> & H1 & H); [|unfold Timer_new; returns_run].
  destruct H1 as (start & ? & -> & -> & [= -> ->]).
  apply mtry_NoFuel in H as (t11 & t12 & ring & s6 & -> & H);
    [|unfold BpfRingBuffer_new, pure; returns_run].
  apply with_drop_NoFuel, app_start_loop_fuel in H as [Hl HF].
  exists start, (instants t12). split_and!; [|done|done].
  unfold instants. rewrite !omap_app. cbn.
  do 4 apply sublist_inserts_l. apply sublist_skip. by apply sublist_inserts_l.
Qed.

Lemma resolve_process_fuel k AID fuel name sel duration s tr o s' :
  exec (resolve_process AID fuel name sel duration s) tr (o, s') ->
  ticking k (instants tr) -> (0 < k)%nat ->
  (Z.of_nat k * (Z.max 0 (as_millis duration) + 1) <= Z.of_nat fuel)%Z ->
  o <> NoFuel.
Proof.
  intros H Htick Hk Hfuel ->.
  assert (forall name, exec (wait_for_app_start fuel name duration s) tr (NoFuel, s') -> False) as Hw.
  { clear name H. intros name H. unfold wait_for_app_start in H. destruct use_process_observer_api.
    - by apply returns_observer in H as [? ?].
    - apply uprobe_fuel in H as (start & rest & Hs & Hl & HF).
      pose proof (ticking_in_time k start duration rest (ticking_sublist _ _ _ Hs Htick) HF Hk). lia. }
  destruct sel; cbn [resolve_process] in H;
    [by apply returns_by_name in H as [? ?]|by apply returns_by_name in H as [? ?]|by eapply Hw..].
Qed.

(** Resolving a process terminates.  If any [k] readings of the clock take a
    millisecond, then waiting [d] milliseconds for an app to start ends with a
    result, with fuel for [k * (d + 1)] rounds of the loop; the other ways to
    resolve a process need no fuel. *)
Theorem resolve_process_terminates k AID fuel name sel duration s tr o s'
    (H : exec (resolve_process AID fuel name sel duration s) tr (o, s'))
    (Htick : ticking k (instants tr)) (Hk : (0 < k)%nat)
    (Hfuel : (Z.of_nat k * (Z.max 0 (as_millis duration) + 1) <= Z.of_nat fuel)%Z) :
  exists r, o = Val r.
Proof.
  pose proof (resolve_process_fuel _ _ _ _ _ _ _ _ _ _ H Htick Hk Hfuel).
  apply steady_resolve_process in H as [_ Hn]. destruct o; [eauto| |done]. by destruct (Hn msg).
Qed.

End Terminates.

(** ** The probe of the system server *)

Definition fd_of (x : Object) : option Z := match x with OFd fd => Some fd | _ => None end.

(** Perf events opened and closed. *)
Definition opened (tr : list ev) : list Z := omap fd_of (acquired tr).
Definition closed (tr : list ev) : list Z := omap fd_of (released tr).

Definition is_poll (c : SysCall) : bool :=
  match c with bpfRingBufPoll _ _ _ => true | _ => false end.

Definition no_perf_event (c : SysCall) : bool :=
  match c with bpfPerfEventOpen _ _ _ _ | close_fd _ => false | _ => true end.

Definition poll_free (c : SysCall) : bool := negb (is_poll c).

Lemma opened_app t1 t2 : opened (t1 ++ t2) = opened t1 ++ opened t2.
Proof. unfold opened. by rewrite acquired_app, omap_app. Qed.

Lemma closed_app t1 t2 : closed (t1 ++ t2) = closed t1 ++ closed t2.
Proof. unfold closed. by rewrite released_app, omap_app. Qed.

Lemma no_perf_event_trace (tr : list ev) :
  Forall (fun e : ev => no_perf_event (projT1 e) = true) tr -> opened tr = [] /\ closed tr = [].
Proof.
  induction 1 as [|[c r] tr He _ [IH1 IH2]]; [done|].
  change (existT c r :: tr) with ([existT c r : ev] ++ tr).
  rewrite opened_app, closed_app, IH1, IH2, !app_nil_r. unfold opened, closed, acquired, released.
  cbn [flat_map]. rewrite !app_nil_r.
  destruct c; try done; cbn; repeat case_match; done.
Qed.

Section Detached.
Context {B : BinderCodes} {F : Flags} {S : Type}.
Implicit Types (s : S).

(** Neither touches a perf event, nor polls. *)
Definition quiet (c : SysCall) : bool := no_perf_event c && poll_free c.

Lemma quiet_find_pid name entries : makes_only (E := SysI) quiet (find_pid name entries : Sys S _).
Proof. induction entries as [|[file|] entries IH]; cbn [find_pid]; makes_only_run; done. Qed.

Lemma quiet_get_pid name : makes_only (E := SysI) quiet (get_pid name : Sys S _).
Proof. unfold get_pid. makes_only_run. apply quiet_find_pid. Qed.

Lemma quiet_system_server_offsets cls meth params c n :
  makes_only (E := SysI) quiet (system_server_offsets cls meth params c n : Sys S _).
Proof.
  unfold system_server_offsets, TargetProcess_system_server, TargetProcess_new, MethodDescriptor_new,
    ExecutableMethodFileOffsets_get, TargetProcess_drop, MethodDescriptor_drop.
  repeat first [apply makes_only_with_drop | progress makes_only_run].
Qed.

Lemma quiet_app_start_probe : makes_only (E := SysI) quiet (app_start_probe : Sys S _).
Proof.
  unfold app_start_probe. apply makes_only_mbind; [apply quiet_system_server_offsets|].
  intros [h|e]; [makes_only_run|].
  apply makes_only_mtry; [apply quiet_system_server_offsets|]. makes_only_run.
Qed.

Lemma no_perf_event_app_start_loop fuel name timer ring :
  makes_only (E := SysI) no_perf_event (app_start_loop fuel name timer ring : Sys S _).
Proof.
  induction fuel as [|fuel IH]; cbn [app_start_loop];
    unfold Timer_remaining_millis, BpfRingBuffer_poll; makes_only_run; done.
Qed.

Lemma no_perf_event_poll_app_start fuel name duration :
  makes_only (E := SysI) no_perf_event (poll_app_start fuel name duration : Sys S _).
Proof.
  unfold poll_app_start, Timer_new, BpfRingBuffer_new, BpfRingBuffer_drop, pure.
  repeat first [apply makes_only_with_drop | apply no_perf_event_app_start_loop | progress makes_only_run].
Qed.

(** The statement that attaches the probe closes it, too. *)
Lemma exec_attach_app_start offsets pid program s tr o s' :
  exec (attach_app_start offsets pid program s) tr (o, s') ->
  Forall (fun e : ev => poll_free (projT1 e) = true) tr /\
  (o = Val (Ok tt) -> exists fd, opened tr = [fd] /\ closed tr = [fd]) /\
  (o <> Val (Ok tt) -> opened tr = [] /\ closed tr = []).
Proof.
  unfold attach_app_start, get_container_path, get_method_offset, bpf_perf_event_open, OwnedFd_drop, pure.
  intros (path & t1 & -> & H). cbn [pbind] in H. destruct H as (off & t2 & -> & H). cbn [pbind] in H.
  destruct (try_into I32 off) as [z|]; [|by destruct H as [-> [= -> ->]]; split_and!; [by repeat constructor|done..]].
  cbn in H. unfold c_string in H.
  destruct (no_nul _); cbn in H; [|by destruct H as [-> [= -> ->]]; split_and!; [by repeat constructor|done..]].
  destruct (no_nul _); cbn in H; [|by destruct H as [-> [= -> ->]]; split_and!; [by repeat constructor|done..]].
  destruct H as (fd & t3 & -> & H). cbn [pbind] in H.
  destruct (0 <=? fd)%Z eqn:Hfd; cbn in H.
  - destruct H as (u & t4 & -> & -> & [= -> ->]). split_and!; [by repeat constructor| |done].
    intros _. exists fd. unfold opened, closed. cbn. by rewrite Hfd.
  - destruct H as [-> [= -> ->]]. split_and!; [by repeat constructor|done|].
    intros _. unfold opened, closed. cbn. by rewrite Hfd.
Qed.

(** An exchange with no poll, or whose first part opens and closes the perf event
    before any poll. *)
Definition detached (tr : list ev) : Prop :=
  Forall (fun e : ev => poll_free (projT1 e) = true) tr \/
  exists pre post fd, tr = pre ++ post /\ Forall (fun e : ev => poll_free (projT1 e) = true) pre /\
    opened pre = [fd] /\ closed pre = [fd] /\ Forall (fun e : ev => no_perf_event (projT1 e) = true) post.

Lemma quiet_trace (tr : list ev) :
  Forall (fun e : ev => quiet (projT1 e) = true) tr ->
  Forall (fun e : ev => poll_free (projT1 e) = true) tr /\
  Forall (fun e : ev => no_perf_event (projT1 e) = true) tr.
Proof.
  intros H. split; eapply Forall_impl; [exact H| |exact H|]; cbn; intros e He;
    by apply andb_true_iff in He as [? ?].
Qed.

Lemma detached_quiet t tr :
  Forall (fun e : ev => quiet (projT1 e) = true) t -> detached tr -> detached (t ++ tr).
Proof.
  intros [Hp Hf]%quiet_trace [H|(pre & post & fd & -> & Hpre & Ho & Hc & Hpost)].
  - left. by apply Forall_app.
  - right. exists (t ++ pre), post, fd. apply no_perf_event_trace in Hf as [Ho' Hc'].
    rewrite (assoc_L (++)), opened_app, closed_app, Ho', Hc'. split_and!; [done|by apply Forall_app|done..].
Qed.

Lemma detached_only_quiet t :
  Forall (fun e : ev => quiet (projT1 e) = true) t -> detached t.
Proof. intros [? _]%quiet_trace. by left. Qed.

Lemma exec_uprobe_detached fuel name duration s tr o s' :
  exec (wait_for_app_start_uprobe fuel name duration s) tr (o, s') -> detached tr.
Proof.
  unfold wait_for_app_start_uprobe.
  intros [H|[(? & ? & H & _)|(? & H & _)]]%exec_mbind;
    [|apply detached_only_quiet; by apply quiet_get_pid in H..].
  destruct H as (t1 & t2 & pid & s1 & -> & H1 & H). apply detached_quiet; [by apply quiet_get_pid in H1|].
  clear t1 H1. rewrite exec_mtry_mret in H. destruct (ok_or _ _) as [z|]; [|by destruct H as [-> _]; left].
  apply exec_mtry in H as [H|[(? & ? & H & _)|[(? & ? & H & _)|(? & H & _)]]];
    [|apply detached_only_quiet; by apply quiet_app_start_probe in H..].
  destruct H as (t1 & t3 & [offsets prog] & s2 & -> & H1 & H).
  apply detached_quiet; [by apply quiet_app_start_probe in H1|]. clear t1 H1.
  assert (exists t u, t3 = t ++ u /\ Forall (fun e : ev => quiet (projT1 e) = true) u /\
    exists o1 s3, exec ((let? _ := attach_app_start offsets z prog in
      poll_app_start fuel name duration) s2) t (o1, s3)) as (t & u & -> & Hu & o1 & s3 & Hx).
  { apply exec_with_drop in H as [[_ H]|(_ & t & u & s3 & o2 & -> & H & Hd)].
    - exists t3, []. rewrite app_nil_r. eauto 10.
    - destruct Hd as (r & ? & -> & -> & _). exists t, [existT (Offsets_destroy offsets) r : ev].
      split_and!; [done|by repeat constructor|eauto]. }
  apply quiet_trace in Hu as [Hup Huf].
  apply exec_mtry in Hx as [Hx|[(? & ? & Hx & _)|[(? & ? & Hx & _)|(? & Hx & _)]]];
    [|left; apply exec_attach_app_start in Hx as [Hx _]; by apply Forall_app..].
  destruct Hx as (t4 & t5 & [] & s4 & -> & (Hp & Hfd & _)%exec_attach_app_start & Hx).
  destruct (Hfd eq_refl) as (fd & Ho & Hc). right. exists t4, (t5 ++ u), fd.
  apply no_perf_event_poll_app_start in Hx. rewrite <- (assoc_L (++)).
  split_and!; [done..|by apply Forall_app].
Qed.

Lemma app_eq_middle {A} (pre post t1 t2 : list A) (e : A) (P : A -> Prop) :
  pre ++ post = t1 ++ e :: t2 -> Forall P pre -> ~ P e -> exists u, t1 = pre ++ u /\ post = u ++ e :: t2.
Proof.
  revert t1. induction pre as [|x pre IH]; intros t1 Heq HF He; [by exists t1|].
  apply Forall_cons in HF as [Hx HF]. destruct t1 as [|y t1]; cbn in Heq; injection Heq as -> Heq.
  - done.
  - destruct (IH t1 Heq HF He) as (u & -> & ->). by exists u.
Qed.

(** C35. The probe is gone before it can fire.  When the legacy wait for an app to
    start polls the ring buffer, the one perf event it has opened is already
    closed: the descriptor is a temporary of the statement that attaches the
    probe. *)
Theorem app_start_probe_detached fuel name duration s tr o s' t1 e t2
    (H : exec (wait_for_app_start_uprobe fuel name duration s) tr (o, s'))
    (Htr : tr = t1 ++ e :: t2) (He : is_poll (projT1 e) = true) :
  exists fd, opened t1 = [fd] /\ closed t1 = [fd].
Proof.
  assert (~ poll_free (projT1 e) = true) as Hne by (unfold poll_free; by rewrite He).
  apply exec_uprobe_detached in H as [H|(pre & post & fd & Heq & Hpre & Ho & Hc & Hpost)].
  - rewrite Htr in H. apply Forall_app in H as [_ [H _]%Forall_cons]. done.
  - rewrite Htr in Heq. symmetry in Heq.
    destruct (app_eq_middle _ _ _ _ _ _ Heq Hpre Hne) as (u & -> & ->).
    apply Forall_app in Hpost as [[Hou Hcu]%no_perf_event_trace _].
    exists fd. by rewrite opened_app, closed_app, Ho, Hc, Hou, Hcu.
Qed.

End Detached.

(** ** The pid of a process, on a given /proc *)

Record ProcEntry := mkProcEntry {
  pe_name : list byte;
  pe_dir : bool;
  pe_cmdline : option (list byte)
}.

(** The pid an entry stands for, if its command line starts with the name. *)
Definition entry_pid (name : string) (p : ProcEntry) : option Z :=
  if pe_dir p then
    cmdline ← pe_cmdline p;
    if starts_with (lossy_str cmdline) name then
      match cstr_to_str (pe_name p) with Ok s => parse_i32 s | Err _ => None end
    else None
  else None.

(** The first entry that has one, before any entry that cannot be read. *)
Fixpoint first_pid (name : string) (entries : list (option ProcEntry)) : option Z :=
  match entries with
  | [] | None :: _ => None
  | Some p :: entries' =>
      match entry_pid name p with Some pid => Some pid | None => first_pid name entries' end
  end.

(** The answers of a file system with these entries under /proc. *)
Definition serves_proc (entries : list (option ProcEntry)) (e : ev) : Prop :=
  match e with
  | existT (read_dir path) r => path = "/proc" -> r = Some (map (fmap pe_name) entries)
  | existT (is_dir path) r =>
      forall p, Some p ∈ entries -> path = proc_path (pe_name p) -> r = pe_dir p
  | existT (read_file path) r =>
      forall p, Some p ∈ entries -> path = proc_path (pe_name p) +:+ "/cmdline" -> r = pe_cmdline p
  | _ => True
  end.

Section GetPid.
Context {S : Type}.

Lemma exec_find_pid name entries rest (s : S) tr o s' :
  (forall p, Some p ∈ rest -> Some p ∈ entries) ->
  exec (find_pid name (map (fmap pe_name) rest) s) tr (o, s') ->
  Forall (serves_proc entries) tr -> o = Val (first_pid name rest).
Proof.
  revert tr. induction rest as [|[p|] rest IH]; intros tr Hin H Hs;
    [by destruct H as [-> [= -> ->]]| |by destruct H as [-> [= -> ->]]].
  assert (forall t, exec (find_pid name (map (fmap pe_name) rest) s) t (o, s') ->
    Forall (serves_proc entries) t -> o = Val (first_pid name rest)) as Hnext.
  { intros t. apply IH. intros q ?. apply Hin. by right. }
  specialize (Hin p ltac:(by left)).
  cbn [map fmap option_fmap option_map find_pid] in H. cbv zeta in H.
  destruct H as (dir & t1 & -> & H). cbn [pbind] in H. apply Forall_cons in Hs as [Hd Hs].
  specialize (Hd p Hin eq_refl). cbn [first_pid]. unfold entry_pid. rewrite <- Hd.
  destruct dir; [|by eapply Hnext].
  destruct H as (cmdline & t2 & -> & H). cbn [pbind] in H. apply Forall_cons in Hs as [Hc Hs].
  specialize (Hc p Hin eq_refl). rewrite <- Hc.
  destruct cmdline as [cmdline|]; cbn; [|by eapply Hnext].
  destruct (starts_with (lossy_str cmdline) name) eqn:Hst.
  - rewrite orb_true_r in H. destruct (cstr_to_str (pe_name p)); [|by eapply Hnext].
    destruct (parse_i32 _); [|by eapply Hnext]. by destruct H as [-> [= -> ->]].
  - destruct (String.eqb_spec (lossy_str cmdline) name) as [<-|]; [by rewrite starts_with_refl in Hst|].
    by eapply Hnext.
Qed.

(** The pid found is that of the first entry of /proc, in the order of the
    directory, whose command line starts with the name: the test for equality in
    front adds nothing, and a process whose name continues the one asked for is
    taken, too. *)
Lemma get_pid_first name entries (s : S) tr o s'
    (H : exec (get_pid name s) tr (o, s')) (Hs : Forall (serves_proc entries) tr) :
  o = Val (first_pid name entries).
Proof.
  destruct H as (r & t & -> & H). cbn [pbind] in H. apply Forall_cons in Hs as [Hr Hs].
  rewrite (Hr eq_refl) in H. by eapply exec_find_pid.
Qed.

End GetPid.

(** ** Witnesses *)

Definition legacy_flags : Flags :=
  {| uprobestats_monitor_disruptive_app_activities := true;
     enable_bitmap_snapshot := true;
     enable_bitmap_instrumentation := true;
     enable_binder_transaction := true;
     enable_bitmap_scaled_instrumentation := true;
     a11y_runtime_permission := true;
     use_process_observer_api := false;
     feature_art_test := false |}.

Definition app_change (pid : Z) : ProcessChange :=
  {| pc_pid := pid; pc_uid := 10077; pc_process_name := c_array 16 "com.app" |}.

(** A millisecond passes with every event; the second item has a pid. *)
Definition app_start_env : Env SysI := fun c past =>
  match c return SysResp c with
  | Instant_now => (Z.of_nat (length past) * NANOS_PER_MILLI)%Z
  | bpfRingBufPoll ty _ _ =>
      match ty return Z * list (struct_of ty) with
      | TyProcessChange => (2%Z, [app_change 0; app_change 77])
      | _ => (0%Z, [])
      end
  | c' => benign_env c' past
  end.

Definition app_process : ResolvedProcess :=
  {| rp_pid := 77; rp_uid := 10077; rp_name := "com.app" |}.

Definition app_start_run : Prog SysI (outcome (result ResolvedProcess) * unit) :=
  @resolve_process binder_codes legacy_flags unit 1000 101 (Some "com.app")
    TPS_SPECIFIC_APP_PROCESS_ON_START (from_millis 100) tt.

Lemma resolve_process_spec_witness :
  exists tr, exec app_start_run tr (Val (Ok app_process), tt) /\
    announced (Some "com.app") tr app_process.
Proof.
  eexists. assert (exec app_start_run _ (Val (Ok app_process), tt)) as H by run_in app_start_env.
  split; [exact H|].
  destruct (@resolve_process_spec binder_codes legacy_flags unit _ _ _ _ _ _ _ _ _ H ltac:(discriminate))
    as (_ & _ & _ & Hp).
  exact (proj1 (Hp app_process eq_refl)).
Defined.

Lemma resolve_process_terminates_witness :
  exists tr o, exec app_start_run tr (o, tt) /\ exists r, o = Val r.
Proof.
  eexists _, _. assert (exec app_start_run _ (_, tt)) as H by run_in app_start_env.
  split; [exact H|].
  refine (@resolve_process_terminates binder_codes legacy_flags unit 1 _ _ _ _ _ _ _ _ _ H _ _ _).
  - apply ticking_sorted. vm_compute. repeat constructor; vm_compute; congruence.
  - repeat constructor.
  - vm_compute. congruence.
Defined.

Definition uprobe_run : Prog SysI (outcome (result ResolvedProcess) * unit) :=
  @wait_for_app_start_uprobe binder_codes unit 101 (Some "com.app") (from_millis 100) tt.

Definition uprobe_trace : list ev := run_trace app_start_env uprobe_run.

(** Its poll of the ring buffer is the eighteenth call. *)
Definition uprobe_poll : ev :=
  existT (bpfRingBufPoll TyProcessChange 1 98) (2%Z, [app_change 0; app_change 77]).

Lemma app_start_probe_detached_witness :
  exec uprobe_run uprobe_trace (Val (Ok app_process), tt) /\
  uprobe_trace = take 17 uprobe_trace ++ uprobe_poll :: drop 18 uprobe_trace /\
  exists fd, opened (take 17 uprobe_trace) = [fd] /\ closed (take 17 uprobe_trace) = [fd].
Proof.
  assert (exec uprobe_run uprobe_trace (Val (Ok app_process), tt)) as H by run_in app_start_env.
  assert (uprobe_trace = take 17 uprobe_trace ++ uprobe_poll :: drop 18 uprobe_trace) as Htr
    by (vm_compute; reflexivity).
  split; [exact H|]. split; [exact Htr|].
  exact (@app_start_probe_detached binder_codes unit _ _ _ _ _ _ _ _ _ _ H Htr eq_refl).
Defined.
