(* ===== verification/BpfMap.v ===== *)
(** * BpfMap: the map of binder transaction filters
    ([daemon/core/bpf_map.rs], [daemon/android/bpf_map.rs],
    [daemon/android/bpf_map/binder_transaction.rs])

    Keys are C arrays of 128 bytes and values arrays of ten codes; [Strings] and
    [Vec]s are truncated and padded to fit. *)

From S2P Require Import Prelude Effects RustStd Data System Fixtures Handler Bpf.

Local Open Scope rust_scope.
Local Open Scope string_scope.
Local Open Scope list_scope.

(** [unsafe trait BpfMap]; C keys are byte arrays and C values arrays of codes. *)
Class BpfMap (M : Type) := {
  map_MAP_PATH : string;
  K : Type;
  V : Type;
  to_c_key : K -> list byte;
  to_c_value : V -> list Z;
  from_c_value : list Z -> V;
  from_c_key : list byte -> K
}.
Arguments map_MAP_PATH M {_}.
Arguments K M {_}.
Arguments V M {_}.
Arguments to_c_key M {_}.
Arguments to_c_value M {_}.
Arguments from_c_value M {_}.
Arguments from_c_key M {_}.

(** ** [BpfMapAccessor]: it owns the handle *)

Section Accessor.
Context (M : Type) `{BpfMap M} {S : Type}.

Definition BpfMapAccessor_new : Sys S (result Z) :=
  let? handle := bpf_map_open_exclusive_rw (map_MAP_PATH M) in
  mret (Ok handle).

Definition BpfMapAccessor_put (handle : Z) (key : K M) (value : V M) (flags : UpdateMapElemFlags) :
    Sys S (result unit) :=
  bpf_map_update_elem handle (to_c_key M key) (to_c_value M value) flags.

Definition BpfMapAccessor_get (handle : Z) (key : K M) : Sys S (result (option (V M))) :=
  let? found := bpf_map_lookup_elem handle (to_c_key M key) in
  mret (Ok (option_map (from_c_value M) found)).

Definition BpfMapAccessor_get_first_key (handle : Z) : Sys S (result (option (K M))) :=
  let? found := bpf_map_get_first_key handle in
  mret (Ok (option_map (from_c_key M) found)).

Definition BpfMapAccessor_delete (handle : Z) (key : K M) : Sys S (result bool) :=
  bpf_map_delete_elem handle (to_c_key M key).

Definition BpfMapAccessor_drop (handle : Z) : Sys S unit := bpf_map_close handle.

End Accessor.

(** ** The binder interface map *)

Definition MAX_STRING_LENGTH : nat := 128.
Definition MAX_CODES : nat := 10.

Inductive BinderInterfaceBpfMap := mkBinderInterfaceBpfMap.

(** [copy_from_slice] of the first [min len n] elements into a zeroed array. *)
Definition copy_into {A} (n : nat) (zero : A) (l : list A) : list A :=
  let len := Nat.min (length l) n in
  firstn len l ++ replicate (n - len) zero.

Definition binder_to_c_key (key : string) : list byte :=
  copy_into MAX_STRING_LENGTH nul (list_byte_of_string key).

Definition binder_to_c_value (value : list Z) : list Z := copy_into MAX_CODES 0%Z value.

Definition binder_from_c_value (value : list Z) : list Z := value.

(** [bytes_as_str(..).unwrap_or_default()]. *)
Definition binder_from_c_key (key : list byte) : string :=
  match bytes_as_str key with Ok s => s | Err _ => EmptyString end.

#[export] Instance BinderInterfaceBpfMap_BpfMap : BpfMap BinderInterfaceBpfMap := {
  map_MAP_PATH := "/sys/fs/bpf/uprobestats/map_Binder_interfaces";
  K := string;
  V := list Z;
  to_c_key := binder_to_c_key;
  to_c_value := binder_to_c_value;
  from_c_value := binder_from_c_value;
  from_c_key := binder_from_c_key
}.

(** [BinderInterfaceMapAccessor::drain], with fuel for its [while let]. *)
Fixpoint drain {S} (fuel : nat) (handle : Z) : Sys S (result unit) :=
  match fuel with
  | O => no_fuel
  | Datatypes.S fuel' =>
      let? key := BpfMapAccessor_get_first_key BinderInterfaceBpfMap handle in
      match key with
      | None => mret (Ok tt)
      | Some key =>
          let? deleted := BpfMapAccessor_delete BinderInterfaceBpfMap handle key in
          if negb deleted then mret (Err (EAnyhow "Failed to delete key {}"))
          else drain fuel' handle
      end
  end.

(** ** Lemmas *)

Lemma list_byte_of_string_inj (s t : string) :
  list_byte_of_string s = list_byte_of_string t -> s = t.
Proof.
  intros H. rewrite <- (string_of_list_byte_of_string s), H. apply string_of_list_byte_of_string.
Qed.

Lemma copy_into_length {A} n (zero : A) l : length (copy_into n zero l) = n.
Proof. unfold copy_into. rewrite length_app, length_firstn, length_replicate. lia. Qed.

Lemma copy_into_fits {A} n (zero : A) l :
  (length l <= n)%nat -> copy_into n zero l = l ++ replicate (n - length l) zero.
Proof. intros H. unfold copy_into. rewrite Nat.min_l, firstn_all by lia. done. Qed.

(** The string in the C array of a key. *)
Lemma bytes_as_str_c_key (s : string) :
  (length (list_byte_of_string s) < MAX_STRING_LENGTH)%nat -> no_nul s = true -> is_str s = true ->
  bytes_as_str (binder_to_c_key s) = Ok s.
Proof.
  intros Hlen Hnul Hstr. unfold binder_to_c_key. rewrite copy_into_fits by lia.
  apply bytes_as_str_Ok. exists (list_byte_of_string s).
  destruct (MAX_STRING_LENGTH - length (list_byte_of_string s)) as [|n] eqn:Hn; [lia|].
  exists (replicate n nul). split_and!; [done| |done|].
  - by apply no_nul_spec.
  - by rewrite string_of_list_byte_of_string.
Qed.

(** The key a C array reads back as. *)
Lemma from_to_c_key (s : string) :
  (length (list_byte_of_string s) < MAX_STRING_LENGTH)%nat -> no_nul s = true -> is_str s = true ->
  binder_from_c_key (binder_to_c_key s) = s.
Proof. intros ???. unfold binder_from_c_key. by rewrite bytes_as_str_c_key. Qed.

(** Without room for the NUL the array does not read back at all. *)
Lemma from_to_c_key_long (s : string) :
  (MAX_STRING_LENGTH <= length (list_byte_of_string s))%nat -> no_nul s = true ->
  binder_from_c_key (binder_to_c_key s) = EmptyString.
Proof.
  intros Hlen Hnul. unfold binder_from_c_key, binder_to_c_key, copy_into.
  rewrite Nat.min_r by done. rewrite Nat.sub_diag, app_nil_r.
  destruct (bytes_as_str _) as [t|] eqn:Hb; [|done].
  apply bytes_as_str_Ok in Hb as (p & rest & Hp & _ & _ & _). exfalso.
  apply no_nul_spec in Hnul. rewrite <- (firstn_skipn MAX_STRING_LENGTH), Hp in Hnul.
  rewrite !Forall_app, Forall_cons in Hnul. by destruct Hnul as [(_ & Hn & _) _].
Qed.

(** ** The kernel's hash map, as bpf(2) documents it *)

Notation CMap := (@gmap (list byte) (list_eq_dec) (list_countable) (list Z)).

(** One call and its answer take the map [m] to [m'].  An update may always fail
    (the map may be full), and must when the flag forbids it. *)
Definition map_step (m : CMap) (e : ev) (m' : CMap) : Prop :=
  match e with
  | existT (bpfMapGetFirstKey _) (res, key) =>
      m' = m /\ ((res = (- ENOENT)%Z /\ m = ∅) \/ (res = 0%Z /\ is_Some (m !! key)))
  | existT (bpfMapDeleteElem _ key) res =>
      (res = 0%Z /\ is_Some (m !! key) /\ m' = delete key m) \/
      (res = (- ENOENT)%Z /\ m !! key = None /\ m' = m)
  | existT (bpfMapUpdateElem _ key value flags) res =>
      (res = 0%Z /\ m' = <[key := value]> m /\
         (flags = 1%Z -> m !! key = None) /\ (flags = 2%Z -> is_Some (m !! key))) \/
      (res <> 0%Z /\ m' = m)
  | existT (bpfMapLookupElem _ key) (res, value) =>
      m' = m /\ ((res = 0%Z /\ m !! key = Some value) \/ (res = (- ENOENT)%Z /\ m !! key = None))
  | _ => m' = m
  end.

Fixpoint map_exchange (m : CMap) (tr : list ev) (m' : CMap) : Prop :=
  match tr with
  | [] => m' = m
  | e :: tr' => exists m1, map_step m e m1 /\ map_exchange m1 tr' m'
  end.

Lemma map_exchange_app m t1 t2 m' :
  map_exchange m (t1 ++ t2) m' <-> exists m1, map_exchange m t1 m1 /\ map_exchange m1 t2 m'.
Proof.
  revert m. induction t1 as [|e t1 IH]; intros m; cbn.
  - naive_solver.
  - setoid_rewrite IH. naive_solver.
Qed.

(** A key that reads back as the name it was written for. *)
Definition readable (k : list byte) : Prop := binder_to_c_key (binder_from_c_key k) = k.

(** The two calls of one round of [drain]. *)
Lemma exec_get_first_key {S} handle (s : S) tr o s' :
  exec (BpfMapAccessor_get_first_key BinderInterfaceBpfMap handle s) tr (o, s') ->
  exists res key, tr = [existT (bpfMapGetFirstKey handle) (res, key) : ev] /\ s' = s /\
    o = Val (if (res =? - ENOENT)%Z then Ok None
             else if (res =? 0)%Z then Ok (Some (binder_from_c_key key))
             else Err (EAnyhow "Failed to get first BPF map key. Error code: {}")).
Proof.
  unfold BpfMapAccessor_get_first_key, bpf_map_get_first_key. intros H. wp_start H. wp_cbn.
  intros [res key]. wp_cbn. destruct (res =? - ENOENT)%Z eqn:H1; wp_cbn; [exists res, key; by rewrite H1|].
  destruct (res =? 0)%Z eqn:H2; cbn; exists res, key; by rewrite H1, H2.
Qed.

Lemma exec_delete {S} handle key (s : S) tr o s' :
  exec (BpfMapAccessor_delete BinderInterfaceBpfMap handle key s) tr (o, s') ->
  exists res, tr = [existT (bpfMapDeleteElem handle (binder_to_c_key key)) res : ev] /\ s' = s /\
    o = Val (if (res =? - ENOENT)%Z then Ok false
             else if (res =? 0)%Z then Ok true
             else Err (EAnyhow "Failed to delete BPF map element. Error code: {}")).
Proof.
  unfold BpfMapAccessor_delete, bpf_map_delete_elem. intros H. wp_start H. wp_cbn.
  intros res. wp_cbn. destruct (res =? - ENOENT)%Z eqn:H1; wp_cbn; [exists res; by rewrite H1|].
  destruct (res =? 0)%Z eqn:H2; cbn; exists res; by rewrite H1, H2.
Qed.

Lemma drain_state {S} fuel handle (s : S) tr o s' :
  exec (drain fuel handle s) tr (o, s') -> s' = s.
Proof.
  revert tr. induction fuel as [|fuel IH]; intros tr H; [by destruct H as [_ [= _ ->]]|].
  cbn [drain] in H.
  apply exec_mtry in H as [H|[(e & s1 & H & [= -> ->])|[(msg & s1 & H & [= -> ->])|(s1 & H & [= -> ->])]]];
    [|by apply exec_get_first_key in H as (? & ? & _ & -> & _)..].
  destruct H as (t1 & t2 & k & s1 & -> & (res & key & -> & -> & Ho)%exec_get_first_key & H).
  destruct k as [k|]; [|by destruct H as [_ [= _ ->]]].
  apply exec_mtry in H as [H|[(e & s1 & H & [= -> ->])|[(msg & s1 & H & [= -> ->])|(s1 & H & [= -> ->])]]];
    [|by apply exec_delete in H as (? & _ & -> & _)..].
  destruct H as (t3 & t5 & deleted & s1 & -> & (res' & -> & -> & _)%exec_delete & H).
  destruct deleted; cbn [negb] in H; [by apply (IH t5)|by destruct H as [_ [= _ ->]]].
Qed.

(** Against a kernel map, a round of [drain] ends it or removes the first key. *)
Lemma drain_round {S} fuel handle (s : S) tr o s' m m' :
  exec (drain (Datatypes.S fuel) handle s) tr (o, s') -> map_exchange m tr m' ->
  s' = s /\
  ((m = ∅ /\ m' = ∅ /\ o = Val (Ok tt)) \/
   exists key, is_Some (m !! key) /\
     ((m !! binder_to_c_key (binder_from_c_key key) = None /\ m' = m /\
         o = Val (Err (EAnyhow "Failed to delete key {}"))) \/
      (is_Some (m !! binder_to_c_key (binder_from_c_key key)) /\ exists t,
         exec (drain fuel handle s) t (o, s') /\
         map_exchange (delete (binder_to_c_key (binder_from_c_key key)) m) t m'))).
Proof.
  intros H Hm. cbn [drain] in H.
  apply exec_mtry in H as [H|[(e & s1 & H & [= -> ->])|[(msg & s1 & H & _)|(s1 & H & _)]]];
    [|apply exec_get_first_key in H as (res & key & -> & -> & Ho)..].
  - destruct H as (t1 & t2 & k & s1 & -> & (res & key & -> & -> & Ho)%exec_get_first_key & H).
    destruct Hm as (m1 & [-> [[-> ->]|[-> Hkey]]] & Hm).
    + cbn in Ho. injection Ho as ->. destruct H as [-> [= -> ->]]. cbn in Hm. auto.
    + cbn in Ho. injection Ho as ->.
      apply exec_mtry in H as [H|[(e & s1 & H & [= -> ->])|[(msg & s1 & H & _)|(s1 & H & _)]]];
        [|apply exec_delete in H as (res & -> & -> & Ho)..].
      * destruct H as (t3 & t4 & deleted & s1 & -> & (res & -> & -> & Ho)%exec_delete & H).
        destruct Hm as (m1 & [(-> & Hd & ->)|(-> & Hd & ->)] & Hm); cbn in Ho; injection Ho as ->.
        -- pose proof (drain_state fuel handle _ _ _ _ H) as ->.
           split; [done|]. right. exists key. split; [done|]. right. eauto.
        -- destruct H as [-> [= -> ->]]. cbn in Hm. subst. split; [done|]. right. exists key.
           split; [done|]. by left.
      * destruct Hm as (m1 & [(-> & _ & _)|(-> & _ & _)] & _); discriminate Ho.
      * destruct Hm as (m1 & [(-> & _ & _)|(-> & _ & _)] & _); discriminate Ho.
      * destruct Hm as (m1 & [(-> & _ & _)|(-> & _ & _)] & _); discriminate Ho.
  - destruct Hm as (m1 & [_ [[-> _]|[-> _]]] & _); discriminate Ho.
  - destruct Hm as (m1 & [_ [[-> _]|[-> _]]] & _); discriminate Ho.
  - destruct Hm as (m1 & [_ [[-> _]|[-> _]]] & _); discriminate Ho.
Qed.

(** One round more than there are entries is enough fuel, readable or not. *)
Lemma drain_fuel {S} fuel handle (s : S) tr o s' m m' :
  exec (drain fuel handle s) tr (o, s') -> map_exchange m tr m' -> (size m < fuel)%nat ->
  o <> NoFuel /\ (size m' <= size m)%nat.
Proof.
  revert m tr. induction fuel as [|fuel IH]; intros m tr H Hm Hfuel; [lia|].
  destruct (drain_round _ _ _ _ _ _ _ _ H Hm)
    as [-> [(-> & -> & ->)|(key & _ & [(_ & -> & ->)|([v Hk] & t & Ht & Hmt)])]]; [done..|].
  assert (size m <> 0%nat) as Hsz.
  { intros E. apply map_size_empty_inv in E. subst. by rewrite lookup_empty in Hk. }
  assert (size (delete (binder_to_c_key (binder_from_c_key key)) m) < size m)%nat
    by (rewrite map_size_delete, Hk; lia).
  destruct (IH _ t Ht Hmt); [lia|]. split; [done|lia].
Qed.

Lemma drain_readable {S} fuel handle (s : S) tr o s' m m' :
  exec (drain fuel handle s) tr (o, s') -> map_exchange m tr m' ->
  map_Forall (fun k _ => readable k) m -> o <> NoFuel -> o = Val (Ok tt) /\ m' = ∅.
Proof.
  revert m tr. induction fuel as [|fuel IH]; intros m tr H Hm Hkeys Hn.
  { by destruct H as [_ [= -> _]]. }
  destruct (drain_round _ _ _ _ _ _ _ _ H Hm) as [-> [(-> & -> & ->)|(key & [v Hkey] & Hcase)]];
    [done|].
  pose proof (Hkeys key v Hkey) as Hr. unfold readable in Hr. cbn beta in Hr. rewrite Hr in Hcase.
  destruct Hcase as [(Hno & _)|(_ & t & Ht & Hmt)]; [congruence|].
  apply (IH (delete key m) t); [done..| |done]. by apply map_Forall_delete.
Qed.

(** ** A kernel map to run against *)

(** [map_step] as a function: the map after the event, if the answer is legal. *)
Definition map_run_step (m : CMap) (e : ev) : option CMap :=
  match e with
  | existT (bpfMapGetFirstKey _) (res, key) =>
      if (res =? - ENOENT)%Z then if bool_decide (m = ∅) then Some m else None
      else if (res =? 0)%Z then m !! key ≫= fun _ => Some m
      else None
  | existT (bpfMapDeleteElem _ key) res =>
      if (res =? 0)%Z then m !! key ≫= fun _ => Some (delete key m)
      else if (res =? - ENOENT)%Z then match m !! key with None => Some m | _ => None end
      else None
  | existT (bpfMapUpdateElem _ key value flags) res =>
      if (res =? 0)%Z then
        match m !! key with
        | Some _ => if (flags =? 1)%Z then None else Some (<[key := value]> m)
        | None => if (flags =? 2)%Z then None else Some (<[key := value]> m)
        end
      else Some m
  | existT (bpfMapLookupElem _ key) (res, value) =>
      if (res =? 0)%Z then if bool_decide (m !! key = Some value) then Some m else None
      else if (res =? - ENOENT)%Z then match m !! key with None => Some m | _ => None end
      else None
  | _ => Some m
  end.

Fixpoint map_run (m : CMap) (tr : list ev) : option CMap :=
  match tr with
  | [] => Some m
  | e :: tr' => map_run_step m e ≫= fun m1 => map_run m1 tr'
  end.

Lemma map_run_step_sound m e m' : map_run_step m e = Some m' -> map_step m e m'.
Proof.
  destruct e as [[] r]; cbn; try (by intros [= ->]).
  - destruct (Z.eqb_spec r 0) as [->|Hr]; [|intros [= ->]; auto]. intros H. left.
    destruct (m !! key) as [v|] eqn:Hk;
      [destruct (Z.eqb_spec flags 1)|destruct (Z.eqb_spec flags 2)];
      simplify_eq; split_and!; eauto; lia.
  - destruct r as [res val]. destruct (Z.eqb_spec res 0) as [->|Hr].
    + case_bool_decide; [|done]. intros [= ->]. auto.
    + destruct (Z.eqb_spec res (- ENOENT)) as [->|]; [|done].
      destruct (m !! key) eqn:Hk; [done|]. intros [= ->]. auto.
  - destruct r as [res key]. destruct (Z.eqb_spec res (- ENOENT)) as [->|].
    + case_bool_decide; [|done]. intros [= ->]. auto.
    + destruct (Z.eqb_spec res 0) as [->|Hr]; [|done].
      destruct (m !! key) eqn:Hk; [|done]. intros [= ->]. eauto.
  - destruct (Z.eqb_spec r 0) as [->|Hr].
    + destruct (m !! key) eqn:Hk; [|done]. intros [= <-]. left. eauto.
    + destruct (Z.eqb_spec r (- ENOENT)) as [->|]; [|done].
      destruct (m !! key) eqn:Hk; [done|]. intros [= ->]. auto.
Qed.

Lemma map_run_sound m tr m' : map_run m tr = Some m' -> map_exchange m tr m'.
Proof.
  revert m. induction tr as [|e tr IH]; intros m; cbn; [by intros [= ->]|].
  destruct (map_run_step m e) as [m1|] eqn:He; [|done]. intros H. exists m1.
  split; [by apply map_run_step_sound|by apply IH].
Qed.

(** The environment answering from a kernel map that starts as [m0]. *)
Definition kernel_map (m0 : CMap) (past : list ev) : CMap :=
  foldr (fun e m => default m (map_run_step m e)) m0 past.

Definition kernel_env (m0 : CMap) (base : Env SysI) : Env SysI := fun c past =>
  match c return SysResp c with
  | bpfMapGetFirstKey _ =>
      match map_to_list (kernel_map m0 past) with
      | [] => ((- ENOENT)%Z, [])
      | (k, _) :: _ => (0%Z, k)
      end
  | bpfMapDeleteElem _ k =>
      match kernel_map m0 past !! k with Some _ => 0%Z | None => (- ENOENT)%Z end
  | bpfMapUpdateElem _ k _ flags =>
      match kernel_map m0 past !! k with
      | Some _ => if (flags =? 1)%Z then (-17)%Z else 0%Z
      | None => if (flags =? 2)%Z then (- ENOENT)%Z else 0%Z
      end
  | c' => base c' past
  end.

(** ** Properties *)

(** Keys round-trip exactly when they leave room for the terminator.  For an
    interface name without NUL bytes, the array read back is the name if and only
    if the name is shorter than 128 bytes (or empty); a longer one reads back as
    the empty string, so the map's iteration no longer names its entry. *)
Theorem binder_key_roundtrip (s : string)
    (Hnul : no_nul s = true) (Hstr : is_str s = true) :
  length (binder_to_c_key s) = 128%nat /\
  (binder_from_c_key (binder_to_c_key s) = s <-> (length (list_byte_of_string s) < 128)%nat) /\
  ((128 <= length (list_byte_of_string s))%nat ->
     binder_from_c_key (binder_to_c_key s) = EmptyString).
Proof.
  split_and!; [apply copy_into_length| |intros; by apply from_to_c_key_long].
  split; [|intros; by apply from_to_c_key].
  intros H. destruct (decide (length (list_byte_of_string s) < 128)%nat) as [|Hlong]; [done|].
  rewrite from_to_c_key_long in H by (done || (unfold MAX_STRING_LENGTH; lia)).
  subst s. cbn in Hlong. lia.
Qed.

(** Values keep the first ten codes.  The C value always has ten entries:
    the codes in order, cut after the tenth, then zeros; up to ten positive codes
    are recovered exactly by dropping the zeros. *)
Theorem binder_value_spec (codes : list Z) :
  length (binder_to_c_value codes) = 10%nat /\
  firstn (length codes) (binder_to_c_value codes) = firstn 10 codes /\
  ((length codes <= 10)%nat -> Forall (fun c => 0 < c)%Z codes ->
     List.filter (fun c => negb (c =? 0)%Z) (binder_from_c_value (binder_to_c_value codes)) = codes) /\
  ((10 < length codes)%nat -> exists c, c ∈ drop 10 codes /\
     binder_to_c_value codes = firstn 10 codes).
Proof.
  unfold binder_to_c_value, binder_from_c_value. split_and!.
  - apply copy_into_length.
  - unfold copy_into, MAX_CODES. destruct (decide (length codes <= 10)%nat) as [Hle|Hgt].
    + rewrite Nat.min_l, firstn_all by done. rewrite firstn_app, firstn_all, Nat.sub_diag.
      cbn. rewrite app_nil_r. by rewrite firstn_all2.
    + rewrite Nat.min_r by lia. rewrite Nat.sub_diag, app_nil_r. rewrite firstn_firstn.
      f_equal. lia.
  - intros Hle Hpos. rewrite copy_into_fits by done. rewrite List.filter_app.
    assert (forall n, List.filter (fun c => negb (c =? 0)%Z) (replicate n 0%Z) = []) as ->
      by (induction n; done).
    rewrite app_nil_r. induction Hpos as [|c l Hc Hl IH]; [done|]. cbn in *.
    destruct (Z.eqb_spec c 0); [lia|]. cbn. f_equal. apply IH. lia.
  - intros Hgt. unfold copy_into, MAX_CODES. rewrite Nat.min_r, Nat.sub_diag, app_nil_r by lia.
    destruct (drop 10 codes) as [|c l] eqn:Hd.
    + apply (f_equal length) in Hd. rewrite length_drop in Hd. cbn in Hd. lia.
    + exists c. split; [|done]. apply list_elem_of_here.
Qed.

(** C30. Draining empties the map.  Against any kernel map all of whose keys read
    back as the names they were written for, [drain] comes to an outcome (one
    round more than there are entries is enough fuel), and the outcome is success
    with no entry left. *)
Theorem drain_empties {S} fuel handle (s : S) tr o s' (m m' : CMap)
    (Hkeys : map_Forall (fun k _ => readable k) m) (Hfuel : (size m < fuel)%nat)
    (Hm : map_exchange m tr m')
    (H : exec (drain fuel handle s) tr (o, s')) :
  o = Val (Ok tt) /\ m' = ∅.
Proof.
  apply (drain_readable _ _ _ _ _ _ _ _ H Hm Hkeys).
  by apply (drain_fuel _ _ _ _ _ _ _ _ H Hm Hfuel).
Qed.

(** C39. A name of 128 bytes or more cannot be drained.  If the map holds only
    entries whose key fills the whole array (such a name is accepted by the config
    resolver and written truncated), the first round asks to delete the empty
    name: [drain] fails and the entries stay. *)
Theorem drain_stuck_on_long_keys {S} fuel handle (s : S) tr o s' (m m' : CMap)
    (Hne : m <> ∅) (Hfuel : (0 < fuel)%nat)
    (Hkeys : map_Forall (fun k _ => nul ∉ k) m)
    (Hm : map_exchange m tr m')
    (H : exec (drain fuel handle s) tr (o, s')) :
  o = Val (Err (EAnyhow "Failed to delete key {}")) /\ m' = m.
Proof.
  destruct fuel as [|fuel]; [lia|].
  destruct (drain_round _ _ _ _ _ _ _ _ H Hm) as [-> [(-> & _ & _)|(key & [v Hkey] & Hcase)]];
    [done|].
  pose proof (Hkeys key v Hkey) as Hr. cbn beta in Hr.
  assert (binder_from_c_key key = EmptyString) as He.
  { unfold binder_from_c_key, bytes_as_str.
    destruct (from_bytes_until_nul key) as [p|] eqn:Hp; [|done].
    apply from_bytes_until_nul_Ok in Hp as (rest & -> & _). destruct Hr. set_solver. }
  rewrite He in Hcase. destruct Hcase as [(_ & -> & ->)|([w Hw] & _)]; [done|].
  pose proof (Hkeys _ _ Hw) as Hc. cbn beta in Hc. destruct Hc. vm_compute. apply list_elem_of_here.
Qed.

(** ** Witnesses *)

Lemma binder_key_roundtrip_witness :
  binder_from_c_key (binder_to_c_key "android.app.IFoo") = "android.app.IFoo".
Proof.
  exact (proj2 (proj1 (proj2 (@binder_key_roundtrip "android.app.IFoo" eq_refl eq_refl)))
    ltac:(vm_compute; lia)).
Defined.

Lemma binder_value_spec_witness :
  List.filter (fun c => negb (c =? 0)%Z) (binder_from_c_value (binder_to_c_value [3; 5]%Z)) = [3; 5]%Z.
Proof.
  refine (proj1 (proj2 (proj2 (@binder_value_spec [3; 5]%Z))) _ _);
    [vm_compute; lia|repeat constructor].
Defined.

Definition short_key : list byte := binder_to_c_key "a.b".
Definition long_key : list byte := replicate 128 Byte.x61.

(** [Hm]: the exchange of the run [H] takes the kernel map [m] to [m']. *)
Ltac exchange_of H m m' Hm :=
  lazymatch type of H with
  | exec _ ?tr _ =>
      assert (map_exchange m tr m') as Hm
        by (apply map_run_sound; refine (bool_decide_eq_true_1 _ _); vm_compute; reflexivity)
  end.

Definition one_entry (k : list byte) : CMap := {[ k := [3%Z] ]}.

Lemma drain_empties_witness :
  exists tr, exec (drain (S := unit) 2 5 tt) tr (Val (Ok tt), tt) /\
    exists m', map_exchange (one_entry short_key) tr m' /\ m' = ∅.
Proof.
  eexists. assert (exec (drain (S := unit) 2 5 tt) _ (Val (Ok tt), tt)) as H
    by run_in (kernel_env (one_entry short_key) benign_env).
  split; [exact H|].
  exists ∅. exchange_of H (one_entry short_key) (∅ : CMap) Hm.
  split; [exact Hm|].
  refine (proj2 (@drain_empties unit _ _ _ _ _ _ _ _ _ _ Hm H)).
  - apply map_Forall_singleton. vm_compute. reflexivity.
  - vm_compute. lia.
Defined.

Lemma drain_stuck_on_long_keys_witness :
  exists tr, exec (drain (S := unit) 2 5 tt) tr
      (Val (Err (EAnyhow "Failed to delete key {}")), tt) /\
    exists m', map_exchange (one_entry long_key) tr m' /\ m' = one_entry long_key.
Proof.
  eexists. assert (exec (drain (S := unit) 2 5 tt) _
    (Val (Err (EAnyhow "Failed to delete key {}")), tt)) as H
    by run_in (kernel_env (one_entry long_key) benign_env).
  split; [exact H|].
  exists (one_entry long_key). exchange_of H (one_entry long_key) (one_entry long_key) Hm.
  split; [exact Hm|].
  refine (proj2 (@drain_stuck_on_long_keys unit _ _ _ _ _ _ _ _ _ _ _ Hm H)).
  - apply map_non_empty_singleton.
  - lia.
  - apply map_Forall_singleton. refine (bool_decide_unpack _ _). vm_compute. exact I.
Defined.
