(* ===== verification/Task.v ===== *)
(** * Task: executing one resolved task ([daemon/android/task.rs])

    The four steps of a task: resolving the config, claiming its maps in the
    global state, executing it, and releasing the maps.  [fuel] bounds the loops
    of the polls and of the drain. *)

From S2P Require Import Prelude Effects RustStd Data System Fixtures Guardrail ConfigResolver Handler.
From S2P Require Import ArtTest StatsAtoms Bpf BpfMap Poll.

Local Open Scope rust_scope.
Local Open Scope string_scope.
Local Open Scope list_scope.

(** ** Steps 2 and 4: the global state *)

(** [ActiveState]; the [LazyServiceGuard] it also holds keeps the service from
    being stopped, and has no other effect. *)
Record ActiveState := mkActiveState { polled_bpf_maps : gset string }.

Definition GlobalState : Type := option ActiveState.

Definition update_polled_bpf_maps (state : GlobalState) (task : ResolvedTask) :
    GlobalState * result unit :=
  let new_maps := rt_bpf_map_paths task in
  match state with
  | None => (Some {| polled_bpf_maps := new_maps |}, Ok tt)
  | Some active_state =>
      let conflicts := new_maps ∩ polled_bpf_maps active_state in
      if negb (bool_decide (conflicts = ∅)) then
        (state, Err (EAnyhow "BPF maps already in use: {:?}"))
      else (Some {| polled_bpf_maps := polled_bpf_maps active_state ∪ new_maps |}, Ok tt)
  end.

(** The value of [GlobalState] after the call, or the panic. *)
Definition cleanup_polled_bpf_maps (state : GlobalState) (task : ResolvedTask) :
    outcome GlobalState :=
  match state with
  | None => Panics "cleanup_active_maps called with no active state. This should never happen."
  | Some active_state =>
      let polled := polled_bpf_maps active_state ∖ rt_bpf_map_paths task in
      if bool_decide (polled = ∅) then Val None
      else Val (Some {| polled_bpf_maps := polled |})
  end.

Section Execute.
Context {Tg : Target} {F : Flags} {O : HashOrder} {SH : StringHash} {S : Type}.
Variable at_least_cinnamon_bun : bool.

(** ** Step 3a *)

Definition write_binder_transaction_filter_to_binder_bpf_map
    (binder_transaction_filters : gmap string InterfaceConfig) (handle : Z) :
    Sys S (result unit) :=
  for_each (map_iter binder_transaction_filters) (fun '(interface_name, interface_config) =>
    let? _ := BpfMapAccessor_put BinderInterfaceBpfMap handle interface_name
                (method_ids interface_config) Insert in
    mret (Ok tt)).

(** The loop of [setup_binder_transaction_filters]; the accessor opened so far is
    dropped when an error returns. *)
Fixpoint setup_loop (fuel : nat) (probes : list ResolvedProbe) (maybe_map : option Z) :
    Sys S (result (option Z)) :=
  match probes with
  | [] => mret (Ok maybe_map)
  | probe :: probes' =>
      if bool_decide (pr_binder_transaction_filters probe = ∅)
      then setup_loop fuel probes' maybe_map
      else
        let? handle :=
          match maybe_map with
          | Some handle => mret (Ok handle)
          | None => BpfMapAccessor_new BinderInterfaceBpfMap
          end in
        let! r := write_binder_transaction_filter_to_binder_bpf_map
                    (pr_binder_transaction_filters probe) handle in
        match r with
        | Ok _ => setup_loop fuel probes' (Some handle)
        | Err e =>
            let! drained := drain fuel handle in
            let! _ := BpfMapAccessor_drop handle in
            mret (Err (EAnyhow
              match drained with
              | Ok _ => "Failed to write binder transaction filter to bpf map: {}"
              | Err _ => "Failed to write *and* drain binder interface bpf map. write error: {}, drain error: {}"
              end))
        end
  end.

Definition setup_binder_transaction_filters (fuel : nat) (probes : list ResolvedProbe) :
    Sys S (result (option Z)) :=
  setup_loop fuel probes None.

(** ** Step 3b *)

Definition attach_probe (task : ResolvedTask) (probe : ResolvedProbe) : Sys S (result Z) :=
  let? offset := mret (try_into I32 (of_method_offset (pr_offsets probe))) in
  let? fd :=
    on_err (bpf_perf_event_open (of_container_path (pr_offsets probe)) offset
              (rp_pid (rt_resolved_process task)) (pr_bpf_program_path probe))
      (fun e =>
         let! _ := write_internal_error ErrorTypeBpfProgramAttachFailed (rt_id task)
                     (Some (pr_bpf_program_path probe)) None 0 in
         mret (EReportedToStatsd e)) in
  match bpf_program_path_to_enum (pr_bpf_program_path probe) with
  | Err e => let! _ := OwnedFd_drop fd in mret (Err e)
  | Ok program =>
      let! _ := ext (E := SysI)
        (stats_write_bpf_attached program
           (md_fully_qualified_class_name (pr_method_descriptor probe))
           (md_method_name (pr_method_descriptor probe))
           (rp_name (rt_resolved_process task)) (rt_id task)) in
      mret (Ok fd)
  end.

(** Dropping a [Vec<OwnedFd>], front to back. *)
Fixpoint drop_fds (fds : list Z) : Sys S unit :=
  match fds with
  | [] => mret tt
  | fd :: fds' => let! _ := OwnedFd_drop fd in drop_fds fds'
  end.

(** [map(..).collect::<Result<Vec<OwnedFd>>>()]: an error drops the fds
    collected so far. *)
Fixpoint attach_probes (task : ResolvedTask) (fds : list Z) (probes : list ResolvedProbe) :
    Sys S (result (list Z)) :=
  match probes with
  | [] => mret (Ok fds)
  | probe :: probes' =>
      let! r := attach_probe task probe in
      match r with
      | Ok fd => attach_probes task (fds ++ [fd]) probes'
      | Err e => let! _ := drop_fds fds in mret (Err e)
      end
  end.

(** What joining a thread gives: its error, flattened to a message. *)
Definition join_error (o : outcome (result unit)) : option error :=
  match o with
  | Val (Ok _) => None
  | Val (Err _) => Some (EAnyhow "poll_registry error: {}")
  | Panics _ => Some (EAnyhow "Thread panic: {p:?}")
  | NoFuel => None
  end.

(** [thread::scope]: one thread per map, all joined before it returns. *)
Definition poll_threads (fuel : nat) (task : ResolvedTask) : Sys S (list error) := fun s =>
  pbind (par_list (map (fun map_path =>
           poll_registry at_least_cinnamon_bun fuel map_path task (rt_duration task) tt)
           (set_iter (rt_bpf_map_paths task))))
    (fun joined =>
       if existsb (fun '(o, _) => match o with NoFuel => true | _ => false end) joined
       then Ret (NoFuel, s)
       else Ret (Val (omap (fun '(o, _) => join_error o) joined), s)).

Definition attach_probes_and_poll_maps (fuel : nat) (task : ResolvedTask) : Sys S (result unit) :=
  let? _ := for_each (set_iter (rt_bpf_map_paths task)) (fun map_path =>
              let? _ := bpf_ring_buffer_discard map_path in mret (Ok tt)) in
  let? perf_event_fds := attach_probes task [] (rt_resolved_probes task) in
  with_drop
    (let! errors := poll_threads fuel task in
     if negb (bool_decide (length errors = 0%nat)) then
       mret (Err (EAnyhow "At least one thread returned error: {}"))
     else mret (Ok tt))
    (drop_fds perf_event_fds).

(** ** Step 3c, and the whole of step 3 *)

(** The accessor is dropped by its owner, [execute] here. *)
Definition cleanup_binder_transaction_filters (fuel : nat) (map : option Z) (task_id : Z) :
    Sys S unit :=
  match map with
  | None => mret tt
  | Some handle =>
      let! r := drain fuel handle in
      match r with
      | Ok _ => mret tt
      | Err e =>
          write_internal_error ErrorTypeBinderFilterCleanupFailed task_id None None 0
      end
  end.

Definition drop_map (map : option Z) : Sys S unit :=
  match map with
  | None => mret tt
  | Some handle => BpfMapAccessor_drop handle
  end.

Definition execute (fuel : nat) (task : ResolvedTask) : Sys S unit :=
  let! r := setup_binder_transaction_filters fuel (rt_resolved_probes task) in
  match r with
  | Ok map =>
      with_drop
        (let! r := attach_probes_and_poll_maps fuel task in
         let! _ :=
           match r with
           | Ok _ => mret tt
           | Err e =>
               if negb (is_reported e) && negb (is_uprobestats e) then
                 write_internal_error ErrorTypeTaskExecutionFailed (rt_id task) None None 0
               else mret tt
           end in
         cleanup_binder_transaction_filters fuel map (rt_id task))
        (drop_map map)
  | Err e =>
      write_internal_error ErrorTypeBinderFilterSetupFailed (rt_id task) None None 0
  end.

End Execute.

(** ** What an exchange shows of the kernel objects of a task *)

Definition opened_fd_of (e : ev) : option Z :=
  match e with
  | existT (bpfPerfEventOpen _ _ _ _) fd => if (0 <=? fd)%Z then Some fd else None
  | _ => None
  end.
Definition opened_fds (tr : list ev) : list Z := omap opened_fd_of tr.

Definition closed_fd_of (e : ev) : option Z :=
  match e with existT (close_fd fd) _ => Some fd | _ => None end.
Definition closed_fds (tr : list ev) : list Z := omap closed_fd_of tr.

Definition opened_map_of (e : ev) : option Z :=
  match e with
  | existT (bpfMapOpenExclusiveRW _) (res, handle) => if (res =? 0)%Z then Some handle else None
  | _ => None
  end.
Definition opened_maps (tr : list ev) : list Z := omap opened_map_of tr.

Definition closed_map_of (e : ev) : option Z :=
  match e with existT (bpfMapClose handle) _ => Some handle | _ => None end.
Definition closed_maps (tr : list ev) : list Z := omap closed_map_of tr.

Lemma opened_fds_app t1 t2 : opened_fds (t1 ++ t2) = opened_fds t1 ++ opened_fds t2.
Proof. apply omap_app. Qed.
Lemma closed_fds_app t1 t2 : closed_fds (t1 ++ t2) = closed_fds t1 ++ closed_fds t2.
Proof. apply omap_app. Qed.
Lemma opened_maps_app t1 t2 : opened_maps (t1 ++ t2) = opened_maps t1 ++ opened_maps t2.
Proof. apply omap_app. Qed.
Lemma closed_maps_app t1 t2 : closed_maps (t1 ++ t2) = closed_maps t1 ++ closed_maps t2.
Proof. apply omap_app. Qed.

#[local] Hint Rewrite opened_fds_app closed_fds_app opened_maps_app closed_maps_app : resources.

(** Calls that neither open nor close an fd; calls that do not concern a map. *)
Definition fd_free (c : SysCall) : bool :=
  match c with bpfPerfEventOpen _ _ _ _ | close_fd _ => false | _ => true end.
Definition map_free (c : SysCall) : bool :=
  match c with
  | bpfMapOpenExclusiveRW _ | bpfMapClose _ | bpfMapUpdateElem _ _ _ _ | bpfMapLookupElem _ _
  | bpfMapGetFirstKey _ | bpfMapDeleteElem _ _ => false
  | _ => true
  end.

Definition only (P : SysCall -> bool) (tr : list ev) : Prop :=
  Forall (fun e : ev => P (projT1 e) = true) tr.

Lemma only_nil P : only P [].
Proof. constructor. Qed.
#[export] Hint Resolve only_nil : core.

Lemma only_weaken (P Q : SysCall -> bool) tr :
  (forall c, P c = true -> Q c = true) -> only P tr -> only Q tr.
Proof. intros HPQ H. eapply Forall_impl; [exact H|]. intros e. apply HPQ. Qed.

Lemma only_fd_free tr : only fd_free tr -> opened_fds tr = [] /\ closed_fds tr = [].
Proof.
  induction 1 as [|[c r] tr Hc Htr [IH1 IH2]]; [done|].
  unfold opened_fds, closed_fds in *. cbn in *. destruct c; try discriminate Hc; cbn; auto.
Qed.

Lemma only_map_free tr : only map_free tr -> opened_maps tr = [] /\ closed_maps tr = [].
Proof.
  induction 1 as [|[c r] tr Hc Htr [IH1 IH2]]; [done|].
  unfold opened_maps, closed_maps in *. cbn in *. destruct c; try discriminate Hc; cbn; auto.
Qed.

Lemma only_map_free_exchange tr m m' : only map_free tr -> map_exchange m tr m' -> m' = m.
Proof.
  intros H. revert m. induction H as [|[c r] tr Hc Htr IH]; intros m Hm; [done|].
  destruct Hm as (m1 & Hs & Hm). apply IH in Hm as ->. cbn in Hc. destruct c; done.
Qed.

Section Lemmas.
Context {Tg : Target} {F : Flags} {O : HashOrder} {SH : StringHash} {S : Type}.
Implicit Types (s : S) (task : ResolvedTask).

Lemma exec_drop_fds fds s tr o s' :
  exec (drop_fds fds s) tr (o, s') ->
  o = Val tt /\ s' = s /\ opened_fds tr = [] /\ closed_fds tr = fds /\ only map_free tr /\
  created tr = [].
Proof.
  revert s tr. induction fds as [|fd fds IH]; intros s tr H.
  { destruct H as [-> [= -> ->]]. repeat constructor. }
  destruct H as (r & t & -> & H). apply IH in H as (-> & -> & H1 & H2 & H3 & H4).
  split_and!; [done|done|done|by rewrite <- H2|by constructor|done].
Qed.

Lemma exec_perf_event_open filename off pid prog s tr o s' :
  exec (bpf_perf_event_open filename off pid prog s) tr (o, s') ->
  s' = s /\ closed_fds tr = [] /\ only map_free tr /\ created tr = [] /\
  match o with
  | Val (Ok fd) => opened_fds tr = [fd]
  | Val (Err _) => opened_fds tr = []
  | _ => False
  end.
Proof.
  unfold bpf_perf_event_open, pure. intros H. wp_start H.
  destruct (c_string filename) as [f|e]; [|by cbn].
  destruct (c_string prog) as [p|e]; [|by cbn].
  wp_cbn. intros fd. wp_cbn. unfold opened_fds.
  destruct (0 <=? fd)%Z eqn:Hfd; cbn; rewrite Hfd; repeat constructor.
Qed.

Lemma exec_attach_probe task probe s tr o s' :
  exec (attach_probe task probe s) tr (o, s') ->
  s' = s /\ closed_fds tr = [] /\ only map_free tr /\ created tr = [] /\
  match o with
  | Val (Ok fd) => opened_fds tr = [fd]
  | Val (Err _) => opened_fds tr = []
  | _ => False
  end.
Proof.
  unfold attach_probe. rewrite exec_mtry_mret.
  destruct (try_into I32 _) as [off|e]; [|by intros [-> [= -> ->]]].
  destruct (bpf_program_path_to_enum_total (pr_bpf_program_path probe)) as [program ->].
  intros H.
  apply exec_mtry in H as [H|[(e & s1 & H & [= -> ->])|[(m & s1 & H & [= -> ->])|(s1 & H & [= -> ->])]]];
    [|apply exec_on_err_write in H as (t1 & o1 & H1 & Ho);
      apply exec_perf_event_open in H1 as (-> & A1 & A2 & A3 & A4)..].
  - destruct H as (t1 & t2 & fd & s1 & -> & H & (r & t & -> & -> & [= -> ->])).
    apply exec_on_err_write in H as (t1' & o1 & H1 & Ho).
    apply exec_perf_event_open in H1 as (-> & A1 & A2 & A3 & A4).
    destruct o1 as [[fd'|e]| |]; [|by destruct Ho|done..]. destruct Ho as [-> [= <-]].
    unfold only. rewrite Forall_app, created_app, A3. autorewrite with resources.
    rewrite A1, A4. split_and!; try done. repeat constructor.
  - destruct o1 as [[fd'|e']| |]; [by destruct Ho| |done..].
    destruct Ho as ([= ->] & r & ->).
    unfold only. rewrite Forall_app, created_app, A3. autorewrite with resources.
    rewrite A1, A4. split_and!; try done. repeat constructor.
  - destruct o1 as [[fd'|e']| |]; [by destruct Ho|by destruct Ho|done..].
  - destruct o1 as [[fd'|e']| |]; [by destruct Ho|by destruct Ho|done..].
Qed.

Lemma exec_attach_probes task fds probes s tr o s' :
  exec (attach_probes task fds probes s) tr (o, s') ->
  s' = s /\ only map_free tr /\ created tr = [] /\
  match o with
  | Val (Ok fds') => closed_fds tr = [] /\ fds' = fds ++ opened_fds tr
  | Val (Err _) => closed_fds tr = fds ++ opened_fds tr
  | _ => False
  end.
Proof.
  revert fds s tr. induction probes as [|probe probes IH]; intros fds s tr H; cbn [attach_probes] in H.
  { destruct H as [-> [= -> ->]]. split_and!; try done. by rewrite app_nil_r. }
  apply exec_mbind in H as [H|[(m & s2 & H & _)|(s2 & H & _)]];
    [|by apply exec_attach_probe in H as (_ & _ & _ & _ & [])..].
  destruct H as (t1 & t2 & r & s1 & -> & (-> & A1 & A2 & A3 & A4)%exec_attach_probe & H).
  unfold only. rewrite Forall_app, created_app, A3. autorewrite with resources. rewrite A1.
  destruct r as [fd|e].
  - apply IH in H as (-> & B1 & B2 & B3). rewrite A4. split_and!; try done.
    destruct o as [[fds'|e]| |]; [| |done..].
    + destruct B3 as [-> ->]. by rewrite <- (assoc_L (++)).
    + rewrite B3. by rewrite <- (assoc_L (++)).
  - apply exec_mbind in H as [H|[(m & s2 & H & _)|(s2 & H & _)]];
      [|by apply exec_drop_fds in H as [? _]..].
    destruct H as (t3 & t4 & [] & s1 & -> & (_ & -> & B1 & B2 & B3 & B4)%exec_drop_fds & -> & [= -> ->]).
    rewrite app_nil_r, A4. autorewrite with resources. rewrite B1, B2, app_nil_r. by rewrite ?app_nil_r.
Qed.

Lemma exec_poll_threads bun fuel task s tr o s' :
  exec (poll_threads bun fuel task s) tr (o, s') ->
  s' = s /\ only poll_call tr /\ (o = NoFuel \/ exists errors, o = Val errors).
Proof.
  unfold poll_threads. intros (t1 & t2 & joined & -> & H1 & H2)%exec_bind.
  assert (only poll_call t1) as Hp.
  { refine (prog_makes_only_par_list poll_call eq_refl _ _ t1 joined H1).
    apply Forall_map, List.Forall_forall. intros path _ tr x Hx. cbn in Hx.
    exact (makes_only_poll_registry _ _ _ _ _ tt tr x Hx). }
  destruct (existsb _ joined); destruct H2 as [-> [= -> ->]]; rewrite app_nil_r; eauto.
Qed.

Lemma poll_call_fd_free c : poll_call c = true -> fd_free c = true.
Proof. by destruct c. Qed.
Lemma poll_call_map_free c : poll_call c = true -> map_free c = true.
Proof. by destruct c. Qed.

Definition discard_call (c : SysCall) : bool :=
  match c with bpfRingBufDiscard _ => true | _ => false end.

Lemma exec_discards paths s tr o s' :
  exec (for_each paths (fun p => let? _ := bpf_ring_buffer_discard p in mret (Ok tt)) s) tr (o, s') ->
  s' = s /\ only discard_call tr /\ ((o = Val (Ok tt)) \/ exists e, o = Val (Err e)).
Proof.
  revert s tr. induction paths as [|p paths IH]; intros s tr H; cbn [for_each] in H.
  { destruct H as [-> [= -> ->]]. auto. }
  assert (Hd : forall s t x s1,
    exec ((let? _ := bpf_ring_buffer_discard p in mret (Ok tt)) s) t (x, s1) ->
    s1 = s /\ only discard_call t /\ ((x = Val (Ok tt)) \/ exists e, x = Val (Err e))).
  { clear. intros s t x s1 H. unfold bpf_ring_buffer_discard, pure in H. wp_start H.
    destruct (c_string p) as [q|e]; [|cbn; eauto]. wp_cbn. intros res. wp_cbn.
    destruct (0 <=? res)%Z; cbn; split_and!; try done; eauto; by repeat constructor. }
  apply exec_mtry in H as [H|[(e & s1 & H & [= -> ->])|[(m & s1 & H & [= -> ->])|(s1 & H & [= -> ->])]]];
    [|apply Hd in H; naive_solver..].
  destruct H as (t1 & t2 & [] & s1 & -> & (-> & A1 & _)%Hd & (-> & B1 & B2)%IH).
  split_and!; [done|by apply Forall_app|done].
Qed.

(** Attaching and polling: the perf events are closed, the result is never a
    panic, and a failure once ring buffers exist is the flattened one. *)
Lemma discards_only t :
  only discard_call t -> only map_free t /\ opened_fds t = [] /\ closed_fds t = [] /\ created t = [].
Proof.
  intros Ht. split; [by eapply only_weaken; [|exact Ht]; intros []|].
  assert (only fd_free t) as [-> ->]%only_fd_free by (by eapply only_weaken; [|exact Ht]; intros []).
  split_and!; [done..|]. clear -Ht. induction Ht as [|[c r] t Hc Ht IH]; [done|].
  unfold created in *. cbn in *. by destruct c.
Qed.

(** Polling, and what joining the threads gives. *)
Lemma exec_polled bun fuel task s t x s1 :
  exec ((let! errors := poll_threads bun fuel task in
         if negb (bool_decide (length errors = 0%nat)) then
           mret (Err (EAnyhow "At least one thread returned error: {}"))
         else mret (Ok tt)) s) t (x, s1) ->
  s1 = s /\ only poll_call t /\ (x = NoFuel \/ x = Val (Ok tt) \/
    x = Val (Err (EAnyhow "At least one thread returned error: {}"))).
Proof.
  intros [Hx|[(m & s2 & Hx & [= -> ->])|(s2 & Hx & [= -> ->])]]%exec_mbind.
  - destruct Hx as (t5 & t6 & errors & s2 & -> & (-> & C1 & _)%exec_poll_threads & Hx).
    destruct (bool_decide _); cbn [negb] in Hx; destruct Hx as [-> [= -> ->]];
      rewrite app_nil_r; auto.
  - apply exec_poll_threads in Hx as (-> & C1 & [?|[? ?]]); done.
  - apply exec_poll_threads in Hx as (-> & C1 & _); auto.
Qed.

Lemma exec_attach_and_poll bun fuel task s tr o s' :
  exec (attach_probes_and_poll_maps bun fuel task s) tr (o, s') ->
  s' = s /\ only map_free tr /\
  (o <> NoFuel -> closed_fds tr = opened_fds tr /\
     (o = Val (Ok tt) \/ exists e, o = Val (Err e))) /\
  (forall e, o = Val (Err e) -> created tr <> [] ->
     e = EAnyhow "At least one thread returned error: {}").
Proof.
  unfold attach_probes_and_poll_maps. intros H.
  apply exec_mtry in H as [H|[(e & s1 & H & [= -> ->])|[(m & s1 & H & [= -> ->])|(s1 & H & [= -> ->])]]];
    [|apply exec_discards in H as (-> & (A1 & A2 & A3 & A4)%discards_only & Ho); rewrite ?A2, ?A3, ?A4;
      naive_solver..].
  destruct H as (t1 & t2 & [] & s1 & -> & (-> & (A1 & A2 & A3 & A4)%discards_only & _)%exec_discards & H).
  unfold only in *. rewrite Forall_app, created_app, A4. autorewrite with resources.
  rewrite A2, A3. cbn [app].
  apply exec_mtry in H as [H|[(e & s1 & H & [= -> ->])|[(m & s1 & H & [= -> ->])|(s1 & H & [= -> ->])]]];
    [|apply exec_attach_probes in H as (-> & B1 & B2 & B3); rewrite ?B2; naive_solver..].
  destruct H as (t3 & t4 & fds & s1 & -> & (-> & B1 & B2 & B3 & B4)%exec_attach_probes & H).
  cbn [app] in B4. subst fds. unfold only in *. rewrite Forall_app, created_app, B2.
  autorewrite with resources. rewrite B3. cbn [app].
  apply exec_with_drop in H as [[-> H]|(Hn & t5 & t6 & s1 & o2 & -> & H & Hd)].
  - apply exec_polled in H as (-> & C1 & _). split_and!; try done.
    by eapply (only_weaken _ map_free); [apply poll_call_map_free|].
  - apply exec_polled in H as (-> & C1 & Ho).
    apply exec_drop_fds in Hd as (_ & -> & D1 & D2 & D3 & D4).
    assert (only fd_free t5) as [E1 E2]%only_fd_free
      by (by eapply only_weaken; [apply poll_call_fd_free|]).
    unfold only in *. rewrite Forall_app. autorewrite with resources. rewrite D1, D2, E1, E2.
    split_and!; try done.
    + by eapply (only_weaken _ map_free); [apply poll_call_map_free|].
    + intros _. rewrite !app_nil_r. naive_solver.
    + intros e -> _. naive_solver.
Qed.

Definition drain_call (c : SysCall) : bool :=
  match c with
  | bpfMapGetFirstKey _ | bpfMapDeleteElem _ _ | bpfMapUpdateElem _ _ _ _ => true
  | _ => false
  end.

Lemma only_drain_call tr : only drain_call tr ->
  only fd_free tr /\ opened_maps tr = [] /\ closed_maps tr = [].
Proof.
  intros H. split; [by eapply only_weaken; [|exact H]; intros []|].
  induction H as [|[c r] tr Hc Htr [IH1 IH2]]; [done|].
  unfold opened_maps, closed_maps in *. cbn in *. by destruct c.
Qed.

Lemma exec_drain_calls fuel handle s tr o s' :
  exec (drain fuel handle s) tr (o, s') ->
  s' = s /\ only drain_call tr /\ (o = NoFuel \/ exists r, o = Val r).
Proof.
  intros H. split; [by eapply drain_state|]. revert tr H.
  induction fuel as [|fuel IH]; intros tr H; cbn [drain] in H.
  { destruct H as [-> [= -> ->]]. auto. }
  apply exec_mtry in H as [H|[(e & s1 & H & [= -> ->])|[(m & s1 & H & [= -> ->])|(s1 & H & [= -> ->])]]];
    [|apply exec_get_first_key in H as (res & key & -> & _ & Ho)..];
    [|split; [by repeat constructor|eauto]|done|done].
  destruct H as (t1 & t2 & k & s1 & -> & (res & key & -> & -> & _)%exec_get_first_key & H).
  destruct k as [k|]; [|destruct H as [-> [= -> ->]]; split; [by repeat constructor|eauto]].
  apply exec_mtry in H as [H|[(e & s1 & H & [= -> ->])|[(m & s1 & H & [= -> ->])|(s1 & H & [= -> ->])]]];
    [|apply exec_delete in H as (res' & -> & _ & Ho)..];
    [|split; [by repeat constructor|eauto]|done|done].
  destruct H as (t3 & t4 & deleted & s1 & -> & (res' & -> & -> & _)%exec_delete & H).
  destruct deleted; cbn [negb] in H.
  - pose proof (drain_state _ _ _ _ _ _ H) as ->. apply IH in H as [H1 H2].
    split; [|done]. constructor; [done|]. by constructor.
  - destruct H as [-> [= -> ->]]. split; [by repeat constructor|eauto].
Qed.

Lemma exec_write_filters filters handle s tr o s' :
  exec (write_binder_transaction_filter_to_binder_bpf_map filters handle s) tr (o, s') ->
  s' = s /\ only drain_call tr /\ exists r, o = Val r.
Proof.
  unfold write_binder_transaction_filter_to_binder_bpf_map.
  generalize (map_iter filters) as l. intros l. revert s tr.
  induction l as [|[name ic] l IH]; intros s tr H; cbn [for_each] in H.
  { destruct H as [-> [= -> ->]]. eauto. }
  assert (Hp : forall s t x s1,
    exec ((let? _ := BpfMapAccessor_put BinderInterfaceBpfMap handle name (method_ids ic) Insert in
           mret (Ok tt)) s) t (x, s1) ->
    s1 = s /\ only drain_call t /\ exists r, x = Val r).
  { clear. intros s t x s1 H. unfold BpfMapAccessor_put, bpf_map_update_elem in H. wp_start H.
    wp_cbn. intros res. wp_cbn. destruct (res =? 0)%Z; cbn; split_and!; eauto; by repeat constructor. }
  apply exec_mtry in H as [H|[(e & s1 & H & [= -> ->])|[(m & s1 & H & [= -> ->])|(s1 & H & [= -> ->])]]];
    [|apply Hp in H; naive_solver..].
  destruct H as (t1 & t2 & [] & s1 & -> & (-> & A1 & _)%Hp & (-> & B1 & B2)%IH).
  split_and!; [done|by apply Forall_app|done].
Qed.

Lemma exec_map_open (mm : option Z) s tr o s' :
  exec ((match mm with
         | Some handle => mret (Ok handle)
         | None => BpfMapAccessor_new BinderInterfaceBpfMap
         end : Sys S (result Z)) s) tr (o, s') ->
  s' = s /\ only fd_free tr /\ closed_maps tr = [] /\
  match o with
  | Val (Ok handle) => [handle] = option_list mm ++ opened_maps tr
  | Val (Err _) => option_list mm ++ opened_maps tr = []
  | _ => False
  end.
Proof.
  destruct mm as [handle|].
  { intros [-> [= -> ->]]. repeat constructor. }
  unfold BpfMapAccessor_new, bpf_map_open_exclusive_rw, pure. intros H. wp_start H.
  destruct (c_string _) as [p|e]; [|by cbn]. wp_cbn. intros [res handle]. wp_cbn.
  unfold opened_maps. destruct (res =? 0)%Z eqn:Hr; cbn; rewrite Hr; repeat constructor.
Qed.

Lemma exec_setup_loop fuel probes mm s tr o s' :
  exec (setup_loop fuel probes mm s) tr (o, s') ->
  s' = s /\ only fd_free tr /\
  match o with
  | Val (Ok mm') => closed_maps tr = [] /\ option_list mm' = option_list mm ++ opened_maps tr
  | Val (Err _) => closed_maps tr = option_list mm ++ opened_maps tr
  | Panics _ => False
  | NoFuel => True
  end.
Proof.
  revert mm s tr. induction probes as [|probe probes IH]; intros mm s tr H; cbn [setup_loop] in H.
  { destruct H as [-> [= -> ->]]. rewrite app_nil_r. done. }
  destruct (bool_decide _); [by apply IH in H|].
  apply exec_mtry in H as [H|[(e & s1 & H & [= -> ->])|[(m & s1 & H & [= -> ->])|(s1 & H & [= -> ->])]]];
    [|apply exec_map_open in H as (-> & A1 & A2 & A3); rewrite ?A3; done..].
  destruct H as (t1 & t2 & handle & s1 & -> & (-> & A1 & A2 & A3)%exec_map_open & H).
  unfold only. rewrite Forall_app. autorewrite with resources. rewrite A2, (assoc_L (++)), <- A3.
  cbn [app].
  apply exec_mbind in H as [H|[(m & s1 & H & [= -> ->])|(s1 & H & [= -> ->])]];
    [|by apply exec_write_filters in H as (_ & _ & [? [=]])..].
  destruct H as (t3 & t4 & r & s1 & -> & (-> & (B1 & B2 & B3)%only_drain_call & _)%exec_write_filters & H).
  rewrite Forall_app. autorewrite with resources. rewrite B2, B3. cbn [app].
  destruct r as [[]|e].
  - apply IH in H as (-> & C1 & C2). cbn [option_list] in C2. done.
  - apply exec_mbind in H as [H|[(m & s1 & H & [= -> ->])|(s1 & H & [= -> ->])]];
      [|by apply exec_drain_calls in H as (_ & _ & [?|[? ?]])
       |apply exec_drain_calls in H as (-> & (C1 & C2 & C3)%only_drain_call & _); done].
    destruct H as (t5 & t6 & dr & s1 & -> & (-> & (C1 & C2 & C3)%only_drain_call & _)%exec_drain_calls & H).
    destruct H as (rr & t7 & -> & -> & [= -> ->]).
    rewrite Forall_app. autorewrite with resources. rewrite C2, C3. cbn [app].
    split_and!; try done. by repeat constructor.
Qed.

(** The body of [execute] between setting up and dropping the map. *)
Lemma exec_execute_body bun fuel task map s tr o s' :
  exec ((let! r := attach_probes_and_poll_maps bun fuel task in
         let! _ :=
           match r with
           | Ok _ => mret tt
           | Err e =>
               if negb (is_reported e) && negb (is_uprobestats e) then
                 write_internal_error ErrorTypeTaskExecutionFailed (rt_id task) None None 0
               else mret tt
           end in
         cleanup_binder_transaction_filters fuel map (rt_id task)) s) tr (o, s') ->
  s' = s /\ opened_maps tr = [] /\ closed_maps tr = [] /\ (o = NoFuel \/ o = Val tt) /\
  (o <> NoFuel -> closed_fds tr = opened_fds tr).
Proof.
  intros [H|[(m & s1 & H & [= -> ->])|(s1 & H & [= -> ->])]]%exec_mbind;
    [|apply exec_attach_and_poll in H as (-> & (A1 & A2)%only_map_free & A3 & _); naive_solver..].
  destruct H as (t1 & t2 & r & s1 & -> & (-> & (A1 & A2)%only_map_free & A3 & _)%exec_attach_and_poll & H).
  destruct A3 as [A3 _]; [done|]. autorewrite with resources. rewrite A1, A2, A3. cbn [app].
  apply exec_mbind in H as [H|[(m & s1 & H & _)|(s1 & H & _)]].
  - destruct H as (t3 & t4 & [] & s1 & -> & H1 & H).
    assert (s1 = s /\ only (fun c => fd_free c && map_free c) t3) as (-> & B1).
    { destruct r as [[]|e]; [by destruct H1 as [-> [= ->]]|].
      destruct (negb _ && negb _); [|by destruct H1 as [-> [= ->]]].
      rewrite write_internal_error_eq in H1. destruct H1 as (rr & t & -> & -> & [= ->]).
      split; [done|]. by repeat constructor. }
    assert (only fd_free t3 /\ only map_free t3) as [[B2 B3]%only_fd_free [B4 B5]%only_map_free].
    { split; (eapply only_weaken; [|exact B1]); intros c; by destruct c. }
    autorewrite with resources. rewrite B2, B3, B4, B5. cbn [app].
    unfold cleanup_binder_transaction_filters in H. destruct map as [handle|].
    + apply exec_mbind in H as [H|[(m & s1 & H & [= -> ->])|(s1 & H & [= -> ->])]];
        [|by apply exec_drain_calls in H as (_ & _ & [?|[? ?]])
         |apply exec_drain_calls in H as (-> & (C1 & C2 & C3)%only_drain_call & _);
          split_and!; try done; auto].
      destruct H as (t5 & t6 & dr & s1 & -> & (-> & (C1 & C2 & C3)%only_drain_call & _)%exec_drain_calls & H).
      apply only_fd_free in C1 as [C4 C5].
      autorewrite with resources. rewrite C2, C3, C4, C5. cbn [app].
      destruct dr as [[]|e].
      * destruct H as [-> [= -> ->]]. split_and!; try done; auto.
      * rewrite write_internal_error_eq in H. destruct H as (rr & t & -> & -> & [= -> ->]). split_and!; try done; auto.
    + destruct H as [-> [= -> ->]]. split_and!; try done; auto.
  - destruct r as [[]|e]; [by destruct H|].
    destruct (negb _ && negb _); [|by destruct H].
    rewrite write_internal_error_eq in H. by destruct H as (rr & t & -> & -> & [=]).
  - destruct r as [[]|e]; [by destruct H|].
    destruct (negb _ && negb _); [|by destruct H].
    rewrite write_internal_error_eq in H. by destruct H as (rr & t & -> & -> & [=]).
Qed.

Lemma exec_execute bun fuel task s tr o s' :
  exec (execute bun fuel task s) tr (o, s') ->
  s' = s /\ (o = NoFuel \/ o = Val tt) /\
  (o <> NoFuel -> closed_fds tr = opened_fds tr /\ closed_maps tr = opened_maps tr).
Proof.
  unfold execute, setup_binder_transaction_filters.
  intros [H|[(m & s1 & H & [= -> ->])|(s1 & H & [= -> ->])]]%exec_mbind;
    [|by apply exec_setup_loop in H as (_ & _ & [])
     |apply exec_setup_loop in H as (-> & _ & _); split_and!; try done; auto].
  destruct H as (t1 & t2 & r & s1 & -> & (-> & (A1 & A2)%only_fd_free & A3)%exec_setup_loop & H).
  autorewrite with resources. rewrite A1, A2. cbn [app]. destruct r as [map|e].
  - destruct A3 as [A3 A4]. change (option_list map = opened_maps t1) in A4. rewrite A3. cbn [app].
    apply exec_with_drop in H as [[-> H]|(Hn & t3 & t4 & s1 & o2 & -> & H & Hd)].
    + apply exec_execute_body in H as (-> & _). split_and!; try done; auto.
    + apply exec_execute_body in H as (-> & B1 & B2 & B3 & B4).
      autorewrite with resources. rewrite B1, B2, B4 by done. rewrite <- A4. cbn [app].
      destruct map as [handle|].
      * destruct Hd as (rr & t5 & -> & -> & [= -> ->]). cbn. auto.
      * destruct Hd as [-> [= -> ->]]. cbn. rewrite !app_nil_r. auto.
  - rewrite write_internal_error_eq in H. destruct H as (rr & t & -> & -> & [= -> ->]).
    change (closed_maps t1 = opened_maps t1) in A3. rewrite A3. cbn. rewrite !app_nil_r. auto.
Qed.

(** ** Enough fuel *)

(** Entries the filters of the probes may add to the binder map. *)
Definition filter_count (probes : list ResolvedProbe) : nat :=
  sum_list_with (fun p => size (pr_binder_transaction_filters p)) probes.

Lemma write_filters_exchange filters handle s tr o s' m m' :
  exec (write_binder_transaction_filter_to_binder_bpf_map filters handle s) tr (o, s') ->
  map_exchange m tr m' -> (size m' <= size m + size filters)%nat.
Proof.
  unfold write_binder_transaction_filter_to_binder_bpf_map.
  assert (length (map_iter filters) = size filters) as <-
    by (rewrite map_iter_perm; apply length_map_to_list).
  generalize (map_iter filters) as l. intros l. revert s tr m.
  induction l as [|[name ic] l IH]; intros s tr m H Hm; cbn [for_each length] in *.
  { destruct H as [-> _]. cbn in Hm. subst. lia. }
  assert (Hp : forall s t x s1 m m1,
    exec ((let? _ := BpfMapAccessor_put BinderInterfaceBpfMap handle name (method_ids ic) Insert in
           mret (Ok tt)) s) t (x, s1) -> map_exchange m t m1 -> (size m1 <= Datatypes.S (size m))%nat).
  { clear. intros s t x s1 m m1 H. revert m m1. unfold BpfMapAccessor_put, bpf_map_update_elem in H.
    wp_start H. wp_cbn. intros res. wp_cbn.
    destruct (res =? 0)%Z; cbn; intros m m1 (m2 & Hs & ->);
      destruct Hs as [(_ & -> & _)|[_ ->]]; try lia; rewrite map_size_insert; case_match; cbn; lia. }
  apply exec_mtry in H as [H|[(e & s1 & H & _)|[(msg & s1 & H & _)|(s1 & H & _)]]];
    [|specialize (Hp _ _ _ _ _ _ H Hm); lia..].
  destruct H as (t1 & t2 & [] & s1 & -> & H1 & H2).
  apply map_exchange_app in Hm as (m1 & Hm1 & Hm2).
  specialize (Hp _ _ _ _ _ _ H1 Hm1). specialize (IH _ _ _ H2 Hm2). lia.
Qed.

Lemma map_open_exchange (mm : option Z) s tr o s' m m' :
  exec ((match mm with
         | Some handle => mret (Ok handle)
         | None => BpfMapAccessor_new BinderInterfaceBpfMap
         end : Sys S (result Z)) s) tr (o, s') ->
  map_exchange m tr m' -> m' = m.
Proof.
  destruct mm as [handle|]; [by intros [-> _]|]. intros H. revert m m'.
  unfold BpfMapAccessor_new, bpf_map_open_exclusive_rw, pure in H. wp_start H.
  destruct (c_string _) as [p|e]; [|cbn; by intros ? ? ->]. wp_cbn. intros [res handle]. wp_cbn.
  destruct (res =? 0)%Z; cbn; by intros m m' (? & -> & ->).
Qed.

Lemma setup_loop_fuel fuel probes mm s tr o s' m m' :
  exec (setup_loop fuel probes mm s) tr (o, s') -> map_exchange m tr m' ->
  (size m + filter_count probes < fuel)%nat ->
  o <> NoFuel /\ (size m' <= size m + filter_count probes)%nat.
Proof.
  revert mm s tr m. induction probes as [|probe probes IH]; intros mm s tr m H Hm Hfuel;
    cbn [setup_loop filter_count sum_list_with] in *.
  { destruct H as [-> [= -> ->]]. cbn in Hm. subst. split; [done|lia]. }
  destruct (bool_decide_reflect (pr_binder_transaction_filters probe = ∅)) as [He|_].
  { destruct (IH _ _ _ _ H Hm); unfold filter_count in *; [lia|]. split; [done|lia]. }
  apply exec_mtry in H as [H|[(e & s1 & H & [= -> ->])|[(msg & s1 & H & [= -> ->])|(s1 & H & [= -> ->])]]];
    [|pose proof (map_open_exchange _ _ _ _ _ _ _ H Hm) as ->;
      apply exec_map_open in H as (_ & _ & _ & H); split; [done|lia]..].
  destruct H as (t1 & t2 & handle & s1 & -> & H1 & H).
  apply map_exchange_app in Hm as (m1 & Hm1 & Hm).
  rewrite (map_open_exchange _ _ _ _ _ _ _ H1 Hm1) in *. clear m1 Hm1 H1.
  apply exec_mbind in H as [H|[(msg & s2 & H & _)|(s2 & H & _)]];
    [|by apply exec_write_filters in H as (_ & _ & [? [=]])..].
  destruct H as (t3 & t4 & r & s2 & -> & H1 & H).
  apply map_exchange_app in Hm as (m1 & Hm1 & Hm).
  pose proof (write_filters_exchange _ _ _ _ _ _ _ _ H1 Hm1) as Hsz. clear H1.
  unfold filter_count in *. destruct r as [[]|e].
  - destruct (IH _ _ _ _ H Hm); [lia|]. split; [done|lia].
  - apply exec_mbind in H as [H|[(msg & s3 & H & [= -> ->])|(s3 & H & [= -> ->])]];
      [|destruct (drain_fuel _ _ _ _ _ _ _ _ H Hm); [lia|split; [done|lia]]..].
    destruct H as (t5 & t6 & dr & s3 & -> & H1 & H).
    apply map_exchange_app in Hm as (m2 & Hm2 & Hm).
    destruct (drain_fuel _ _ _ _ _ _ _ _ H1 Hm2); [lia|].
    destruct H as (rr & t7 & -> & -> & [= -> ->]). destruct Hm as (m3 & -> & ->).
    split; [done|lia].
Qed.

Lemma poll_threads_fuel k bun fuel task s tr o s' :
  exec (poll_threads bun fuel task s) tr (o, s') ->
  ticking k (instants tr) -> (0 < k)%nat ->
  (Z.of_nat k * (Z.max 0 (as_millis (rt_duration task)) + 1) <= Z.of_nat fuel)%Z ->
  o <> NoFuel.
Proof.
  unfold poll_threads. intros (t1 & t2 & joined & -> & H1 & H2)%exec_bind Ht Hk Hfuel.
  rewrite instants_app in Ht.
  apply exec_par_list_sublist, Forall2_fmap_l in H1.
  assert (existsb (fun '(o, _) => match o with NoFuel => true | _ => false end) joined = false) as Hj.
  { apply not_true_iff_false. intros ([o' []] & Hin & Ho)%existsb_exists.
    destruct o'; try discriminate Ho. apply list_elem_of_In, list_elem_of_lookup in Hin as [i Hi].
    destruct (Forall2_lookup_r _ _ _ _ _ H1 Hi) as (path & _ & t & Hx & Hs).
    refine (poll_registry_fuel k bun fuel path task _ tt t _ tt Hx _ Hk Hfuel eq_refl).
    eapply ticking_sublist; [|exact Ht]. apply sublist_inserts_r. by apply sublist_omap. }
  rewrite Hj in H2. by destruct H2 as [_ [= -> _]].
Qed.

Lemma attach_and_poll_fuel k bun fuel task s tr o s' :
  exec (attach_probes_and_poll_maps bun fuel task s) tr (o, s') ->
  ticking k (instants tr) -> (0 < k)%nat ->
  (Z.of_nat k * (Z.max 0 (as_millis (rt_duration task)) + 1) <= Z.of_nat fuel)%Z ->
  o <> NoFuel.
Proof.
  unfold attach_probes_and_poll_maps. intros H Ht Hk Hfuel.
  apply exec_mtry in H as [H|[(e & s1 & H & [= -> ->])|[(m & s1 & H & [= -> ->])|(s1 & H & [= -> ->])]]];
    [|done|done|by apply exec_discards in H as (_ & _ & [?|[? ?]])].
  destruct H as (t1 & t2 & [] & s1 & -> & _ & H).
  apply exec_mtry in H as [H|[(e & s2 & H & [= -> ->])|[(m & s2 & H & [= -> ->])|(s2 & H & [= -> ->])]]];
    [|done|done|by apply exec_attach_probes in H as (_ & _ & _ & [])].
  destruct H as (t3 & t4 & fds & s2 & -> & _ & H).
  apply exec_with_drop in H as [[-> H]|(Hn & _)]; [exfalso|done].
  apply exec_mbind in H as [H|[(m & s3 & H & [=])|(s3 & H & _)]].
  - destruct H as (t5 & t6 & errors & s3 & -> & _ & H). destruct (bool_decide _); by destruct H.
  - refine (poll_threads_fuel k bun fuel task _ _ _ _ H _ Hk Hfuel eq_refl).
    eapply ticking_sublist; [|exact Ht]. rewrite !instants_app. by do 2 apply sublist_inserts_l.
Qed.

Lemma execute_fuel k bun fuel task s tr o s' m m' :
  exec (execute bun fuel task s) tr (o, s') ->
  ticking k (instants tr) -> (0 < k)%nat -> map_exchange m tr m' ->
  (Z.of_nat k * (Z.max 0 (as_millis (rt_duration task)) + 1) <= Z.of_nat fuel)%Z ->
  (size m + filter_count (rt_resolved_probes task) < fuel)%nat ->
  o <> NoFuel.
Proof.
  unfold execute, setup_binder_transaction_filters. intros H Ht Hk Hm Hf1 Hf2.
  apply exec_mbind in H as [H|[(msg & s1 & H & [= -> ->])|(s1 & H & [= -> ->])]];
    [|done|by destruct (setup_loop_fuel _ _ _ _ _ _ _ _ _ H Hm Hf2)].
  destruct H as (t1 & t2 & r & s1 & -> & H1 & H).
  apply map_exchange_app in Hm as (m1 & Hm1 & Hm).
  destruct (setup_loop_fuel _ _ _ _ _ _ _ _ _ H1 Hm1 Hf2) as [_ Hsz].
  rewrite instants_app in Ht. destruct r as [map|e].
  2: { rewrite write_internal_error_eq in H. by destruct H as (rr & t & _ & _ & [= -> ->]). }
  apply exec_with_drop in H as [[-> H]|(Hn & _)]; [exfalso|done].
  apply exec_mbind in H as [H|[(msg & s2 & H & [=])|(s2 & H & _)]].
  2: { refine (attach_and_poll_fuel k bun fuel task _ _ _ _ H _ Hk Hf1 eq_refl).
       eapply ticking_sublist; [|exact Ht]. by apply sublist_inserts_l. }
  destruct H as (t3 & t4 & r & s2 & -> & H2 & H).
  apply map_exchange_app in Hm as (m2 & Hm2 & Hm).
  apply exec_attach_and_poll in H2 as (_ & H2 & _).
  rewrite (only_map_free_exchange _ _ _ H2 Hm2) in *. clear m2 Hm2 H2.
  apply exec_mbind in H as [H|[(msg & s3 & H & [=])|(s3 & H & _)]].
  2: { destruct r as [[]|e]; [by destruct H|]. destruct (negb _ && negb _); [|by destruct H].
       rewrite write_internal_error_eq in H. by destruct H as (rr & t & _ & _ & [=]). }
  destruct H as (t5 & t6 & [] & s3 & -> & H2 & H).
  apply map_exchange_app in Hm as (m2 & Hm2 & Hm).
  assert (m2 = m1) as ->.
  { destruct r as [[]|e]; [by destruct H2 as [-> _]|].
    destruct (negb _ && negb _); [|by destruct H2 as [-> _]].
    rewrite write_internal_error_eq in H2. destruct H2 as (rr & t & -> & -> & _).
    by destruct Hm2 as (? & -> & ->). }
  unfold cleanup_binder_transaction_filters in H. destruct map as [handle|]; [|by destruct H].
  apply exec_mbind in H as [H|[(msg & s4 & H & [=])|(s4 & H & _)]].
  - destruct H as (t7 & t8 & [?|e] & s4 & -> & _ & H); [by destruct H|].
    rewrite write_internal_error_eq in H. by destruct H as (rr & t & _ & _ & [=]).
  - by destruct (drain_fuel _ _ _ _ _ _ _ _ H Hm); [lia|].
Qed.

(** ** The entries of the binder map *)

Definition filter_key (name : string) : list byte := binder_to_c_key name.
Definition filter_value (ic : InterfaceConfig) : list Z := binder_to_c_value (method_ids ic).

Lemma put_filter name ic handle s tr o s' m m' :
  exec ((let? _ := BpfMapAccessor_put BinderInterfaceBpfMap handle name (method_ids ic) Insert in
         mret (Ok tt)) s) tr (o, s') -> map_exchange m tr m' ->
  (o = Val (Ok tt) /\ m !! filter_key name = None /\
     m' = <[filter_key name := filter_value ic]> m) \/
  (exists e, o = Val (Err e) /\ m' = m).
Proof.
  intros H. revert m m'. unfold BpfMapAccessor_put, bpf_map_update_elem in H.
  wp_start H. wp_cbn. intros res. wp_cbn.
  destruct (Z.eqb_spec res 0) as [->|Hr]; cbn; intros m m' (m1 & Hs & ->).
  - left. destruct Hs as [(_ & -> & Hi & _)|[? _]]; [|done]. split_and!; [done|by apply Hi|done].
  - right. destruct Hs as [(-> & _)|[_ ->]]; [done|]. eauto.
Qed.

(** The entry the filters of a probe want. *)
Definition entry_of (filters : gmap string InterfaceConfig) (k : list byte) (v : list Z) : Prop :=
  exists name ic, filters !! name = Some ic /\ k = filter_key name /\ v = filter_value ic.

(** Nothing but the filters is written, and on success all of them are. *)
Lemma write_filters_entries filters handle s tr o s' m m' :
  exec (write_binder_transaction_filter_to_binder_bpf_map filters handle s) tr (o, s') ->
  map_exchange m tr m' ->
  (forall k v, m' !! k = Some v -> m !! k = Some v \/ entry_of filters k v) /\
  (o = Val (Ok tt) -> forall k v, m !! k = Some v \/ entry_of filters k v -> m' !! k = Some v).
Proof.
  unfold write_binder_transaction_filter_to_binder_bpf_map, entry_of.
  assert (Hin : forall name ic, filters !! name = Some ic <-> (name, ic) ∈ map_iter filters).
  { intros name ic. by rewrite map_iter_perm, elem_of_map_to_list. }
  setoid_rewrite Hin. clear Hin. generalize (map_iter filters) as l.
  intros l. revert s tr m.
  induction l as [|[name ic] l IH]; intros s tr m H Hm; cbn [for_each] in *.
  { destruct H as [-> _]. cbn in Hm. subst. split; [auto|set_solver]. }
  apply exec_mtry in H as [H|[(e & s1 & H & [= -> ->])|[(msg & s1 & H & [= -> ->])|(s1 & H & [= -> ->])]]];
    [|destruct (put_filter _ _ _ _ _ _ _ _ _ H Hm) as [(? & _)|(? & _ & ->)]; [done|by split; [auto|]]..].
  destruct H as (t1 & t2 & [] & s1 & -> & H1 & H2).
  apply map_exchange_app in Hm as (m1 & Hm1 & Hm2).
  destruct (put_filter _ _ _ _ _ _ _ _ _ H1 Hm1) as [(_ & Hf & ->)|(? & [=] & _)].
  destruct (IH _ _ _ H2 Hm2) as (A1 & A2). split.
  - intros k v [[[<- <-]|[_ ?]]%lookup_insert_Some|(name' & ic' & ? & ? & ?)]%A1; [|by left|].
    + right. exists name, ic. split; [apply list_elem_of_here|done].
    + right. exists name', ic'. split; [by apply list_elem_of_further|done].
  - intros Ho k v Hk. apply (A2 Ho). rewrite lookup_insert_Some.
    destruct Hk as [Hk|(name' & ic' & [[= -> ->]|Hin]%elem_of_cons & -> & ->)].
    + left. right. split; [intros Heq; by rewrite <- Heq, Hf in Hk|done].
    + by left; left.
    + right. eauto.
Qed.

(** The map has the entries the filters of the probes want, and no others. *)
Definition wanted (probes : list ResolvedProbe) (k : list byte) (v : list Z) : Prop :=
  exists probe, probe ∈ probes /\ entry_of (pr_binder_transaction_filters probe) k v.

Definition installed (probes : list ResolvedProbe) (m : CMap) : Prop :=
  forall k v, m !! k = Some v <-> wanted probes k v.

Lemma wanted_cons probe probes k v :
  wanted (probe :: probes) k v <->
  entry_of (pr_binder_transaction_filters probe) k v \/ wanted probes k v.
Proof. unfold wanted. setoid_rewrite elem_of_cons. naive_solver. Qed.

Lemma wanted_nil k v : ~ wanted [] k v.
Proof. by intros (? & ?%elem_of_nil & _). Qed.

Lemma entry_of_empty k v : ~ entry_of ∅ k v.
Proof. by intros (name & ic & H & _). Qed.

(** Every filter names an interface whose key reads back. *)
Definition short_names (probes : list ResolvedProbe) : Prop :=
  forall probe name, probe ∈ probes -> name ∈ dom (pr_binder_transaction_filters probe) ->
    readable (filter_key name).

Lemma short_names_intro probes :
  (forall probe name, probe ∈ probes -> name ∈ dom (pr_binder_transaction_filters probe) ->
     (length (list_byte_of_string name) < MAX_STRING_LENGTH)%nat /\ no_nul name = true /\
     is_str name = true) -> short_names probes.
Proof.
  intros H probe name Hp Hn. destruct (H probe name Hp Hn) as (? & ? & ?).
  unfold readable, filter_key. by rewrite from_to_c_key.
Qed.

Lemma wanted_readable probes k v : short_names probes -> wanted probes k v -> readable k.
Proof. intros Hn (probe & Hp & name & ic & Hf & -> & _). apply (Hn probe name Hp). by apply elem_of_dom. Qed.

Lemma setup_loop_entries fuel probes mm s tr o s' m m' :
  exec (setup_loop fuel probes mm s) tr (o, s') -> map_exchange m tr m' ->
  match o with
  | Val (Ok mm') =>
      (forall k v, m' !! k = Some v <-> m !! k = Some v \/ wanted probes k v) /\
      (mm' = None -> m' = m)
  | Val (Err _) =>
      short_names probes -> map_Forall (fun k _ => readable k) m -> m' = ∅ \/ (mm = None /\ m' = m)
  | _ => True
  end.
Proof.
  revert mm s tr m. induction probes as [|probe probes IH]; intros mm s tr m H Hm;
    cbn [setup_loop] in H.
  { destruct H as [-> [= -> ->]]. cbn in Hm. subst. split; [|done]. intros k v.
    split; [by left|]. by intros [?|?%wanted_nil]. }
  assert (short_names (probe :: probes) -> short_names probes) as Hn'
    by (intros Hn p name Hp; apply Hn; by apply list_elem_of_further).
  destruct (bool_decide_reflect (pr_binder_transaction_filters probe = ∅)) as [He|_].
  { specialize (IH _ _ _ _ H Hm). destruct o as [[mm'|e]| |]; try done; [|by auto].
    destruct IH as (Hw & ?). split; [|done]. intros k v. rewrite Hw, wanted_cons, He.
    pose proof (entry_of_empty k v). tauto. }
  apply exec_mtry in H as [H|[(e & s1 & H & [= -> ->])|[(msg & s1 & H & [= -> ->])|(s1 & H & [= -> ->])]]];
    [|pose proof (map_open_exchange _ _ _ _ _ _ _ H Hm) as ->;
      apply exec_map_open in H as (_ & _ & _ & H)..]; [| |done..].
  2: { intros _ _. right. by destruct mm. }
  destruct H as (t1 & t2 & handle & s1 & -> & H1 & H).
  apply map_exchange_app in Hm as (m1 & Hm1 & Hm).
  rewrite (map_open_exchange _ _ _ _ _ _ _ H1 Hm1) in *. clear m1 Hm1 H1.
  apply exec_mbind in H as [H|[(msg & s2 & H & _)|(s2 & H & _)]];
    [|by apply exec_write_filters in H as (_ & _ & [? [=]])..].
  destruct H as (t3 & t4 & r & s2 & -> & H1 & H).
  apply map_exchange_app in Hm as (m1 & Hm1 & Hm).
  destruct (write_filters_entries _ _ _ _ _ _ _ _ H1 Hm1) as (A1 & A2). clear H1.
  assert (short_names (probe :: probes) -> map_Forall (fun k _ => readable k) m ->
    map_Forall (fun k _ => readable k) m1) as Hr1.
  { intros Hn Hr k v [Hk|(name & ic & Hf & -> & _)]%A1; [by apply (Hr k v)|].
    apply (Hn probe name); [apply list_elem_of_here|by apply elem_of_dom]. }
  destruct r as [[]|e].
  - specialize (IH _ _ _ _ H Hm). destruct o as [[mm'|e]| |]; try done.
    + destruct IH as (B1 & B2). split.
      * intros k v. rewrite B1, wanted_cons. split; [intros [?%A1|?]; tauto|]. intros [?|[?|?]]; auto.
      * intros ->. apply exec_setup_loop in H as (_ & _ & _ & H). done.
    + intros Hn Hr. destruct IH as [?|[? _]]; [auto|auto|by left|done].
  - apply exec_mbind in H as [H|[(msg & s3 & H & [= -> ->])|(s3 & H & [= -> ->])]]; [|done..].
    destruct H as (t5 & t6 & dr & s3 & -> & H1 & H).
    apply map_exchange_app in Hm as (m2 & Hm2 & Hm).
    destruct H as (rr & t7 & -> & -> & [= -> ->]). destruct Hm as (m3 & -> & ->). intros Hn Hr.
    destruct (drain_readable _ _ _ _ _ _ _ _ H1 Hm2 (Hr1 Hn Hr)) as [_ ->]; [done|]. by left.
Qed.

(** From the empty map. *)
Lemma setup_loop_installs fuel probes s tr mm' s' m' :
  exec (setup_loop fuel probes None s) tr (Val (Ok mm'), s') -> map_exchange ∅ tr m' ->
  installed probes m' /\ (short_names probes -> map_Forall (fun k _ => readable k) m') /\
  (mm' = None -> m' = ∅).
Proof.
  intros H Hm. pose proof (setup_loop_entries _ _ _ _ _ _ _ _ _ H Hm) as (Hw & He).
  assert (Hi : installed probes m').
  { intros k v. rewrite Hw, lookup_empty. split; [by intros [?|?]|by right]. }
  split_and!; [done| |done]. intros Hn k v Hk%Hi. by eapply wanted_readable.
Qed.

End Lemmas.
