(* ===== verification/Execution.v ===== *)
(** * Execution: what the steps of a task guarantee

    The properties of [Task]: claiming and releasing maps, attaching the probes,
    the order of the phases of an execution, the kernel objects it holds, the
    filters it installs and removes, and that it comes to its end. *)

From S2P Require Import Prelude Effects RustStd Data System Fixtures Guardrail ConfigResolver Handler.
From S2P Require Import ArtTest StatsAtoms Bpf Poll BpfMap Task.

Local Open Scope rust_scope.
Local Open Scope string_scope.
Local Open Scope list_scope.

(** ** Claims *)

(** The maps being polled. *)
Definition polled_of (state : GlobalState) : gset string :=
  match state with
  | None => ∅
  | Some active_state => polled_bpf_maps active_state
  end.

Lemma claim_ok state task state' :
  update_polled_bpf_maps state task = (state', Ok tt) ->
  polled_of state ## rt_bpf_map_paths task /\
  state' = Some {| polled_bpf_maps := polled_of state ∪ rt_bpf_map_paths task |}.
Proof.
  unfold update_polled_bpf_maps. destruct state as [a|].
  - case_bool_decide as Hc; [|done]. intros [= <-]. split; [set_solver|done].
  - intros [= <-]. cbn. split; [set_solver|]. by rewrite (left_id_L ∅ (∪)).
Qed.

Lemma claim_err state task state' e :
  update_polled_bpf_maps state task = (state', Err e) ->
  state' = state /\ ~ polled_of state ## rt_bpf_map_paths task.
Proof.
  unfold update_polled_bpf_maps. destruct state as [a|]; [|done].
  case_bool_decide as Hc; [done|]. intros [= <- <-]. split; [done|]. set_solver.
Qed.

Lemma release_spec state task :
  match cleanup_polled_bpf_maps state task with
  | Val state' =>
      polled_of state' = polled_of state ∖ rt_bpf_map_paths task /\ state <> None /\
      (state' = None <-> polled_of state ⊆ rt_bpf_map_paths task)
  | Panics _ => state = None
  | NoFuel => False
  end.
Proof.
  unfold cleanup_polled_bpf_maps. destruct state as [a|]; [|done]. cbn.
  case_bool_decide as Hp; cbn; split_and!; try done; split; try done; set_solver.
Qed.

(** Claiming is exact and releasing undoes it.  A claim succeeds if and only
    if none of the task's maps is polled by another task; a refused claim leaves the
    state as it was; an accepted one adds exactly the task's maps, and releasing
    them later gives back the state before the claim, provided an active state
    polls at least one map. *)
Theorem claim_release_roundtrip state task state' r
    (H : update_polled_bpf_maps state task = (state', r)) :
  (r = Ok tt <-> polled_of state ## rt_bpf_map_paths task) /\
  (r <> Ok tt -> state' = state) /\
  (r = Ok tt ->
     polled_of state' = polled_of state ∪ rt_bpf_map_paths task /\
     (state <> Some {| polled_bpf_maps := ∅ |} ->
        cleanup_polled_bpf_maps state' task = Val state)).
Proof.
  destruct r as [[]|e].
  - destruct (claim_ok _ _ _ H) as [Hd ->]. split_and!; [done|done|]. intros _. split; [done|].
    intros Hne. unfold cleanup_polled_bpf_maps. cbn.
    assert ((polled_of state ∪ rt_bpf_map_paths task) ∖ rt_bpf_map_paths task = polled_of state)
      as -> by set_solver.
    destruct state as [[p]|]; cbn in *.
    + rewrite bool_decide_eq_false_2; [done|]. intros ->. by destruct Hne.
    + by rewrite bool_decide_eq_true_2.
  - destruct (claim_err _ _ _ _ H) as [-> Hd]. split_and!; [|done|done]. split; [done|]. intros ?. done.
Qed.

(** ** Attaching the probes *)

(** The perf events asked for, and the attachments told to statsd. *)
Definition attempt_of (e : ev) : option (string * Z * Z * string) :=
  match e with
  | existT (bpfPerfEventOpen filename offset pid program) _ => Some (filename, offset, pid, program)
  | _ => None
  end.
Definition attempts (tr : list ev) : list (string * Z * Z * string) := omap attempt_of tr.

Definition attached_of (e : ev) : option (AttachedBpfProgram * string * string * string * Z) :=
  match e with
  | existT (stats_write_bpf_attached program cls meth process id) _ =>
      Some (program, cls, meth, process, id)
  | _ => None
  end.
Definition attached (tr : list ev) := omap attached_of tr.

Lemma attempts_app t1 t2 : attempts (t1 ++ t2) = attempts t1 ++ attempts t2.
Proof. apply omap_app. Qed.
Lemma attached_app t1 t2 : attached (t1 ++ t2) = attached t1 ++ attached t2.
Proof. apply omap_app. Qed.

(** What attaching a probe asks of the kernel: the file of the method, its offset,
    the process and the program. *)
Definition attempt_for (task : ResolvedTask) (probe : ResolvedProbe) : string * Z * Z * string :=
  (of_container_path (pr_offsets probe), of_method_offset (pr_offsets probe),
   rp_pid (rt_resolved_process task), pr_bpf_program_path probe).

(** What statsd is told about it. *)
Definition attached_for (task : ResolvedTask) (probe : ResolvedProbe)
    (x : AttachedBpfProgram * string * string * string * Z) : Prop :=
  exists program, bpf_program_path_to_enum (pr_bpf_program_path probe) = Ok program /\
    x = (program, md_fully_qualified_class_name (pr_method_descriptor probe),
         md_method_name (pr_method_descriptor probe), rp_name (rt_resolved_process task), rt_id task).

Section Attach.
Context {Tg : Target} {F : Flags} {O : HashOrder} {SH : StringHash} {S : Type}.
Implicit Types (s : S) (task : ResolvedTask).

(** A failed attempt leaves a single report and a marked error; or nothing, when it
    failed before it asked the kernel, on an offset that does not fit. *)
Definition attach_failure task (e : error) (tr : list ev) : Prop :=
  if is_reported e then internal_errors tr = [(ErrorTypeBpfProgramAttachFailed, rt_id task)]
  else internal_errors tr = [] /\ e = ETryFromInt.

Lemma perf_event_open_calls filename off pid prog s tr o s' :
  exec (bpf_perf_event_open filename off pid prog s) tr (o, s') ->
  internal_errors tr = [] /\ attached tr = [] /\
  (attempts tr = [] \/ attempts tr = [(filename, off, pid, prog)]) /\
  (forall fd, o = Val (Ok fd) -> (0 <= fd)%Z /\ attempts tr = [(filename, off, pid, prog)]).
Proof.
  unfold bpf_perf_event_open, pure. intros H. wp_start H.
  destruct (c_string filename) as [f|e] eqn:Hf; [|by cbn; split_and!; auto].
  destruct (c_string prog) as [p|e] eqn:Hp; [|by cbn; split_and!; auto].
  apply c_string_Ok in Hf as [-> _]. apply c_string_Ok in Hp as [-> _].
  wp_cbn. intros fd. wp_cbn.
  destruct (Z.leb_spec 0 fd); cbn; split_and!; try done; auto.
  by intros fd' [= ->].
Qed.

Lemma attach_probe_spec task probe s tr o s' :
  exec (attach_probe task probe s) tr (o, s') ->
  match o with
  | Val (Ok fd) =>
      attempts tr = [attempt_for task probe] /\ internal_errors tr = [] /\
      exists x, attached tr = [x] /\ attached_for task probe x
  | Val (Err e) =>
      (attempts tr = [] \/ attempts tr = [attempt_for task probe]) /\ attached tr = [] /\
      attach_failure task e tr
  | _ => False
  end.
Proof.
  unfold attach_probe. rewrite exec_mtry_mret.
  destruct (try_into I32 _) as [off|e] eqn:Hoff.
  2: { intros [-> [= -> ->]]. split_and!; [by left|done|]. unfold try_into in Hoff.
       destruct (in_ity _ _); [done|]. by injection Hoff as <-. }
  apply try_into_Ok in Hoff as [-> _].
  destruct (bpf_program_path_to_enum_total (pr_bpf_program_path probe)) as [program Hprog].
  rewrite Hprog. intros H.
  apply exec_mtry in H as [H|[(e & s1 & H & [= -> ->])|[(m & s1 & H & [= -> ->])|(s1 & H & [= -> ->])]]];
    [destruct H as (t1 & t2 & fd & s1 & -> & H & (r & t & -> & -> & [= -> ->]))|..];
    apply exec_on_err_write in H as (t1' & o1 & H1 & Ho);
    pose proof H1 as H2; apply exec_perf_event_open in H2 as (_ & _ & _ & _ & H2);
    apply perf_event_open_calls in H1 as (A1 & A2 & A3 & A4);
    destruct o1 as [[fd'|e']| |]; try done; destruct Ho as [Hx Ho]; try done.
  - subst t1'. injection Ho as <-. destruct (A4 fd eq_refl) as [_ A5].
    rewrite attempts_app, attached_app, internal_errors_app, A1, A2, A5.
    split_and!; [done..|]. eexists. split; [reflexivity|]. by exists program.
  - injection Hx as ->. destruct Ho as [r ->].
    unfold attach_failure.
    rewrite attempts_app, attached_app, internal_errors_app, A1, A2. cbn. rewrite app_nil_r. done.
Qed.

Lemma attach_probes_spec_gen task fds probes s tr o s' :
  exec (attach_probes task fds probes s) tr (o, s') ->
  match o with
  | Val (Ok fds') =>
      attempts tr = map (attempt_for task) probes /\ internal_errors tr = [] /\
      Forall2 (attached_for task) probes (attached tr) /\ (length fds' = length fds + length probes)%nat
  | Val (Err e) =>
      exists done failed rest, probes = done ++ failed :: rest /\
        (attempts tr = map (attempt_for task) done \/
         attempts tr = map (attempt_for task) (done ++ [failed])) /\
        Forall2 (attached_for task) done (attached tr) /\ attach_failure task e tr
  | _ => False
  end.
Proof.
  revert fds s tr. induction probes as [|probe probes IH]; intros fds s tr H; cbn [attach_probes] in H.
  { destruct H as [-> [= -> ->]]. split_and!; try done; cbn; lia. }
  apply exec_mbind in H as [H|[(m & s2 & H & _)|(s2 & H & _)]];
    [|by apply attach_probe_spec in H..].
  destruct H as (t1 & t2 & r & s1 & -> & A%attach_probe_spec & H).
  rewrite attempts_app, attached_app. unfold attach_failure. rewrite internal_errors_app.
  destruct r as [fd|e].
  - destruct A as (A1 & A2 & x & A3 & A4). rewrite A1, A2, A3. cbn [app].
    apply IH in H. destruct o as [[fds'|e]| |]; [| |done..].
    + destruct H as (B1 & B2 & B3 & B4). rewrite B1, B2. split_and!; try done; [by constructor|].
      rewrite B4, length_app. cbn. lia.
    + destruct H as (dn & failed & rest & -> & B2 & B3 & B4).
      exists (probe :: dn), failed, rest. split_and!; try done; [|by constructor].
      destruct B2 as [->| ->]; [by left|by right].
  - destruct A as (A1 & A2 & A3).
    apply exec_mbind in H as [H|[(m & s2 & H & _)|(s2 & H & _)]];
      [|by apply exec_drop_fds in H as [? _]..].
    destruct H as (t3 & t4 & [] & s2 & -> & Hd & -> & [= -> ->]).
    assert (attempts t3 = [] /\ attached t3 = [] /\ internal_errors t3 = []) as (B1 & B2 & B3).
    { revert s1 t3 Hd. clear. induction fds as [|fd fds IH]; intros s1 t3 H; [by destruct H as [-> _]|].
      destruct H as (r & t & -> & H). by apply IH in H. }
    rewrite app_nil_r, B1, B2, B3, A2, !app_nil_r.
    exists [], probe, probes. split_and!; try done.
Qed.

(** C24. Probes are attached in order, as configured.  A successful attachment asked
    the kernel for exactly one perf event per probe, in order, with the probe's
    file, offset and program and the task's process, told statsd of each with the
    program's enum and the method's names, and reported no error; a failed one
    stopped at one probe: those before it are attached and told, none after it is
    asked for, and at most one error was reported, for this task, exactly when the
    error returned is marked as reported. *)
Theorem attach_probes_spec task probes s tr o s'
    (H : exec (attach_probes task [] probes s) tr (o, s')) :
  match o with
  | Val (Ok fds) =>
      attempts tr = map (attempt_for task) probes /\ internal_errors tr = [] /\
      Forall2 (attached_for task) probes (attached tr) /\ length fds = length probes
  | Val (Err e) =>
      exists done failed rest, probes = done ++ failed :: rest /\
        (attempts tr = map (attempt_for task) done \/
         attempts tr = map (attempt_for task) (done ++ [failed])) /\
        Forall2 (attached_for task) done (attached tr) /\ attach_failure task e tr
  | _ => False
  end.
Proof. exact (attach_probes_spec_gen task [] probes s tr o s' H). Qed.

End Attach.

(** ** The phases of an execution *)

Definition setup_call (c : SysCall) : bool :=
  match c with bpfMapOpenExclusiveRW _ | bpfMapClose _ => true | _ => drain_call c end.
Definition attach_call (c : SysCall) : bool :=
  match c with
  | bpfPerfEventOpen _ _ _ _ | stats_write_bpf_attached _ _ _ _ _ => true
  | stats_write_internal_error ty _ _ _ _ => execution_error ty
  | _ => false
  end.
Definition close_call (c : SysCall) : bool := match c with close_fd _ => true | _ => false end.
Definition report_call (c : SysCall) : bool :=
  match c with stats_write_internal_error ty _ _ _ _ => execution_error ty | _ => false end.
Definition cleanup_call (c : SysCall) : bool :=
  match c with
  | bpfMapClose _ => true
  | stats_write_internal_error ty _ _ _ _ => execution_error ty
  | _ => drain_call c
  end.

Lemma only_app P t1 t2 : only P (t1 ++ t2) <-> only P t1 /\ only P t2.
Proof. apply Forall_app. Qed.

Section Phases.
Context {Tg : Target} {F : Flags} {O : HashOrder} {SH : StringHash} {S : Type}.
Implicit Types (s : S) (task : ResolvedTask).

Lemma drop_fds_calls fds s tr x : exec (drop_fds fds s) tr x -> only close_call tr.
Proof.
  revert s tr. induction fds as [|fd fds IH]; intros s tr H; [destruct H as [-> _]; constructor|].
  destruct H as (r & t & -> & H). constructor; [done|by apply (IH s)].
Qed.

Lemma attach_probe_calls task probe s tr x : exec (attach_probe task probe s) tr x -> only attach_call tr.
Proof.
  destruct x as [o s']. unfold attach_probe. rewrite exec_mtry_mret.
  destruct (try_into I32 _) as [off|e]; [|intros [-> _]; constructor].
  destruct (bpf_program_path_to_enum_total (pr_bpf_program_path probe)) as [program ->].
  assert (Hp : forall t y s1, exec (bpf_perf_event_open (of_container_path (pr_offsets probe)) off
    (rp_pid (rt_resolved_process task)) (pr_bpf_program_path probe) s) t (y, s1) -> only attach_call t).
  { intros t y s1 H. unfold bpf_perf_event_open, pure in H. wp_start H.
    destruct (c_string _) as [f|e]; [|constructor]. destruct (c_string (pr_bpf_program_path probe)) as [p|e];
      [|constructor]. wp_cbn. intros fd. wp_cbn. destruct (0 <=? fd)%Z; by repeat constructor. }
  intros H.
  apply exec_mtry in H as [H|[(e & s1 & H & _)|[(m & s1 & H & _)|(s1 & H & _)]]];
    [destruct H as (t1 & t2 & fd & s1 & -> & H & (r & t & -> & -> & _)); apply only_app; split;
       [|by repeat constructor]|..];
    apply exec_on_err_write in H as (t1' & [[?|?]| |] & H1 & Ho); apply Hp in H1.
  all: try (destruct Ho as [-> _]; exact H1).
  all: destruct Ho as (_ & rr & ->); apply only_app; split; [exact H1|by repeat constructor].
Qed.

Lemma attach_probes_calls task fds probes s tr o s' :
  exec (attach_probes task fds probes s) tr (o, s') ->
  exists t1 t2, tr = t1 ++ t2 /\ only attach_call t1 /\ only close_call t2 /\
    (forall fds', o = Val (Ok fds') -> t2 = []).
Proof.
  revert fds s tr. induction probes as [|probe probes IH]; intros fds s tr H; cbn [attach_probes] in H.
  { destruct H as [-> [= -> ->]]. by exists [], []. }
  apply exec_mbind in H as [H|[(m & s2 & H & _)|(s2 & H & _)]]; [|by apply attach_probe_spec in H..].
  destruct H as (t1 & t2 & r & s1 & -> & A%attach_probe_calls & H). destruct r as [fd|e].
  - apply IH in H as (t3 & t4 & -> & B1 & B2 & B3). exists (t1 ++ t3), t4.
    rewrite <- (assoc_L (++)), only_app. done.
  - apply exec_mbind in H as [H|[(m & s2 & H & _)|(s2 & H & _)]];
      [|by apply exec_drop_fds in H as [? _]..].
    destruct H as (t3 & t4 & [] & s2 & -> & Hd%drop_fds_calls & -> & [= -> ->]).
    exists t1, t3. by rewrite app_nil_r.
Qed.

Lemma attach_and_poll_calls bun fuel task s tr r s' :
  exec (attach_probes_and_poll_maps bun fuel task s) tr (Val r, s') ->
  exists t1 t2 t3 t4, tr = t1 ++ t2 ++ t3 ++ t4 /\ only discard_call t1 /\ only attach_call t2 /\
    only poll_call t3 /\ only close_call t4.
Proof.
  unfold attach_probes_and_poll_maps. intros H.
  apply exec_mtry in H as [H|[(e & s1 & H & _)|[(m & s1 & H & _)|(s1 & H & _)]]].
  2-4: apply exec_discards in H as (_ & H & _); exists tr, [], [], []; rewrite !app_nil_r;
    split_and!; by try constructor.
  destruct H as (t1 & t2 & [] & s1 & -> & (_ & A & _)%exec_discards & H). exists t1.
  apply exec_mtry in H as [H|[(e & s2 & H & _)|[(m & s2 & H & _)|(s2 & H & _)]]].
  2-4: apply attach_probes_calls in H as (t3 & t4 & -> & B1 & B2 & _); exists t3, [], t4;
    split_and!; by try constructor.
  destruct H as (t3 & t4 & fds & s2 & -> & H & Hb).
  apply attach_probes_calls in H as (t5 & t6 & -> & B1 & _ & B2). rewrite (B2 fds eq_refl), app_nil_r.
  exists t5. apply exec_with_drop in Hb as [[[=] _]|(_ & t7 & t8 & s3 & o2 & -> & Hb & Hd)].
  exists t7, t8. apply drop_fds_calls in Hd. split_and!; try done.
  apply exec_mbind in Hb as [H|[(m & s4 & H & _)|(s4 & H & _)]].
  - destruct H as (t9 & t10 & errors & s4 & -> & (_ & C & _)%exec_poll_threads & H).
    destruct (bool_decide _); destruct H as [-> _]; by rewrite app_nil_r.
  - by apply exec_poll_threads in H as (_ & C & _).
  - by apply exec_poll_threads in H as (_ & C & _).
Qed.

(** The report [execute] makes of a failed attempt. *)
Definition execution_report task (r : result unit) : list ev -> Prop := fun t =>
  match r with
  | Ok _ => t = []
  | Err e =>
      if is_reported e || is_uprobestats e then t = []
      else exists rr,
        t = [existT (stats_write_internal_error ErrorTypeTaskExecutionFailed (rt_id task)
               (program_enum None) (map_enum None) 0) rr : ev]
  end.

(** An execution is its setup followed by its one report of failure, or by
    attaching and polling, the report, the cleanup and the drop of the map. *)
Lemma execute_split bun fuel task s tr o s' :
  exec (execute bun fuel task s) tr (o, s') -> o <> NoFuel ->
  exists r t1 t2, tr = t1 ++ t2 /\
    exec (setup_binder_transaction_filters fuel (rt_resolved_probes task) s) t1 (Val r, s) /\
    match r with
    | Err _ => exists rr, t2 = [existT (stats_write_internal_error ErrorTypeBinderFilterSetupFailed
                 (rt_id task) (program_enum None) (map_enum None) 0) rr : ev]
    | Ok map => exists r' t3 t4 t5 t6, t2 = t3 ++ t4 ++ t5 ++ t6 /\
        exec (attach_probes_and_poll_maps bun fuel task s) t3 (Val r', s) /\
        execution_report task r' t4 /\
        exec (cleanup_binder_transaction_filters fuel map (rt_id task) s) t5 (Val tt, s) /\
        exec (drop_map map s) t6 (Val tt, s)
    end.
Proof.
  intros H Ho. pose proof H as (-> & [->| ->] & _)%exec_execute; [done|]. clear Ho.
  unfold execute in H.
  apply exec_mbind in H as [H|[(m & s1 & H & [=])|(s1 & H & [=])]].
  destruct H as (t1 & t2 & r & s1 & -> & H1 & H).
  pose proof H1 as (-> & _ & _)%exec_setup_loop. exists r, t1, t2. split_and!; [done|done|].
  destruct r as [map|e].
  2: { rewrite write_internal_error_eq in H. destruct H as (rr & t & -> & -> & _). by exists rr. }
  apply exec_with_drop in H as [[[=] _]|(_ & t3 & t4 & s1 & o2 & -> & H & Hd)].
  apply exec_mbind in H as [H|[(m & s2 & H & [=])|(s2 & H & [=])]].
  destruct H as (t5 & t6 & r & s2 & -> & H2 & H).
  pose proof H2 as (-> & _)%exec_attach_and_poll.
  apply exec_mbind in H as [H|[(m & s3 & H & [=])|(s3 & H & [=])]].
  destruct H as (t7 & t8 & [] & s3 & -> & H3 & H4).
  assert (s3 = s /\ execution_report task r t7) as [-> Hr].
  { unfold execution_report. destruct r as [[]|e]; [by destruct H3 as [-> [= ->]]|].
    rewrite <- negb_orb in H3. destruct (is_reported e || is_uprobestats e); cbn [negb] in H3;
      [by destruct H3 as [-> [= ->]]|].
    rewrite write_internal_error_eq in H3. destruct H3 as (rr & t & -> & -> & [= ->]). eauto. }
  assert (s1 = s) as ->.
  { unfold cleanup_binder_transaction_filters in H4. destruct map as [handle|]; [|by destruct H4 as [_ [= ->]]].
    apply exec_mbind in H4 as [H|[(m & s3 & H & [=])|(s3 & H & [=])]].
    destruct H as (? & ? & [?|?] & ? & _ & (-> & _)%exec_drain_calls & H); [by destruct H as [_ [= ->]]|].
    rewrite write_internal_error_eq in H. by destruct H as (? & ? & _ & _ & [= ->]). }
  assert (o2 = Val tt) as ->.
  { destruct map as [handle|]; cbn in Hd; [by destruct Hd as ([] & ? & _ & _ & Hd); injection Hd|].
    destruct Hd as [_ Hd]. by injection Hd. }
  exists r, t5, t7, t8, t4. rewrite <- !(assoc_L (++)). done.
Qed.

End Phases.

(** ** What an execution reports *)

Lemma internal_errors_only (P : SysCall -> bool) tr :
  (forall ty id p m n, P (stats_write_internal_error ty id p m n) = false) ->
  only P tr -> internal_errors tr = [].
Proof.
  intros HP. induction 1 as [|[c r] tr Hc Htr IH]; [done|].
  unfold internal_errors in *. cbn in *. destruct c; cbn; try done. by rewrite HP in Hc.
Qed.

(** Events that attach a probe or poll its items. *)
Definition probe_call (e : ev) : bool :=
  match projT1 e with bpfPerfEventOpen _ _ _ _ | bpfRingBufPoll _ _ _ => true | _ => false end.

Lemma only_not (P : SysCall -> bool) (Q : ev -> bool) tr :
  (forall c r, P c = true -> Q (existT c r) = false) -> only P tr -> Forall (fun e => Q e = false) tr.
Proof. intros HPQ H. eapply Forall_impl; [exact H|]. intros [c r]. apply HPQ. Qed.

Lemma split_in_middle {A} (P : A -> bool) (a b c t1 t2 : list A) e :
  a ++ b ++ c = t1 ++ e :: t2 -> P e = true -> Forall (fun x => P x = false) a ->
  Forall (fun x => P x = false) c -> exists b1 b2, b = b1 ++ e :: b2 /\ t1 = a ++ b1.
Proof.
  intros Heq He Ha Hc. revert t1 Heq. induction Ha as [|x a Hx Ha IH]; intros t1 Heq.
  - revert t1 Heq. induction b as [|x b IH]; intros t1 Heq; cbn in Heq.
    + subst c. apply Forall_app in Hc as [_ Hc]. apply Forall_cons in Hc as [? _]. congruence.
    + destruct t1 as [|y t1]; injection Heq as -> Heq.
      * by exists [], b.
      * destruct (IH t1 Heq) as (b1 & b2 & -> & E). exists (y :: b1), b2. cbn in E. by subst.
  - destruct t1 as [|y t1]; injection Heq as -> Heq; [congruence|].
    destruct (IH t1 Heq) as (b1 & b2 & -> & ->). by exists b1, b2.
Qed.

Lemma only_map_free_idle tr m : only map_free tr -> map_exchange m tr m.
Proof.
  induction 1 as [|[c r] tr Hc Htr IH]; [done|]. exists m. split; [|done]. by destruct c.
Qed.

Section Reports.
Context {Tg : Target} {F : Flags} {O : HashOrder} {SH : StringHash} {S : Type}.
Implicit Types (s : S) (task : ResolvedTask).

(** Every device failure in an exchange is reported in it, for the task. *)
Definition settled (id : Z) (tr : list ev) : Prop :=
  forall ty, inr ty ∈ accounts tr -> inl (ty, id) ∈ accounts tr.

Lemma settled_app id t1 t2 : settled id t1 -> settled id t2 -> settled id (t1 ++ t2).
Proof. unfold settled. intros H1 H2 ty. rewrite accounts_app, !elem_of_app. naive_solver. Qed.

Lemma settled_nil id : settled id [].
Proof. intros ty H. by apply not_elem_of_nil in H. Qed.

Lemma settled_none id tr : accounts tr = [] -> settled id tr.
Proof. intros H ty. rewrite H. intros Hin. by apply not_elem_of_nil in Hin. Qed.

Lemma settled_no_failure id tr : omap (fun x => match x with inr ty => Some ty | inl _ => None end) (accounts tr) = [] ->
  settled id tr.
Proof.
  intros H ty Hin. exfalso. apply (not_elem_of_nil ty). rewrite <- H. apply list_elem_of_omap.
  by exists (inr ty).
Qed.

Definition device_call (c : SysCall) : bool :=
  match c with
  | bpfRingBufCreate _ _ | bpfRingBufPoll _ _ _ | bpfPerfEventOpen _ _ _ _ => true
  | _ => false
  end.

Lemma settled_only (P : SysCall -> bool) id tr :
  (forall c, P c = true -> device_call c = false) -> only P tr -> settled id tr.
Proof.
  intros HP. induction 1 as [|[c r] tr Hc _ IH]; [apply settled_nil|].
  apply (settled_app id [_]); [|done]. apply HP in Hc. clear -Hc. intros ty Hin. exfalso. revert Hin.
  unfold accounts. destruct c; try discriminate Hc; cbn; intros Hin;
    repeat apply elem_of_cons in Hin as [[=]|Hin]; by apply not_elem_of_nil in Hin.
Qed.

Lemma settled_accounted id {A} (o : outcome (result A)) tr :
  o <> NoFuel -> accounted id o tr -> settled id tr.
Proof.
  intros Ho Ha. destruct o as [[a|e]|m|]; [by apply settled_none| |by apply settled_none|done].
  destruct Ha as [(e0 & _ & [[ty Ha]|Ha])|[Ha _]]; [| |by apply settled_none];
    intros ty'; rewrite Ha; intros Hin; repeat apply elem_of_cons in Hin as [[=]|Hin]; subst;
    try (by apply not_elem_of_nil in Hin); right; left.
Qed.

Lemma settled_reports id tr ty :
  settled id tr -> inr ty ∈ accounts tr -> (ty, id) ∈ internal_errors tr.
Proof.
  intros H Hin%H. rewrite internal_errors_accounts. apply list_elem_of_omap.
  by exists (inl (ty, id)).
Qed.

(** Attaching. *)
Lemma attach_probe_settled task probe s tr o s' :
  exec (attach_probe task probe s) tr (o, s') -> settled (rt_id task) tr.
Proof.
  unfold attach_probe. rewrite exec_mtry_mret. destruct (try_into I32 _) as [off|e].
  2: { intros [-> _]. apply settled_nil. }
  destruct (bpf_program_path_to_enum_total (pr_bpf_program_path probe)) as [program Hprog].
  rewrite Hprog. intros H.
  assert (Hopen : forall t x s1, exec (on_err (bpf_perf_event_open (of_container_path (pr_offsets probe))
      off (rp_pid (rt_resolved_process task)) (pr_bpf_program_path probe))
      (fun e => let! _ := write_internal_error ErrorTypeBpfProgramAttachFailed (rt_id task)
                  (Some (pr_bpf_program_path probe)) None 0 in mret (EReportedToStatsd e)) s) t (x, s1) ->
    settled (rt_id task) t).
  { clear H. intros t x s1 (t1 & o1 & H & Ho)%exec_on_err_write.
    enough (match o1 with
            | Val (Err _) => forall ty, inr ty ∈ accounts t1 -> ty = ErrorTypeBpfProgramAttachFailed
            | _ => accounts t1 = []
            end) as Hs.
    { destruct o1 as [[fd|e]|m|]; [destruct Ho as [-> _]; by apply settled_none| |
        destruct Ho as [-> _]; by apply settled_none..].
      destruct Ho as [_ [r ->]]. intros ty. rewrite accounts_app, !elem_of_app. cbn.
      intros [->%Hs|Hin]; [right; by left|set_solver]. }
    clear Ho. revert H. unfold bpf_perf_event_open, pure. intros H. wp_start H.
    destruct (c_string _) as [f|e]; [|cbn; set_solver].
    destruct (c_string _) as [p|e]; [|cbn; set_solver].
    wp_cbn. intros fd. wp_cbn. unfold accounts. destruct (0 <=? fd)%Z eqn:Hfd; cbn; rewrite Hfd; set_solver. }
  apply exec_mtry in H as [H|[(e & s1 & H & _)|[(m & s1 & H & _)|(s1 & H & _)]]];
    [destruct H as (t1 & t2 & fd & s1 & -> & H & (r & t & -> & -> & _))|by apply Hopen in H..].
  apply settled_app; [by eapply Hopen|by apply settled_none].
Qed.

Lemma drop_fds_settled id fds s tr x : exec (drop_fds fds s) tr x -> settled id tr.
Proof. intros H%drop_fds_calls. by eapply settled_only; [|exact H]; intros []. Qed.

Lemma attach_probes_settled task fds probes s tr o s' :
  exec (attach_probes task fds probes s) tr (o, s') -> settled (rt_id task) tr.
Proof.
  revert fds s tr. induction probes as [|probe probes IH]; intros fds s tr H; cbn [attach_probes] in H.
  { destruct H as [-> _]. apply settled_nil. }
  apply exec_mbind in H as [H|[(m & s2 & H & _)|(s2 & H & _)]]; [|by apply attach_probe_settled in H..].
  destruct H as (t1 & t2 & [fd|e] & s1 & -> & H1%attach_probe_settled & H); apply settled_app; try done.
  - by eapply IH.
  - apply exec_mbind in H as [H|[(m & s2 & H & _)|(s2 & H & _)]]; [|by eapply drop_fds_settled..].
    destruct H as (t3 & t4 & [] & s2 & -> & H & -> & _). rewrite app_nil_r. by eapply drop_fds_settled.
Qed.

(** The polls of the maps of a task, one thread each, and what they reported. *)
Definition polls_report bun fuel task (reports : list (ErrorType * Z))
    (outcomes : list (outcome (result unit))) : Prop :=
  exists runs : list (list ev * outcome (result unit)),
    Forall2 (fun path run => exec (poll_registry bun fuel path task (rt_duration task) tt) run.1 (run.2, tt))
      (set_iter (rt_bpf_map_paths task)) runs /\
    outcomes = runs.*2 /\ reports ≡ₚ concat (map internal_errors runs.*1).

(** No thread failed exactly when no error is collected. *)
Lemma poll_failures (outcomes : list (outcome (result unit))) :
  Forall (fun o => o <> NoFuel) outcomes ->
  if bool_decide (length (omap join_error outcomes) = 0%nat)
  then Forall (fun o => o = Val (Ok tt)) outcomes
  else Exists (fun o => o <> Val (Ok tt)) outcomes.
Proof.
  induction 1 as [|o outcomes Ho _ IH]; [by rewrite bool_decide_true|].
  destruct o as [[[]|e]|m|]; cbn [join_error omap list_omap length] in *;
    [|rewrite bool_decide_false by done; by left..|done].
  destruct (bool_decide _); [by constructor|by right].
Qed.

Lemma polls_report_silent bun fuel task reports outcomes :
  polls_report bun fuel task reports outcomes -> Forall (fun o => o = Val (Ok tt)) outcomes -> reports = [].
Proof.
  intros (runs & Hr & -> & Hp) Hok.
  assert (concat (map internal_errors runs.*1) = []) as E; [|by rewrite E, Permutation_nil_r in Hp].
  clear Hp. induction Hr as [|path [t o] paths runs Hx Hr IH]; [done|].
  cbn [fmap list_fmap map concat fst snd] in *. apply Forall_cons in Hok as [-> Hok].
  rewrite (IH Hok), app_nil_r.
  apply poll_registry_accounted in Hx as [_ [Ha|(_ & _ & [=])]].
  rewrite internal_errors_accounts. cbn in Ha. by rewrite Ha.
Qed.

Lemma poll_threads_reports bun fuel task s tr errors s' :
  exec (poll_threads bun fuel task s) tr (Val errors, s') ->
  exists outcomes, polls_report bun fuel task (internal_errors tr) outcomes /\
    errors = omap join_error outcomes /\ Forall (fun o => o <> NoFuel) outcomes /\
    settled (rt_id task) tr.
Proof.
  unfold poll_threads. intros (t1 & t2 & joined & -> & H1 & H2)%exec_bind.
  destruct (existsb _ joined) eqn:Hj; destruct H2 as [-> [=]]. subst errors s'. rewrite app_nil_r.
  apply exec_par_list_shuffle in H1 as (runs & ts & Hr & -> & Hs & Hp).
  set (runs' := map (fun r : list ev * (outcome (result unit) * unit) => (r.1, r.2.1)) runs).
  assert (Hacc : forall B (f : ev -> option B), (forall e, is_schedule e = true -> f e = None) ->
    omap f t1 ≡ₚ concat (map (omap f) runs.*1)).
  { intros B f Hf. rewrite Hp, omap_app. assert (omap f ts = []) as ->.
    { clear -Hs Hf. induction Hs as [|e ts He Hs IH]; [done|]. cbn. by rewrite (Hf e He), IH. }
    rewrite app_nil_r. clear. induction runs.*1 as [|l ls IH]; cbn; [done|]. by rewrite omap_app, IH. }
  assert (Hfuel : Forall (fun o => o <> NoFuel) runs'.*2).
  { rewrite <- not_true_iff_false in Hj. apply Forall_forall. intros o Hin ->. apply Hj, existsb_exists.
    unfold runs' in Hin. apply list_elem_of_fmap in Hin as ([t o] & Ho & Hin). cbn in Ho. subst o.
    apply list_elem_of_fmap in Hin as ([t' [o []]] & Ho & Hin). injection Ho as -> Ho. cbn in Ho. subst o.
    exists (NoFuel, tt). split; [|done]. apply list_elem_of_In, list_elem_of_fmap.
    eexists. split; [|exact Hin]. done. }
  exists runs'.*2. split_and!; [| |done|].
  - exists runs'. split_and!; [|done|].
    + unfold runs'. apply Forall2_fmap_l in Hr. apply Forall2_fmap_r.
      eapply Forall2_impl; [exact Hr|]. by intros path [t [o []]].
    + unfold internal_errors. rewrite (Hacc _ internal_error_of) by (by intros [[] ?]).
      unfold runs'. rewrite <- !list_fmap_compose. done.
  - unfold runs'. clear. induction runs as [|[t [o []]] runs IH]; cbn; [done|].
    cbn in IH. rewrite IH. done.
  - intros ty Hin. unfold accounts in *. rewrite (Hacc _ account_of) in * by (by intros [[] ?]).
    apply list_elem_of_In, in_concat in Hin as (l & Hl & Hin).
    apply in_map_iff in Hl as (t & <- & Ht). apply list_elem_of_In in Ht, Hin.
    apply list_elem_of_In, in_concat. exists (omap account_of t).
    split; [by apply in_map, list_elem_of_In|]. apply list_elem_of_In.
    apply list_elem_of_fmap in Ht as ([t' [o []]] & -> & Ht). cbn in *. apply Forall2_fmap_l in Hr.
    apply list_elem_of_lookup in Ht as [i Hi].
    destruct (Forall2_lookup_r _ _ _ _ _ Hr Hi) as (path & _ & Hx).
    assert (o <> NoFuel) as Ho.
    { rewrite Forall_forall in Hfuel. apply Hfuel. unfold runs'. rewrite <- list_fmap_compose.
      apply list_elem_of_fmap.
      exists (t', (o, tt)). split; [done|]. by apply list_elem_of_lookup; exists i. }
    cbn [fst snd] in Hx. apply poll_registry_accounted in Hx as [_ [Ha|(Hnil & _)]];
      [|cbn in Hnil; subst t'; by apply not_elem_of_nil in Hin].
    exact (settled_accounted _ _ _ Ho Ha ty Hin).
Qed.

(** The errors of discarding carry no mark. *)
Lemma discards_unreported paths s tr e s' :
  exec (for_each paths (fun p => let? _ := bpf_ring_buffer_discard p in mret (Ok tt)) s)
    tr (Val (Err e), s') -> is_reported e = false /\ is_uprobestats e = false.
Proof.
  revert s tr. induction paths as [|p paths IH]; intros s tr H; cbn [for_each] in H;
    [by destruct H as [_ [=]]|].
  apply exec_mtry in H as [H|[(e' & s1 & H & [= -> ->])|[(m & s1 & H & [=])|(s1 & H & [=])]]].
  - destruct H as (t1 & t2 & [] & s1 & -> & _ & H). by apply IH in H.
  - enough (wp ((let? _ := bpf_ring_buffer_discard p in mret (Ok tt)) s)
      (fun _ '(o, _) => forall e, o = Val (Err e) -> is_reported e = false /\ is_uprobestats e = false)) as Hw.
    { rewrite wp_exec in Hw. by apply (Hw _ _ H). }
    clear. unfold bpf_ring_buffer_discard, pure. wp_cbn.
    unfold c_string. destruct (no_nul p); wp_cbn; [intros res; wp_cbn; destruct (0 <=? res)%Z|];
      cbn; by intros ? [= <-].
Qed.

(** What attaching and polling report: a failed attachment once, with a mark; or
    what the polls of the maps report. *)
Lemma attach_and_poll_reports bun fuel task s tr r s' :
  exec (attach_probes_and_poll_maps bun fuel task s) tr (Val r, s') ->
  settled (rt_id task) tr /\
  match r with
  | Ok _ => internal_errors tr = []
  | Err e =>
      (is_reported e = true /\ internal_errors tr = [(ErrorTypeBpfProgramAttachFailed, rt_id task)]) \/
      (is_reported e = false /\ is_uprobestats e = false /\
       (internal_errors tr = [] \/
        exists outcomes, polls_report bun fuel task (internal_errors tr) outcomes /\
          Exists (fun o => o <> Val (Ok tt)) outcomes))
  end.
Proof.
  unfold attach_probes_and_poll_maps. intros H.
  assert (Hd : forall t, only discard_call t -> internal_errors t = [] /\ settled (rt_id task) t).
  { intros t Ht. split; [by eapply internal_errors_only; [|exact Ht]|].
    by eapply settled_only; [|exact Ht]; intros []. }
  apply exec_mtry in H as [H|[(e & s1 & H & [= -> ->])|[(m & s1 & H & [=])|(s1 & H & [=])]]].
  2: { pose proof H as (_ & [H1 H2]%Hd & _)%exec_discards.
       destruct (discards_unreported _ _ _ _ _ H). auto 10. }
  destruct H as (t1 & t2 & [] & s1 & -> & (_ & [H1 Hs1]%Hd & _)%exec_discards & H).
  rewrite internal_errors_app, H1. cbn [app].
  apply exec_mtry in H as [H|[(e & s2 & H & [= -> ->])|[(m & s2 & H & [=])|(s2 & H & [=])]]].
  2: { split; [apply settled_app; [done|by eapply attach_probes_settled]|].
       apply attach_probes_spec_gen in H as (dn & failed & rest & _ & _ & _ & H).
       unfold attach_failure in H. destruct (is_reported e); [auto|]. destruct H as [H ->]. auto 10. }
  destruct H as (t3 & t4 & fds & s2 & -> & H3 & H).
  pose proof (attach_probes_settled _ _ _ _ _ _ _ H3) as Hs3.
  apply attach_probes_spec_gen in H3 as (_ & H2 & _).
  rewrite internal_errors_app, H2. cbn [app].
  apply exec_with_drop in H as [[[=] _]|(_ & t5 & t6 & s3 & o2 & -> & H & Hc)].
  pose proof (drop_fds_settled (rt_id task) _ _ _ _ Hc) as Hs6.
  assert (internal_errors t6 = []) as Hc'.
  { apply (internal_errors_only close_call); [done|]. by eapply drop_fds_calls. }
  rewrite internal_errors_app, Hc', app_nil_r.
  apply exec_mbind in H as [H|[(m & s4 & H & [=])|(s4 & H & [=])]].
  destruct H as (t7 & t8 & errors & s4 & -> & (outcomes & Hp & -> & Hf & Hs7)%poll_threads_reports & H).
  assert (t8 = []) as -> by (by destruct (negb _); destruct H).
  rewrite app_nil_r in *. split; [by repeat apply settled_app|].
  apply poll_failures in Hf. destruct (bool_decide _); cbn [negb] in H; destruct H as [_ [= -> ->]].
  - by eapply polls_report_silent.
  - right. split_and!; [done|done|]. right. exists outcomes. auto.
Qed.

(** Emptying the binder map, if there is one. *)
Definition drains fuel (map : option Z) (s : S) (tr : list ev) (r : result unit) : Prop :=
  match map with
  | None => tr = [] /\ r = Ok tt
  | Some handle => exec (drain fuel handle s) tr (Val r, s)
  end.

Lemma cleanup_reports fuel map task_id s tr s' :
  exec (cleanup_binder_transaction_filters fuel map task_id s) tr (Val tt, s') ->
  only cleanup_call tr /\
  exists t1 t2 r, tr = t1 ++ t2 /\ drains fuel map s t1 r /\
    internal_errors tr =
      match r with Ok _ => [] | Err _ => [(ErrorTypeBinderFilterCleanupFailed, task_id)] end.
Proof.
  unfold cleanup_binder_transaction_filters. destruct map as [handle|];
    [|intros [-> _]; split; [done|by exists [], [], (Ok tt)]].
  intros H. apply exec_mbind in H as [H|[(m & s3 & H & [=])|(s3 & H & [=])]].
  destruct H as (t1 & t2 & r & s3 & -> & Hd & H).
  pose proof Hd as (-> & H1 & _)%exec_drain_calls.
  assert (only cleanup_call t1) by (eapply only_weaken; [|exact H1]; by intros []).
  rewrite internal_errors_app, only_app. rewrite (internal_errors_only drain_call t1) by done.
  destruct r as [[]|e].
  - destruct H as [-> _]. split; [done|]. exists t1, [], (Ok tt). done.
  - rewrite write_internal_error_eq in H. destruct H as (rr & t & -> & -> & _).
    split; [split; [done|by repeat constructor]|]. eexists t1, _, (Err e). split_and!; [reflexivity|exact Hd|done].
Qed.

Lemma cleanup_empties fuel map task_id s tr s' m m' :
  exec (cleanup_binder_transaction_filters fuel map task_id s) tr (Val tt, s') ->
  map_exchange m tr m' -> map_Forall (fun k _ => readable k) m -> (map = None -> m = ∅) -> m' = ∅.
Proof.
  intros H Hm Hr He. destruct map as [handle|].
  2: { destruct H as [-> _]. cbn in Hm. subst. by apply He. }
  apply exec_mbind in H as [H|[(msg & s3 & H & [=])|(s3 & H & [=])]].
  destruct H as (t1 & t2 & r & s3 & -> & H1 & H).
  apply map_exchange_app in Hm as (m1 & Hm1 & Hm).
  destruct (drain_readable _ _ _ _ _ _ _ _ H1 Hm1 Hr) as [[= ->] ->]; [done|].
  destruct H as [-> _]. done.
Qed.

Lemma drop_map_calls (map : option Z) s tr x :
  exec (drop_map map s) tr x -> only cleanup_call tr /\ internal_errors tr = [].
Proof.
  destruct map as [handle|].
  - intros (r & t & -> & -> & _). split; [by repeat constructor|done].
  - intros [-> _]. done.
Qed.

Lemma setup_loop_calls fuel probes mm s tr x :
  exec (setup_loop fuel probes mm s) tr x -> only setup_call tr.
Proof.
  assert (Hd : forall t, only drain_call t -> only setup_call t).
  { intros t Ht. eapply only_weaken; [|exact Ht]. by intros []. }
  revert mm s tr. induction probes as [|probe probes IH]; intros mm s tr H; cbn [setup_loop] in H.
  { destruct H as [-> _]. done. }
  destruct (bool_decide _); [by apply IH in H|].
  assert (Ho : forall t y, exec ((match mm with
       | Some handle => mret (Ok handle)
       | None => BpfMapAccessor_new BinderInterfaceBpfMap
       end : Sys S (result Z)) s) t y -> only setup_call t).
  { clear. intros t [y s1] H. destruct mm as [handle|]; [destruct H as [-> _]; done|].
    unfold BpfMapAccessor_new, bpf_map_open_exclusive_rw, pure in H. wp_start H.
    destruct (c_string _) as [p|e]; [|constructor]. wp_cbn. intros [res handle]. wp_cbn.
    destruct (res =? 0)%Z; by repeat constructor. }
  destruct x as [o s'].
  apply exec_mtry in H as [H|[(e & s1 & H & _)|[(m & s1 & H & _)|(s1 & H & _)]]];
    [|by apply Ho in H..].
  destruct H as (t1 & t2 & handle & s1 & -> & H1%Ho & H). apply only_app. split; [done|].
  apply exec_mbind in H as [H|[(m & s2 & H & _)|(s2 & H & _)]];
    [|by apply exec_write_filters in H as (_ & H%Hd & _)..].
  destruct H as (t3 & t4 & r & s2 & -> & (_ & H2%Hd & _)%exec_write_filters & H).
  apply only_app. split; [done|]. destruct r as [[]|e]; [by apply IH in H|].
  apply exec_mbind in H as [H|[(m & s3 & H & _)|(s3 & H & _)]];
    [|by apply exec_drain_calls in H as (_ & H%Hd & _)..].
  destruct H as (t5 & t6 & dr & s3 & -> & (_ & H3%Hd & _)%exec_drain_calls & H).
  apply only_app. split; [done|]. destruct H as (rr & t & -> & -> & _). by repeat constructor.
Qed.

Lemma execute_in_phases bun fuel task s tr o s' :
  exec (execute bun fuel task s) tr (o, s') -> o <> NoFuel ->
  exists setup discards attach polls closes cleanup,
    tr = setup ++ discards ++ attach ++ polls ++ closes ++ cleanup /\
    only setup_call setup /\ only discard_call discards /\ only attach_call attach /\
    only poll_call polls /\ only close_call closes /\ only cleanup_call cleanup.
Proof.
  intros H Ho.
  destruct (execute_split _ _ _ _ _ _ _ H Ho) as (r & t1 & t2 & -> & H1%setup_loop_calls & H2).
  exists t1. destruct r as [map|e].
  - destruct H2 as (r & t3 & t4 & t5 & t6 & -> & H3 & H4 & [H5 _]%cleanup_reports & [H6 _]%drop_map_calls).
    apply attach_and_poll_calls in H3 as (t7 & t8 & t9 & t10 & -> & A1 & A2 & A3 & A4).
    exists t7, t8, t9, t10, (t4 ++ t5 ++ t6). rewrite <- !(assoc_L (++)), !only_app.
    split_and!; try done. unfold execution_report in H4. destruct r as [[]|e]; [by subst|].
    destruct (is_reported e || is_uprobestats e); [by subst|]. destruct H4 as [rr ->].
    by repeat constructor.
  - destruct H2 as [rr ->]. exists [], [], [], []. eexists. split_and!; [cbn; reflexivity|done..|].
    by repeat constructor.
Qed.

(** None of them is a config error or a conflict: those keep a task from executing. *)
Lemma execute_errors bun fuel task s tr o s' :
  exec (execute bun fuel task s) tr (o, s') -> o <> NoFuel ->
  only (fun c => match c with stats_write_internal_error ty _ _ _ _ => execution_error ty | _ => true end) tr.
Proof.
  intros H Ho.
  destruct (execute_in_phases _ _ _ _ _ _ _ H Ho) as (t1 & t2 & t3 & t4 & t5 & t6 & -> & H1 & H2 & H3 & H4 & H5 & H6).
  rewrite !only_app. split_and!.
  all: eapply only_weaken; [|eassumption]; intros []; done.
Qed.

(** ** Properties *)

(** C3. Execution never fails.  Whatever the kernel, statsd and the handlers do,
    executing a task neither panics nor leaks: every perf event it opened is
    closed, in the order opened, and the binder map it opened is closed, once
    each and nothing else. *)
Theorem execute_releases bun fuel task s tr o s'
    (H : exec (execute bun fuel task s) tr (o, s')) (Ho : o <> NoFuel) :
  o = Val tt /\ s' = s /\ closed_fds tr = opened_fds tr /\ closed_maps tr = opened_maps tr.
Proof. apply exec_execute in H as (-> & [?| ->] & Hc); [done|]. by destruct (Hc Ho). Qed.

(** C20. Execution completes.  If any [k] readings of the clock take a millisecond
    and the binder map behaves as a kernel map, then executing a task of [d]
    milliseconds ends, with fuel for [k * (d + 1)] rounds of each poll and for one
    round of the drain more than the entries the map can hold. *)
Theorem execute_completes k bun fuel task s tr o s' m m'
    (H : exec (execute bun fuel task s) tr (o, s'))
    (Htick : ticking k (instants tr)) (Hk : (0 < k)%nat) (Hm : map_exchange m tr m')
    (Hpoll : (Z.of_nat k * (Z.max 0 (as_millis (rt_duration task)) + 1) <= Z.of_nat fuel)%Z)
    (Hdrain : (size m + filter_count (rt_resolved_probes task) < fuel)%nat) :
  o = Val tt.
Proof.
  pose proof (execute_fuel _ _ _ _ _ _ _ _ _ _ H Htick Hk Hm Hpoll Hdrain).
  by apply exec_execute in H as (_ & [?|?] & _).
Qed.

(** C27. The phases of an execution.  Its calls are, in this order: installing the
    filters, discarding stale ring-buffer items, attaching the probes, polling
    every map, closing the perf events, and cleaning up the filters; no probe is
    attached before every map was discarded, none is closed while a map is polled,
    and the filters go only after every probe is gone. *)
Theorem execute_phases bun fuel task s tr o s'
    (H : exec (execute bun fuel task s) tr (o, s')) (Ho : o <> NoFuel) :
  exists setup discards attach polls closes cleanup,
    tr = setup ++ discards ++ attach ++ polls ++ closes ++ cleanup /\
    only setup_call setup /\ only discard_call discards /\ only attach_call attach /\
    only poll_call polls /\ only close_call closes /\ only cleanup_call cleanup.
Proof. exact (execute_in_phases _ _ _ _ _ _ _ H Ho). Qed.

(** C28. Which failures an execution reports.  Every perf event the kernel refuses,
    and every ring buffer it does not create or fails to poll, is reported under its
    own type, for the task.  And the reports are these, in order.  If installing the
    filters fails, that is the only report.  Otherwise come the reports of attaching
    and polling: a failed attachment, once; or those of the polls of the task's maps
    (each poll's as it makes them, interleaved); or none, if neither failed.  If
    attaching and polling failed with an error that was not reported, the failure of
    the execution follows: also when a poll had reported its error, whose mark is
    lost when the threads are joined.  Last is the failure to empty the binder map,
    exactly when emptying it failed.  All reports carry the task's id. *)
Theorem execute_reports bun fuel task s tr o s'
    (H : exec (execute bun fuel task s) tr (o, s')) (Ho : o <> NoFuel) :
  (forall ty, inr ty ∈ accounts tr -> (ty, rt_id task) ∈ internal_errors tr) /\
  exists setup rest r, tr = setup ++ rest /\
    exec (setup_binder_transaction_filters fuel (rt_resolved_probes task) s) setup (Val r, s) /\
    match r with
    | Err _ => internal_errors tr = [(ErrorTypeBinderFilterSetupFailed, rt_id task)]
    | Ok map => exists work report cleanup close r' drained inner,
        rest = work ++ report ++ cleanup ++ close /\
        exec (attach_probes_and_poll_maps bun fuel task s) work (Val r', s) /\
        drains fuel map s cleanup drained /\
        internal_errors tr = inner ++
          match r' with
          | Err e => if is_reported e then [] else [(ErrorTypeTaskExecutionFailed, rt_id task)]
          | Ok _ => []
          end ++
          match drained with
          | Err _ => [(ErrorTypeBinderFilterCleanupFailed, rt_id task)]
          | Ok _ => []
          end /\
        match r' with
        | Ok _ => inner = []
        | Err e =>
            (is_reported e = true /\ inner = [(ErrorTypeBpfProgramAttachFailed, rt_id task)]) \/
            (is_reported e = false /\
             (inner = [] \/
              exists outcomes, polls_report bun fuel task inner outcomes /\
                Exists (fun o => o <> Val (Ok tt)) outcomes))
        end
    end.
Proof.
  destruct (execute_split _ _ _ _ _ _ _ H Ho) as (r & t1 & t2 & -> & H1 & H2).
  pose proof H1 as Hc1%setup_loop_calls.
  assert (settled (rt_id task) t1) as Hs1 by (by eapply settled_only; [|exact Hc1]; intros []).
  assert (internal_errors t1 = []) as He1 by (by eapply internal_errors_only; [|exact Hc1]).
  destruct r as [map|e].
  2: { destruct H2 as [rr ->]. split.
       - intros ty. apply settled_reports, settled_app; [done|]. by apply settled_no_failure.
       - exists t1. eexists _, (Err e). split; [reflexivity|]. split; [exact H1|].
         by rewrite internal_errors_app, He1. }
  destruct H2 as (r & t3 & t4 & t5 & t6 & -> & H3 & H4 & Hc5 & Hc6).
  apply cleanup_reports in Hc5 as (Hc5 & t7 & t8 & drained & -> & Hd & He5).
  apply drop_map_calls in Hc6 as [Hc6 He6].
  pose proof H3 as [Hs3 He3]%attach_and_poll_reports.
  assert (Hcl : forall t, only cleanup_call t -> settled (rt_id task) t).
  { intros t Ht. by eapply settled_only; [|exact Ht]; intros []. }
  assert (settled (rt_id task) t4 /\ internal_errors t4 =
    match r with
    | Err e => if is_reported e then [] else [(ErrorTypeTaskExecutionFailed, rt_id task)]
    | Ok _ => []
    end) as [Hs4 He4].
  { unfold execution_report in H4. destruct r as [[]|e]; [subst; split; [apply settled_nil|done]|].
    destruct He3 as [[Hr _]|(Hr & Hu & _)]; rewrite Hr in *; cbn [orb] in H4;
      [subst; split; [apply settled_nil|done]|].
    rewrite Hu in H4. destruct H4 as [rr ->]. split; [by apply settled_no_failure|done]. }
  split.
  { intros ty. apply settled_reports.
    apply settled_app, settled_app, settled_app, settled_app; auto. }
  exists t1, (t3 ++ t4 ++ (t7 ++ t8) ++ t6), (Ok map). split; [done|]. split; [exact H1|].
  exists t3, t4, t7, (t8 ++ t6), r, drained, (internal_errors t3).
  split_and!; [by rewrite <- (assoc_L (++) t7 t8 t6)|done|done| |].
  - rewrite (internal_errors_app t1), He1, (internal_errors_app t3), (internal_errors_app t4), He4.
    by rewrite (internal_errors_app (t7 ++ t8)), He5, He6, app_nil_r.
  - destruct r as [[]|e]; [done|]. naive_solver.
Qed.

(** C6. Filters are in place while probes are attached, and gone afterwards.  From
    an empty binder map: whenever a perf event is opened or a ring buffer polled, the
    map maps every interface of every probe's filters to its method codes, and has no
    other entry.  And if every interface name fits a key (under 128 bytes of UTF-8,
    without a NUL), the map is empty again when the execution is over, errors
    included. *)
Theorem execute_filters bun fuel task s tr o s' m'
    (H : exec (execute bun fuel task s) tr (o, s')) (Ho : o <> NoFuel)
    (Hm : map_exchange ∅ tr m') :
  (short_names (rt_resolved_probes task) -> m' = ∅) /\
  forall t1 e t2, tr = t1 ++ e :: t2 ->
    probe_call e = true ->
    exists m1, map_exchange ∅ t1 m1 /\ installed (rt_resolved_probes task) m1.
Proof.
  destruct (execute_split _ _ _ _ _ _ _ H Ho) as (r & t1 & t2 & -> & H1 & H2).
  apply map_exchange_app in Hm as (ms & Hs & Hm).
  destruct r as [map|e].
  - destruct (setup_loop_installs _ _ _ _ _ _ _ H1 Hs) as (Hi & Hr & He).
    apply setup_loop_calls in H1.
    destruct H2 as (r' & t3 & t4 & t5 & t6 & -> & H3 & H4 & H5 & H6).
    apply exec_attach_and_poll in H3 as (_ & H3 & _).
    assert (only report_call t4) as H4'.
    { unfold execution_report in H4. destruct r' as [[]|e]; [by subst|].
      destruct (is_reported e || is_uprobestats e); [by subst|].
      destruct H4 as [rr ->]. by repeat constructor. }
    split.
    + intros Hn%Hr. clear Hr. rename Hn into Hr. apply map_exchange_app in Hm as (m1 & Hm3 & Hm).
      rewrite (only_map_free_exchange _ _ _ H3 Hm3) in Hm.
      apply map_exchange_app in Hm as (m2 & Hm4 & Hm).
      rewrite (only_map_free_exchange t4 ms m2) in Hm;
        [|by eapply only_weaken; [|exact H4']; intros []|done].
      apply map_exchange_app in Hm as (m3 & Hm5 & Hm6).
      rewrite (cleanup_empties _ _ _ _ _ _ _ _ H5 Hm5 Hr He) in Hm6.
      destruct map as [handle|]; [|by destruct H6 as [-> _]].
      destruct H6 as (? & ? & -> & -> & _). by destruct Hm6 as (? & -> & ->).
    + intros u1 e u2 Hsplit Hcall. apply cleanup_reports in H5 as [H5 _]. apply drop_map_calls in H6 as [H6 _].
      destruct (split_in_middle probe_call t1 t3 (t4 ++ t5 ++ t6) u1 u2 e Hsplit Hcall)
        as (b1 & b2 & -> & ->); [by eapply only_not; [|exact H1]; intros []| |].
      { repeat apply Forall_app_2; (eapply only_not; [|eassumption]; by intros []). }
      exists ms. split; [|done]. apply map_exchange_app. exists ms. split; [done|].
      apply only_app in H3 as [H3 _]. by apply only_map_free_idle.
  - pose proof (setup_loop_entries _ _ _ _ _ _ _ _ _ H1 Hs) as Hentries. cbn beta iota in Hentries.
    apply setup_loop_calls in H1.
    destruct H2 as [rr ->]. destruct Hm as (? & -> & ->). split.
    { intros Hn. by destruct (Hentries Hn (map_Forall_empty _)) as [?|[_ ?]]. }
    intros u1 e' u2 Hsplit Hcall.
    destruct (split_in_middle probe_call t1 [] [existT _ rr : ev] u1 u2 e' Hsplit Hcall)
      as (b1 & b2 & Hb & _); [by eapply only_not; [|exact H1]; intros []|by repeat constructor|].
    by apply app_cons_not_nil in Hb.
Qed.

End Reports.

(** ** Witnesses *)

Definition exec_probe : ResolvedProbe :=
  {| pr_method_descriptor := {| md_fully_qualified_class_name := "a.B"; md_method_name := "m";
       md_fully_qualified_parameters := [] |};
     pr_offsets := some_offsets;
     pr_bpf_program_path := prefix_bpf "prog_GenericInstrumentation_uprobe_call_timestamp";
     pr_binder_transaction_filters :=
       {[ "a.IFoo" := {| ic_methods := {[ 3%Z := {| mc_event_service_config := None;
                                                    mc_atom_config := None |} ]} |} ]} |}.

Definition exec_task : ResolvedTask :=
  {| rt_id := 7; rt_duration := from_secs 2; rt_resolved_process := some_process;
     rt_bpf_map_paths := {[ timestamp_map ]};
     rt_statsd_logging_config :=
       Some {| slc_atom_id := Some 900%Z; slc_primitive_argument_positions := [] |};
     rt_resolved_probes := [exec_probe] |}.

Definition exec_run : Prog SysI (outcome unit * unit) :=
  @execute target64 all_flags canonical_order constant_hash unit true 2001 exec_task tt.

Definition exec_env : Env SysI := kernel_env ∅ ticking_env.

(** The kernel fails every poll. *)
Definition failing_poll_env : Env SysI := fun c past =>
  match c return SysResp c with
  | bpfRingBufPoll _ _ _ => ((-5)%Z, [])
  | c' => exec_env c' past
  end.

Definition exec_trace : list ev := run_trace exec_env exec_run.

Lemma exec_run_exec : exec exec_run exec_trace (Val tt, tt).
Proof. apply (run_exec_eq exec_env); [reflexivity|vm_compute; reflexivity]. Defined.

Lemma claim_release_roundtrip_witness :
  update_polled_bpf_maps (Some {| polled_bpf_maps := {[ "other" ]} |}) poll_task =
    (Some {| polled_bpf_maps := {[ "other"; timestamp_map ]} |}, Ok tt) /\
  cleanup_polled_bpf_maps (Some {| polled_bpf_maps := {[ "other"; timestamp_map ]} |}) poll_task =
    Val (Some {| polled_bpf_maps := {[ "other" ]} |}).
Proof.
  assert (update_polled_bpf_maps (Some {| polled_bpf_maps := {[ "other" ]} |}) poll_task =
    (Some {| polled_bpf_maps := {[ "other"; timestamp_map ]} |}, Ok tt)) as H
    by (vm_compute; reflexivity).
  split; [exact H|].
  refine (proj2 (proj2 (proj2 (claim_release_roundtrip _ _ _ _ H)) eq_refl) _).
  intros [=].
Defined.

Lemma attach_probes_spec_witness :
  exists tr fds, exec (@attach_probes unit exec_task [] [exec_probe] tt) tr (Val (Ok fds), tt) /\
    attempts tr = [("/path/to/file", 1234%Z, 123%Z, pr_bpf_program_path exec_probe)].
Proof.
  eexists _, _.
  assert (exec (@attach_probes unit exec_task [] [exec_probe] tt) _ (Val (Ok _), tt)) as H
    by run_in benign_env.
  split; [exact H|]. exact (proj1 (@attach_probes_spec unit _ _ _ _ _ _ H)).
Defined.

Lemma execute_releases_witness :
  exec exec_run exec_trace (Val tt, tt) /\ opened_fds exec_trace = [3%Z] /\ closed_fds exec_trace = [3%Z].
Proof.
  split; [exact exec_run_exec|]. split; [vm_compute; reflexivity|].
  refine (eq_trans (proj1 (proj2 (proj2 (@execute_releases target64 all_flags canonical_order
    constant_hash unit _ _ _ _ _ _ _ exec_run_exec ltac:(discriminate))))) _).
  vm_compute; reflexivity.
Defined.

Lemma execute_completes_witness :
  exists o, exec exec_run exec_trace (o, tt) /\ o = Val tt.
Proof.
  eexists. split; [exact exec_run_exec|].
  assert (map_exchange ∅ exec_trace ∅) as Hm
    by (apply map_run_sound; refine (bool_decide_eq_true_1 _ _); vm_compute; reflexivity).
  refine (@execute_completes target64 all_flags canonical_order constant_hash unit 1 _ _ _ _ _ _ _ _ _
    exec_run_exec _ _ Hm _ _).
  - apply ticking_sorted. vm_compute. repeat constructor; vm_compute; congruence.
  - repeat constructor.
  - vm_compute. congruence.
  - apply Nat.ltb_lt. vm_compute. reflexivity.
Defined.

Lemma execute_phases_witness :
  exists setup rest, exec_trace = setup ++ rest /\ only setup_call setup.
Proof.
  destruct (@execute_phases target64 all_flags canonical_order constant_hash unit _ _ _ _ _ _ _
    exec_run_exec ltac:(discriminate)) as (setup & d & a & p & cl & cn & Htr & Hs & _).
  exists setup, (d ++ a ++ p ++ cl ++ cn). split; [exact Htr|exact Hs].
Defined.

(** A failing poll is reported twice. *)
Lemma execute_reports_witness :
  exists tr, exec exec_run tr (Val tt, tt) /\
    internal_errors tr = [(ErrorTypeBpfRingBufferPollFailed, 7%Z); (ErrorTypeTaskExecutionFailed, 7%Z)] /\
    (inr ErrorTypeBpfRingBufferPollFailed ∈ accounts tr ->
     (ErrorTypeBpfRingBufferPollFailed, 7%Z) ∈ internal_errors tr).
Proof.
  eexists. assert (exec exec_run _ (Val tt, tt)) as H by run_in failing_poll_env.
  split; [exact H|]. split; [vm_compute; reflexivity|].
  exact (proj1 (@execute_reports target64 all_flags canonical_order constant_hash unit _ _ _ _ _ _ _
    H ltac:(discriminate)) _).
Defined.

Lemma execute_filters_witness :
  exists m', map_exchange ∅ exec_trace m' /\ short_names (rt_resolved_probes exec_task) /\ m' = ∅.
Proof.
  exists ∅. assert (map_exchange ∅ exec_trace ∅) as Hm
    by (apply map_run_sound; refine (bool_decide_eq_true_1 _ _); vm_compute; reflexivity).
  split; [exact Hm|].
  assert (short_names (rt_resolved_probes exec_task)) as Hn.
  { intros probe name Hp Hn. apply list_elem_of_singleton in Hp as ->.
    assert (name = "a.IFoo") as ->.
    { revert Hn. cbn [pr_binder_transaction_filters exec_probe]. rewrite dom_singleton_L.
      apply elem_of_singleton. }
    vm_compute. reflexivity. }
  split; [exact Hn|].
  exact (proj1 (@execute_filters target64 all_flags canonical_order constant_hash unit _ _ _ _ _ _ _ _
    exec_run_exec ltac:(discriminate) Hm) Hn).
Defined.
