(* ===== verification/Typing.v ===== *)
(** * Typing: what the daemon writes is of the types of the source

    The model has [Z] for every integer and [string] for every string.  Here: given
    items of their C types and answers of their Rust types, every atom and every
    event the handlers hand over is of the Rust types, field by field: integers fit
    their width and strings are UTF-8.  [types] is a judgement with one rule per
    construct, with an invariant for the handler's state. *)

From S2P Require Import Prelude Effects RustStd Data System Fixtures Guardrail ConfigResolver Handler.
From S2P Require Import Accessibility Bitmap BinderHandler Disruptive Generic ArtTest StatsAtoms.
From S2P Require Import Bpf Poll BpfMap Task Execution Judgement.

Local Open Scope rust_scope.
Local Open Scope string_scope.
Local Open Scope list_scope.

(** ** The types *)

Definition int (t : ity) (z : Z) : Prop := (ity_min t <= z <= ity_max t)%Z.
Definition str (s : string) : Prop := is_str s = true.

Definition wt_value (v : AtomValue) : Prop :=
  match v with
  | VBool _ => True
  | VInt32 z => int I32 z
  | VInt64 z => int I64 z
  | VString s => str s
  | VInt32Vec l => Forall (int I32) l
  | VInt64Vec l => Forall (int I64) l
  end.

Definition wt_field (f : Field) : Prop := wt_value (field_value f).

Definition wt_atom (a : UnstructuredAtom) : Prop :=
  int U32 (atom_id a) /\ Forall wt_field (atom_fields a).

Definition wt_codegen (a : CodegenAtom) : Prop :=
  match a with
  | SetComponentEnabledSettingReported p c state caller _ => str p /\ str c /\ int I32 state /\ str caller
  | DisabledLauncherActivityUidsReported u v => int I32 u /\ int I32 v
  | BindServiceLockedWithBalFlagsReported p flags caller action cp cc =>
      str p /\ int I64 flags /\ str caller /\ str action /\ str cp /\ str cc
  | BindServiceLockedWithBalFlagsUidsReported u v => int I32 u /\ int I32 v
  | AndroidGraphicsBitmapAllocated u w h => int I32 u /\ int I32 w /\ int I32 h
  | AndroidGraphicsBitmapScaled u w h sw sh p a =>
      int I32 u /\ int I32 w /\ int I32 h /\ int I32 sw /\ int I32 sh /\ int I32 p /\ str a
  | AndroidGraphicsBitmapAllocationSnapshot u w h p id ty a =>
      int I32 u /\ int I32 w /\ int I32 h /\ int I32 p /\ int I64 id /\ int I32 ty /\ str a
  end.

Definition wt_entry (e : Entry) : Prop :=
  str (entry_key e) /\
  match entry_value e with StringValue s => str s | IntValue z => int I32 z end.

Definition wt_event (e : BridgeEvent) : Prop :=
  int I32 (ev_uid e) /\ int I64 (ev_timestampMs e) /\ int I32 (ev_payloadId e) /\
  Forall wt_entry (ev_payload e).

(** The integers of an item, as the BPF programs write them. *)
Definition wt_item (ty : StructTy) : struct_of ty -> Prop :=
  match ty with
  | TyCallTimestamp => fun d => int U32 (ct_event d) /\ int U64 (ct_timestampNs d)
  | TyCallResult => fun d => int U64 (cr_pc d) /\ Forall (int U64) (cr_regs d)
  | TySetUidTempAllowlistStateRecord => fun d => int U64 (su_uid d)
  | TyUpdateDeviceIdleTempAllowlistRecord => fun d =>
      int U64 (ud_method_identifier d) /\ int I32 (ud_changing_uid d) /\ int I64 (ud_duration_ms d) /\
      int I32 (ud_type d) /\ int I32 (ud_reason_code d) /\ int I32 (ud_calling_uid d)
  | TyBindServiceLocked => fun d => int I64 (bs_error_code d) /\ int I64 (bs_bind_flags d)
  | TyComponentEnabledSetting => fun d => int I64 (ce_error_code d) /\ int I32 (ce_new_state d)
  | TyProcessChange => fun d => int I32 (pc_pid d) /\ int I32 (pc_uid d)
  | TyBitmapEvent => wf_BitmapEvent
  | TyBinderTransaction => fun d =>
      int U64 (bt_code d) /\ int I32 (bt_calling_uid d) /\ int U64 (bt_timestamp_ns d)
  | TyStartActivityAsUser => fun d =>
      int U64 (sa_method_identifier d) /\ int I32 (sa_request_code d) /\ int I32 (sa_start_flags d) /\
      int I32 (sa_user_id d) /\ int I32 (sa_validate_incoming_user d) /\ int U64 (sa_x0 d)
  | TyAccessibilityEvent => fun d =>
      int I32 (ae_error_code d) /\ int U64 (ae_timestamp_ns d) /\ int I32 (ae_variant d) /\
      int I32 (ae_uid d) /\ int I32 (ae_code d)
  end.

(** What a task holds that its execution hands over. *)
Definition wt_method (code : Z) (mc : MethodConfig) : Prop :=
  int U64 code /\ forall ac, mc_atom_config mc = Some ac -> int U32 (ac_atom_id ac).

Definition wt_filters (filters : gmap string InterfaceConfig) : Prop :=
  map_Forall (fun name ic => str name /\ map_Forall wt_method (ic_methods ic)) filters.

Definition wt_process (p : ResolvedProcess) : Prop :=
  int I32 (rp_pid p) /\ int I32 (rp_uid p) /\ str (rp_name p).

Definition wt_descriptor (m : MethodDescriptor) : Prop :=
  str (md_fully_qualified_class_name m) /\ str (md_method_name m) /\
  Forall str (md_fully_qualified_parameters m).

Definition wt_offsets (o : ExecutableMethodFileOffsets) : Prop :=
  str (of_container_path o) /\ int U64 (of_container_offset o) /\ int U64 (of_method_offset o).

Definition wt_probe (probe : ResolvedProbe) : Prop :=
  wt_descriptor (pr_method_descriptor probe) /\ wt_offsets (pr_offsets probe) /\
  str (pr_bpf_program_path probe) /\ wt_filters (pr_binder_transaction_filters probe).

(** A [Duration]: at most [u64::MAX] seconds, and never negative. *)
Definition wt_duration (d : Z) : Prop := (0 <= d)%Z /\ int U64 (d / NANOS_PER_SEC).

Definition wt_logging (c : StatsdLoggingConfig) : Prop :=
  (forall id, slc_atom_id c = Some id -> int I64 id) /\
  Forall (int I32) (slc_primitive_argument_positions c).

Definition wt_task (task : ResolvedTask) : Prop :=
  int I64 (rt_id task) /\ wt_process (rt_resolved_process task) /\
  Forall wt_probe (rt_resolved_probes task) /\ wt_duration (rt_duration task) /\
  set_Forall str (rt_bpf_map_paths task) /\
  (forall c, rt_statsd_logging_config task = Some c -> wt_logging c).

(** The failure point an error carries. *)
Definition wt_error (e : error) : Prop :=
  match downcast_uprobestats e with
  | Some (BpfProgramError point) | Some (BpfDataInvalid point) => int I64 point
  | None => True
  end.

Definition errs {A} (r : result A) : Prop := forall e, r = Err e -> wt_error e.

(** An answer of its Rust type. *)
Definition answer_errs (e : ev) : Prop :=
  match e with
  | existT (AtomWriter_write_unstructured _) r | existT (AtomWriter_write_codegen _) r
  | existT BridgeService_get r | existT (BS_enqueueEvent _ _) r => errs (r : result unit)
  | existT (BS_getUidForPackage _) r => errs r
  | existT (BS_packageHasEnabledAccessibilityService _) r
  | existT (BS_isLauncherActivity _ _ _) r => errs r
  | existT (ProcessResolver_resolve_process _ _ _) r => errs r
  | existT (OffsetResolver_resolve_offsets _ _) r => errs r
  | _ => True
  end.

Definition wt_answer (e : ev) : Prop :=
  answer_errs e /\
  match e with
  | existT (BS_getUidForPackage _) (Ok uid) => int I32 uid
  | existT Rng_gen_i64 z => int I64 z
  | existT (bpfRingBufPoll ty _ _) (_, items) => Forall (wt_item ty) items
  | existT (ProcessResolver_resolve_process _ _ _) (Ok p) => wt_process p
  | existT (OffsetResolver_resolve_offsets _ _) (Ok (Some o)) => wt_offsets o
  | existT (bpfPerfEventOpen _ _ _ _) fd => int I32 fd
  | _ => True
  end.

(** A string for a C function. *)
Definition c_str (s : string) : Prop := str s /\ no_nul s = true.

(** A call whose arguments are of their Rust or C types.  Handles are whatever the
    C library gave out, and a resolved task makes no call but these. *)
Definition wt_call (c : SysCall) : Prop :=
  match c with
  | AtomWriter_write_unstructured a => wt_atom a
  | AtomWriter_write_codegen a => wt_codegen a
  | BridgeService_get | DeviceProperties_is_user_build | SystemTime_now_millis | Instant_now
  | Rng_gen_i64 | Log_debug_enabled | Schedule_first => True
  | BS_getUidForPackage s | BS_packageHasEnabledAccessibilityService s => str s
  | BS_isLauncherActivity p c _ => str p /\ str c
  | BS_enqueueEvent e _ => wt_event e
  | ProcessResolver_resolve_process name _ timeout =>
      (forall s, name = Some s -> str s) /\ wt_duration timeout
  | OffsetResolver_resolve_offsets p m => wt_process p /\ wt_descriptor m
  | stats_write_internal_error _ id _ _ point => int I64 id /\ int I64 point
  | stats_write_bpf_attached _ cls meth process id =>
      str cls /\ str meth /\ str process /\ int I64 id
  | stats_write_bpf_map_polled _ d n id => int I64 d /\ int I64 n /\ int I64 id
  | bpfRingBufCreate path _ => c_str path
  | bpfRingBufPoll _ _ ms => int I32 ms
  | bpfRingBufDiscard path => c_str path
  | bpfPerfEventOpen filename off pid program =>
      c_str filename /\ int I32 off /\ int I32 pid /\ c_str program
  | close_fd fd => int I32 fd
  | bpfMapOpenExclusiveRW path => c_str path
  | bpfMapUpdateElem _ key codes flags =>
      length key = MAX_STRING_LENGTH /\ length codes = MAX_CODES /\ Forall (int U64) codes /\
      int U64 flags
  | bpfMapLookupElem _ key | bpfMapDeleteElem _ key => length key = MAX_STRING_LENGTH
  | bpfRingBufDestroy _ | bpfMapGetFirstKey _ | bpfMapClose _ => True
  | _ => False
  end.

#[export] Instance SysTypes : Discipline SysI := { good_answer := wt_answer; good_call := wt_call }.

(** ** Lemmas *)

Lemma int_try_into t z z' : try_into t z = Ok z' -> int t z'.
Proof. by intros [-> ?]%try_into_Ok. Qed.

Lemma int_as t z : int t (as_ity t z).
Proof. apply as_ity_range. Qed.

Lemma int_checked {Tg : Target} t z msg x : checked t z msg = Val x -> int t x.
Proof.
  unfold checked. destruct (in_ity t z) eqn:Hz; [intros [= <-]; by apply in_ity_spec|].
  destruct overflow_checks; [done|]. intros [= <-]. apply as_ity_range.
Qed.

Lemma unwrap_Val {A} (r : result A) a : unwrap r = Val a -> r = Ok a.
Proof. by destruct r; intros [= <-]. Qed.

Lemma int_unwrap t z z' : unwrap (try_into t z) = Val z' -> int t z'.
Proof. intros H%unwrap_Val. by apply int_try_into in H. Qed.

Lemma int_i64_of_i32 z : int I32 z -> int I64 z.
Proof. unfold int. cbn. lia. Qed.

Lemma int_payload p : int I32 (payload_id p).
Proof. unfold int. destruct p; cbn; lia. Qed.

Lemma str_bytes l s : bytes_as_str l = Ok s -> str s.
Proof.
  intros (p & rest & _ & _ & Hu & ->)%bytes_as_str_Ok. unfold str, is_str.
  by rewrite list_byte_of_string_of_list_byte.
Qed.

Lemma str_nonempty l s : bytes_as_nonempty_str l = Ok s -> str s.
Proof. intros [H _]%bytes_as_nonempty_str_Ok. by apply str_bytes in H. Qed.

Lemma str_nonempty_map f l s : map_err f (bytes_as_nonempty_str l) = Ok s -> str s.
Proof. destruct (bytes_as_nonempty_str l) eqn:Hl; intros [= <-]. by apply str_nonempty in Hl. Qed.

Lemma wt_string_entry k v : is_str k = true -> str v -> wt_entry (string_entry k v).
Proof. done. Qed.

Lemma wt_int_entry k z : is_str k = true -> int I32 z -> wt_entry (int_entry k z).
Proof. done. Qed.

Lemma errs_Ok {A} (a : A) : errs (Ok a).
Proof. by intros e. Qed.

Lemma errs_anyhow {A} msg : errs (Err (EAnyhow msg) : result A).
Proof. by intros e [= <-]. Qed.

Lemma errs_try_into t z : errs (try_into t z).
Proof. by intros e [-> _]%try_into_Err. Qed.

Lemma errs_rbind {A B} (r : result A) (k : A -> result B) :
  errs r -> (forall a, errs (k a)) -> errs (rbind r k).
Proof. destruct r as [a|e]; intros Hr Hk e' H; [by apply (Hk a)|]. apply Hr. by injection H as ->. Qed.

Lemma errs_bytes l : errs (bytes_as_str l).
Proof.
  apply errs_rbind; [intros e H|intros a e H].
  - revert e H. induction l as [|b l IH]; cbn; [by intros e [= <-]|]. destruct (Byte.eqb b nul); [done|].
    apply errs_rbind; [exact IH|]. intros p. apply errs_Ok.
  - unfold cstr_to_str in H. destruct (utf8_valid a); [done|by injection H as <-].
Qed.

Lemma errs_nonempty l : errs (bytes_as_nonempty_str l).
Proof. apply errs_rbind; [apply errs_bytes|]. intros s e. by destruct (is_empty s); intros [= <-]. Qed.

Lemma errs_ensure b msg : errs (ensure b msg).
Proof. intros e. unfold ensure. by destruct b; intros [= <-]. Qed.

Lemma errs_logging c : errs (logging_atom_id c).
Proof. intros e. unfold logging_atom_id, ok_or. by destruct (slc_atom_id c); intros [= <-]. Qed.

Lemma errs_c_string s : errs (c_string s).
Proof. intros e. unfold c_string. by destruct (no_nul s); intros [= <-]. Qed.

Lemma errs_rmapM {A B} (f : A -> result B) l : (forall a, errs (f a)) -> errs (rmapM f l).
Proof.
  intros Hf. induction l as [|a l IH]; cbn [rmapM]; [apply errs_Ok|].
  apply errs_rbind; [apply Hf|]. intros b. apply errs_rbind; [apply IH|]. intros bs. apply errs_Ok.
Qed.

Lemma errs_ok_or {A} (o : option A) msg : errs (ok_or o (EAnyhow msg)).
Proof. intros e. unfold ok_or. by destruct o; intros [= <-]. Qed.

Lemma str_prefix s : str s -> str (prefix_bpf s).
Proof. done. Qed.

Lemma c_str_of s t : str s -> c_string s = Ok t -> c_str t.
Proof. intros Hs [-> Hn]%c_string_Ok. by split. Qed.

(** Where the callers replace the error. *)
Lemma errs_map_err {A} (r : result A) point :
  int I64 point -> errs (map_err (fun _ => EUprobeStats (BpfDataInvalid point)) r).
Proof. intros Hp e. by destruct r; intros [= <-]. Qed.

Lemma int_uid name uid : wt_answer (existT (BS_getUidForPackage name) (Ok uid)) -> int I32 uid.
Proof. by intros [_ H]. Qed.

Lemma int_rng z : wt_answer (existT Rng_gen_i64 z) -> int I64 z.
Proof. by intros [_ H]. Qed.

Create HintDb typing discriminated.
#[export] Hint Resolve int_try_into int_as int_checked int_unwrap int_i64_of_i32 int_payload str_bytes str_nonempty
  wt_string_entry wt_int_entry errs_Ok errs_anyhow errs_try_into errs_bytes errs_nonempty
  errs_ensure errs_ok_or c_str_of errs_logging errs_c_string int_uid int_rng
  str_nonempty_map errs_map_err : typing.
#[export] Hint Extern 2 (int _ _) => solve [unfold int; cbn; lia] : typing.

(** ** The judgement *)

Section Judgement.
Context {S : Type} (I : S -> Prop).

(** Of a [Result]: the success as said, the error well typed. *)
Definition okp {A} (R : A -> Prop) (r : result A) : Prop :=
  match r with Ok a => R a | Err e => wt_error e end.

Notation any := (fun _ => True).

Lemma types_mtry {A B} (m : Sys S (result A)) (k : A -> Sys S (result B)) Q R :
  types I m (okp Q) -> (forall a, Q a -> types I (k a) (okp R)) -> types I (mtry m k) (okp R).
Proof.
  intros Hm Hk. apply (types_mbind I _ _ (okp Q)); [done|]. intros [a|e] Ha; [by apply Hk|].
  by apply types_mret.
Qed.

(** A pure step, with what its success says. *)
Lemma types_try_mret {A B} (r : result A) (k : A -> Sys S (result B)) R :
  errs r -> (forall a, r = Ok a -> types I (k a) (okp R)) -> types I (mtry (mret r) k) (okp R).
Proof.
  intros He Hk. apply (types_mtry _ _ (fun a => r = Ok a)); [|done]. apply types_mret.
  destruct r as [a|e]; [done|by apply He].
Qed.

Lemma types_for_each {A} (P : A -> Prop) (l : list A) (body : A -> Sys S (result unit)) :
  Forall P l -> (forall a, P a -> types I (body a) (okp any)) -> types I (for_each l body) (okp any).
Proof.
  intros Hl Hb. induction Hl as [|a l Ha Hl IH]; cbn [for_each]; [by apply types_mret|].
  apply (types_mtry _ _ any); [by apply Hb|done].
Qed.

Lemma types_collect {A B} (P : A -> Prop) (Q : B -> Prop) (f : A -> Sys S (result B)) (l : list A) :
  Forall P l -> (forall a, P a -> types I (f a) (okp Q)) -> types I (collect f l) (okp (Forall Q)).
Proof.
  intros Hl Hf. induction Hl as [|a l Ha Hl IH]; cbn [collect]; [by apply types_mret; constructor|].
  apply (types_mtry _ _ Q); [by apply Hf|]. intros b Hb.
  apply (types_mtry _ _ (Forall Q)); [done|]. intros bs Hbs. apply types_mret. by constructor.
Qed.

Lemma types_on_err {A} (m : Sys S (result A)) f (R : A -> Prop) :
  types I m (okp R) -> (forall e, wt_error e -> types I (f e) wt_error) -> types I (on_err m f) (okp R).
Proof.
  intros Hm Hf. apply (types_mbind I _ _ (okp R)); [done|]. intros [a|e] Ha; [by apply types_mret|].
  apply (types_mbind I _ _ wt_error); [by apply Hf|]. intros e' He. by apply types_mret.
Qed.

Lemma types_with_drop {A} (m : Sys S A) (drop : Sys S unit) R :
  types I m R -> types I drop any -> types I (with_drop m drop) R.
Proof.
  intros Hm Hd s tr o s' [[-> H]|(_ & t1 & t2 & s1 & o2 & -> & H1 & H2)]%exec_with_drop Hs Hw.
  - destruct (Hm _ _ _ _ H Hs Hw) as (? & ? & _). done.
  - apply Forall_app in Hw as [Hw1 Hw2]. destruct (Hm _ _ _ _ H1 Hs Hw1) as (C1 & I1 & R1).
    destruct (Hd _ _ _ _ H2 I1 Hw2) as (C2 & I2 & _). split_and!; [by apply Forall_app|done|done].
Qed.

End Judgement.

Arguments okp {A} R r.
Notation any := (fun _ => True).

Lemma now_typed {S} (I : S -> Prop) : types I (get_current_timestamp_millis : Sys S Z) (int I64).
Proof.
  unfold get_current_timestamp_millis.
  eapply types_mbind; [by apply (types_ext _ (SystemTime_now_millis : call SysI))|]. intros now _.
  destruct (now <? 0)%Z; [apply types_panic|].
  destruct (try_into I64 now) eqn:H; [|apply types_panic]. apply types_mret. by apply int_try_into in H.
Qed.

Ltac types_side := cbn [okp good_call SysTypes wt_call wt_codegen]; try done; eauto with typing.

Ltac types_step :=
  lazymatch goal with
  | |- forall _, _ => intros ?
  | |- types _ (mtry (mret _) _) _ =>
      apply types_try_mret; [try solve [types_side]|let H := fresh "Hv" in intros ? H; try discriminate H]
  | |- types _ (mtry (ext ?c) _) (okp _) =>
      eapply (types_mtry _ _ _ (fun a => wt_answer (@existT SysCall SysResp c (Ok a))));
        [refine (types_weaken _ _ _ _ _ (types_ext _ (c : call SysI) _));
           [let Ha := fresh in intros [?|?] Ha; cbn [okp]; [exact Ha|exact (proj1 Ha _ eq_refl)]|]|]
  | |- types _ (mbind (lift_outcome _) _) _ => apply types_bind_lift
  | |- types _ (mbind get_current_timestamp_millis _) _ => eapply types_mbind; [apply now_typed|]
  | |- types _ (mbind get_state _) _ => eapply types_mbind; [apply types_get|]
  | |- types _ (mbind (ext ?c) _) _ => eapply types_mbind; [apply (types_ext _ (c : call SysI))|cbn beta iota delta [resp SysI SysResp good_answer SysTypes]]
  | |- types _ (mbind (put_state _) _) _ => eapply types_mbind; [apply types_put|]
  | |- types _ (mret _) _ => apply types_mret
  | |- types _ (panic _) _ => apply types_panic
  | |- types _ no_fuel _ => apply types_no_fuel
  | |- types _ (put_state _) _ => apply types_put
  | |- types _ (ext ?c) (okp _) =>
      refine (types_weaken _ _ _ _ _ (types_ext _ (c : call SysI) _));
        [let Ha := fresh in intros [?|?] Ha; cbn [okp]; [try exact I|exact (proj1 Ha _ eq_refl)]|]
  | |- types _ (ext ?c) _ => refine (types_weaken _ _ _ _ _ (types_ext _ (c : call SysI) _)); [done|]
  | |- types _ (match ?x with _ => _ end) _ => destruct x eqn:?
  end.

Ltac types_run := repeat types_step.
