(* ===== verification/Typed.v ===== *)
(** * Typed: every handler, the poll loop and the execution of a task are well typed

    The instances of [TypedHandler] for the twelve handlers, and what follows for
    a whole execution: [Typing]'s judgement for [execute]. *)

From S2P Require Import Prelude Effects Judgement RustStd Data System Fixtures Guardrail ConfigResolver Handler.
From S2P Require Import Accessibility Bitmap BinderHandler Disruptive Generic ArtTest StatsAtoms.
From S2P Require Import Bpf Poll BpfMap Task Execution Typing.

Local Open Scope rust_scope.
Local Open Scope string_scope.
Local Open Scope list_scope.

Notation any := (fun _ => True).

(** What a handler promises: an invariant of its state under which its methods,
    given a typed task and a typed item, make typed calls. *)
Class TypedHandler (H : Type) `{Handler H} := {
  th_inv : H -> Prop;
  th_default : th_inv (handler_default H);
  th_on_item : forall task data, wt_task task -> wt_item (T H) data ->
    types th_inv (on_item task data) (okp any);
  th_on_finished : types th_inv (on_finished : Sys H (result unit)) (okp any)
}.
Arguments th_inv H {_ _}.

(** ** Handlers without state *)

Lemma stateless_typed H `{Handler H} :
  on_finished = (default_on_finished : Sys H (result unit)) ->
  (forall task data, wt_task task -> wt_item (T H) data ->
     types any (on_item task data : Sys H (result unit)) (okp any)) -> TypedHandler H.
Proof.
  intros Hf Hi. exists any; [done|exact Hi|]. rewrite Hf. by apply types_mret.
Qed.

(** Run a handler whose [on_item] is the definition [def]. *)
Ltac typed_run def :=
  unfold def, pure, write, write_codegen, bridge_service_get, getUidForPackage, enqueueEvent,
    packageHasEnabledAccessibilityService, isLauncherActivity, is_user_build, log_debug_enabled;
  cbn zeta; types_run; try solve [types_side].

(** An atom from its fields, one by one. *)
Ltac typed_fields := repeat apply Forall_cons_2; try apply Forall_nil_2; unfold wt_field; cbn; types_side.

Lemma BitmapV0_typed task data :
  wt_task task -> wf_BitmapEvent data -> types any (BitmapV0_on_item task data) (okp any).
Proof. intros (_ & (_ & Hu & _) & _) _. typed_run BitmapV0_on_item. Qed.

#[export] Instance BitmapV0_Typed : TypedHandler BitmapAllocationHandlerV0.
Proof. apply stateless_typed; [done|exact BitmapV0_typed]. Qed.

Lemma CallTimestamp_typed task data : types any (CallTimestamp_on_item task data) (okp any).
Proof. typed_run CallTimestamp_on_item. split; [types_side|typed_fields]. Qed.

#[export] Instance CallTimestamp_Typed : TypedHandler CallTimestampHandler.
Proof. apply stateless_typed; [done|intros task data _ _; apply CallTimestamp_typed]. Qed.

Lemma register_field_typed {Tg : Target} data p :
  forall r, register_field data p = Val r -> okp wt_field r.
Proof.
  intros r. unfold register_field, add_int. destruct (checked _ _ _) as [z| |]; cbn [obind]; [|done..].
  destruct (try_into U64 z) as [i|e] eqn:Hi; [|intros [= <-]; by apply errs_try_into in Hi].
  destruct (index_list _ _) as [raw| |]; [|done..]. intros [= <-]. apply int_as.
Qed.

Lemma CallResult_typed {Tg : Target} task data : types any (CallResult_on_item task data) (okp any).
Proof.
  typed_run @CallResult_on_item. eapply types_mtry.
  { apply (types_collect _ any wt_field); [by apply Forall_true|]. intros p _. apply types_lift.
    apply register_field_typed. }
  types_run; try solve [types_side]. split; cbn; [types_side|done].
Qed.

#[export] Instance CallResult_Typed {Tg : Target} : TypedHandler CallResultHandler.
Proof. apply stateless_typed; [done|intros task data _ _; apply CallResult_typed]. Qed.

Lemma SetUid_typed task data : types any (SetUid_on_item task data) (okp any).
Proof. typed_run SetUid_on_item. split; [types_side|typed_fields]. Qed.

#[export] Instance SetUid_Typed : TypedHandler SetUidTempAllowlistStateRecordHandler.
Proof. apply stateless_typed; [done|intros task data _ _; apply SetUid_typed]. Qed.

Lemma UpdateDeviceIdle_typed task data :
  wt_item TyUpdateDeviceIdleTempAllowlistRecord data ->
  types any (UpdateDeviceIdle_on_item task data) (okp any).
Proof. intros (? & ? & ? & ? & ? & ?). typed_run UpdateDeviceIdle_on_item. split; [types_side|typed_fields]. Qed.

#[export] Instance UpdateDeviceIdle_Typed : TypedHandler UpdateDeviceIdleTempAllowlistRecordHandler.
Proof. apply stateless_typed; [done|intros task data _; apply UpdateDeviceIdle_typed]. Qed.

(** ** Art tests *)

Lemma assert_eq_typed {S} (I : S -> Prop) a b : types I (assert_eq a b : Sys S unit) any.
Proof. unfold assert_eq. by types_run. Qed.

Lemma Jit_typed {Tg : Target} {SH : StringHash} task data :
  wt_item TyStartActivityAsUser data -> types any (Jit_on_item task data) (okp any).
Proof.
  intros (_ & _ & _ & Hu & Hv & _). typed_run @Jit_on_item.
  eapply types_mbind; [apply assert_eq_typed|]. types_run; try solve [types_side].
  split; [types_side|typed_fields].
Qed.

#[export] Instance Jit_Typed {Tg : Target} {SH : StringHash} : TypedHandler JitHandler.
Proof. apply stateless_typed; [done|intros task data _; apply Jit_typed]. Qed.

Lemma Aot_typed {Tg : Target} {SH : StringHash} task data :
  wt_item TyUpdateDeviceIdleTempAllowlistRecord data -> types any (Aot_on_item task data) (okp any).
Proof.
  intros (_ & _ & _ & _ & Hr & _). typed_run @Aot_on_item.
  apply (types_mtry _ _ _ any); [|intros _ _].
  { destruct a0; apply types_mret; [|done]. destruct (bytes_as_str _) eqn:Hb; [done|].
    by apply errs_bytes in Hb. }
  eapply types_mbind; [apply assert_eq_typed|]. types_run; try solve [types_side].
  split; [types_side|typed_fields]. by destruct (ud_adding data).
Qed.

#[export] Instance Aot_Typed {Tg : Target} {SH : StringHash} : TypedHandler AotHandler.
Proof. apply stateless_typed; [done|intros task data _; apply Aot_typed]. Qed.

(** ** Binder transactions *)

Lemma find_map_Some {A B} (g : A -> option B) l b : find_map g l = Some b -> exists a, a ∈ l /\ g a = Some b.
Proof.
  induction l as [|a l IH]; cbn; [done|]. destruct (g a) eqn:Ha.
  - intros [= ->]. exists a. set_solver.
  - intros (a' & ? & ?)%IH. exists a'. set_solver.
Qed.

Lemma find_method_config_typed task name code mc :
  wt_task task -> find_method_config task name code = Some mc -> wt_method code mc.
Proof.
  intros (_ & _ & Hf & _) (ic & (probe & Hp & Hic)%list_elem_of_omap & Hg)%find_map_Some.
  rewrite Forall_forall in Hf. destruct (Hf probe Hp) as (_ & _ & _ & Hfl).
  exact (proj2 (Hfl name ic Hic) code mc Hg).
Qed.

Lemma atom_field_typed uid name code ns p f :
  int I32 uid -> str name -> int I32 code -> int I64 ns ->
  atom_field uid name code ns p = Ok f -> wt_field f.
Proof. by intros ????; destruct p; intros [= <-]. Qed.

Lemma write_to_statsd_typed ac uid name code ns :
  int U32 (ac_atom_id ac) -> int I32 uid -> str name -> int I32 code -> int I64 ns ->
  types any (write_to_statsd ac uid name code ns) (okp any).
Proof.
  intros Ha Hu Hn Hc Ht. typed_run write_to_statsd.
  - apply errs_rmapM. intros []; apply errs_Ok || apply errs_anyhow.
  - split; [done|]. cbn. apply rmapM_Ok in Hv. clear -Hu Hn Hc Ht Hv.
    induction Hv as [|p f l fs Hf Hl IH]; constructor; [|done]. exact (atom_field_typed _ _ _ _ _ _ Hu Hn Hc Ht Hf).
Qed.

Lemma BinderTransaction_typed task item :
  wt_task task -> wt_item TyBinderTransaction item ->
  types any (BinderTransactionHandler_on_item task item) (okp any).
Proof.
  intros Ht (Hc & Hu & Hn). unfold BinderTransactionHandler_on_item. typed_run enqueue_event.
  apply find_method_config_typed in Heqo as [_ Hid]; [|done].
  apply (types_mtry _ _ _ any); [types_run; try solve [types_side]|intros _ _].
  - apply write_to_statsd_typed; types_side.
  - types_run; types_side. split_and!; cbn; [done|done|types_side|]. typed_fields.
Qed.

#[export] Instance BinderTransaction_Typed : TypedHandler BinderTransactionHandler.
Proof. apply stateless_typed; [done|exact BinderTransaction_typed]. Qed.

(** ** Disruptive apps *)

Lemma str_calling_package caller : str caller -> str (calling_package_of caller).
Proof. intros Hc. unfold calling_package_of. by destruct (String.eqb caller "shell"). Qed.
#[local] Hint Resolve str_calling_package : typing.

Lemma check_disabled_typed p c state caller :
  str p -> str c -> int I32 state -> str caller ->
  types any (check_disabled_launcher_activity_and_log_to_statsd p c state caller) (okp any).
Proof.
  intros Hp Hc Hs Hcaller. typed_run check_disabled_launcher_activity_and_log_to_statsd.
  eapply (types_mtry _ _ _ any); [types_run; types_side|]. intros _ _.
  eapply (types_mtry _ _ _ any); [|types_run; types_side].
  types_run; types_side.
Qed.

Lemma ComponentEnabled_enqueue_typed p c caller :
  str p -> str c -> str caller -> types any (ComponentEnabled_enqueue p c caller) (okp any).
Proof.
  intros Hp Hc Hcaller. typed_run ComponentEnabled_enqueue.
  split_and!; cbn; [types_side|done|types_side|]. typed_fields.
Qed.

Lemma ComponentEnabled_typed task data :
  wt_item TyComponentEnabledSetting data -> types any (ComponentEnabled_on_item task data) (okp any).
Proof.
  intros [He Hs]. typed_run ComponentEnabled_on_item.
  eapply types_mtry; [apply check_disabled_typed; types_side|intros is_disabled _].
  eapply (types_mtry _ _ _ any); [|types_run; types_side].
  destruct is_disabled; [apply ComponentEnabled_enqueue_typed; types_side|types_run; types_side].
Qed.

#[export] Instance ComponentEnabled_Typed : TypedHandler ComponentEnabledSettingHandler.
Proof. apply stateless_typed; [done|intros task data _; apply ComponentEnabled_typed]. Qed.

Lemma BindService_log_typed p a cp cc flags caller :
  str p -> str a -> str cp -> str cc -> int I64 flags -> str caller ->
  types any (BindService_log_to_statsd p a cp cc flags caller) (okp any).
Proof.
  intros Hp Ha Hcp Hcc Hf Hc. typed_run BindService_log_to_statsd.
  eapply (types_mtry _ _ _ any); [types_run; types_side|].
  types_run; types_side. destruct (negb (is_empty p)); types_side.
Qed.

Lemma BindService_enqueue_typed p a cp cc caller :
  str p -> str a -> str cp -> str cc -> str caller ->
  types any (BindService_enqueue p a cp cc caller) (okp any).
Proof.
  intros Hp Ha Hcp Hcc Hc. typed_run BindService_enqueue.
  split_and!; cbn; [types_side|done|types_side|]. typed_fields.
Qed.

Lemma BindService_typed task data :
  wt_item TyBindServiceLocked data -> types any (BindService_on_item task data) (okp any).
Proof.
  intros [He Hf]. typed_run BindService_on_item.
  eapply types_mtry; [apply BindService_log_typed; types_side|intros _ _].
  eapply types_mtry; [apply BindService_enqueue_typed; types_side|types_run; types_side].
Qed.

#[export] Instance BindService_Typed : TypedHandler BindServiceLockedHandler.
Proof. apply stateless_typed; [done|intros task data _; apply BindService_typed]. Qed.

(** ** Bitmaps *)

Definition wt_metadata (m : BitmapMetadata) : Prop :=
  int I32 (bm_uid m) /\ int I32 (bm_width m) /\ int I32 (bm_height m) /\
  int I32 (bm_pixel_storage_type m) /\ str (bm_activity_name m).

Definition wt_bitmaps (h : BitmapAllocationHandlerV1) : Prop :=
  map_Forall (fun _ => wt_metadata) (bh_bitmaps h) /\
  Forall wt_metadata (bh_bitmap_snapshot_at_max_size h) /\ str (bh_activity_name h).

Lemma wt_bitmap_values {O : HashOrder} m :
  map_Forall (fun _ => wt_metadata) m -> Forall wt_metadata (bitmap_values m).
Proof.
  intros Hm. unfold bitmap_values. rewrite map_iter_perm. apply Forall_fmap.
  apply map_Forall_to_list in Hm. eapply Forall_impl; [exact Hm|]. by intros [].
Qed.

Lemma wt_set_bitmaps h m :
  wt_bitmaps h -> map_Forall (fun _ => wt_metadata) m -> wt_bitmaps (set_bitmaps m h).
Proof. by intros (_ & Hs & Ha). Qed.

Lemma wt_set_snapshot {O : HashOrder} h max :
  wt_bitmaps h -> wt_bitmaps (set_snapshot max (bitmap_values (bh_bitmaps h)) h).
Proof. intros (Hm & _ & Ha). split_and!; [done|by apply wt_bitmap_values|done]. Qed.

Lemma wt_set_activity h s : wt_bitmaps h -> str s -> wt_bitmaps (set_activity s h).
Proof. by intros (Hm & Hs & _). Qed.

Lemma wt_set_current h z : wt_bitmaps h -> wt_bitmaps (set_current z h).
Proof. done. Qed.
#[local] Hint Resolve wt_set_snapshot wt_set_activity wt_set_current : typing.

Section BitmapV1.
Context {Tg : Target} {O : HashOrder}.

Lemma BitmapV1_allocation_typed task data :
  wt_task task -> types wt_bitmaps (BitmapV1_allocation task data) (okp any).
Proof.
  intros (_ & (_ & Hu & _) & _). typed_run @BitmapV1_allocation.
  apply wt_set_bitmaps; [done|]. apply map_Forall_insert_2; [|apply H].
  split_and!; cbn; types_side. apply H.
Qed.

Lemma BitmapV1_deallocation_typed data : types wt_bitmaps (BitmapV1_deallocation data) (okp any).
Proof.
  typed_run @BitmapV1_deallocation. apply wt_set_bitmaps; [done|]. apply map_Forall_delete, H.
Qed.

Lemma BitmapV1_scaled_typed task data :
  wt_task task -> types wt_bitmaps (BitmapV1_scaled task data) (okp any).
Proof.
  intros (_ & (_ & Hu & _) & _). typed_run @BitmapV1_scaled. split_and!; types_side. apply H.
Qed.

Lemma BitmapV1_typed task data :
  wt_task task -> types wt_bitmaps (BitmapV1_on_item task data) (okp any).
Proof.
  intros Ht. unfold BitmapV1_on_item. repeat case_match.
  - by apply BitmapV1_allocation_typed.
  - apply BitmapV1_deallocation_typed.
  - unfold pure. types_run; types_side.
  - by apply BitmapV1_scaled_typed.
  - types_run; types_side.
Qed.

(** Writing the snapshots of typed metadata. *)
Lemma write_snapshots_typed id ty l :
  int I64 id -> int I32 ty -> Forall wt_metadata l ->
  types wt_bitmaps (for_each l (fun m => write_codegen (snapshot_atom id ty m))) (okp any).
Proof.
  intros Hid Hty Hl. apply (types_for_each _ wt_metadata); [done|]. intros m (? & ? & ? & ? & ?).
  unfold write_codegen. types_run. split_and!; done.
Qed.

Lemma BitmapV1_finished_typed : types wt_bitmaps BitmapV1_on_finished (okp any).
Proof.
  unfold BitmapV1_on_finished. types_run; [done|].
  eapply types_mtry; [apply write_snapshots_typed; types_side; apply H|intros _ _].
  types_run; [done|]. apply write_snapshots_typed; types_side. apply wt_bitmap_values, H.
Qed.

End BitmapV1.

#[export] Instance BitmapV1_Typed {Tg : Target} {O : HashOrder} : TypedHandler BitmapAllocationHandlerV1.
Proof.
  exists wt_bitmaps; [done|intros task data Ht _; by apply BitmapV1_typed|apply BitmapV1_finished_typed].
Qed.

(** ** Accessibility *)

Definition wt_record (e : Event) : Prop :=
  int I32 (e_uid e) /\
  match e_variant e with
  | RuntimePermissionGrant permission_name => str permission_name
  | A11y code => int I32 code
  end.

Definition wt_grant (g : AccessibilityRuntimePermissionGrant) : Prop :=
  int I32 (g_uid g) /\ str (g_permission_name g) /\ Forall (int I32) (g_preceding_a11y_calls g).*1.

Definition wt_events (h : AccessibilityHandler) : Prop := map_Forall (fun _ => Forall wt_record) (ah_events h).

Lemma Event_into_typed e b : wt_record e -> Event_into e = Val b -> wt_event b.
Proof.
  intros [Hu Hv]. unfold Event_into. destruct (unwrap _) as [ms| |] eqn:Hms; cbn [obind]; [|done..].
  apply int_unwrap in Hms. destruct (e_variant e); intros [= <-]; split_and!; cbn; try done; typed_fields.
Qed.

Lemma wt_record_event h e : wt_events h -> wt_record e -> wt_events (record_event h e).
Proof.
  intros Hh He. apply map_Forall_insert_2; [|done]. apply Forall_app. split; [|by constructor].
  destruct (ah_events h !! e_uid e) as [l|] eqn:Hl; cbn; [by apply (Hh _ _ Hl)|constructor].
Qed.

Definition recorded_event (o : option Event) : Prop := forall e, o = Some e -> wt_record e.

Lemma grant_typed data ns :
  types wt_events (handle_permission_grant_event data ns) (okp recorded_event).
Proof.
  typed_run handle_permission_grant_event.
  - eapply Event_into_typed; [|done]. split; cbn; types_side.
  - intros e [= <-]. split; cbn; types_side.
Qed.

Lemma a11y_typed data ns :
  int I32 (ae_uid data) -> int I32 (ae_code data) ->
  types wt_events (handle_a11y_event data ns) (okp recorded_event).
Proof.
  intros Hu Hc. typed_run handle_a11y_event.
  - by eapply Event_into_typed; [|done].
  - by intros e [= <-].
Qed.

Lemma Accessibility_item_typed task data :
  wt_item TyAccessibilityEvent data -> types wt_events (AccessibilityHandler_on_item task data) (okp any).
Proof.
  intros (_ & _ & _ & Hu & Hc). unfold AccessibilityHandler_on_item. types_run; types_side.
  apply (types_mtry _ _ _ recorded_event).
  - types_run; types_side; [apply grant_typed|by apply a11y_typed].
  - types_run; types_side. apply wt_record_event; [done|]. auto.
Qed.

(** The grants are made of the recorded events. *)
Lemma associate_step_typed st e :
  Forall wt_grant st.1 -> Forall wt_grant (option_list st.2) -> wt_record e ->
  Forall wt_grant (associate_step st e).1 /\ Forall wt_grant (option_list (associate_step st e).2).
Proof.
  destruct st as [gs g]. cbn. intros Hgs Hg [Hu Hv].
  destruct g as [g|], (e_variant e) as [name|code]; cbn in *.
  - split; [by apply Forall_app|by apply Forall_singleton].
  - destruct (in_window _ _); [|done]. split; [done|]. apply Forall_singleton in Hg as (? & ? & ?).
    apply Forall_singleton. split_and!; [done|done|]. cbn. rewrite fmap_app.
    apply Forall_app. split; [done|]. by apply Forall_singleton.
  - split; [by apply Forall_app|by apply Forall_singleton].
  - done.
Qed.

Lemma associate_typed events : Forall wt_record events -> Forall wt_grant (associate_events events).
Proof.
  intros He. unfold associate_events.
  assert (H : forall st, Forall wt_grant st.1 -> Forall wt_grant (option_list st.2) ->
    Forall wt_grant (fold_left associate_step events st).1 /\
    Forall wt_grant (option_list (fold_left associate_step events st).2)).
  { induction He as [|e l He Hl IH]; cbn [fold_left]; [done|]. intros st H1 H2.
    by destruct (associate_step_typed st e H1 H2 He); apply IH. }
  destruct (H ([], None)) as [H1 H2]; [constructor..|].
  destruct (fold_left _ _ _) as [gs g]. by apply Forall_app.
Qed.

Lemma wt_sorted l : Forall wt_record l -> Forall wt_record (sort_events l).
Proof. intros Hl. unfold sort_events. by rewrite stable_sort_perm. Qed.

Lemma all_grants_typed {O : HashOrder} h : wt_events h -> Forall wt_grant (all_grants h).
Proof.
  intros Hh. unfold all_grants. rewrite Forall_flat_map, map_iter_perm.
  apply map_Forall_to_list in Hh. eapply Forall_impl; [exact Hh|]. intros [uid l] Hl. cbn in *.
  by apply associate_typed, wt_sorted.
Qed.

Lemma grant_atom_typed g a : wt_grant g -> grant_atom g = Ok a -> wt_atom a.
Proof.
  intros (Hu & Hn & Hc). unfold grant_atom. destruct (try_into I64 _) as [ms|] eqn:Hms; [|done].
  cbn [rbind]. destruct (rmapM _ _) as [times|] eqn:Ht; [|done]. cbn [rbind]. intros [= <-].
  apply int_try_into in Hms. apply rmapM_Ok in Ht. split; [by split|].
  typed_fields. clear -Ht. induction Ht as [|[c t] m l ms H Ht IH]; constructor; [|done].
  by apply int_try_into in H.
Qed.

Lemma grant_atom_errs g : errs (grant_atom g).
Proof.
  apply errs_rbind; [apply errs_try_into|intros ms]. apply errs_rbind; [|intros ts; apply errs_Ok].
  apply errs_rmapM. intros [c t]. apply errs_try_into.
Qed.

Lemma Accessibility_finished_typed {O : HashOrder} :
  types wt_events AccessibilityHandler_on_finished (okp any).
Proof.
  unfold AccessibilityHandler_on_finished. types_run.
  - intros uid l. cbn. rewrite lookup_fmap_Some. intros (l' & <- & Hl). by apply wt_sorted, (H uid).
  - apply (types_for_each _ wt_grant); [by apply all_grants_typed|]. intros g Hg. unfold write.
    types_run; [apply grant_atom_errs|by eapply grant_atom_typed].
Qed.

#[export] Instance Accessibility_Typed {O : HashOrder} : TypedHandler AccessibilityHandler.
Proof.
  exists wt_events; [done|intros task data _; apply Accessibility_item_typed|
    apply Accessibility_finished_typed].
Qed.

(** ** Every handler the registry can hold *)

Lemma registrable_typed {Tg : Target} {O : HashOrder} {SH : StringHash} H HH :
  registrable H HH -> inhabited (TypedHandler H).
Proof. intros []; constructor; exact _. Qed.
