(* ===== verification/TypedExecution.v ===== *)
(** * TypedExecution: the calls of an execution are well typed

    The poll loop of a typed handler, the threads of a task, and the three steps of
    [execute], under the judgement of [Typing]. *)

From S2P Require Import Prelude Effects Judgement RustStd Data System Fixtures Guardrail ConfigResolver Handler.
From S2P Require Import Accessibility Bitmap BinderHandler Disruptive Generic ArtTest StatsAtoms.
From S2P Require Import Bpf Poll BpfMap Task Execution Typing Typed.

Local Open Scope rust_scope.
Local Open Scope string_scope.
Local Open Scope list_scope.

(** ** The wrappers *)

Section Wrappers.
Context {S : Type} (I : S -> Prop).

Lemma write_internal_error_typed ty id prog map point :
  int I64 id -> int I64 point ->
  types I (write_internal_error ty id prog map point : Sys S unit) any.
Proof.
  intros Hi Hp s tr o s' H Hs _. rewrite write_internal_error_eq in H.
  destruct H as (r & t & -> & -> & [= -> ->]). split_and!; [by apply Forall_singleton|done|done].
Qed.

Lemma ring_buffer_new_typed ty path :
  str path -> types I (BpfRingBuffer_new ty path : Sys S (result Z)) (okp any).
Proof. intros Hp. typed_run @BpfRingBuffer_new. Qed.

Lemma ring_buffer_poll_typed ty handle ms :
  int I32 ms ->
  types I (BpfRingBuffer_poll ty handle ms : Sys S (result (list (struct_of ty)))) (okp (Forall (wt_item ty))).
Proof. intros Hm. typed_run @BpfRingBuffer_poll. cbn. by destruct H. Qed.

Lemma ring_buffer_discard_typed path :
  str path -> types I (bpf_ring_buffer_discard path : Sys S (result bool)) (okp any).
Proof. intros Hp. typed_run @bpf_ring_buffer_discard. Qed.

Lemma perf_event_open_typed filename off pid prog :
  str filename -> int I32 off -> int I32 pid -> str prog ->
  types I (bpf_perf_event_open filename off pid prog : Sys S (result Z)) (okp (int I32)).
Proof. intros Hf Ho Hp Hg. typed_run @bpf_perf_event_open; [split_and!; types_side|exact (proj2 H)]. Qed.

Lemma key_length (key : string) : length (binder_to_c_key key) = MAX_STRING_LENGTH.
Proof. apply copy_into_length. Qed.

Lemma drain_typed fuel handle : types I (drain fuel handle : Sys S (result unit)) (okp any).
Proof.
  induction fuel as [|fuel IH]; cbn [drain]; [apply types_no_fuel|].
  eapply (types_mtry _ _ _ any).
  { typed_run @BpfMapAccessor_get_first_key. eapply (types_mtry _ _ _ any); [|types_run; types_side].
    typed_run @bpf_map_get_first_key. }
  intros [key|] _; [|by apply types_mret].
  eapply (types_mtry _ _ _ any).
  { typed_run @BpfMapAccessor_delete. typed_run @bpf_map_delete_elem. apply key_length. }
  intros [] _; [exact IH|by apply types_mret].
Qed.

End Wrappers.

(** ** The poll loop *)

Section Loop.
Context {Tg : Target} {H : Type} `{TH : TypedHandler H}.

Lemma report_typed ty task path point e :
  wt_task task -> int I64 point ->
  types (th_inv H) (report ty task path point e : Sys H error) wt_error.
Proof.
  intros [Hi _] Hp. unfold report. eapply types_mbind; [by apply write_internal_error_typed|].
  by types_run.
Qed.

Lemma report_item_error_typed task path e :
  wt_task task -> wt_error e -> types (th_inv H) (report_item_error task path e : Sys H error) wt_error.
Proof.
  intros Ht He. unfold report_item_error, classify_item_error. unfold wt_error in He.
  destruct (downcast_uprobestats e) as [[]|]; by apply report_typed.
Qed.

Lemma poll_loop_typed fuel path task timer handle total :
  wt_task task -> int I64 total ->
  types (th_inv H) (poll_loop fuel path task timer handle total) (okp (int I64)).
Proof using TH.
  intros Ht. revert total. induction fuel as [|fuel IH]; intros total Htot; cbn [poll_loop];
    [apply types_no_fuel|].
  eapply (types_mbind _ _ _ any); [typed_run @Timer_remaining_millis|intros [ms|] _].
  2: { types_run. exact Htot. }
  types_run.
  eapply types_mtry.
  { apply types_on_err; [apply ring_buffer_poll_typed; types_side|]. intros e _. by apply report_typed. }
  intros items Hitems. types_run.
  eapply types_mtry; [|intros _ _; apply IH; eauto with typing].
  eapply types_for_each; [exact Hitems|]. intros i Hi.
  apply types_on_err; [by apply th_on_item|]. intros e. by apply report_item_error_typed.
Qed.

Lemma poll_loop_generic_typed {S} (I : S -> Prop) fuel path task duration :
  wt_task task -> str path -> types I (poll_loop_generic H fuel path task duration : Sys S (result unit)) (okp any).
Proof using TH.
  intros Ht Hpath. unfold poll_loop_generic. types_run; [types_side|].
  apply (types_with_local _ (th_inv H)); [apply th_default|].
  eapply (types_mbind _ _ _ any); [typed_run @Timer_new|intros timer _].
  eapply types_mtry.
  { apply types_on_err; [by apply ring_buffer_new_typed|]. intros e _. by apply report_typed. }
  intros handle _. apply types_with_drop; [|unfold BpfRingBuffer_drop; by types_run].
  unfold poll_created. eapply types_mtry; [by apply poll_loop_typed|]. intros total Htot.
  eapply types_mtry; [apply th_on_finished|]. intros _ _. types_run; types_side.
  - intros e. by destruct (bpf_map_path_to_enum_total path) as [? ->].
  - split_and!; types_side. apply Ht.
Qed.

End Loop.

Lemma poll_registry_typed {Tg : Target} {F : Flags} {O : HashOrder} {SH : StringHash} {S : Type}
    (I : S -> Prop) bun fuel path task duration :
  wt_task task -> str path ->
  types I (poll_registry bun fuel path task duration : Sys S (result unit)) (okp any).
Proof.
  intros Ht Hpath. unfold poll_registry. destruct (HANDLER_REGISTRY _ !! path) as [f|] eqn:Hf; [|by apply types_mret].
  revert Hpath. revert path f Hf. refine (registry_cases bun
    (fun path f => str path -> types I (f fuel path task duration) (okp any)) _).
  intros H HH [TH]%registrable_typed Hpath. by apply poll_loop_generic_typed.
Qed.

Section Execute.
Context {Tg : Target} {F : Flags} {O : HashOrder} {SH : StringHash} {S : Type}.
Context (I : S -> Prop) (at_least_cinnamon_bun : bool) (task : ResolvedTask) (Ht : wt_task task).
Implicit Types (fuel : nat).

Lemma paths_typed : Forall str (set_iter (rt_bpf_map_paths task)).
Proof using Ht.
  rewrite set_iter_perm. destruct Ht as (_ & _ & _ & _ & Hm & _). apply Forall_forall.
  intros path Hin%elem_of_elements. by apply Hm.
Qed.

(** The threads of a scope: each is typed on its own part of the exchange. *)
Lemma poll_threads_typed fuel :
  types I (poll_threads at_least_cinnamon_bun fuel task : Sys S (list error)) any.
Proof using Ht.
  intros s tr o s' H Hs Hw. unfold poll_threads in H.
  apply exec_bind in H as (t1 & t2 & joined & -> & H & H2).
  assert (t2 = [] /\ s' = s) as [-> ->].
  { destruct (existsb _ _); by destruct H2 as [-> [= _ ->]]. }
  rewrite app_nil_r in *. split_and!; [|done|done].
  apply exec_par_list_shuffle in H as (runs & ts & Hr & _ & Hts & Hp).
  unfold good_calls. rewrite Hp in Hw |- *. apply Forall_app in Hw as [Hw _]. apply Forall_app. split.
  - pose proof paths_typed as Hpaths. revert Hr Hw Hpaths. generalize (set_iter (rt_bpf_map_paths task)).
    intros paths Hr. clear Hp H2. remember (map _ paths) as ps eqn:Hps. revert paths Hps.
    induction Hr as [|p [t [o1 s1]] ps runs Hpr Hr IH]; intros [|path paths] [=] Hw Hs'; [constructor|].
    subst. cbn in *. apply Forall_app in Hw as [Hw1 Hw2]. apply Forall_cons in Hs' as [Hs1 Hs2].
    apply Forall_app. split; [|exact (IH paths eq_refl Hw2 Hs2)].
    exact (proj1 (poll_registry_typed any _ fuel path task (rt_duration task) Ht Hs1 _ _ _ _ Hpr Logic.I Hw1)).
  - eapply Forall_impl; [exact Hts|]. intros [[] ?]; done.
Qed.

Lemma drop_fds_typed fds : Forall (int I32) fds -> types I (drop_fds fds : Sys S unit) any.
Proof.
  induction 1 as [|fd fds Hfd _ IH]; cbn [drop_fds]; [by apply types_mret|].
  unfold OwnedFd_drop. types_run; [done|exact IH].
Qed.

Lemma attach_probe_typed probe :
  wt_probe probe -> types I (attach_probe task probe : Sys S (result Z)) (okp (int I32)).
Proof using Ht.
  intros ((Hc & Hm & _) & (Ho & _ & _) & Hg & _).
  destruct Ht as (Hi & (Hp & _ & Hn) & _). typed_run @attach_probe.
  eapply (types_mtry _ _ _ (int I32)).
  - apply types_on_err; [apply perf_event_open_typed; types_side|]. intros e _.
    eapply types_mbind; [by apply write_internal_error_typed|]. by types_run.
  - destruct (bpf_program_path_to_enum_total (pr_bpf_program_path probe)) as [program ->].
    types_run; types_side.
Qed.

Lemma attach_probes_typed fds probes :
  Forall (int I32) fds -> Forall wt_probe probes ->
  types I (attach_probes task fds probes : Sys S (result (list Z))) (okp (Forall (int I32))).
Proof using Ht.
  intros Hfds Hps. revert fds Hfds. induction Hps as [|probe probes Hp _ IH]; intros fds Hfds;
    cbn [attach_probes]; [by apply types_mret|].
  eapply types_mbind; [by apply attach_probe_typed|]. intros [fd|e] He.
  - apply IH, Forall_app. by split; [|apply Forall_singleton].
  - eapply types_mbind; [by apply drop_fds_typed|]. by types_run.
Qed.

Lemma attach_and_poll_typed fuel :
  types I (attach_probes_and_poll_maps at_least_cinnamon_bun fuel task : Sys S (result unit)) (okp any).
Proof using Ht.
  unfold attach_probes_and_poll_maps. eapply types_mtry.
  { apply (types_for_each _ str); [exact paths_typed|]. intros path Hpath.
    eapply types_mtry; [by apply ring_buffer_discard_typed|]. by types_run. }
  intros _ _. eapply types_mtry; [apply attach_probes_typed; [constructor|by destruct Ht as (_ & _ & ? & _)]|].
  intros fds Hfds. apply types_with_drop; [|by apply drop_fds_typed].
  eapply types_mbind; [apply poll_threads_typed|]. by types_run.
Qed.

(** Codes and keys fill the arrays of the C map. *)
Lemma codes_typed ic :
  map_Forall wt_method (ic_methods ic) ->
  length (binder_to_c_value (method_ids ic)) = MAX_CODES /\
  Forall (int U64) (binder_to_c_value (method_ids ic)).
Proof.
  intros Hic. split; [apply copy_into_length|]. unfold binder_to_c_value, copy_into, method_ids.
  apply Forall_app. split; [|by apply Forall_replicate].
  apply Forall_take. rewrite map_iter_perm. apply Forall_fmap. apply map_Forall_to_list in Hic.
  eapply Forall_impl; [exact Hic|]. by intros [code mc] [Hc _].
Qed.

Lemma write_filters_typed filters handle :
  wt_filters filters ->
  types I (write_binder_transaction_filter_to_binder_bpf_map filters handle : Sys S (result unit)) (okp any).
Proof.
  intros Hf. unfold write_binder_transaction_filter_to_binder_bpf_map.
  apply (types_for_each _ (fun '(name, ic) => str name /\ map_Forall wt_method (ic_methods ic))).
  - rewrite map_iter_perm. by apply map_Forall_to_list in Hf.
  - intros [name ic] [_ Hic]. eapply (types_mtry _ _ _ any); [|by types_run].
    typed_run @BpfMapAccessor_put. typed_run @bpf_map_update_elem.
    destruct (codes_typed ic Hic). split_and!; [apply key_length|done|done|by split].
Qed.

Lemma setup_loop_typed fuel probes handle :
  Forall (fun probe => wt_filters (pr_binder_transaction_filters probe)) probes ->
  types I (setup_loop fuel probes handle : Sys S (result (option Z))) (okp any).
Proof.
  intros Hf. revert handle. induction Hf as [|probe probes Hp Hf IH]; intros handle; cbn [setup_loop];
    [by apply types_mret|].
  destruct (bool_decide _); [apply IH|]. eapply (types_mtry _ _ _ any).
  { destruct handle; [by apply types_mret|]. typed_run @BpfMapAccessor_new.
    eapply (types_mtry _ _ _ any); [|by types_run]. typed_run @bpf_map_open_exclusive_rw.
    eapply c_str_of; [|done]. done. }
  intros h _. eapply types_mbind; [by apply write_filters_typed|]. intros [[]|e] _; [apply IH|].
  eapply types_mbind; [apply drain_typed|]. intros drained _.
  unfold BpfMapAccessor_drop, bpf_map_close. types_run; by destruct drained.
Qed.

Lemma execute_typed fuel : types I (execute at_least_cinnamon_bun fuel task : Sys S unit) any.
Proof using Ht.
  destruct Ht as (Hi & Hp & Hf & _). unfold execute, setup_binder_transaction_filters.
  eapply types_mbind.
  { apply setup_loop_typed. eapply Forall_impl; [exact Hf|]. by intros probe (_ & _ & _ & ?). }
  intros [map|e] _; [|by apply write_internal_error_typed].
  apply types_with_drop.
  - eapply types_mbind; [by apply attach_and_poll_typed|]. intros r _.
    eapply (types_mbind _ _ _ any).
    + destruct r as [[]|e]; [by apply types_mret|]. destruct (_ && _); [|by apply types_mret].
      by apply write_internal_error_typed.
    + intros _ _. unfold cleanup_binder_transaction_filters. destruct map as [h|]; [|by apply types_mret].
      eapply types_mbind; [apply drain_typed|]. intros [[]|e] _; [by apply types_mret|].
      by apply write_internal_error_typed.
  - destruct map as [h|]; [|by apply types_mret]. unfold drop_map, BpfMapAccessor_drop, bpf_map_close.
    by types_run.
Qed.

End Execute.

(** ** From the config *)

(** A parsed config is of the types of its protobuf schema: strings are UTF-8, and
    [task_id], [duration_seconds], [atom_id] and the argument positions are integers
    of their width.  The ids and codes of the filters need no assumption: the
    resolver checks them. *)
Definition wt_probe_config (probe : ProbeConfig) : Prop :=
  (forall s, pb_bpf_name probe = Some s -> str s) /\
  (forall s, pb_fully_qualified_class_name probe = Some s -> str s) /\
  (forall s, pb_method_name probe = Some s -> str s) /\
  Forall str (pb_fully_qualified_parameters probe) /\
  Forall (fun f => forall s, btf_interface_name f = Some s -> str s) (pb_binder_transaction_filters probe).

Definition wt_task_config (task : Data.Task) : Prop :=
  (forall id, tk_task_id task = Some id -> int I64 id) /\
  (forall d, tk_duration_seconds task = Some d -> int I64 d) /\
  (forall s, tk_target_process_name task = Some s -> str s) /\
  Forall str (tk_bpf_maps task) /\ Forall wt_probe_config (tk_probe_configs task) /\
  (forall c, tk_statsd_logging_config task = Some c -> wt_logging c).

Definition wt_config (config : UprobestatsConfig) : Prop := Forall wt_task_config (cfg_tasks config).

Section Config.
Context {Tg : Target} {F : Flags}.

Lemma int_c_ulong z : (0 < z <= ity_max c_ulong)%Z -> int U64 z.
Proof. unfold int, c_ulong. destruct pointer_width_32; cbn; lia. Qed.

(** Method codes and atom ids come out of [try_into]. *)
Lemma filters_typed probe name m :
  wt_probe_config probe -> resolve_binder_transaction_filters probe name = Ok m -> wt_filters m.
Proof.
  intros (_ & _ & _ & _ & Hnames). unfold resolve_binder_transaction_filters. destruct (String.eqb _ _).
  - intros (_ & _ & (kvs & Hk & _ & ->)%(rfold_insert_empty _ id _ resolve_filter_Ok))%rbind_Ok.
    intros i ic Hic%elem_of_list_to_map_2.
    assert (exists f, f ∈ pb_binder_transaction_filters probe /\ filter_resolves f (i, ic))
      as (f & Hf & Hname & _ & _ & ms & Hms & _ & Heq).
    { apply list_elem_of_lookup in Hic as [n Hn]. destruct (Forall2_lookup_r _ _ _ _ _ Hk Hn) as (f & Hf & Hr).
      exists f. split; [by apply list_elem_of_lookup; exists n|done]. }
    cbn in Heq, Hname. subst ic. rewrite Forall_forall in Hnames. split; [by apply (Hnames f)|].
    intros code mc Hmc%elem_of_list_to_map_2. apply list_elem_of_lookup in Hmc as [n Hn].
    destruct (Forall2_lookup_r _ _ _ _ _ Hms Hn) as (p & _ & _ & Hr & _ & Ha & _). cbn in *.
    split; [by apply int_c_ulong|]. intros ac Hac. destruct (pmc_atom_config p) as [pa|]; [|congruence].
    destruct Ha as (a & (id & _ & Hid & ->) & Ha'). rewrite Hac in Ha'. injection Ha' as ->. cbn in *.
    split; cbn; lia.
  - intros (_ & _ & [= <-])%rbind_Ok. apply map_Forall_empty.
Qed.

Section Resolve.
Context {S : Type} (I : S -> Prop).

Lemma errs_rfold {A B} (f : B -> A -> result B) l : (forall b a, errs (f b a)) -> forall b, errs (rfold f b l).
Proof.
  intros Hf. induction l as [|a l IH]; intros b; cbn [rfold]; [apply errs_Ok|].
  apply errs_rbind; [apply Hf|]. intros b'. apply IH.
Qed.

Lemma errs_transpose {A B} (f : A -> result B) o : (forall a, errs (f a)) -> errs (transpose f o).
Proof.
  intros Hf. destruct o as [a|]; cbn; [|apply errs_Ok]. unfold rmap. specialize (Hf a).
  destruct (f a) as [b|e]; intros e' [= <-]. by apply Hf.
Qed.

Lemma errs_insert_method ic id mc : errs (insert_method ic id mc).2.
Proof. unfold insert_method. destruct (_ !! _); cbn; [apply errs_anyhow|apply errs_Ok]. Qed.

(** No error of the resolver is about BPF. *)
Ltac errs_run :=
  repeat first
    [ apply errs_rbind; [|intros ?] | apply errs_Ok | apply errs_anyhow | apply errs_ok_or
    | apply errs_ensure | apply errs_try_into | apply errs_transpose; intros ? | apply errs_rfold; intros ??
    | assumption
    | match goal with
      | |- errs (match insert_method ?ic ?id ?mc with _ => _ end) =>
          pose proof (errs_insert_method ic id mc); destruct (insert_method ic id mc)
      | |- errs (match ?x with _ => _ end) => destruct x
      end ].

Lemma filters_errs probe name : errs (resolve_binder_transaction_filters probe name).
Proof.
  unfold resolve_binder_transaction_filters. errs_run.
  unfold resolve_filter, resolve_method_config, AtomConfig_try_from. errs_run.
Qed.

Lemma resolve_probe_typed process probe :
  wt_process process -> wt_probe_config probe ->
  types I (resolve_probe process probe : Sys S (result ResolvedProbe)) (okp wt_probe).
Proof.
  intros Hp Hc. pose proof Hc as (Hb & Hcls & Hm & Hps & _). unfold resolve_probe. cbn zeta.
  types_run; try solve [types_side]; [apply filters_errs|..];
    repeat match goal with H : ok_or _ _ = Ok _ |- _ => apply ok_or_Ok in H end.
  - split; [done|]. split; [|split]; cbn; auto.
  - subst. match goal with H : wt_answer _ |- _ => destruct H as [_ Ho] end.
    split; [|split; [|split]]; cbn; [split; [|split]; cbn; auto|exact Ho|by apply str_prefix, Hb|].
    by eapply filters_typed.
Qed.

Lemma resolve_bpf_map_errs m : errs (resolve_bpf_map m).
Proof. unfold resolve_bpf_map. errs_run. Qed.

Lemma wt_from_secs secs : int U64 secs -> wt_duration (from_secs secs).
Proof.
  intros Hs. unfold wt_duration, from_secs. rewrite Z.div_mul by done.
  split; [|done]. unfold int in Hs. cbn in Hs. unfold NANOS_PER_SEC. lia.
Qed.

Lemma resolve_single_task_typed task id :
  int I64 id -> wt_task_config task ->
  types I (resolve_single_task task id : Sys S (result ResolvedTask)) (okp wt_task).
Proof.
  intros Hi (_ & Hd & Hn & Hm & Hps & Hl). unfold resolve_single_task, resolve_probes. cbn zeta.
  types_run; try solve [types_side]; [apply errs_rmapM, resolve_bpf_map_errs|..].
  all: repeat match goal with
    | H : ok_or _ _ = Ok _ |- _ => apply ok_or_Ok in H
    | H : rmapM resolve_bpf_map _ = Ok _ |- _ => apply resolve_bpf_maps_Ok in H as [_ ->]
    | H : try_into U64 _ = Ok ?secs |- _ => apply int_try_into in H
    end.
  - by split; [|apply wt_from_secs].
  - eapply types_mtry.
    { apply (types_collect _ wt_probe_config wt_probe); [done|]. intros probe Hprobe.
      apply resolve_probe_typed; [|done]. by match goal with H : wt_answer _ |- _ => destruct H end. }
    intros probes Hprobes. types_run. split; [done|].
    split; [by match goal with H : wt_answer _ |- _ => destruct H end|].
    split; [done|]. split; [by apply wt_from_secs|]. split; [|done]. cbn.
    intros path (m & -> & Hin)%elem_of_list_to_set%list_elem_of_fmap. rewrite Forall_forall in Hm.
    by apply str_prefix, Hm.
Qed.

(** The config the resolver is given, and what it makes of it. *)
Lemma resolve_config_typed parse bytes user :
  (forall config, parse bytes = Some config -> wt_config config) ->
  types I (resolve_config parse bytes user : Sys S (ConfigError + ResolvedTask))
    (fun r => match r with inr task => wt_task task | inl _ => True end).
Proof.
  intros Hc. unfold resolve_config, read_config_from_bytes.
  destruct (parse bytes) as [[tasks]|]; cbn [ok_or cfg_tasks]; [|by apply types_mret].
  destruct tasks as [|task [|? ?]]; [by apply types_mret| |by apply types_mret].
  specialize (Hc _ eq_refl). pose proof (proj1 (Forall_singleton _ _) Hc) as Htask.
  destruct (is_allowed _ _ _) as [[|]|]; [|by apply types_mret..].
  eapply types_mbind; [apply resolve_single_task_typed; [|exact Htask]|].
  - destruct Htask as [Hid _]. destruct (tk_task_id task) as [id|]; [by apply Hid|by split].
  - intros [t|e] Ht; by apply types_mret.
Qed.

End Resolve.

End Config.

(** ** Properties *)

(** C8. Whatever a task hands to the system is of the type the code gives it.  If
    the parsed config is of the types of its schema, and every answer of its Rust or
    C type (the items of a ring buffer of their struct, the process and the offsets
    the resolvers find), then the resolved task is well typed, its duration and the
    offsets of its probes included, and so is every argument of every call made
    while resolving and executing it, and no other call is made: the process name
    and timeout and the process and method handed to the resolvers, the fields of
    every atom and the entries of every event (integers within the width of their
    type, strings UTF-8), every failure point and task id reported, the paths given
    to C (without a NUL), the poll timeouts, probe offsets and pids, the file
    descriptors closed, and the arrays written to the BPF map, which have exactly
    the lengths of the C arrays.  The handlers are reached through an invariant of
    their state, so a field stored by one item and written by a later one, or at the
    end, is covered. *)
Theorem task_calls_well_typed {Tg : Target} {F : Flags} {O : HashOrder} {SH : StringHash} {S : Type}
    parse bytes user bun fuel (s0 : S) tr1 task s1 tr2 o s2
    (Hc : forall config, parse bytes = Some config -> wt_config config)
    (H1 : exec (resolve_config parse bytes user s0) tr1 (Val (inr task), s1))
    (H2 : exec (execute bun fuel task s1) tr2 (o, s2))
    (Hw : Forall wt_answer (tr1 ++ tr2)) :
  wt_task task /\ Forall (fun e : ev => wt_call (projT1 e)) (tr1 ++ tr2).
Proof.
  apply Forall_app in Hw as [Hw1 Hw2].
  destruct (resolve_config_typed any parse bytes user Hc _ _ _ _ H1 Logic.I Hw1) as (Hc1 & _ & Ht).
  specialize (Ht _ eq_refl). split; [done|]. apply Forall_app. split; [done|].
  exact (proj1 (execute_typed any bun task Ht fuel _ _ _ _ H2 Logic.I Hw2)).
Qed.

(** ** Witness *)

(** Every poll of the binder ring buffer delivers a transaction. *)
Definition typed_item : BinderTransaction :=
  {| bt_interface_descriptor := c_array 128 "test.interface"; bt_code := 1;
     bt_calling_uid := 10050; bt_timestamp_ns := 77 |}.

Definition typed_env : Env SysI := fun c past =>
  match c return SysResp c with
  | bpfRingBufPoll ty _ _ =>
      match ty return Z * list (struct_of ty) with
      | TyBinderTransaction => (1%Z, [typed_item])
      | _ => (0%Z, [])
      end
  | c' => ticking_env c' past
  end.

Lemma typed_env_answers c past : wt_answer (existT c (typed_env c past)).
Proof.
  destruct c; try (split; [by intros ?|]); cbn; try done.
  all: destruct ty; split; try by constructor.
Qed.

Lemma run_answers {A} (env : Env SysI) (p : Prog SysI A) (P : ev -> Prop) :
  (forall c past, P (existT c (env c past))) -> Forall P (run_trace env p).
Proof.
  intros HP. unfold run_trace. apply Forall_rev.
  assert (H : forall past, Forall P past -> Forall P (run env p past).1); [|by apply H].
  induction p as [a|c k IH]; intros past Hpast; cbn [run]; [done|]. apply IH. by constructor.
Qed.

Definition typed_run task : Prog SysI (outcome unit * unit) :=
  @execute target64 all_flags canonical_order constant_hash unit true 100 task tt.

Lemma task_calls_well_typed_witness :
  exists tr1 task, 
    exec (@resolve_config target64 all_flags sample_parse unit [] false tt) tr1 (Val (inr task), tt) /\
    exec (typed_run task) (run_trace typed_env (typed_run task)) (Val tt, tt) /\
    length (enqueued (run_trace typed_env (typed_run task))) = 2%nat /\
    Forall (fun e : ev => wt_call (projT1 e)) (run_trace typed_env (typed_run task)).
Proof.
  exists (run_trace typed_env (@resolve_config target64 all_flags sample_parse unit [] false tt)).
  assert (exists task, 
    exec (@resolve_config target64 all_flags sample_parse unit [] false tt)
      (run_trace typed_env (@resolve_config target64 all_flags sample_parse unit [] false tt))
      (Val (inr task), tt) /\
    exec (typed_run task) (run_trace typed_env (typed_run task)) (Val tt, tt) /\
    length (enqueued (run_trace typed_env (typed_run task))) = 2%nat) as (task & H1 & H2 & H3).
  { eexists. split; [apply (run_exec_eq typed_env); [reflexivity|vm_compute; reflexivity]|]. split.
    - apply (run_exec_eq typed_env); [reflexivity|vm_compute; reflexivity].
    - vm_compute. reflexivity. }
  exists task. split; [exact H1|]. split; [exact H2|]. split; [exact H3|].
  refine (proj2 (proj1 (Forall_app _ _ _) (proj2 (@task_calls_well_typed target64 all_flags canonical_order
    constant_hash unit sample_parse [] false true 100 tt _ task tt _ (Val tt) tt _ H1 H2 _)))).
  - intros config [= <-]. apply Forall_singleton. unfold wt_task_config, wt_probe_config, wt_logging.
    repeat first
      [ match goal with
        | |- _ /\ _ => split
        | |- Forall _ _ => constructor
        | |- forall _, _ = Some _ -> _ =>
            let x := fresh in let H := fresh in intros x H; first [discriminate H | injection H as <-]
        end
      | solve [split; vm_compute; congruence]
      | reflexivity ].
  - apply Forall_app. split; apply run_answers, typed_env_answers.
Defined.
