(* ===== verification/Service.v ===== *)
(** * Service: the daemon's tasks running side by side
    ([daemon/android/uprobestats_service.rs], [daemon/uprobestats.rs])

    Each call of [startTasks] spawns a thread that resolves its config, claims
    its maps under the mutex, executes the task without it, and releases the maps
    under it again.  The threads interleave between these segments: the daemon is
    a step relation over the mutex and the threads. *)

From S2P Require Import Prelude Effects RustStd Data System Fixtures Guardrail ConfigResolver Handler.
From S2P Require Import ArtTest StatsAtoms Bpf Poll BpfMap Task Execution.

Local Open Scope rust_scope.
Local Open Scope string_scope.
Local Open Scope list_scope.

(** [Mutex<GlobalState>]: a panic while it is held poisons it. *)
Record StateMutex := mkStateMutex {
  sm_poisoned : bool;
  sm_state : GlobalState
}.

Inductive Thread :=
| Resolving (config : list byte)
| Claiming (task : ResolvedTask)
| Executing (task : ResolvedTask)
| Releasing (task : ResolvedTask)
| Finished
| Panicked.

Record Daemon := mkDaemon {
  d_mutex : StateMutex;
  d_threads : gmap nat Thread
}.

Section Service.
Context {Tg : Target} {F : Flags} {O : HashOrder} {SH : StringHash}.
Variable parse_from_bytes : list byte -> option UprobestatsConfig.

(** [task::resolve_config]. *)
Definition task_resolve_config {S} (config_bytes : list byte) : Sys S (ConfigError + ResolvedTask) :=
  let! user := android_is_user_build in
  resolve_config parse_from_bytes config_bytes user.

Definition report_config_error {S} (e : ConfigError) : Sys S unit :=
  write_internal_error ErrorTypeConfigParseFailed (default (-1)%Z (ConfigError_task_id e)) None None 0.

(** ** [startTasks]: the call, and the segments of the thread it spawns *)

Definition startTasks {S} : Sys S (result unit) :=
  let! _ := ext (E := SysI) (stats_write_invocation InvocationTypeStartTasksReceived) in
  mret (Ok tt).

Definition resolve_segment {S} (config : list byte) : Sys S (option ResolvedTask) :=
  let! r := task_resolve_config config in
  match r with
  | inr task => mret (Some task)
  | inl e => let! _ := report_config_error e in mret None
  end.

(** [state.lock().unwrap()]. *)
Definition lock : Sys StateMutex GlobalState :=
  let! m := get_state in
  if sm_poisoned m then panic "called `Result::unwrap()` on an `Err` value: PoisonError { .. }"
  else mret (sm_state m).

Definition unlock (state : GlobalState) : Sys StateMutex unit :=
  put_state {| sm_poisoned := false; sm_state := state |}.

(** Whether the task goes on to execute. *)
Definition claim_segment (task : ResolvedTask) : Sys StateMutex bool :=
  let! state := lock in
  let '(state', r) := update_polled_bpf_maps state task in
  match r with
  | Ok _ => let! _ := unlock state' in mret true
  | Err e =>
      let! _ := write_internal_error ErrorTypeTaskConflict (rt_id task) None None 0 in
      let! _ := unlock state' in
      mret false
  end.

(** A panic here unwinds through the guard. *)
Definition release_segment (task : ResolvedTask) : Sys StateMutex unit :=
  let! state := lock in
  match cleanup_polled_bpf_maps state task with
  | Val state' => unlock state'
  | Panics msg =>
      let! _ := put_state {| sm_poisoned := true; sm_state := state |} in
      panic msg
  | NoFuel => no_fuel
  end.

(** ** The daemon below API level 37: one task, from a file *)

Definition file_path_to_bytes {S} (path : string) : Sys S (result (list byte)) :=
  let! opened := ext (E := SysI) (File_open path) in
  match opened with
  | Err e => mret (Err (EAnyhow "Failed to open file: {e}"))
  | Ok _ =>
      let! contents := ext (E := SysI) (File_read_to_end path) in
      match contents with
      | Err e => mret (Err (EAnyhow "Failed to read file: {e}"))
      | Ok bytes => mret (Ok bytes)
      end
  end.

(** The error of [?] on a [ConfigError]; its message is formatted elsewhere. *)
Definition config_error_as_error (e : ConfigError) : error := EAnyhow "{e}".

(** [handle_tasks]; with the binder service it returns when the pool is left. *)
Definition handle_tasks {S} (fuel : nat) : Sys S (result unit) :=
  let! bun := is_at_least_cinnamon_bun in
  if negb bun then
    let? config_bytes := file_path_to_bytes "/data/misc/uprobestats-configs/config" in
    let! r := task_resolve_config config_bytes in
    match r with
    | inl e => let! _ := report_config_error e in mret (Err (config_error_as_error e))
    | inr task =>
        let '(state, r) := update_polled_bpf_maps None task in
        match r with
        | Err e =>
            let! _ := write_internal_error ErrorTypeTaskConflict (rt_id task) None None 0 in
            mret (Err e)
        | Ok _ =>
            let! _ := execute bun fuel task in
            let! _ := lift_outcome (cleanup_polled_bpf_maps state task) in
            mret (Ok tt)
        end
    end
  else
    let? _ := ext (E := SysI) (register_lazy_service "uprobestats_service") in
    mret (Ok tt).

Definition main_impl {S} (fuel : nat) : Sys S (result unit) :=
  let! _ := ext (E := SysI) (stats_write_invocation InvocationTypeServiceStarted) in
  handle_tasks fuel.

(** ** The daemon as a step relation *)

(** A panicking thread ends; the others go on. *)
Definition after {A} (o : outcome A) (k : A -> Thread) : Thread :=
  match o with
  | Val a => k a
  | _ => Panicked
  end.

Definition with_thread (d : Daemon) (m : StateMutex) (tid : nat) (t : Thread) : Daemon :=
  {| d_mutex := m; d_threads := <[tid := t]> (d_threads d) |}.

Inductive step (fuel : nat) (d : Daemon) : list ev -> Daemon -> Prop :=
| step_start tid config tr :
    d_threads d !! tid = None ->
    exec (startTasks tt) tr (Val (Ok tt), tt) ->
    step fuel d tr (with_thread d (d_mutex d) tid (Resolving config))
| step_resolve tid config tr o :
    d_threads d !! tid = Some (Resolving config) ->
    exec (resolve_segment config tt) tr (o, tt) -> o <> NoFuel ->
    step fuel d tr (with_thread d (d_mutex d) tid
      (after o (fun t => match t with Some task => Claiming task | None => Finished end)))
| step_claim tid task tr o m :
    d_threads d !! tid = Some (Claiming task) ->
    exec (claim_segment task (d_mutex d)) tr (o, m) -> o <> NoFuel ->
    step fuel d tr (with_thread d m tid
      (after o (fun claimed : bool => if claimed then Executing task else Finished)))
| step_execute tid task tr o :
    d_threads d !! tid = Some (Executing task) ->
    exec (execute true fuel task tt) tr (o, tt) -> o <> NoFuel ->
    step fuel d tr (with_thread d (d_mutex d) tid (after o (fun _ => Releasing task)))
| step_release tid task tr o m :
    d_threads d !! tid = Some (Releasing task) ->
    exec (release_segment task (d_mutex d)) tr (o, m) -> o <> NoFuel ->
    step fuel d tr (with_thread d m tid (after o (fun _ => Finished))).

Definition initial : Daemon :=
  {| d_mutex := {| sm_poisoned := false; sm_state := None |}; d_threads := ∅ |}.

(** Every task waiting for its maps satisfies [P]. *)
Definition admits (P : ResolvedTask -> Prop) (d : Daemon) : Prop :=
  forall tid task, d_threads d !! tid = Some (Claiming task) -> P task.

(** The states of a daemon that is given only tasks satisfying [P]. *)
Inductive reachable (fuel : nat) (P : ResolvedTask -> Prop) : Daemon -> Prop :=
| reachable_initial : reachable fuel P initial
| reachable_step d tr d' :
    reachable fuel P d -> step fuel d tr d' -> admits P d' -> reachable fuel P d'.

(** ** Tasks that hold their maps *)

Definition running_task (t : Thread) : option ResolvedTask :=
  match t with
  | Executing task | Releasing task => Some task
  | _ => None
  end.

Definition runs (d : Daemon) (tid : nat) (task : ResolvedTask) : Prop :=
  exists t, d_threads d !! tid = Some t /\ running_task t = Some task.

Definition daemon_polled (d : Daemon) : gset string := polled_of (sm_state (d_mutex d)).

(** ** Lemmas *)

Lemma runs_with_thread d m tid t j task :
  runs (with_thread d m tid t) j task <->
  (j = tid /\ running_task t = Some task) \/ (j <> tid /\ runs d j task).
Proof.
  unfold runs, with_thread. cbn. destruct (decide (j = tid)) as [->|Hne].
  - rewrite lookup_insert_eq. naive_solver.
  - rewrite lookup_insert_ne by done. naive_solver.
Qed.

Lemma admits_with_thread P d m tid t :
  admits P d -> (forall task, t = Claiming task -> P task) -> admits P (with_thread d m tid t).
Proof.
  intros Hd Ht j task. unfold with_thread. cbn. destruct (decide (j = tid)) as [->|Hne].
  - rewrite lookup_insert_eq. intros [= ->]. by apply Ht.
  - rewrite lookup_insert_ne by done. apply Hd.
Qed.

Lemma admits_initial P : admits P initial.
Proof. intros tid task Ht. cbn in Ht. by rewrite lookup_empty in Ht. Qed.

Lemma exec_lock {A} (k : GlobalState -> Sys StateMutex A) (m : StateMutex) tr (x : outcome A * StateMutex) :
  exec (mbind lock k m) tr x <->
  if sm_poisoned m then
    tr = [] /\ x = (Panics "called `Result::unwrap()` on an `Err` value: PoisonError { .. }", m)
  else exec (k (sm_state m) m) tr x.
Proof. unfold lock, mbind. cbn. by destruct (sm_poisoned m). Qed.

Lemma exec_claim task m tr o m' :
  exec (claim_segment task m) tr (o, m') ->
  (sm_poisoned m = true /\ (exists msg, o = Panics msg) /\ m' = m /\ tr = []) \/
  (sm_poisoned m = false /\ o = Val true /\ tr = [] /\
     polled_of (sm_state m) ## rt_bpf_map_paths task /\
     m' = {| sm_poisoned := false;
             sm_state := Some {| polled_bpf_maps := polled_of (sm_state m) ∪ rt_bpf_map_paths task |} |}) \/
  (sm_poisoned m = false /\ o = Val false /\ m' = m /\
     ~ polled_of (sm_state m) ## rt_bpf_map_paths task /\
     internal_errors tr = [(ErrorTypeTaskConflict, rt_id task)]).
Proof.
  unfold claim_segment. rewrite exec_lock. destruct m as [[] state]; cbn [sm_poisoned sm_state].
  { intros [-> [= -> ->]]. left. eauto. }
  destruct (update_polled_bpf_maps state task) as [state' r] eqn:Hu. destruct r as [[]|e].
  - apply claim_ok in Hu as [Hd ->]. intros [-> [= -> ->]]. right; left. done.
  - apply claim_err in Hu as [-> Hd]. intros H. right; right.
    unfold mbind in H. rewrite write_internal_error_eq in H.
    destruct H as (rr & t & -> & -> & [= -> ->]). done.
Qed.

Lemma exec_release task m tr o m' :
  exec (release_segment task m) tr (o, m') ->
  tr = [] /\
  ((sm_poisoned m = true /\ (exists msg, o = Panics msg) /\ m' = m) \/
   (sm_poisoned m = false /\ sm_state m = None /\ (exists msg, o = Panics msg) /\
      m' = {| sm_poisoned := true; sm_state := None |}) \/
   (sm_poisoned m = false /\ sm_state m <> None /\ o = Val tt /\ sm_poisoned m' = false /\
      polled_of (sm_state m') = polled_of (sm_state m) ∖ rt_bpf_map_paths task /\
      (sm_state m' = None <-> polled_of (sm_state m) ⊆ rt_bpf_map_paths task))).
Proof.
  unfold release_segment. rewrite exec_lock. destruct m as [[] state]; cbn [sm_poisoned sm_state].
  { intros [-> [= -> ->]]. eauto 10. }
  pose proof (release_spec state task) as Hr.
  destruct (cleanup_polled_bpf_maps state task) as [state'|msg|]; [| |done].
  - intros [-> [= -> ->]]. destruct Hr as (A1 & A2 & A3). cbn. auto 10.
  - intros [-> [= -> ->]]. subst state. eauto 10.
Qed.

Lemma task_resolve_config_returns {S} bytes : returns (E := SysI) (S := S) (task_resolve_config bytes).
Proof.
  unfold task_resolve_config, android_is_user_build. returns_run. apply resolve_config_returns.
Qed.

Lemma resolve_segment_returns {S} config : returns (E := SysI) (S := S) (resolve_segment config).
Proof.
  assert (Hw : forall ty id p m n, returns (E := SysI) (S := S) (write_internal_error ty id p m n)).
  { intros ty id p m n s tr o s' H. rewrite write_internal_error_eq in H.
    destruct H as (? & ? & _ & _ & [= -> _]). eauto. }
  unfold resolve_segment, report_config_error.
  returns_run; [|apply Hw]. apply task_resolve_config_returns.
Qed.

(** ** Invariants *)

(** Running tasks hold disjoint maps, all of them recorded as polled. *)
Definition exclusive (d : Daemon) : Prop :=
  (forall i task, runs d i task -> rt_bpf_map_paths task ⊆ daemon_polled d) /\
  (forall i j task task', runs d i task -> runs d j task' -> i <> j ->
     rt_bpf_map_paths task ## rt_bpf_map_paths task').

(** Nothing else is recorded, and nothing has gone wrong. *)
Definition healthy (d : Daemon) : Prop :=
  sm_poisoned (d_mutex d) = false /\
  (forall x, x ∈ daemon_polled d -> exists i task, runs d i task /\ x ∈ rt_bpf_map_paths task) /\
  (sm_state (d_mutex d) <> None -> daemon_polled d <> ∅) /\
  (forall i task, runs d i task -> rt_bpf_map_paths task <> ∅) /\
  (forall i, d_threads d !! i <> Some Panicked).

(** A segment of a thread that holds its maps neither before nor after. *)
Lemma exclusive_idle d tid t :
  running_task t = None -> (forall task, ~ runs d tid task) ->
  exclusive d -> exclusive (with_thread d (d_mutex d) tid t).
Proof.
  intros Ht Hn [H1 H2]. split.
  - intros i task [[_ Hr]|[_ Hr]]%runs_with_thread; [congruence|]. by apply (H1 i).
  - intros i j task task' [[_ Hr]|[_ Hr]]%runs_with_thread [[_ Hr']|[_ Hr']]%runs_with_thread;
      [congruence..|]. by apply H2.
Qed.

Lemma runs_at d tid t task : d_threads d !! tid = Some t -> runs d tid task <-> running_task t = Some task.
Proof. unfold runs. intros ->. naive_solver. Qed.

Lemma exclusive_step fuel d tr d' : step fuel d tr d' -> exclusive d -> exclusive d'.
Proof.
  intros Hstep Hex. pose proof Hex as [H1 H2]. destruct Hstep
    as [tid config tr Ht He|tid config tr o Ht He Ho|tid task tr o m Ht He Ho
       |tid task tr o Ht He Ho|tid task tr o m Ht He Ho].
  - apply exclusive_idle; [done| |done]. intros task (t & E & _). congruence.
  - apply exclusive_idle; [by destruct o as [[]| |]| |done].
    intros task. by rewrite (runs_at _ _ _ _ Ht).
  - apply exec_claim in He as [(_ & [msg ->] & -> & _)|[(_ & -> & _ & Hd & ->)|(_ & -> & -> & _)]].
    + apply exclusive_idle; [done| |done]. intros task'. by rewrite (runs_at _ _ _ _ Ht).
    + split.
      * intros i task' [[-> [= <-]]|[_ Hr]]%runs_with_thread; unfold daemon_polled; cbn; [set_solver|].
        apply H1 in Hr. unfold daemon_polled in Hr. set_solver.
      * intros i j task1 task2 [[-> [= <-]]|[Hi Hr]]%runs_with_thread
          [[-> [= <-]]|[Hj Hr']]%runs_with_thread Hij; [done| | |by apply (H2 i j)].
        -- apply H1 in Hr'. unfold daemon_polled in Hr'. set_solver.
        -- apply H1 in Hr. unfold daemon_polled in Hr. set_solver.
    + apply exclusive_idle; [done| |done]. intros task'. by rewrite (runs_at _ _ _ _ Ht).
  - apply exec_execute in He as (_ & [->| ->] & _); [done|].
    assert (forall i task', runs (with_thread d (d_mutex d) tid (Releasing task)) i task' -> runs d i task') as Hr.
    { intros i task' [[-> [= <-]]|[_ Hr]]%runs_with_thread; [|done]. by apply (runs_at _ _ _ _ Ht). }
    split; [intros i task' Hi%Hr; by apply (H1 i)|intros i j t1 t2 Hi%Hr Hj%Hr; by apply H2].
  - assert (runs d tid task) as Hrun by by apply (runs_at _ _ _ _ Ht).
    assert (Hr : forall A (u : outcome A) i task',
      runs (with_thread d m tid (after u (fun _ => Finished))) i task' -> i <> tid /\ runs d i task').
    { intros A u i task' [[_ Hr]|?]%runs_with_thread; [by destruct u|done]. }
    split; [|intros i j t1 t2 [_ Hi]%Hr [_ Hj]%Hr; by apply H2].
    intros i task' [Hi Hr']%Hr. pose proof (H1 i task' Hr') as Hsub.
    specialize (H2 i tid task' task Hr' Hrun Hi).
    unfold daemon_polled in *. cbn.
    apply exec_release in He as (_ & [(_ & _ & ->)|[(_ & He & _ & ->)|(_ & _ & _ & _ & He & _)]]).
    + done.
    + rewrite He in Hsub. done.
    + rewrite He. set_solver.
Qed.

(** No other thread panics when one moves on. *)
Lemma no_panic_with_thread d m tid t :
  (forall i, d_threads d !! i <> Some Panicked) -> t <> Panicked ->
  forall i, d_threads (with_thread d m tid t) !! i <> Some Panicked.
Proof.
  intros Hd Ht i. cbn. destruct (decide (i = tid)) as [->|Hne].
  - rewrite lookup_insert_eq. congruence.
  - by rewrite lookup_insert_ne.
Qed.

(** A thread that did not run when it moved stays out of the way of the others. *)
Lemma runs_other d m tid t i task :
  (forall task, ~ runs d tid task) -> runs d i task -> runs (with_thread d m tid t) i task.
Proof. intros Hn Hr. apply runs_with_thread. right. split; [|done]. intros ->. by apply Hn in Hr. Qed.

Lemma healthy_idle d tid t :
  healthy d -> running_task t = None -> t <> Panicked -> (forall task, ~ runs d tid task) ->
  healthy (with_thread d (d_mutex d) tid t).
Proof.
  intros (H1 & H2 & H3 & H4 & H5) Ht Hp Hn. split_and!; [done| |done| |].
  - intros x (i & task & Hr & Hx)%H2. exists i, task. split; [by apply runs_other|done].
  - intros i task [[_ Hr]|[_ Hr]]%runs_with_thread; [congruence|by apply (H4 i)].
  - by apply no_panic_with_thread.
Qed.

Lemma healthy_claimed d tid task :
  healthy d -> (forall task, ~ runs d tid task) -> rt_bpf_map_paths task <> ∅ ->
  healthy (with_thread d
    {| sm_poisoned := false;
       sm_state := Some {| polled_bpf_maps := daemon_polled d ∪ rt_bpf_map_paths task |} |}
    tid (Executing task)).
Proof.
  intros (H1 & H2 & H3 & H4 & H5) Hn Hne.
  split_and!; [done| | | |]; unfold daemon_polled; cbn.
  - intros x [Hx|Hx]%elem_of_union.
    + apply H2 in Hx as (i & task' & Hr & Hx). exists i, task'. split; [by apply runs_other|done].
    + exists tid, task. split; [|done]. apply runs_with_thread. by left.
  - set_solver.
  - intros i task' [[-> [= <-]]|[_ Hr]]%runs_with_thread; [done|by apply (H4 i)].
  - by apply (no_panic_with_thread d (d_mutex d)).
Qed.

Lemma healthy_executed d tid task :
  healthy d -> d_threads d !! tid = Some (Executing task) ->
  healthy (with_thread d (d_mutex d) tid (Releasing task)).
Proof.
  intros (H1 & H2 & H3 & H4 & H5) Ht.
  assert (forall i task', runs (with_thread d (d_mutex d) tid (Releasing task)) i task' <-> runs d i task') as Hr.
  { intros i task'. rewrite runs_with_thread. destruct (decide (i = tid)) as [->|Hi]; [|naive_solver].
    rewrite (runs_at _ _ _ _ Ht). cbn. naive_solver. }
  split_and!; [done| |done| |].
  - intros x (i & task' & Hi & Hx)%H2. exists i, task'. by rewrite Hr.
  - intros i task' Hi%Hr. by apply (H4 i).
  - by apply no_panic_with_thread.
Qed.

Lemma healthy_released d tid task m :
  healthy d -> d_threads d !! tid = Some (Releasing task) -> sm_poisoned m = false ->
  polled_of (sm_state m) = daemon_polled d ∖ rt_bpf_map_paths task ->
  (sm_state m = None <-> daemon_polled d ⊆ rt_bpf_map_paths task) ->
  healthy (with_thread d m tid Finished).
Proof.
  intros (H1 & H2 & H3 & H4 & H5) Ht Hp He Hnone.
  split_and!; [done| | | |]; unfold daemon_polled in *; cbn.
  - intros x Hx. rewrite He in Hx. apply elem_of_difference in Hx as [Hx Hn].
    apply H2 in Hx as (i & task' & Hr & Hx). exists i, task'. split; [|done].
    apply runs_with_thread. right. split; [|done]. intros ->.
    apply (runs_at _ _ _ _ Ht) in Hr as [= <-]. done.
  - intros Hm Hempty. apply Hm, Hnone. rewrite He in Hempty. set_solver.
  - intros i task' [[_ [=]]|[_ Hr]]%runs_with_thread. by apply (H4 i).
  - by apply (no_panic_with_thread d m).
Qed.

Lemma healthy_step fuel d tr d' :
  step fuel d tr d' -> admits (fun task => rt_bpf_map_paths task <> ∅) d -> exclusive d ->
  healthy d -> healthy d'.
Proof.
  intros Hstep Hadm Hex Hh. pose proof Hh as (H1 & _ & _ & H4 & _). destruct Hstep
    as [tid config tr Ht He|tid config tr o Ht He Ho|tid task tr o m Ht He Ho
       |tid task tr o Ht He Ho|tid task tr o m Ht He Ho].
  - apply healthy_idle; [done..|]. intros task (t & E & _). congruence.
  - apply resolve_segment_returns in He as [t ->].
    apply healthy_idle; [done|by destruct t|by destruct t|]. intros task. by rewrite (runs_at _ _ _ _ Ht).
  - assert (forall task', ~ runs d tid task') as Hn by (intros task'; by rewrite (runs_at _ _ _ _ Ht)).
    apply exec_claim in He as [(? & _)|[(_ & -> & _ & Hd & ->)|(_ & -> & -> & _)]]; [congruence| |].
    + apply healthy_claimed; [done..|]. by apply (Hadm _ _ Ht).
    + by apply healthy_idle.
  - apply exec_execute in He as (_ & [->| ->] & _); [done|]. by apply healthy_executed.
  - assert (runs d tid task) as Hrun by by apply (runs_at _ _ _ _ Ht).
    assert (sm_state (d_mutex d) <> None) as Hs.
    { intros Hs. pose proof (proj1 Hex tid task Hrun) as Hsub. unfold daemon_polled in Hsub.
      rewrite Hs in Hsub. apply (H4 tid task Hrun). cbn in Hsub. set_solver. }
    apply exec_release in He as (_ & [(? & _)|[(_ & ? & _)|(_ & _ & -> & Hp & He & Hnone)]]);
      [congruence|done|]. by eapply healthy_released.
Qed.

Lemma reachable_exclusive fuel P d : reachable fuel P d -> exclusive d.
Proof.
  induction 1 as [|d tr d' _ IH Hs _]; [|by apply (exclusive_step fuel d tr)].
  split; intros ? ? * ; by intros (? & ? & _).
Qed.

Lemma reachable_admits fuel P d : reachable fuel P d -> admits P d.
Proof. destruct 1; [apply admits_initial|done]. Qed.

Lemma reachable_healthy fuel d :
  reachable fuel (fun task => rt_bpf_map_paths task <> ∅) d -> healthy d.
Proof.
  induction 1 as [|d tr d' Hd IH Hs _].
  - split_and!; try done; by intros ? ? (? & ? & _).
  - apply (healthy_step fuel d tr); [done|by eapply reachable_admits|by eapply reachable_exclusive|done].
Qed.

(** ** Properties *)

(** C1. Tasks never share a map.  In every state the daemon can reach, whatever
    configs it is sent and however its threads interleave, panic or are refused,
    two tasks that have claimed their maps and not yet released them poll disjoint
    sets of maps, and all of these are recorded in the global state. *)
Theorem tasks_exclusive fuel P d (Hd : reachable fuel P d) :
  (forall i task, runs d i task -> rt_bpf_map_paths task ⊆ daemon_polled d) /\
  (forall i j task task', runs d i task -> runs d j task' -> i <> j ->
     rt_bpf_map_paths task ## rt_bpf_map_paths task').
Proof. by apply reachable_exclusive in Hd. Qed.

(** C12. The global state is exact.  If every task polls at least one map, then in
    every reachable state no thread has panicked and the mutex is not poisoned,
    the maps recorded are exactly those of the running tasks, and there is an
    active state (which keeps the service from being stopped) if and only if some
    task is running. *)
Theorem global_state_exact fuel d
    (Hd : reachable fuel (fun task => rt_bpf_map_paths task <> ∅) d) :
  sm_poisoned (d_mutex d) = false /\ (forall i, d_threads d !! i <> Some Panicked) /\
  (forall x, x ∈ daemon_polled d <-> exists i task, runs d i task /\ x ∈ rt_bpf_map_paths task) /\
  (sm_state (d_mutex d) <> None <-> exists i task, runs d i task).
Proof.
  pose proof (reachable_exclusive _ _ _ Hd) as [E1 _].
  apply reachable_healthy in Hd as (H1 & H2 & H3 & H4 & H5). split_and!; [done|done| |].
  - intros x. split; [apply H2|]. intros (i & task & Hr & Hx). by apply (E1 i task Hr).
  - split.
    + intros Hs. apply H3 in Hs. apply set_choose_L in Hs as [x (i & task & Hr & _)%H2]. eauto.
    + intros (i & task & Hr) Hs. apply (H4 i task Hr).
      pose proof (E1 i task Hr) as Hsub. unfold daemon_polled in Hsub. rewrite Hs in Hsub.
      cbn in Hsub. set_solver.
Qed.

(** C23. Admission is decided by the running tasks.  In a daemon whose tasks all
    poll some map, a task waiting for its maps goes on to execute if and only if
    none of them is held by a running task; otherwise its thread finishes, having
    reported the conflict once, and the mutex is as before. *)
Theorem admission_decided fuel d tid task tr o m
    (Hd : reachable fuel (fun task => rt_bpf_map_paths task <> ∅) d)
    (Ht : d_threads d !! tid = Some (Claiming task))
    (H : exec (claim_segment task (d_mutex d)) tr (o, m)) :
  (o = Val true <->
     forall j task', runs d j task' -> rt_bpf_map_paths task' ## rt_bpf_map_paths task) /\
  (o <> Val true -> o = Val false /\ m = d_mutex d /\
     internal_errors tr = [(ErrorTypeTaskConflict, rt_id task)]).
Proof.
  pose proof (reachable_exclusive _ _ _ Hd) as [E1 _].
  apply reachable_healthy in Hd as (H1 & H2 & _).
  apply exec_claim in H as [(? & _)|[(_ & -> & _ & Hdis & _)|(_ & -> & -> & Hdis & ->)]]; [congruence| |].
  - split; [|done]. split; [|done]. intros _ j task' Hr.
    pose proof (E1 j task' Hr) as Hsub. unfold daemon_polled in Hsub. set_solver.
  - split; [|done]. split; [done|]. intros Hall. destruct Hdis. intros x Hx Hx'.
    apply H2 in Hx as (j & task' & Hr & Hx). by apply (Hall j task' Hr x).
Qed.

(** A poisoned daemon is dead.  Once the mutex is poisoned no step repairs it
    and no task starts to execute any more. *)
Theorem poison_is_final fuel d tr d' (H : step fuel d tr d') (Hp : sm_poisoned (d_mutex d) = true) :
  sm_poisoned (d_mutex d') = true /\
  (forall i task, d_threads d' !! i = Some (Executing task) -> d_threads d !! i = Some (Executing task)).
Proof.
  assert (Hold : forall tid t, (forall task, t <> Executing task) ->
    forall i task, <[tid := t]> (d_threads d) !! i = Some (Executing task) ->
      d_threads d !! i = Some (Executing task)).
  { intros tid t Ht i task. destruct (decide (i = tid)) as [->|Hi].
    - rewrite lookup_insert_eq. intros [= ->]. by destruct (Ht task).
    - by rewrite lookup_insert_ne. }
  destruct H as [tid config tr Ht He|tid config tr o Ht He Ho|tid task tr o m Ht He Ho
       |tid task tr o Ht He Ho|tid task tr o m Ht He Ho].
  - split; [done|]. by apply Hold.
  - split; [done|]. apply Hold. intros task. by destruct o as [[]| |].
  - apply exec_claim in He as [(_ & [msg ->] & -> & _)|[(? & _)|(? & _)]]; [|congruence..].
    split; [done|]. by apply Hold.
  - split; [done|]. apply Hold. intros task'. by destruct o.
  - apply exec_release in He as (_ & [(_ & [msg ->] & ->)|[(? & _)|(? & _)]]); [|congruence..].
    split; [done|]. by apply Hold.
Qed.

(** ** Threads end *)

(** The steps a thread has ahead of it. *)
Definition remaining (t : Thread) : nat :=
  match t with
  | Resolving _ => 4
  | Claiming _ => 3
  | Executing _ => 2
  | Releasing _ => 1
  | Finished | Panicked => 0
  end.

Definition total (threads : gmap nat Thread) : nat :=
  map_fold (fun _ t n => remaining t + n)%nat 0%nat threads.

Lemma total_insert i t m :
  total (<[i := t]> m) = (remaining t + total (delete i m))%nat.
Proof.
  rewrite <- insert_delete_eq. unfold total.
  apply (map_fold_insert_L (fun _ t n => remaining t + n)%nat); [|apply lookup_delete_eq].
  intros; lia.
Qed.

Lemma total_lookup i t m : m !! i = Some t -> total m = (remaining t + total (delete i m))%nat.
Proof. intros H. rewrite <- total_insert. by rewrite insert_id. Qed.

(** [n] steps from [d] to [d']. *)
Inductive steps (fuel : nat) : nat -> Daemon -> Daemon -> Prop :=
| steps_nil d : steps fuel 0 d d
| steps_cons n d tr d1 d2 : step fuel d tr d1 -> steps fuel n d1 d2 -> steps fuel (S n) d d2.

Lemma step_total fuel d tr d' : step fuel d tr d' ->
  (1 + total (d_threads d') + 5 * size (d_threads d) <=
     total (d_threads d) + 5 * size (d_threads d'))%nat.
Proof.
  assert (Hnew : forall m tid t, d_threads d !! tid = None -> remaining t = 4%nat ->
    (1 + total (d_threads (with_thread d m tid t)) + 5 * size (d_threads d) <=
       total (d_threads d) + 5 * size (d_threads (with_thread d m tid t)))%nat).
  { intros m tid t Ht Hr. cbn. rewrite total_insert, Hr, delete_id, map_size_insert_None by done. lia. }
  assert (Hold : forall m tid t t', d_threads d !! tid = Some t -> (remaining t' < remaining t)%nat ->
    (1 + total (d_threads (with_thread d m tid t')) + 5 * size (d_threads d) <=
       total (d_threads d) + 5 * size (d_threads (with_thread d m tid t')))%nat).
  { intros m tid t t' Ht Hr. cbn.
    rewrite total_insert, (total_lookup _ _ _ Ht), map_size_insert_Some by eauto. lia. }
  destruct 1 as [tid config tr Ht He|tid config tr o Ht He Ho|tid task tr o m Ht He Ho
       |tid task tr o Ht He Ho|tid task tr o m Ht He Ho]; [by apply Hnew|..];
    eapply Hold; try exact Ht; destruct o as [r| |]; try done; cbn; repeat case_match; cbn; lia.
Qed.

(** Threads end.  The daemon takes at most five steps per [startTasks] call:
    [n] steps that spawned some threads leave at most five per thread, less what
    the threads had done before and still have to do; so without new calls every
    run ends. *)
Theorem daemon_steps_bounded fuel n d d' (H : steps fuel n d d') :
  (n + total (d_threads d') + 5 * size (d_threads d) <=
     total (d_threads d) + 5 * size (d_threads d'))%nat.
Proof.
  induction H as [d|n d tr d1 d2 Hs _ IH]; [lia|]. apply step_total in Hs. lia.
Qed.

(** ** Tasks without maps *)

(** Two overlapping tasks, segment by segment. *)
Definition overlap (task1 task2 : ResolvedTask) : Sys StateMutex unit :=
  let! claimed1 := claim_segment task1 in
  let! claimed2 := claim_segment task2 in
  let! _ := release_segment task1 in
  release_segment task2.

(** C37. Tasks without maps poison the mutex.  A config may name no map; when two
    such tasks overlap, the first to finish removes the active state, since no map
    is recorded, and the second panics in the cleanup while it holds the lock: the
    mutex is poisoned, and every later task panics when it tries to claim. *)
Theorem empty_tasks_poison task1 task2 tr o m
    (H1 : rt_bpf_map_paths task1 = ∅) (H2 : rt_bpf_map_paths task2 = ∅)
    (H : exec (overlap task1 task2 (d_mutex initial)) tr (o, m)) :
  (exists msg, o = Panics msg) /\ sm_poisoned m = true /\
  forall task tr' o' m', exec (claim_segment task m) tr' (o', m') -> exists msg, o' = Panics msg.
Proof.
  assert ((exists msg, o = Panics msg) /\ sm_poisoned m = true) as [Ho Hm].
  { assert (Hc : forall state task tr o m, rt_bpf_map_paths task = ∅ ->
      exec (claim_segment task {| sm_poisoned := false; sm_state := state |}) tr (o, m) ->
      o = Val true /\ m = {| sm_poisoned := false;
                             sm_state := Some {| polled_bpf_maps := polled_of state |} |}).
    { clear. intros state task tr o m He H.
      apply exec_claim in H as [(? & _)|[(_ & -> & _ & _ & ->)|(_ & _ & _ & Hn & _)]];
        [done| |rewrite He in Hn; destruct Hn; apply disjoint_empty_r].
      cbn. by rewrite He, (right_id_L ∅ (∪)). }
    unfold overlap in H.
    apply exec_mbind in H as [H|[(msg & s1 & H & _)|(s1 & H & _)]];
      [|by apply Hc in H as [[=] _]..].
    destruct H as (t1 & t2 & b1 & s1 & -> & [_ ->]%Hc & H); [|done].
    apply exec_mbind in H as [H|[(msg & s1 & H & _)|(s1 & H & _)]];
      [|by apply Hc in H as [[=] _]..].
    destruct H as (t3 & t4 & b2 & s1 & -> & [_ ->]%Hc & H); [|done].
    assert (Hr : forall tr o m, exec (release_segment task1 {| sm_poisoned := false;
        sm_state := Some {| polled_bpf_maps := polled_of (Some {| polled_bpf_maps := polled_of None |}) |} |})
        tr (o, m) -> o = Val tt /\ m = {| sm_poisoned := false; sm_state := None |}).
    { clear -H1. intros tr o m H. apply exec_release in H as (_ & [(? & _)|[(_ & ? & _)|H]]); [done..|].
      destruct H as (_ & _ & -> & Hp & _ & Hn). destruct m as [p state]. cbn in *. subst p.
      split; [done|]. f_equal. apply Hn. set_solver. }
    apply exec_mbind in H as [H|[(msg & s1 & H & _)|(s1 & H & _)]];
      [|by apply Hr in H as [[=] _]..].
    destruct H as (t5 & t6 & [] & s1 & -> & [_ ->]%Hr & H).
    apply exec_release in H as (_ & [(? & _)|[(_ & _ & ? & ->)|(_ & ? & _)]]); done. }
  split_and!; [done|done|]. intros task tr' o' m' Hc.
  apply exec_claim in Hc as [(_ & ? & _)|[(? & _)|(? & _)]]; [done|congruence..].
Qed.

(** ** The daemon below API level 37 *)

Lemma calls_only_write_internal_error {S} (P : SysCall -> bool) ty id p m n :
  (forall x y, P (stats_write_internal_error ty id x y n) = true) ->
  calls_only (E := SysI) P (write_internal_error (S := S) ty id p m n).
Proof.
  intros HP s tr o s' H. rewrite write_internal_error_eq in H.
  destruct H as (r & t & -> & -> & [= -> ->]). split; [|done]. repeat constructor. apply HP.
Qed.

(** Calls that open or close nothing. *)
Definition resource_free (c : SysCall) : bool := fd_free c && map_free c.

Lemma task_resolve_config_calls {S} bytes :
  calls_only (E := SysI) resource_free (task_resolve_config (S := S) bytes).
Proof.
  unfold task_resolve_config, android_is_user_build, resolve_config, resolve_single_task,
    resolve_probes, resolve_probe.
  calls_only_run.
Qed.

Lemma resource_free_nothing tr : only resource_free tr ->
  opened_fds tr = [] /\ closed_fds tr = [] /\ opened_maps tr = [] /\ closed_maps tr = [].
Proof.
  intros H.
  assert (only fd_free tr) as [-> ->]%only_fd_free
    by (eapply only_weaken; [|exact H]; by intros c [? _]%andb_true_iff).
  assert (only map_free tr) as [-> ->]%only_map_free
    by (eapply only_weaken; [|exact H]; by intros c [_ ?]%andb_true_iff).
  done.
Qed.

(** What a run of [handle_tasks] leaves behind. *)
Definition balanced (o : outcome (result unit)) (tr : list ev) : Prop :=
  exists r, o = Val r /\ closed_fds tr = opened_fds tr /\ closed_maps tr = opened_maps tr /\
    match r with Ok _ => True | Err _ => opened_fds tr = [] /\ opened_maps tr = [] end.

Lemma balanced_free r tr : only resource_free tr -> balanced (Val r) tr.
Proof.
  intros (A1 & A2 & A3 & A4)%resource_free_nothing. exists r. rewrite A1, A2, A3, A4. by destruct r.
Qed.

Lemma balanced_app o t1 t2 : only resource_free t1 -> balanced o t2 -> balanced o (t1 ++ t2).
Proof.
  intros (A1 & A2 & A3 & A4)%resource_free_nothing (r & -> & H). exists r. split; [done|].
  rewrite closed_fds_app, opened_fds_app, closed_maps_app, opened_maps_app, A1, A2, A3, A4. done.
Qed.

(** C38. Below API level 37 the daemon runs the one task of its config file.  It
    never panics, in particular its claim of an empty state cannot conflict and
    its release cannot fail; when it returns an error no probe was attached and no
    map opened; otherwise every one it opened is closed. *)
Theorem handle_tasks_safe {S} fuel (s : S) tr o s'
    (H : exec (handle_tasks fuel s) tr (o, s')) (Ho : o <> NoFuel) : balanced o tr.
Proof.
  unfold handle_tasks, is_at_least_cinnamon_bun in H.
  apply exec_mbind in H as [H|[(m & s1 & H & _)|(s1 & H & _)]];
    [|destruct H as (? & ? & _ & _ & [=])..].
  destruct H as (t1 & t2 & bun & s1 & -> & (level & t & -> & -> & [= -> ->]) & H).
  apply balanced_app; [by repeat constructor|].
  destruct (negb _).
  2: { destruct H as ([[]|e] & t2' & -> & -> & [= -> ->]); apply balanced_free; by repeat constructor. }
  assert (calls_only (E := SysI) resource_free
    (file_path_to_bytes (S := S) "/data/misc/uprobestats-configs/config")) as Hf.
  { unfold file_path_to_bytes. calls_only_run. }
  assert (returns (E := SysI)
    (file_path_to_bytes (S := S) "/data/misc/uprobestats-configs/config")) as Hf'.
  { unfold file_path_to_bytes. returns_run. }
  apply exec_mtry in H as [H|[(e & s2 & H & [= -> ->])|[(m & s2 & H & [= -> ->])|(s2 & H & [= -> ->])]]];
    [|apply Hf in H as [H _]; by apply balanced_free|by apply Hf' in H as [? [=]]..].
  destruct H as (t3 & t4 & bytes & s2 & -> & [H1 _]%Hf & H).
  apply balanced_app; [done|]. clear H1 Hf Hf'.
  apply exec_mbind in H as [H|[(m & s3 & H & [= -> ->])|(s3 & H & [= -> ->])]];
    [|by apply task_resolve_config_returns in H as [? [=]]..].
  destruct H as (t5 & t6 & r & s3 & -> & [H1 _]%task_resolve_config_calls & H).
  apply balanced_app; [done|]. clear H1. destruct r as [e|task].
  { unfold report_config_error, mbind in H. rewrite write_internal_error_eq in H.
    destruct H as (rr & t & -> & -> & [= -> ->]). apply balanced_free. by repeat constructor. }
  destruct (update_polled_bpf_maps None task) as [state [[]|e]] eqn:Hu; [|done].
  apply claim_ok in Hu as [_ ->]. pose proof (release_spec
    (Some {| polled_bpf_maps := polled_of None ∪ rt_bpf_map_paths task |}) task) as Hr.
  destruct (cleanup_polled_bpf_maps _ task) as [state'|msg|]; [|done..].
  apply exec_mbind in H as [H|[(m & s4 & H & [= -> ->])|(s4 & H & [= -> ->])]];
    [|by apply exec_execute in H as (_ & [?|?] & _)|done].
  destruct H as (t7 & t8 & [] & s4 & -> & (_ & _ & Hc)%exec_execute & -> & [= -> ->]).
  destruct Hc as [H1 H2]; [done|]. rewrite app_nil_r. exists (Ok tt). done.
Qed.

End Service.

(** ** Witnesses *)

(** The empty config file names no map; any other holds the sample config. *)
Definition mapless_task : Task :=
  mkTask [] [] (Some "system_server") (Some 10%Z) None None (Some 43%Z).

Definition service_parse (b : list byte) : option UprobestatsConfig :=
  match b with
  | [] => Some {| cfg_tasks := [mapless_task] |}
  | _ => Some {| cfg_tasks := [sample_task] |}
  end.

Definition resolve_run (config : list byte) : Prog SysI (outcome (option ResolvedTask) * unit) :=
  @resolve_segment target64 all_flags service_parse unit config tt.

Definition resolved_of (config : list byte) : ResolvedTask :=
  match run_value benign_env (resolve_run config) with
  | (Val (Some task), _) => task
  | _ => poll_task
  end.

Definition some_config : list byte := [nul].

Lemma resolve_run_exec config :
  exists tr, exec (resolve_run config) tr (Val (Some (resolved_of config)), tt).
Proof.
  exists (run_trace benign_env (resolve_run config)).
  apply (run_exec_eq benign_env); [reflexivity|]. destruct config as [|b l]; vm_compute; reflexivity.
Defined.

Lemma val_not_nofuel {A} (a : A) : Val a <> NoFuel.
Proof. discriminate. Defined.

(** One task, up to the point where it claims its maps. *)
Definition daemon_claiming : Daemon :=
  with_thread (with_thread initial (d_mutex initial) 0 (Resolving some_config))
    (d_mutex initial) 0 (Claiming (resolved_of some_config)).

Definition daemon_executing : Daemon :=
  with_thread daemon_claiming
    {| sm_poisoned := false;
       sm_state := Some {| polled_bpf_maps := ∅ ∪ rt_bpf_map_paths (resolved_of some_config) |} |}
    0 (Executing (resolved_of some_config)).

Definition polls_maps (task : ResolvedTask) : Prop := rt_bpf_map_paths task <> ∅.

Definition service_step := @step target64 all_flags canonical_order constant_hash service_parse 2001.
Definition service_reachable :=
  @reachable target64 all_flags canonical_order constant_hash service_parse 2001.

Lemma resolved_polls_maps : polls_maps (resolved_of some_config).
Proof. intros H. apply (f_equal (fun s : gset string => bool_decide (s = ∅))) in H. vm_compute in H. discriminate H. Defined.

Lemma claiming_steps :
  exists tr1 d tr2, service_step initial tr1 d /\ service_step d tr2 daemon_claiming /\
    service_reachable polls_maps daemon_claiming.
Proof.
  destruct (resolve_run_exec some_config) as [tr2 H2].
  eexists _, (with_thread initial (d_mutex initial) 0 (Resolving some_config)), tr2.
  eassert (service_step initial _ (with_thread initial (d_mutex initial) 0 (Resolving some_config))) as S1.
  { eapply step_start; [reflexivity|]. run_in benign_env. }
  assert (service_step (with_thread initial (d_mutex initial) 0 (Resolving some_config)) tr2
    daemon_claiming) as S2.
  { exact (step_resolve service_parse 2001 (with_thread initial (d_mutex initial) 0 (Resolving some_config))
      0%nat some_config tr2 (Val (Some (resolved_of some_config))) eq_refl H2 (val_not_nofuel _)). }
  split; [exact S1|]. split; [exact S2|].
  eapply reachable_step; [eapply reachable_step; [apply reachable_initial|exact S1|]|exact S2|].
  - apply admits_with_thread; [apply admits_initial|discriminate].
  - apply admits_with_thread; [apply admits_with_thread; [apply admits_initial|discriminate]|].
    intros task [= <-]. exact resolved_polls_maps.
Defined.

Lemma claiming_claims :
  exec (claim_segment (resolved_of some_config) (d_mutex daemon_claiming)) []
    (Val true, d_mutex daemon_executing).
Proof. split; [reflexivity|]. reflexivity. Defined.

Lemma executing_reachable : service_reachable polls_maps daemon_executing.
Proof.
  destruct claiming_steps as (_ & _ & _ & _ & _ & Hr).
  eapply reachable_step; [exact Hr| |].
  - exact (step_claim service_parse 2001 daemon_claiming 0%nat (resolved_of some_config) [] (Val true) _
      eq_refl claiming_claims (val_not_nofuel _)).
  - apply admits_with_thread; [eapply reachable_admits; exact Hr|discriminate].
Defined.

Lemma tasks_exclusive_witness :
  runs daemon_executing 0 (resolved_of some_config) /\
  rt_bpf_map_paths (resolved_of some_config) ⊆ daemon_polled daemon_executing.
Proof.
  assert (runs daemon_executing 0 (resolved_of some_config)) as Hr.
  { exists (Executing (resolved_of some_config)). split; reflexivity. }
  split; [exact Hr|].
  exact (proj1 (@tasks_exclusive target64 all_flags canonical_order constant_hash service_parse _ _ _
    executing_reachable) 0%nat _ Hr).
Defined.

Lemma global_state_exact_witness :
  sm_poisoned (d_mutex daemon_executing) = false /\ sm_state (d_mutex daemon_executing) <> None.
Proof.
  destruct (@global_state_exact target64 all_flags canonical_order constant_hash service_parse _ _
    executing_reachable) as (H1 & _ & _ & H2).
  split; [exact H1|]. apply H2. exists 0%nat, (resolved_of some_config).
  exists (Executing (resolved_of some_config)). split; reflexivity.
Defined.

Lemma admission_decided_witness :
  (exists m, exec (claim_segment (resolved_of some_config) (d_mutex daemon_claiming)) [] (Val true, m)) /\
  forall j task', runs daemon_claiming j task' ->
    rt_bpf_map_paths task' ## rt_bpf_map_paths (resolved_of some_config).
Proof.
  split; [eexists; exact claiming_claims|].
  destruct claiming_steps as (_ & _ & _ & _ & _ & Hr).
  exact (proj1 (proj1 (@admission_decided target64 all_flags canonical_order constant_hash service_parse
    _ _ 0%nat _ _ _ _ Hr eq_refl claiming_claims)) eq_refl).
Defined.

Definition poisoned_daemon : Daemon :=
  {| d_mutex := {| sm_poisoned := true; sm_state := None |}; d_threads := ∅ |}.

Lemma poison_is_final_witness :
  exists tr d, service_step poisoned_daemon tr d /\ sm_poisoned (d_mutex d) = true.
Proof.
  eexists _, (with_thread poisoned_daemon (d_mutex poisoned_daemon) 0 (Resolving some_config)).
  eassert (service_step poisoned_daemon _
    (with_thread poisoned_daemon (d_mutex poisoned_daemon) 0 (Resolving some_config))) as S1.
  { eapply step_start; [reflexivity|]. run_in benign_env. }
  split; [exact S1|].
  exact (proj1 (@poison_is_final target64 all_flags canonical_order constant_hash service_parse
    _ _ _ _ S1 eq_refl)).
Defined.

Lemma daemon_steps_bounded_witness :
  @steps target64 all_flags canonical_order constant_hash service_parse 2001 2 initial daemon_claiming /\
  (2 + total (d_threads daemon_claiming) <= 5)%nat.
Proof.
  destruct claiming_steps as (tr1 & d & tr2 & S1 & S2 & _).
  assert (@steps target64 all_flags canonical_order constant_hash service_parse 2001 2
    initial daemon_claiming) as H.
  { eapply steps_cons; [exact S1|]. eapply steps_cons; [exact S2|]. apply steps_nil. }
  split; [exact H|].
  pose proof (@daemon_steps_bounded target64 all_flags canonical_order constant_hash service_parse
    _ _ _ _ H) as Hb.
  change (total (d_threads initial)) with 0%nat in Hb.
  change (size (d_threads initial)) with 0%nat in Hb.
  change (size (d_threads daemon_claiming)) with 1%nat in Hb. lia.
Defined.

(** A config without maps resolves to a task without maps. *)
Lemma empty_tasks_poison_witness :
  exists tr, exec (resolve_run []) tr (Val (Some (resolved_of [])), tt) /\
  exists tr' msg m, exec (overlap (resolved_of []) (resolved_of []) (d_mutex initial)) tr' (Panics msg, m) /\
    sm_poisoned m = true.
Proof.
  destruct (resolve_run_exec []) as [tr H]. exists tr. split; [exact H|].
  eexists _, _, _.
  assert (exec (overlap (resolved_of []) (resolved_of []) (d_mutex initial)) _ (Panics _, _)) as Hx
    by run_in benign_env.
  split; [exact Hx|].
  refine (proj1 (proj2 (@empty_tasks_poison _ _ _ _ _ _ _ Hx))); vm_compute; reflexivity.
Defined.

(** A device below API level 37. *)
Definition legacy_env : Env SysI := fun c past =>
  match c return SysResp c with
  | android_get_device_api_level => 36%Z
  | c' => exec_env c' past
  end.

Lemma handle_tasks_safe_witness :
  exists tr, exec (@handle_tasks target64 all_flags canonical_order constant_hash service_parse unit
      2001 tt) tr (Val (Ok tt), tt) /\ balanced (Val (Ok tt)) tr.
Proof.
  eexists. assert (exec (@handle_tasks target64 all_flags canonical_order constant_hash service_parse
    unit 2001 tt) _ (Val (Ok tt), tt)) as H by run_in legacy_env.
  split; [exact H|].
  exact (@handle_tasks_safe target64 all_flags canonical_order constant_hash service_parse unit
    _ _ _ _ _ H ltac:(discriminate)).
Defined.
