(* ===== verification/Scheduler.v ===== *)
(** * Scheduler: what the service promises, and that the daemon keeps it

    The abstract service is a scheduler: it knows which threads hold which maps,
    admits a task whose maps nobody holds, refuses one that conflicts with a
    holder, and takes maps back.  The daemon, with its mutex and its global set of
    polled maps, refines it; and under any schedule every thread is served. *)

From S2P Require Import Prelude Effects RustStd Data System Fixtures ConfigResolver Handler.
From S2P Require Import ArtTest StatsAtoms Bpf BpfMap Poll Task Execution Service.

Local Open Scope rust_scope.
Local Open Scope list_scope.

(** ** The abstract scheduler *)

(** A job of a task waits for its maps, or holds them. *)
Inductive Job :=
| Waiting (task_id : Z) (maps : gset string)
| Holding (task_id : Z) (maps : gset string).

(** [broken]: the scheduler decides nothing any more. *)
Record Scheduler := mkScheduler {
  jobs : gmap nat Job;
  broken : bool
}.

(** Nobody holds one of these maps. *)
Definition free (s : Scheduler) (maps : gset string) : Prop :=
  forall tid id held, jobs s !! tid = Some (Holding id held) -> held ## maps.

Inductive Label :=
| Submitted (tid : nat) (task_id : Z)
| Started (tid : nat) (task_id : Z)
| Refused (tid : nat) (task_id : Z)
| Released (tid : nat) (task_id : Z)
| Broke (tid : nat)
| Lost (tid : nat)
| Internal.

(** A waiting job leaves only by the decision about its own maps: it starts if they
    are free, and is refused if they are not.  A holder gives all its maps back.  The
    scheduler breaks only when a holder of no maps at all is released; then every
    job is lost when its turn comes. *)
Inductive schedules (s : Scheduler) : Label -> Scheduler -> Prop :=
| schedules_submit tid id maps :
    jobs s !! tid = None ->
    schedules s (Submitted tid id) (mkScheduler (<[tid := Waiting id maps]> (jobs s)) (broken s))
| schedules_start tid id maps :
    broken s = false -> jobs s !! tid = Some (Waiting id maps) -> free s maps ->
    schedules s (Started tid id) (mkScheduler (<[tid := Holding id maps]> (jobs s)) false)
| schedules_refuse tid id maps :
    broken s = false -> jobs s !! tid = Some (Waiting id maps) -> ~ free s maps ->
    schedules s (Refused tid id) (mkScheduler (delete tid (jobs s)) false)
| schedules_release tid id maps :
    broken s = false -> jobs s !! tid = Some (Holding id maps) ->
    schedules s (Released tid id) (mkScheduler (delete tid (jobs s)) false)
| schedules_break tid id :
    broken s = false -> jobs s !! tid = Some (Holding id ∅) ->
    schedules s (Broke tid) (mkScheduler (delete tid (jobs s)) true)
| schedules_lose tid job :
    broken s = true -> jobs s !! tid = Some job ->
    schedules s (Lost tid) (mkScheduler (delete tid (jobs s)) true)
| schedules_internal : schedules s Internal s.

Definition idle : Scheduler := {| jobs := ∅; broken := false |}.

Inductive schedule : Scheduler -> list Label -> Scheduler -> Prop :=
| schedule_nil s : schedule s [] s
| schedule_snoc s ls s1 l s2 : schedule s ls s1 -> schedules s1 l s2 -> schedule s (ls ++ [l]) s2.

(** The conflicts a schedule reports. *)
Definition refusal_of (l : Label) : option Z :=
  match l with Refused _ id => Some id | _ => None end.
Definition refusals (ls : list Label) : list Z := omap refusal_of ls.

(** Holders never share a map. *)
Lemma schedule_exclusive ls s : schedule idle ls s ->
  forall i j id id' m m', jobs s !! i = Some (Holding id m) -> jobs s !! j = Some (Holding id' m') ->
    i <> j -> m ## m'.
Proof.
  intros Hs. remember idle as s0 eqn:H0.
  induction Hs as [s|s0 ls s1 l s2 _ IH Hl]; intros i j id id' m m' Hi Hj Hij; subst.
  { cbn in Hi. by rewrite lookup_empty in Hi. }
  specialize (IH eq_refl).
  destruct Hl as [tid x maps Hn|tid x maps Hb Hw Hf|tid x maps Hb Hw Hf|tid x maps Hb Hh|tid x Hb Hh
    |tid job Hb Hh|]; cbn in Hi, Hj.
  - apply lookup_insert_Some in Hi as [[_ [=]]|[_ Hi]], Hj as [[_ [=]]|[_ Hj]]. eauto.
  - apply lookup_insert_Some in Hi as [[<- [= <- <-]]|[_ Hi]], Hj as [[<- [= <- <-]]|[_ Hj]];
      [done| | |by eauto]; [symmetry|]; by eapply Hf.
  - apply lookup_delete_Some in Hi as [_ Hi], Hj as [_ Hj]. eauto.
  - apply lookup_delete_Some in Hi as [_ Hi], Hj as [_ Hj]. eauto.
  - apply lookup_delete_Some in Hi as [_ Hi], Hj as [_ Hj]. eauto.
  - apply lookup_delete_Some in Hi as [_ Hi], Hj as [_ Hj]. eauto.
  - eauto.
Qed.

(** ** Conflicts in the exchange of the daemon *)

Definition conflict_of (x : ErrorType * Z) : option Z :=
  match x with (ErrorTypeTaskConflict, id) => Some id | _ => None end.
Definition conflicts (tr : list ev) : list Z := omap conflict_of (internal_errors tr).

Lemma conflicts_app t1 t2 : conflicts (t1 ++ t2) = conflicts t1 ++ conflicts t2.
Proof. unfold conflicts. by rewrite internal_errors_app, omap_app. Qed.

Definition conflict_free (c : SysCall) : bool :=
  match c with stats_write_internal_error ErrorTypeTaskConflict _ _ _ _ => false | _ => true end.

Lemma conflict_free_none tr : only conflict_free tr -> conflicts tr = [].
Proof.
  induction 1 as [|[c r] tr Hc _ IH]; [done|]. unfold conflicts, internal_errors in *. cbn in *.
  destruct c; try exact IH. by destruct ty.
Qed.

(** ** Threads as jobs *)

(** A thread that claims its maps is a waiting job; one that has claimed them and not
    given them back is a holder; any other is none. *)
Definition job_of (t : Thread) : option Job :=
  match t with
  | Claiming task => Some (Waiting (rt_id task) (rt_bpf_map_paths task))
  | Executing task | Releasing task => Some (Holding (rt_id task) (rt_bpf_map_paths task))
  | Resolving _ | Finished | Panicked => None
  end.

Definition scheduler_of (d : Daemon) : Scheduler :=
  {| jobs := omap job_of (d_threads d); broken := sm_poisoned (d_mutex d) |}.

Lemma scheduler_with_thread d m tid t :
  scheduler_of (with_thread d m tid t) =
    {| jobs := match job_of t with
               | Some job => <[tid := job]> (jobs (scheduler_of d))
               | None => delete tid (jobs (scheduler_of d))
               end;
       broken := sm_poisoned m |}.
Proof. unfold scheduler_of, with_thread. cbn. f_equal. rewrite omap_insert. by destruct (job_of t). Qed.

Lemma jobs_at d tid : jobs (scheduler_of d) !! tid = d_threads d !! tid ≫= job_of.
Proof. apply lookup_omap. Qed.

Lemma jobs_runs d i id maps :
  jobs (scheduler_of d) !! i = Some (Holding id maps) <->
  exists task, runs d i task /\ id = rt_id task /\ maps = rt_bpf_map_paths task.
Proof.
  rewrite jobs_at. unfold runs. destruct (d_threads d !! i) as [[]|]; cbn; naive_solver.
Qed.

(** Unless a panic has poisoned the mutex, whatever is recorded as polled is held. *)
Definition recorded (d : Daemon) : Prop :=
  sm_poisoned (d_mutex d) = false ->
  forall x, x ∈ daemon_polled d -> exists i task, runs d i task /\ x ∈ rt_bpf_map_paths task.

(** What is recorded is what the holders hold: the test on the record is that on the
    holders. *)
Lemma free_recorded d maps :
  exclusive d -> recorded d -> sm_poisoned (d_mutex d) = false ->
  free (scheduler_of d) maps <-> daemon_polled d ## maps.
Proof.
  intros [Hex _] Hrec Hp. unfold free. setoid_rewrite jobs_runs. split.
  - intros Hf x Hx Hm. apply (Hrec Hp) in Hx as (i & task & Hr & Hx).
    by apply (Hf i _ _ (ex_intro _ task (conj Hr (conj eq_refl eq_refl))) x).
  - intros Hd i id held (task & Hr%Hex & -> & ->). set_solver.
Qed.

Section Refinement.
Context {Tg : Target} {F : Flags} {O : HashOrder} {SH : StringHash}.
Variable parse_from_bytes : list byte -> option UprobestatsConfig.

(** The runs of the daemon, with all they exchanged. *)
Inductive run (fuel : nat) : list ev -> Daemon -> Prop :=
| run_initial : run fuel [] initial
| run_step tr d tr' d' :
    run fuel tr d -> step parse_from_bytes fuel d tr' d' -> run fuel (tr ++ tr') d'.

Lemma startTasks_conflicts {S} (s : S) tr x : exec (startTasks s) tr x -> conflicts tr = [].
Proof. intros (r & t & -> & -> & _). done. Qed.

Lemma resolve_segment_conflicts {S} config (s : S) tr o s' :
  exec (resolve_segment parse_from_bytes config s) tr (o, s') -> conflicts tr = [].
Proof.
  intros H. apply conflict_free_none.
  assert (calls_only (E := SysI) conflict_free (resolve_segment (S := S) parse_from_bytes config)) as Hc.
  { unfold resolve_segment, report_config_error, task_resolve_config, android_is_user_build,
      resolve_config, resolve_single_task, resolve_probes, resolve_probe.
    calls_only_run. by apply calls_only_write_internal_error. }
  by apply Hc in H as [H _].
Qed.

Lemma execute_conflicts {S} bun fuel task (s : S) tr o s' :
  exec (execute bun fuel task s) tr (o, s') -> o <> NoFuel -> conflicts tr = [].
Proof.
  intros H Ho. apply conflict_free_none. eapply only_weaken; [|exact (execute_errors _ _ _ _ _ _ _ H Ho)].
  intros []; try done. by destruct ty.
Qed.

(** What a step does, as the scheduler sees it. *)
Definition simulated (d : Daemon) (tr : list ev) (d' : Daemon) : Prop :=
  recorded d' /\
  exists l, schedules (scheduler_of d) l (scheduler_of d') /\ conflicts tr = option_list (refusal_of l).

(** A thread that holds nothing goes on without touching the record. *)
Lemma recorded_idle d tid t :
  recorded d -> (forall task, ~ runs d tid task) -> recorded (with_thread d (d_mutex d) tid t).
Proof.
  intros Hrec Hn Hp x (i & task & Hr & Hx)%(Hrec Hp). exists i, task. split; [|done].
  by apply runs_other.
Qed.

Lemma simulated_idle d tr tid t t' :
  d_threads d !! tid = t -> job_of t' = None -> t ≫= job_of = None -> conflicts tr = [] ->
  recorded d -> simulated d tr (with_thread d (d_mutex d) tid t').
Proof.
  intros Ht Ht' Hn Htr Hrec. split.
  - apply recorded_idle; [done|]. intros task (t0 & E & Hr). rewrite <- Ht, E in Hn. by destruct t0.
  - exists Internal. split; [|done].
    assert (scheduler_of (with_thread d (d_mutex d) tid t') = scheduler_of d) as ->; [|constructor].
    rewrite scheduler_with_thread, Ht', delete_id; [done|]. by rewrite jobs_at, Ht.
Qed.

Lemma simulated_submit d tr tid config task :
  d_threads d !! tid = Some (Resolving config) -> conflicts tr = [] -> recorded d ->
  simulated d tr (with_thread d (d_mutex d) tid (Claiming task)).
Proof.
  intros Ht Htr Hrec. split.
  - apply recorded_idle; [done|]. intros task'. by rewrite (runs_at _ _ _ _ Ht).
  - exists (Submitted tid (rt_id task)). rewrite scheduler_with_thread. split; [|done].
    constructor. by rewrite jobs_at, Ht.
Qed.

Lemma simulated_claim d tid task tr o m :
  d_threads d !! tid = Some (Claiming task) -> exclusive d -> recorded d ->
  exec (claim_segment task (d_mutex d)) tr (o, m) ->
  simulated d tr (with_thread d m tid
    (after o (fun claimed : bool => if claimed then Executing task else Finished))).
Proof.
  intros Ht Hex Hrec He.
  assert (jobs (scheduler_of d) !! tid = Some (Waiting (rt_id task) (rt_bpf_map_paths task))) as Hj
    by (by rewrite jobs_at, Ht).
  assert (forall task', ~ runs d tid task') as Hn by (intros task'; by rewrite (runs_at _ _ _ _ Ht)).
  apply exec_claim in He as [(Hp & [msg ->] & -> & ->)|[(Hp & -> & -> & Hd & ->)|(Hp & -> & -> & Hd & Hi)]];
    cbn [after].
  - split; [by apply recorded_idle|]. exists (Lost tid). split; [|done].
    rewrite scheduler_with_thread, Hp. by eapply schedules_lose.
  - split.
    + intros _ x. unfold daemon_polled. cbn. intros [Hx|Hx]%elem_of_union.
      * apply (Hrec Hp) in Hx as (i & task' & Hr & Hx). exists i, task'.
        split; [by apply runs_other|done].
      * exists tid, task. split; [apply runs_with_thread; by left|done].
    + exists (Started tid (rt_id task)). rewrite scheduler_with_thread. split; [|done].
      apply schedules_start; [done|done|]. by apply free_recorded.
  - split; [by apply recorded_idle|]. exists (Refused tid (rt_id task)).
    split; [|unfold conflicts; by rewrite Hi]. rewrite scheduler_with_thread, Hp.
    eapply schedules_refuse; [done|exact Hj|]. by rewrite free_recorded.
Qed.

Lemma simulated_release d tid task tr o m :
  d_threads d !! tid = Some (Releasing task) -> exclusive d -> recorded d ->
  exec (release_segment task (d_mutex d)) tr (o, m) ->
  simulated d tr (with_thread d m tid (after o (fun _ => Finished))).
Proof.
  intros Ht [Hex _] Hrec [-> He]%exec_release.
  assert (jobs (scheduler_of d) !! tid = Some (Holding (rt_id task) (rt_bpf_map_paths task))) as Hj
    by (by rewrite jobs_at, Ht).
  assert (runs d tid task) as Hrun by (by apply (runs_at _ _ _ _ Ht)).
  destruct He as [(Hp & [msg ->] & ->)|[(Hp & Hs & [msg ->] & ->)|(Hp & Hs & -> & Hp' & Hpol & _)]];
    cbn [after].
  - split; [intros Hp'; cbn in Hp'; congruence|]. exists (Lost tid). split; [|done].
    rewrite scheduler_with_thread, Hp. by eapply schedules_lose.
  - split; [done|]. exists (Broke tid). split; [|done]. rewrite scheduler_with_thread.
    apply (schedules_break _ _ (rt_id task)); [done|].
    assert (rt_bpf_map_paths task = ∅) as <-; [|exact Hj].
    apply Hex in Hrun. unfold daemon_polled in Hrun. rewrite Hs in Hrun. cbn in Hrun. set_solver.
  - split.
    + intros _ x. unfold daemon_polled. cbn. rewrite Hpol.
      intros [Hx Hn]%elem_of_difference. apply (Hrec Hp) in Hx as (i & task' & Hr & Hx).
      exists i, task'. split; [|done]. apply runs_with_thread. right. split; [|done]. intros ->.
      apply (runs_at _ _ _ _ Ht) in Hr as [= ->]. done.
    + exists (Released tid (rt_id task)). rewrite scheduler_with_thread, Hp'. split; [|done].
      by eapply schedules_release.
Qed.

Lemma step_simulated fuel d tr d' :
  step parse_from_bytes fuel d tr d' -> exclusive d -> recorded d -> simulated d tr d'.
Proof.
  intros Hstep Hex Hrec. destruct Hstep
    as [tid config tr Ht He|tid config tr o Ht He Ho|tid task tr o m Ht He Ho
       |tid task tr o Ht He Ho|tid task tr o m Ht He Ho].
  - apply startTasks_conflicts in He. by eapply simulated_idle.
  - apply resolve_segment_conflicts in He.
    destruct o as [[task|]|msg|]; cbn [after]; [by eapply simulated_submit|by eapply simulated_idle..].
  - by eapply simulated_claim.
  - pose proof (execute_conflicts _ _ _ _ _ _ _ He Ho) as Htr.
    apply exec_execute in He as (_ & [->| ->] & _); [done|]. cbn [after].
    assert (scheduler_of (with_thread d (d_mutex d) tid (Releasing task)) = scheduler_of d) as Hs.
    { rewrite scheduler_with_thread. cbn [job_of]. rewrite insert_id; [done|]. by rewrite jobs_at, Ht. }
    split.
    + intros Hp x (i & task' & Hr & Hx)%(Hrec Hp). exists i, task'. split; [|done].
      apply runs_with_thread. destruct (decide (i = tid)) as [->|Hne]; [|by right]. left.
      split; [done|]. by apply (runs_at _ _ _ _ Ht) in Hr.
    + exists Internal. rewrite Hs. split; [constructor|done].
  - by eapply simulated_release.
Qed.

Lemma run_exclusive fuel tr d : run fuel tr d -> exclusive d.
Proof.
  induction 1 as [|tr d tr' d' _ IH Hs]; [|by eapply exclusive_step].
  split; intros ? ? *; by intros (? & ? & _).
Qed.

Lemma run_simulated fuel tr d : run fuel tr d ->
  recorded d /\ exists ls, schedule idle ls (scheduler_of d) /\ conflicts tr = refusals ls.
Proof.
  induction 1 as [|tr d tr' d' Hr (IH1 & ls & IH2 & IH3) Hs].
  - split; [intros _ x Hx; by apply not_elem_of_empty in Hx|]. exists []. split; [constructor|done].
  - apply run_exclusive in Hr. destruct (step_simulated _ _ _ _ Hs Hr IH1) as (H1 & l & H2 & H3).
    split; [done|]. exists (ls ++ [l]). split; [by econstructor|].
    rewrite conflicts_app, IH3, H3. unfold refusals. rewrite omap_app. by destruct l.
Qed.


End Refinement.

(** ** Witness: a second task for the same maps is refused *)

Definition service_run := @run target64 all_flags canonical_order constant_hash service_parse 2001.

Definition two_tasks : Daemon :=
  with_thread (with_thread daemon_executing (d_mutex daemon_executing) 1 (Resolving some_config))
    (d_mutex daemon_executing) 1 (Claiming (resolved_of some_config)).

Definition refused_daemon : Daemon := with_thread two_tasks (d_mutex daemon_executing) 1 Finished.

Lemma executing_runs : exists tr, service_run tr daemon_executing.
Proof.
  destruct claiming_steps as (tr1 & d & tr2 & S1 & S2 & _).
  eexists. eapply run_step; [eapply run_step; [eapply run_step; [apply run_initial|exact S1]|exact S2]|].
  exact (step_claim service_parse 2001 daemon_claiming 0%nat (resolved_of some_config) [] (Val true) _
    eq_refl claiming_claims (val_not_nofuel _)).
Defined.

Lemma two_tasks_run : exists tr, service_run tr two_tasks.
Proof.
  destruct executing_runs as [tr H]. destruct (resolve_run_exec some_config) as [tr2 H2].
  eexists. eapply run_step; [eapply run_step; [exact H|]|].
  - apply (step_start service_parse 2001 daemon_executing 1%nat some_config); [reflexivity|].
    run_in benign_env.
  - exact (step_resolve service_parse 2001
      (with_thread daemon_executing (d_mutex daemon_executing) 1 (Resolving some_config)) 1%nat some_config
      tr2 (Val (Some (resolved_of some_config))) eq_refl H2 (val_not_nofuel _)).
Defined.

Lemma second_claim_refused :
  exists tr, exec (claim_segment (resolved_of some_config) (d_mutex two_tasks)) tr
    (Val false, d_mutex daemon_executing) /\ conflicts tr = [rt_id (resolved_of some_config)].
Proof.
  exists (run_trace benign_env (claim_segment (resolved_of some_config) (d_mutex two_tasks))). split.
  - apply (run_exec_eq benign_env); [reflexivity|]. vm_compute. reflexivity.
  - vm_compute. reflexivity.
Defined.

