(* ===== verification/Liveness.v ===== *)
(** * Liveness: every thread of the service comes to its end

    Infinite plays of the daemon: at every moment a thread gets a turn, or a new
    call of [startTasks] arrives.  If every thread gets turns again and again, the
    clock ticks and the binder map behaves as a kernel map, then every thread
    finishes, however many others come after it. *)

From S2P Require Import Prelude Effects RustStd Data System Fixtures ConfigResolver Handler.
From S2P Require Import ArtTest StatsAtoms Bpf BpfMap Poll Task Execution Service.

Local Open Scope rust_scope.
Local Open Scope list_scope.

Section Liveness.
Context {Tg : Target} {F : Flags} {O : HashOrder} {SH : StringHash}.
Variable parse_from_bytes : list byte -> option UprobestatsConfig.
Variable fuel : nat.

(** ** Turns *)

(** The next segment of a thread, with what the thread becomes and the mutex. *)
Definition segment (t : Thread) (m : StateMutex) : Prog SysI (outcome Thread * StateMutex) :=
  match t with
  | Resolving config =>
      pmap (fun '(o, _) => (obind o (fun r : option ResolvedTask =>
              Val (match r with Some task => Claiming task | None => Finished end)), m))
        (resolve_segment parse_from_bytes config tt)
  | Claiming task =>
      pmap (fun '(o, m') => (obind o (fun claimed : bool =>
              Val (if claimed then Executing task else Finished)), m'))
        (claim_segment task m)
  | Executing task =>
      pmap (fun '(o, _) => (obind o (fun _ => Val (Releasing task)), m)) (execute true fuel task tt)
  | Releasing task =>
      pmap (fun '(o, m') => (obind o (fun _ => Val Finished), m')) (release_segment task m)
  | Finished | Panicked => Ret (Val t, m)
  end.

(** A turn of thread [tid]: it is spawned, or runs its next segment.  A segment that
    is cut leaves the thread where it was. *)
Definition turn (d : Daemon) (tid : nat) (tr : list ev) (d' : Daemon) : Prop :=
  match d_threads d !! tid with
  | None =>
      exists config, exec (startTasks tt) tr (Val (Ok tt), tt) /\
        d' = with_thread d (d_mutex d) tid (Resolving config)
  | Some t =>
      exists o m, exec (segment t (d_mutex d)) tr (o, m) /\
        d' = match o with NoFuel => d | _ => with_thread d m tid (after o id) end
  end.

(** An infinite play: who gets each turn, and what the turn exchanges. *)
Record play (states : nat -> Daemon) (who : nat -> nat) (exchanges : nat -> list ev) : Prop := {
  play_initial : states 0 = initial;
  play_turn n : turn (states n) (who n) (exchanges n) (states (S n));
  (** Every thread gets a turn again. *)
  play_fair n tid : is_Some (d_threads (states n) !! tid) -> exists n', n <= n' /\ who n' = tid
}.

(** A device on which a segment comes to its end: any [k] readings of the clock
    take a millisecond, and the binder map, of at most [entries] entries, behaves
    as a kernel map. *)
Definition live (k entries : nat) (tr : list ev) : Prop :=
  ticking k (instants tr) /\ exists m m', (size m <= entries)%nat /\ map_exchange m tr m'.

(** Tasks the fuel is enough for, that poll some map. *)
Definition fits (k entries : nat) (task : ResolvedTask) : Prop :=
  rt_bpf_map_paths task <> ∅ /\
  (Z.of_nat k * (Z.max 0 (as_millis (rt_duration task)) + 1) <= Z.of_nat fuel)%Z /\
  (entries + filter_count (rt_resolved_probes task) < fuel)%nat.

(** ** Lemmas *)

Definition thread_task (t : Thread) : option ResolvedTask :=
  match t with
  | Claiming task | Executing task | Releasing task => Some task
  | _ => None
  end.

Definition all_tasks (P : ResolvedTask -> Prop) (d : Daemon) : Prop :=
  forall tid t task, d_threads d !! tid = Some t -> thread_task t = Some task -> P task.

(** What a turn of a thread does: nothing, or one step of the daemon that brings the
    thread closer to its end; only an execution can be cut. *)
Lemma turn_cases d tid tr d' t :
  d_threads d !! tid = Some t -> turn d tid tr d' ->
  (remaining t = 0%nat /\ d' = d) \/
  (exists t', step parse_from_bytes fuel d tr d' /\ d' = with_thread d (d_mutex d') tid t' /\
     (remaining t' < remaining t)%nat /\
     (forall task, thread_task t' = Some task -> thread_task t = Some task \/ t' = Claiming task)) \/
  (exists task, t = Executing task /\ exec (execute true fuel task tt) tr (NoFuel, tt)).
Proof.
  intros Ht. unfold turn. rewrite Ht. intros (o & m & H & Hd'). unfold segment in H.
  assert (Hself : forall t, d_threads d !! tid = Some t -> with_thread d (d_mutex d) tid t = d).
  { intros t' Ht'. unfold with_thread. rewrite insert_id by done. by destruct d. }
  destruct t as [config|task|task|task| |].
  - apply exec_pmap in H as ([o1 []] & H & [= -> ->]).
    pose proof H as [r ->]%resolve_segment_returns. right; left. cbn [obind after id] in Hd'.
    subst d'. eexists. split_and!; [by apply (step_resolve parse_from_bytes fuel d tid config tr (Val r))|done|
      by destruct r; cbn; lia|].
    intros task. destruct r as [task'|]; cbn; [intros [= ->]; by right|done].
  - apply exec_pmap in H as ([o1 m1] & H & [= -> ->]).
    assert (o1 <> NoFuel) as Ho by (apply exec_claim in H; naive_solver).
    right; left. exists (after o1 (fun claimed : bool => if claimed then Executing task else Finished)).
    assert (d' = with_thread d m1 tid
      (after o1 (fun claimed : bool => if claimed then Executing task else Finished))) as ->.
    { by destruct o1. }
    split_and!; [by eapply step_claim|done|destruct o1 as [[]| |]; cbn; lia|].
    intros task'. destruct o1 as [[]| |]; cbn; auto; done.
  - apply exec_pmap in H as ([o1 []] & H & [= -> ->]).
    destruct o1 as [u|msg|].
    + right; left. subst d'. eexists. split_and!; [by apply (step_execute parse_from_bytes fuel d tid task tr (Val u))|
        done|cbn; lia|].
      cbn. auto.
    + by apply exec_execute in H as (_ & [?|?] & _).
    + right; right. eauto.
  - apply exec_pmap in H as ([o1 m1] & H & [= -> ->]).
    assert (o1 <> NoFuel) as Ho by (apply exec_release in H; naive_solver).
    right; left. exists (after o1 (fun _ => Finished)).
    assert (d' = with_thread d m1 tid (after o1 (fun _ => Finished))) as -> by (by destruct o1).
    split_and!; [by eapply step_release|done|destruct o1; cbn; lia|]. intros task'. by destruct o1.
  - destruct H as [-> [= -> ->]]. left. split; [done|]. subst d'. by apply Hself.
  - destruct H as [-> [= -> ->]]. left. split; [done|]. subst d'. by apply Hself.
Qed.

Section Play.
Context (k entries : nat) (Hk : (0 < k)%nat).
Context (states : nat -> Daemon) (who : nat -> nat) (exchanges : nat -> list ev).
Context (Hplay : play states who exchanges).
Context (Hlive : forall n, live k entries (exchanges n)).
Context (Hadmits : forall n, admits (fits k entries) (states n)).

#[local] Set Default Proof Using "All".

(** What holds all along a play. *)
Definition sound (d : Daemon) : Prop := exclusive d /\ healthy d /\ all_tasks (fits k entries) d.

Lemma sound_step d tr d' tid t t' :
  step parse_from_bytes fuel d tr d' -> d_threads d !! tid = t ->
  d' = with_thread d (d_mutex d') tid t' ->
  (forall task, thread_task t' = Some task -> t ≫= thread_task = Some task \/ t' = Claiming task) ->
  admits (fits k entries) d -> admits (fits k entries) d' -> sound d -> sound d'.
Proof.
  intros Hs Ht Hd' Htask Ha Ha' (H1 & H2 & H3). split_and!.
  - by eapply exclusive_step.
  - eapply healthy_step; [exact Hs| |done|done]. intros i task Hi. by apply (Ha i task) in Hi as [? _].
  - intros i u task Hi Hu. destruct (decide (i = tid)) as [->|Hne].
    + pose proof Hi as Hi'. rewrite Hd' in Hi'. cbn in Hi'. rewrite lookup_insert_eq in Hi'. injection Hi' as ->.
      destruct (Htask task Hu) as [Hold| ->].
      * rewrite <- Ht in Hold. destruct (d_threads d !! tid) as [t0|] eqn:E; [|done]. by apply (H3 tid t0).
      * by apply (Ha' tid).
    + rewrite Hd' in Hi. cbn in Hi. rewrite lookup_insert_ne in Hi by done. by apply (H3 i u).
Qed.

(** A turn on a live device is not cut. *)
Lemma live_turn n t :
  d_threads (states n) !! who n = Some t -> sound (states n) ->
  (remaining t = 0%nat /\ states (S n) = states n) \/
  (exists t', step parse_from_bytes fuel (states n) (exchanges n) (states (S n)) /\
     states (S n) = with_thread (states n) (d_mutex (states (S n))) (who n) t' /\
     (remaining t' < remaining t)%nat /\
     (forall task, thread_task t' = Some task -> thread_task t = Some task \/ t' = Claiming task)).
Proof.
  intros Ht (_ & _ & Hfit).
  destruct (turn_cases _ _ _ _ _ Ht (play_turn _ _ _ Hplay n)) as [?|[?|(task & -> & H)]];
    [by left|by right|].
  destruct (Hfit _ _ task Ht eq_refl) as (_ & Hf1 & Hf2).
  destruct (Hlive n) as (Htick & m & m' & Hsz & Hm).
  destruct (execute_fuel _ _ _ _ _ _ _ _ _ _ H Htick Hk Hm Hf1); [lia|done].
Qed.

Lemma play_sound n : sound (states n).
Proof.
  induction n as [|n IH].
  - rewrite (play_initial _ _ _ Hplay). split; [|split].
    + eapply (reachable_exclusive parse_from_bytes fuel (fun _ => True)), reachable_initial.
    + eapply (reachable_healthy parse_from_bytes fuel), reachable_initial.
    + intros tid t task Ht. cbn in Ht. by rewrite lookup_empty in Ht.
  - destruct (d_threads (states n) !! who n) as [t|] eqn:Ht.
    + destruct (live_turn n t Ht IH) as [[_ ->]|(t' & Hs & Hd & _ & Htask)]; [done|].
      by eapply sound_step.
    + pose proof (play_turn _ _ _ Hplay n) as Hturn. unfold turn in Hturn. rewrite Ht in Hturn.
      destruct Hturn as (config & Hx & Hd).
      assert (step parse_from_bytes fuel (states n) (exchanges n) (states (S n))) as Hs.
      { rewrite Hd. by eapply step_start. }
      eapply (sound_step _ _ _ (who n)); [exact Hs|exact Ht|by rewrite Hd| |done..]. by intros task [=].
Qed.

(** Turns of the others leave a thread alone; its own bring it closer to its end. *)
Lemma turn_of n tid t :
  d_threads (states n) !! tid = Some t ->
  exists t', d_threads (states (S n)) !! tid = Some t' /\
    ((who n <> tid /\ t' = t) \/ (who n = tid /\ remaining t = 0%nat /\ t' = t) \/
     (who n = tid /\ (remaining t' < remaining t)%nat)).
Proof.
  intros Ht. destruct (decide (who n = tid)) as [<-|Hne].
  - destruct (live_turn n t Ht (play_sound n)) as [[? ->]|(t' & _ & -> & Hlt & _)]; [by eauto 10|].
    exists t'. cbn. rewrite lookup_insert_eq. auto.
  - exists t. split; [|by left]. destruct (d_threads (states n) !! who n) as [u|] eqn:Hu.
    + destruct (live_turn n u Hu (play_sound n)) as [[_ ->]|(t' & _ & -> & _)]; [done|].
      cbn. by rewrite lookup_insert_ne.
    + pose proof (play_turn _ _ _ Hplay n) as Hturn. unfold turn in Hturn. rewrite Hu in Hturn.
      destruct Hturn as (config & _ & ->). cbn. by rewrite lookup_insert_ne.
Qed.

Lemma finished_stays n n' tid t :
  (n <= n')%nat -> d_threads (states n) !! tid = Some t -> remaining t = 0%nat ->
  d_threads (states n') !! tid = Some t.
Proof.
  intros Hn Ht Hr. induction Hn as [|n' _ IH]; [done|].
  destruct (turn_of n' tid t IH) as (t' & H & [[_ ->]|[[_ [_ ->]]|[_ ?]]]); [done..|lia].
Qed.

(** Until its next turn a thread waits as it is. *)
Lemma waits n n' tid t :
  (n <= n')%nat -> d_threads (states n) !! tid = Some t -> who n' = tid ->
  exists n0, (n <= n0)%nat /\ who n0 = tid /\ d_threads (states n0) !! tid = Some t.
Proof.
  intros Hn. remember (n' - n)%nat as gap eqn:Hgap. revert n Hn Hgap.
  induction gap as [|gap IH]; intros n Hn Hgap Ht Hw.
  - assert (n' = n) as -> by lia. eauto.
  - destruct (turn_of n tid t Ht) as (t' & H & [[_ ->]|[[Hw' _]|[Hw' _]]]); [|by eauto..].
    destruct (IH (S n)) as (n0 & ? & ? & ?); [lia..|done|done|]. exists n0. split_and!; [lia|done..].
Qed.

Lemma ends n tid t :
  d_threads (states n) !! tid = Some t ->
  exists n' t', (n <= n')%nat /\ d_threads (states n') !! tid = Some t' /\ remaining t' = 0%nat.
Proof.
  remember (remaining t) as r eqn:Hr. revert n t Hr. induction r as [r IH] using lt_wf_ind.
  intros n t -> Ht. destruct (decide (remaining t = 0%nat)) as [H0|Hpos]; [by eauto 10|].
  destruct (play_fair _ _ _ Hplay n tid) as (n1 & Hn1 & Hw); [by eauto|].
  destruct (waits n n1 tid t) as (n2 & Hn2 & Hw2 & Ht2); [lia|done..|].
  destruct (turn_of n2 tid t Ht2) as (t' & H & [[? _]|[[_ [? _]]|[_ Hlt]]]); [done..|].
  destruct (IH _ Hlt (S n2) t' eq_refl H) as (n' & t'' & ? & ? & ?). exists n', t''. split_and!; [lia|done..].
Qed.

(** C7. Every call is served.  On a device where the clock ticks and the binder map
    behaves, with tasks that poll some map and that the fuel is enough for: if every
    thread gets turns again and again, then every thread that [startTasks] ever
    spawned finishes, without a panic and whatever calls keep arriving, and from
    then on holds no map. *)
Theorem every_thread_finishes n tid (H : is_Some (d_threads (states n) !! tid)) :
  exists n', (n <= n')%nat /\
    forall n'', (n' <= n'')%nat ->
      d_threads (states n'') !! tid = Some Finished /\ forall task, ~ runs (states n'') tid task.
Proof.
  destruct H as [t (n' & t' & Hn & Ht & Hr)%ends]. exists n'. split; [done|]. intros n'' Hn''.
  pose proof (finished_stays _ _ _ _ Hn'' Ht Hr) as Hend.
  destruct (play_sound n'') as (_ & (_ & _ & _ & _ & Hp) & _). specialize (Hp tid).
  destruct t'; cbn in Hr; try lia; [|done]. split; [done|].
  intros task (u & E & Hu). rewrite Hend in E. by injection E as <-.
Qed.

End Play.
End Liveness.

(** ** Witness: one call, served *)

Definition live_states (n : nat) : Daemon :=
  match n with
  | 0 => initial
  | 1 => with_thread initial (d_mutex initial) 0 (Resolving some_config)
  | 2 => daemon_claiming
  | 3 => daemon_executing
  | 4 => with_thread daemon_executing (d_mutex daemon_executing) 0 (Releasing (resolved_of some_config))
  | _ =>
      with_thread
        (with_thread daemon_executing (d_mutex daemon_executing) 0 (Releasing (resolved_of some_config)))
        {| sm_poisoned := false; sm_state := None |} 0 Finished
  end.

Definition live_fuel : nat := Z.to_nat 10002.

Definition live_execution : Prog SysI (outcome unit * unit) :=
  @execute target64 all_flags canonical_order constant_hash unit true live_fuel (resolved_of some_config) tt.

Definition live_exchanges (n : nat) : list ev :=
  match n with
  | 0 => [existT (stats_write_invocation InvocationTypeStartTasksReceived) (Ok tt) : ev]
  | 1 => run_trace benign_env (resolve_run some_config)
  | 3 => run_trace exec_env live_execution
  | _ => []
  end.

Definition live_play :=
  @play target64 all_flags canonical_order constant_hash service_parse live_fuel.

Lemma live_resolves :
  exec (resolve_run some_config) (live_exchanges 1) (Val (Some (resolved_of some_config)), tt).
Proof. apply (run_exec_eq benign_env); [reflexivity|]. vm_compute. reflexivity. Defined.

Lemma live_executes : exec live_execution (live_exchanges 3) (Val tt, tt).
Proof. apply (run_exec_eq exec_env); [reflexivity|]. vm_compute. reflexivity. Defined.

Lemma live_releases :
  exec (release_segment (resolved_of some_config)
    (d_mutex (live_states 4))) [] (Val tt, {| sm_poisoned := false; sm_state := None |}).
Proof. apply (run_exec_eq benign_env); vm_compute; reflexivity. Defined.

(** [pmap] passes an execution on. *)
Lemma exec_pmap_intro {A B} (f : A -> B) (p : Prog SysI A) tr a :
  exec p tr a -> exec (pmap f p) tr (f a).
Proof. intros H. apply exec_bind. exists tr, [], a. by rewrite app_nil_r. Qed.

Lemma live_turns n : @turn target64 all_flags canonical_order constant_hash service_parse live_fuel
  (live_states n) 0 (live_exchanges n) (live_states (S n)).
Proof.
  unfold turn. destruct n as [|[|[|[|[|n]]]]].
  - exists some_config. split; [|done]. by eexists _, _.
  - exists (Val (Claiming (resolved_of some_config))), (d_mutex initial). split; [|done].
    exact (exec_pmap_intro _ _ _ _ live_resolves).
  - exists (Val (Executing (resolved_of some_config))), (d_mutex daemon_executing). split; [|done].
    exact (exec_pmap_intro _ _ _ _ claiming_claims).
  - exists (Val (Releasing (resolved_of some_config))), (d_mutex daemon_executing). split; [|done].
    exact (exec_pmap_intro _ _ _ _ live_executes).
  - exists (Val Finished), {| sm_poisoned := false; sm_state := None |}. split; [|done].
    exact (exec_pmap_intro _ _ _ _ live_releases).
  - exists (Val Finished), {| sm_poisoned := false; sm_state := None |}. split; [done|].
    reflexivity.
Qed.

Lemma live_played : live_play live_states (fun _ => 0%nat) live_exchanges.
Proof.
  split; [done|exact live_turns|]. intros n tid [t Ht]. exists n. split; [lia|].
  destruct (decide (tid = 0%nat)) as [->|Hne]; [done|].
  assert (forall n, d_threads (live_states n) !! tid = None) as Hn.
  { clear -Hne. intros n. destruct n as [|[|[|[|[|n]]]]]; cbn; by simplify_map_eq. }
  by rewrite Hn in Ht.
Qed.

Lemma live_device n : live 1 0 (live_exchanges n).
Proof.
  split.
  - apply ticking_sorted. destruct n as [|[|[|[|n]]]]; vm_compute; repeat constructor;
      vm_compute; congruence.
  - exists ∅, ∅. split; [reflexivity|]. apply map_run_sound.
    destruct n as [|[|[|[|n]]]]; refine (bool_decide_eq_true_1 _ _); vm_compute; reflexivity.
Qed.

Lemma live_fits n : admits (fits live_fuel 1 0) (live_states n).
Proof.
  intros tid task Ht. assert (task = resolved_of some_config) as ->.
  { destruct (decide (tid = 0%nat)) as [->|Hne];
      destruct n as [|[|[|[|[|n]]]]]; cbn in Ht; simplify_map_eq; done. }
  split_and!; [exact resolved_polls_maps| |].
  - unfold live_fuel. rewrite Z2Nat.id by lia. vm_compute. congruence.
  - apply Nat.ltb_lt. vm_compute. reflexivity.
Qed.

Lemma every_thread_finishes_witness :
  exists n', (1 <= n')%nat /\ forall n'', (n' <= n'')%nat ->
    d_threads (live_states n'') !! 0%nat = Some Finished.
Proof.
  destruct (@every_thread_finishes target64 all_flags canonical_order constant_hash service_parse
    live_fuel 1 0 ltac:(lia) live_states (fun _ => 0%nat) live_exchanges live_played live_device live_fits
    1%nat 0%nat ltac:(eexists; reflexivity)) as (n' & Hn & H).
  exists n'. split; [exact Hn|]. intros n'' Hn''. exact (proj1 (H n'' Hn'')).
Defined.
