(* ===== verification/Device.v ===== *)
(** * Device: the resolver linked with the implementations of the device

    [android/task.rs] hands the resolver of [core/config_resolver.rs] the process
    resolver of [android/process.rs] and the offset resolver of
    [android/offsets.rs].  [device] says which program implements which call; the
    theorems here are about the linked program, whose calls are those of the
    system below it. *)

From S2P Require Import Prelude Effects Link RustStd Data System Fixtures.
From S2P Require Import Guardrail ConfigResolver StatsAtoms Bpf Ownership Offsets.
From S2P Require Import ActivityManager Poll Process Task Service.

Local Open Scope rust_scope.
Local Open Scope list_scope.

Section Device.
Context {T : Target} {B : BinderCodes} {F : Flags}.
Context (AID_SYSTEM : Z) (fuel : nat).

Definition device (c : call SysI) : option (Prog SysI (outcome (resp SysI c))) :=
  match c return option (Prog SysI (outcome (SysResp c))) with
  | ProcessResolver_resolve_process name sel timeout =>
      Some (stateless (resolve_process AID_SYSTEM fuel name sel timeout))
  | OffsetResolver_resolve_offsets process method => Some (stateless (resolve_offsets process method))
  | _ => None
  end.

(** ** The implementations are well behaved *)

(** An implemented call acquires and releases nothing itself. *)
Lemma device_calls_free c : device c <> None ->
  forall r, acquires (existT c r : ev) = [] /\ releases (existT c r : ev) = [].
Proof. by destruct c. Qed.

Lemma device_tidy c q t r :
  device c = Some q -> exec q t (Val r) -> acquired t ≡ₚ released t.
Proof.
  intros Hq H. destruct c; try discriminate Hq; apply (inj Some) in Hq as <-;
    apply exec_stateless in H; (eapply tidy_exec; [|exact H|done]).
  - apply tidy_resolve_process.
  - apply tidy_resolve_offsets.
Qed.

(** So linking adds no leak to a component. *)
Lemma links_tidy tr0 tr :
  links device tr0 tr -> acquired tr0 ≡ₚ released tr0 -> acquired tr ≡ₚ released tr.
Proof.
  intros Hl H0.
  assert (acquired tr ++ released tr0 ≡ₚ released tr ++ acquired tr0) as H.
  { clear H0. induction Hl as [|c r tr0 tr Hc Hl IH|c q r t tr0 tr Hc Hx Hl IH]; [done|..].
    - change (acquired (existT c r :: ?l)) with (acquires (existT c r) ++ acquired l).
      change (released (existT c r :: ?l)) with (releases (existT c r) ++ released l).
      trans ((acquires (existT c r : ev) ++ releases (existT c r : ev)) ++ (acquired tr ++ released tr0));
        [solve_Permutation|rewrite IH; solve_Permutation].
    - destruct (device_calls_free c ltac:(congruence) r) as [Ha Hr].
      rewrite acquired_app, released_app. cbn [acquired released flat_map]. rewrite Ha, Hr.
      cbn [app]. fold (acquired tr0) (released tr0). rewrite <- !(assoc_L (++)), IH.
      by rewrite (device_tidy _ _ _ _ Hc Hx). }
  rewrite H0 in H. by apply (inj (.++ released tr0)) in H.
Qed.

(** ** Resolving a config on the device *)

(** The calls of the resolver that are left to the implementations or the system. *)
Definition resolver_call (c : SysCall) : bool :=
  match c with
  | ProcessResolver_resolve_process _ _ _ | OffsetResolver_resolve_offsets _ _
  | system_properties_read _ => true
  | _ => false
  end.

Lemma resolver_calls (parse : list byte -> option UprobestatsConfig) bytes :
  calls_only (E := SysI) resolver_call (task_resolve_config (S := unit) parse bytes).
Proof.
  unfold task_resolve_config, android_is_user_build, resolve_config, resolve_single_task,
    resolve_probes, resolve_probe.
  calls_only_run.
Qed.

Lemma resolver_calls_tidy tr :
  Forall (fun e : ev => resolver_call (projT1 e) = true) tr -> acquired tr ≡ₚ released tr.
Proof.
  induction 1 as [|[c r] tr Hc _ IH]; [done|]. by destruct c.
Qed.

(** The offsets of a resolved probe are those the manager answered for its method
    in the resolved process. *)
Definition offsets_known (tr : list ev) (process : ResolvedProcess) (probe : ResolvedProbe) : Prop :=
  let method := pr_method_descriptor probe in
  exists tp md tr', tr' ⊆ tr /\
    (existT (TargetProcess_create (rp_uid process) (rp_pid process) (rp_name process)) tp : ev) ∈ tr' /\
    (existT (MethodDescriptor_create (md_fully_qualified_class_name method)
       (md_method_name method) (md_fully_qualified_parameters method)) md : ev) ∈ tr' /\
    answered_requests tp md tr' (Val (Ok (Some (pr_offsets probe)))).

Lemma answered_offsets_known tr0 tr process probe :
  links device tr0 tr ->
  answered_offsets process (pr_method_descriptor probe) (pr_offsets probe) tr0 ->
  offsets_known tr process probe.
Proof.
  intros Hl Ha. destruct (links_elem _ _ _ _ _ _ Hl Ha eq_refl) as (t & H & Ht).
  apply exec_stateless, exec_resolve_offsets in H as (_ & _ & H).
  destruct (process_ok process && method_ok (pr_method_descriptor probe)).
  - destruct H as (tp & md & t' & Hr & ->). exists tp, md. eexists. split; [exact Ht|].
    split; [set_solver|]. split; [set_solver|]. eapply requested_answered; [exact Hr|set_solver|..].
    + cbn. rewrite gets_app. apply app_nil_r.
    + cbn. rewrite sleeps_app. apply app_nil_r.
  - by destruct H as (_ & _ & ? & ?).
Qed.

Variable parse_from_bytes : list byte -> option UprobestatsConfig.

(** [task::resolve_config] on the device. *)
Definition device_resolve_config (bytes : list byte) :
    Prog SysI (outcome (outcome (ConfigError + ResolvedTask) * unit)) :=
  link device (task_resolve_config parse_from_bytes bytes tt).

(** Whether the build is a user build, as the property is read. *)
Definition user_build_read (tr : list ev) (user : bool) : Prop :=
  exists r, (existT (system_properties_read "ro.build.type") r : ev) ∈ tr /\
    user = match r with Ok (Some v) => String.eqb v "user" | _ => true end.

Lemma exec_device_resolve bytes tr o :
  exec (device_resolve_config bytes) tr (Val o) ->
  acquired tr ≡ₚ released tr /\
  exists tr0, links device tr0 tr /\
  forall r, o = (Val r, tt) -> exists user tr1, user_build_read tr user /\ tr1 ⊆ tr0 /\
    exec (resolve_config parse_from_bytes bytes user tt) tr1 (Val r, tt).
Proof.
  intros H. apply exec_link in H as (tr0 & H & Hl).
  assert (acquired tr0 ≡ₚ released tr0) as H0.
  { destruct o as [o s']. apply resolver_calls_tidy. by apply resolver_calls in H as [? _]. }
  split; [by eapply links_tidy|]. exists tr0. split; [done|]. intros r ->.
  destruct (exec_mbind_Val _ _ _ _ _ _ H) as (t1 & t2 & user & [] & -> & H1 & H2).
  exists user, t2. split; [|split; [set_solver|done]].
  destruct H1 as (p & t & -> & H1). exists p. split.
  - refine (links_keeps (E := SysI) _ _ _ (system_properties_read "ro.build.type") p Hl _ eq_refl).
    apply elem_of_cons. by left.
  - destruct p as [[v|]|e]; by destruct H1 as [_ [= ->]].
Qed.

(** C5. A config resolved on the device.  When the resolver, linked with the
    process and the offset resolver of the device, resolves a config, the config
    holds one task that the guardrail admits for the kind of build read from the
    properties; the process was located as the task asks; the offsets of every
    probe are those the instrumentation manager answered for its method in that
    process; and every C object obtained on the way was released. *)
Theorem device_resolution bytes tr t s'
    (H : exec (device_resolve_config bytes) tr (Val (Val (inr t), s'))) :
  exists task user, parse_from_bytes bytes = Some {| cfg_tasks := [task] |} /\
    user_build_read tr user /\
    is_allowed {| cfg_tasks := [task] |} user true = Ok true /\
    located AID_SYSTEM (tk_target_process_name task) (target_process_selection task) tr
      (rt_resolved_process t) /\
    Forall (offsets_known tr (rt_resolved_process t)) (rt_resolved_probes t) /\
    acquired tr ≡ₚ released tr.
Proof.
  destruct s'. apply exec_device_resolve in H as (Hres & tr0 & Hl & H).
  destruct (H _ eq_refl) as (user & tr1 & Hu & Htr & Hx). clear H.
  apply resolve_config_Ok in Hx as (task & Hp & Ha & Ht).
  exists task, user. split_and!; [done|done|done|..|done].
  - destruct (links_elem _ _ _ _ _ _ Hl (Htr _ (tr_process _ _ _ _ Ht)) eq_refl) as (t0 & H & Hsub).
    apply exec_stateless, resolve_process_located in H. by eapply located_mono.
  - pose proof (tr_probes _ _ _ _ Ht) as Hp2. clear -Hp2 Hl Htr.
    induction Hp2 as [|c p cs ps (name & Hc) _ IH]; constructor; [|done].
    eapply answered_offsets_known; [exact Hl|]. apply Htr. apply Hc.
Qed.

(** ** Resolution ends *)

(** Neither the probes nor the tests before ask for a process. *)
Definition not_process (c : SysCall) : bool :=
  match c with ProcessResolver_resolve_process _ _ _ => false | _ => true end.

Lemma single_task_timeout task id tr o s' name sel timeout r :
  exec (resolve_single_task task id tt) tr (o, s') ->
  (existT (ProcessResolver_resolve_process name sel timeout) r : ev) ∈ tr ->
  exists d, tk_duration_seconds task = Some d /\ (0 < d)%Z /\ timeout = from_secs d.
Proof.
  intros H Hin.
  assert (tr <> []) as Hno by (intros ->; by apply not_elem_of_nil in Hin).
  unfold resolve_single_task in H. rewrite exec_mtry_mret in H.
  destruct (rmapM _ _); [|by destruct H]. rewrite exec_mtry_mret in H.
  destruct (tk_duration_seconds task) as [d|]; cbn [ok_or] in H; [|by destruct H].
  destruct (Z.leb_spec d 0); [by destruct H|]. rewrite exec_mtry_mret in H.
  destruct (try_into U64 d) as [secs|e] eqn:Hd; [|by destruct H].
  apply try_into_Ok in Hd as [-> _]. exists d. split; [done|]. split; [lia|].
  destruct H as (x & t & -> & H). cbn [pbind] in H.
  apply elem_of_cons in Hin as [Heq|Hin].
  { assert (ProcessResolver_resolve_process name sel timeout =
      ProcessResolver_resolve_process (tk_target_process_name task) (target_process_selection task)
        (from_secs d)) as [= _ _ ->] by exact (f_equal (@projT1 _ _) Heq). done. }
  assert (calls_only (E := SysI) not_process (match x with
    | Ok p => let? probes := resolve_probes (tk_probe_configs task) p in
        mret (Ok {| rt_id := id; rt_duration := from_secs d; rt_resolved_process := p;
                    rt_bpf_map_paths := list_to_set a;
                    rt_statsd_logging_config := tk_statsd_logging_config task;
                    rt_resolved_probes := probes |})
    | Err e => mret (Err e) end : Sys unit _)) as Hc.
  { unfold resolve_probes, resolve_probe. calls_only_run. }
  apply Hc in H as [H _]. rewrite Forall_forall in H. by specialize (H _ Hin).
Qed.

(** The process is waited for as long as the task is to last. *)
Lemma resolve_config_timeout bytes user tr o s' name sel timeout r :
  exec (resolve_config parse_from_bytes bytes user tt) tr (o, s') ->
  (existT (ProcessResolver_resolve_process name sel timeout) r : ev) ∈ tr ->
  exists task d, parse_from_bytes bytes = Some {| cfg_tasks := [task] |} /\
    tk_duration_seconds task = Some d /\ (0 < d)%Z /\ timeout = from_secs d.
Proof.
  intros H Hin. unfold resolve_config, read_config_from_bytes in H.
  assert (forall (a : ConfigError + ResolvedTask), exec (mret a tt : Prog SysI _) tr (o, s') -> False) as Hno
    by (intros a [-> _]; by apply not_elem_of_nil in Hin).
  destruct (parse_from_bytes bytes) as [[tasks]|]; cbn [ok_or cfg_tasks] in H; [|by apply Hno in H].
  destruct tasks as [|task [|? ?]]; [by apply Hno in H| |by apply Hno in H].
  destruct (is_allowed {| cfg_tasks := [task] |} user true) as [[|]|]; [|by apply Hno in H..].
  assert (exists d, tk_duration_seconds task = Some d /\ (0 < d)%Z /\ timeout = from_secs d)
    as (d & ? & ? & ?); [|by exists task, d].
  apply exec_mbind in H as [(t1 & t2 & x & [] & -> & H1 & H2)|[(m & s1 & H & _)|(s1 & H & _)]];
    [|by eapply single_task_timeout..].
  eapply single_task_timeout; [exact H1|]. apply elem_of_app in Hin as [?|Hin]; [done|].
  destruct x; destruct H2 as [-> _]; by apply not_elem_of_nil in Hin.
Qed.

Lemma as_millis_from_secs d : as_millis (from_secs d) = (1000 * d)%Z.
Proof.
  unfold as_millis, from_secs. change NANOS_PER_SEC with (1000 * NANOS_PER_MILLI)%Z.
  rewrite (Z.mul_comm d), <- Z.mul_assoc, (Z.mul_comm NANOS_PER_MILLI), Z.mul_assoc.
  by apply Z.div_mul.
Qed.

(** The property first, then the resolver. *)
Lemma exec_task_resolve bytes tr a s' :
  exec (task_resolve_config parse_from_bytes bytes tt) tr (a, s') ->
  exists user t1 t2 o2 s2, tr = t1 ++ t2 /\ exec (android_is_user_build tt) t1 (Val user, tt) /\
    exec (resolve_config parse_from_bytes bytes user tt) t2 (o2, s2).
Proof.
  intros [(t1 & t2 & user & [] & -> & H1 & H2)|[(m & s1 & H & _)|(s1 & H & _)]]%exec_mbind.
  - by exists user, t1, t2, a, s'.
  - destruct H as (p & t & _ & H). by destruct p as [[v|]|e]; destruct H as [_ [=]].
  - destruct H as (p & t & _ & H). by destruct p as [[v|]|e]; destruct H as [_ [=]].
Qed.

Lemma calls_is_user_build tr o s' :
  exec (android_is_user_build tt) tr (o, s') ->
  Forall (fun e : ev => not_process (projT1 e) = true) tr.
Proof.
  assert (calls_only (E := SysI) not_process (android_is_user_build : Sys unit _)) as Hc
    by (unfold android_is_user_build; calls_only_run).
  intros [H _]%Hc. done.
Qed.

(** An implementation returns, for the calls the resolver makes. *)
Lemma implementation_returns k bytes tr0 a s' c q t o :
  exec (task_resolve_config parse_from_bytes bytes tt) tr0 (a, s') ->
  c ∈ map (@projT1 _ _) tr0 -> device c = Some q -> exec q t o ->
  (forall task d, parse_from_bytes bytes = Some {| cfg_tasks := [task] |} ->
     tk_duration_seconds task = Some d -> (Z.of_nat k * (1000 * d + 1) <= Z.of_nat fuel)%Z) ->
  (0 < k)%nat -> ticking k (instants t) -> exists r, o = Val r.
Proof.
  intros H Hin Hq Hx Hfuel Hk Htick. pose proof (resolver_calls _ _ _ _ _ _ H) as [Hc _].
  apply list_elem_of_In, in_map_iff in Hin as ([c' r] & <- & Hin%list_elem_of_In). cbn [projT1] in *.
  rewrite Forall_forall in Hc. specialize (Hc _ Hin). cbn [projT1] in Hc.
  destruct c'; try discriminate Hc; try discriminate Hq; apply (inj Some) in Hq as <-;
    apply exec_stateless in Hx.
  - assert (exists task d, parse_from_bytes bytes = Some {| cfg_tasks := [task] |} /\
      tk_duration_seconds task = Some d /\ (0 < d)%Z /\ timeout = from_secs d)
      as (task & d & Hp & Hd & Hpos & ->).
    { destruct (exec_task_resolve _ _ _ _ H) as (user & t1 & t2 & o2 & s2 & -> & H1 & H2).
      eapply resolve_config_timeout; [exact H2|]. apply elem_of_app in Hin as [Hin|?]; [|done].
      apply calls_is_user_build in H1. rewrite Forall_forall in H1. by specialize (H1 _ Hin). }
    specialize (Hfuel _ _ Hp Hd).
    assert (o <> NoFuel) as Ho.
    { eapply (resolve_process_fuel k); [exact Hx|exact Htick|exact Hk|].
      rewrite as_millis_from_secs. lia. }
    apply steady_resolve_process in Hx as [_ Hn]. destruct o; [eauto| |done]. by destruct (Hn msg).
  - apply exec_resolve_offsets in Hx as (_ & ? & _). done.
Qed.

(** C22. Resolution on the device ends.  If any [k] readings of the clock take a
    millisecond, and the fuel is [k * (1000 * d + 1)] for the duration of [d]
    seconds the config asks for, resolving the config ends with a task or a config
    error, whatever the system answers; nothing panics. *)
Theorem device_resolution_terminates k bytes tr o
    (H : exec (device_resolve_config bytes) tr o) (Htick : ticking k (instants tr)) (Hk : (0 < k)%nat)
    (Hfuel : forall task d, parse_from_bytes bytes = Some {| cfg_tasks := [task] |} ->
       tk_duration_seconds task = Some d -> (Z.of_nat k * (1000 * d + 1) <= Z.of_nat fuel)%Z) :
  exists r, o = Val (Val r, tt).
Proof.
  destruct o as [o|m|].
  { apply exec_link in H as (tr0 & H & _). destruct o as [o []].
    apply task_resolve_config_returns in H as [r ->]. eauto. }
  all: exfalso; apply (exec_link_abort device (fun c => benign_env c [])) in H
      as (c & q & t1 & t & o' & pre & Hq & -> & _ & Hx & Hv & _ & Hp); [|done];
    destruct (Hp (benign_env c [])) as (rest & [a s'] & Ha & _);
    destruct (implementation_returns k bytes _ a s' c q t o' Ha) as [r ->]; try done;
      [apply list_elem_of_In; rewrite map_app; apply in_or_app; right; by left| |by destruct (Hv r)];
    eapply ticking_sublist; [|exact Htick]; rewrite instants_app; by apply sublist_inserts_l.
Qed.

End Device.

(** ** Witnesses *)

(** One second, for the start of an app; its offsets are asked for below the
    observer API. *)
Definition start_task : Task :=
  mkTask [sample_probe] ["map_Binder_output_buf"] (Some "com.app") (Some 1%Z) None (Some 3%Z)
    (Some 42%Z).

Definition start_parse (b : list byte) : option UprobestatsConfig :=
  match b with [] => Some {| cfg_tasks := [start_task] |} | _ => None end.

Definition start_run : Prog SysI (outcome (outcome (ConfigError + ResolvedTask) * unit)) :=
  @device_resolve_config target64 binder_codes legacy_flags 1000 1001 start_parse [].

Definition start_resolved : ResolvedTask :=
  match run_value app_start_env start_run with
  | Val (Val (inr t), _) => t
  | _ => poll_task
  end.

Lemma start_run_exec :
  exec start_run (run_trace app_start_env start_run) (Val (Val (inr start_resolved), tt)).
Proof. apply (run_exec_eq app_start_env); [reflexivity|]. vm_compute. reflexivity. Defined.

Lemma device_resolution_witness :
  rt_resolved_process start_resolved = app_process /\
  exists task, start_parse [] = Some {| cfg_tasks := [task] |} /\
    Forall (@offsets_known binder_codes legacy_flags (run_trace app_start_env start_run) app_process)
      (rt_resolved_probes start_resolved).
Proof.
  split; [vm_compute; reflexivity|].
  destruct (@device_resolution target64 binder_codes legacy_flags _ _ _ _ _ _ _ start_run_exec)
    as (task & user & Hp & _ & _ & _ & H & _).
  exists task. split; [exact Hp|exact H].
Defined.

Lemma device_resolution_terminates_witness :
  exists tr o, exec start_run tr o /\ exists r, o = Val (Val r, tt).
Proof.
  eexists _, _. split; [exact start_run_exec|].
  refine (@device_resolution_terminates target64 binder_codes legacy_flags _ _ _ 1 _ _ _
    start_run_exec _ _ _).
  - apply ticking_sorted. vm_compute. repeat constructor; vm_compute; congruence.
  - repeat constructor.
  - intros task d [= <-] [= <-]. vm_compute. congruence.
Defined.
