(* ===== verification/Kernel.v ===== *)
(** * Kernel: what the BPF programs are written against
    ([bpf/headers/include/uprobestats_bpf_fns.h], [uprobestats_bpf_structs.h])

    A BPF program runs in the kernel when a probed method is entered.  It sees the
    registers, reads user memory through helpers, and reports by reserving an item
    of a ring buffer, filling it and submitting it.  The helpers, the ring buffers
    and the maps are calls of the interface [BpfI]; every answer is possible, in
    particular a reserved item has whatever content the ring buffer had there. *)

From S2P Require Import Prelude Effects RustStd Data.

Local Open Scope rust_scope.
Local Open Scope string_scope.
Local Open Scope list_scope.

(** ** Registers *)

(** The part of [struct pt_regs] the programs use. *)
Record pt_regs := mkpt_regs {
  regs : list Z;
  sp : Z;
  pc : Z
}.

(** [ctx->regs[i]]; every index of the source is below the length of the array. *)
Definition reg (ctx : pt_regs) (i : nat) : Z := default 0%Z (regs ctx !! i).

(** ** Ring buffers: one per [DEFINE_BPF_RINGBUF_EXT] *)

Inductive RingBuf :=
| Accessibility_output_buf
| ArtTest_output_buf_aot
| ArtTest_output_buf_jit
| Binder_output_buf
| BitmapAllocation_output_buf
| BitmapAllocation_output
| DisruptiveApp_BindServiceLocked_output_buf
| DisruptiveApp_ComponentEnabledSetting_output_buf
| GenericInstrumentation_call_detail_buf
| GenericInstrumentation_call_timestamp_buf
| ProcessManagement_output_buf
| ProcessManagement_update_device_idle_temp_allowlist_records
| ProcessManagement_process_change_output_buf.

(** The struct a buffer holds; one buffer holds a bare [__u64]. *)
Definition rb_ty (rb : RingBuf) : option StructTy :=
  match rb with
  | Accessibility_output_buf => Some TyAccessibilityEvent
  | ArtTest_output_buf_aot => Some TyUpdateDeviceIdleTempAllowlistRecord
  | ArtTest_output_buf_jit => Some TyStartActivityAsUser
  | Binder_output_buf => Some TyBinderTransaction
  | BitmapAllocation_output_buf => None
  | BitmapAllocation_output => Some TyBitmapEvent
  | DisruptiveApp_BindServiceLocked_output_buf => Some TyBindServiceLocked
  | DisruptiveApp_ComponentEnabledSetting_output_buf => Some TyComponentEnabledSetting
  | GenericInstrumentation_call_detail_buf => Some TyCallResult
  | GenericInstrumentation_call_timestamp_buf => Some TyCallTimestamp
  | ProcessManagement_output_buf => Some TySetUidTempAllowlistStateRecord
  | ProcessManagement_update_device_idle_temp_allowlist_records =>
      Some TyUpdateDeviceIdleTempAllowlistRecord
  | ProcessManagement_process_change_output_buf => Some TyProcessChange
  end.

Definition rb_item (rb : RingBuf) : Type :=
  match rb_ty rb with Some ty => struct_of ty | None => Z end.

(** File and name of a buffer, joined the way the loader names the pinned map. *)
Definition rb_name (rb : RingBuf) : string :=
  match rb with
  | Accessibility_output_buf => "Accessibility_output_buf"
  | ArtTest_output_buf_aot => "ArtTest_output_buf_aot"
  | ArtTest_output_buf_jit => "ArtTest_output_buf_jit"
  | Binder_output_buf => "Binder_output_buf"
  | BitmapAllocation_output_buf => "BitmapAllocation_output_buf"
  | BitmapAllocation_output => "BitmapAllocation_output"
  | DisruptiveApp_BindServiceLocked_output_buf => "DisruptiveApp_BindServiceLocked_output_buf"
  | DisruptiveApp_ComponentEnabledSetting_output_buf =>
      "DisruptiveApp_ComponentEnabledSetting_output_buf"
  | GenericInstrumentation_call_detail_buf => "GenericInstrumentation_call_detail_buf"
  | GenericInstrumentation_call_timestamp_buf => "GenericInstrumentation_call_timestamp_buf"
  | ProcessManagement_output_buf => "ProcessManagement_output_buf"
  | ProcessManagement_update_device_idle_temp_allowlist_records =>
      "ProcessManagement_update_device_idle_temp_allowlist_records"
  | ProcessManagement_process_change_output_buf => "ProcessManagement_process_change_output_buf"
  end.

Definition ring_buffers : list RingBuf :=
  [Accessibility_output_buf; ArtTest_output_buf_aot; ArtTest_output_buf_jit; Binder_output_buf;
   BitmapAllocation_output_buf; BitmapAllocation_output;
   DisruptiveApp_BindServiceLocked_output_buf; DisruptiveApp_ComponentEnabledSetting_output_buf;
   GenericInstrumentation_call_detail_buf; GenericInstrumentation_call_timestamp_buf;
   ProcessManagement_output_buf; ProcessManagement_update_device_idle_temp_allowlist_records;
   ProcessManagement_process_change_output_buf].

(** ** The interface *)

(** [struct BitmapKey] of [BitmapAllocation.c]. *)
Record BitmapKey := mkBitmapKey { bk_tgid : Z; bk_native_ptr : Z }.

(** The generated accessors of ring buffers and maps, and the kernel's helpers.  A
    read answers its return value and the bytes that are at the destination then;
    a lookup answers the value behind the pointer, if there is one. *)
Inductive BpfCall :=
| bpf_ringbuf_reserve (rb : RingBuf)
| bpf_ringbuf_submit (rb : RingBuf) (item : rb_item rb)
| bpf_probe_read_user (size : Z) (address : Z)
| bpf_probe_read_user_str (size : Z) (address : Z)
| bpf_ktime_get_ns
| bpf_get_current_pid_tgid
| bpf_interfaces_lookup_elem (key : list byte)
| bpf_active_bitmaps_update_elem (key : BitmapKey) (value : bool) (flags : Z)
| bpf_active_bitmaps_lookup_elem (key : BitmapKey)
| bpf_active_bitmaps_delete_elem (key : BitmapKey).

Definition BpfResp (c : BpfCall) : Type :=
  match c with
  | bpf_ringbuf_reserve rb => option (rb_item rb)
  | bpf_ringbuf_submit _ _ => unit
  | bpf_probe_read_user _ _ | bpf_probe_read_user_str _ _ => (Z * list byte)%type
  | bpf_ktime_get_ns | bpf_get_current_pid_tgid => Z
  | bpf_interfaces_lookup_elem _ => option (list Z)
  | bpf_active_bitmaps_update_elem _ _ _ | bpf_active_bitmaps_delete_elem _ => Z
  | bpf_active_bitmaps_lookup_elem _ => option bool
  end.

Definition BpfI : Iface := {| call := BpfCall; resp := BpfResp |}.

Notation Bpf := (M BpfI).
Notation bev := (event BpfI).

(** ** Memory *)

(** The integer of little-endian bytes. *)
Definition le (l : list byte) : Z :=
  foldr (fun b z => Z.of_N (Byte.to_N b) + 256 * z)%Z 0%Z l.

Lemma le_nonneg l : (0 <= le l)%Z.
Proof. unfold le. induction l as [|b l IH]; cbn [foldr]; lia. Qed.

Lemma le_range l : (le l < 256 ^ Z.of_nat (length l))%Z.
Proof.
  unfold le. induction l as [|b l IH]; cbn [foldr length]; [done|].
  rewrite Nat2Z.inj_succ, Z.pow_succ_r by lia. pose proof (Byte.to_N_bounded b). lia.
Qed.

(** Pointers are 64 bits wide. *)
Definition ptr_add (p off : Z) : Z := as_ity U64 (p + off).

Definition sizeof (t : ity) : Z := match t with I32 | U32 => 4 | I64 | U64 => 8 end.

(** [memcpy] to the beginning of an array. *)
Definition overwrite (dest l : list byte) : list byte := l ++ drop (length l) dest.

(** ** Fields of the item being filled: [output->field = v] *)

(** The record as its constructor on its fields. *)
Class Eta (R : Type) := eta : R -> R.

Class Setter {R T : Type} (field : R -> T) := set_field : T -> R -> R.

Ltac make_setter field :=
  lazymatch type of field with
  | ?R -> _ =>
      let e := constr:(ltac:(typeclasses eauto) : Eta R) in
      let v := fresh "v" in let r := fresh "r" in intros v r;
      let body := eval hnf in (e r) in
      let abstracted := eval pattern (field r) in body in
      lazymatch abstracted with
      | ?F _ => let t := eval cbv beta in (F v) in exact t
      end
  end.

#[export] Hint Extern 0 (Setter ?field) => unfold Setter; make_setter field : typeclass_instances.

#[export] Instance eta_SetUid : Eta SetUidTempAllowlistStateRecord := fun r =>
  mkSetUidTempAllowlistStateRecord (su_uid r) (su_onAllowlist r).
#[export] Instance eta_UpdateDeviceIdle : Eta UpdateDeviceIdleTempAllowlistRecord := fun r =>
  mkUpdateDeviceIdleTempAllowlistRecord (ud_method_identifier r) (ud_changing_uid r) (ud_adding r)
    (ud_duration_ms r) (ud_type r) (ud_reason_code r) (ud_reason r) (ud_calling_uid r).
#[export] Instance eta_BindServiceLocked : Eta BindServiceLocked := fun r =>
  mkBindServiceLocked (bs_error_code r) (bs_intent_action r) (bs_intent_package r)
    (bs_intent_component_name_package r) (bs_intent_component_name_class r) (bs_bind_flags r)
    (bs_calling_package r).
#[export] Instance eta_ComponentEnabledSetting : Eta ComponentEnabledSetting := fun r =>
  mkComponentEnabledSetting (ce_error_code r) (ce_package_name r) (ce_class_name r) (ce_new_state r)
    (ce_calling_package_name r).
#[export] Instance eta_ProcessChange : Eta ProcessChange := fun r =>
  mkProcessChange (pc_pid r) (pc_uid r) (pc_process_name r).
#[export] Instance eta_BitmapEvent : Eta BitmapEvent := fun r =>
  mkBitmapEvent (be_type r) (be_width r) (be_height r) (be_scaled_width r) (be_scaled_height r)
    (be_pixel_storage_type r) (be_bitmap_size r) (be_native_ptr r) (be_activity_name r).
#[export] Instance eta_BinderTransaction : Eta BinderTransaction := fun r =>
  mkBinderTransaction (bt_interface_descriptor r) (bt_code r) (bt_calling_uid r) (bt_timestamp_ns r).
#[export] Instance eta_StartActivityAsUser : Eta StartActivityAsUser := fun r =>
  mkStartActivityAsUser (sa_method_identifier r) (sa_calling_package r) (sa_request_code r)
    (sa_start_flags r) (sa_user_id r) (sa_validate_incoming_user r) (sa_x0 r).
#[export] Instance eta_AccessibilityEvent : Eta AccessibilityEvent := fun r =>
  mkAccessibilityEvent (ae_error_code r) (ae_timestamp_ns r) (ae_variant r) (ae_package_name r)
    (ae_permission_name r) (ae_uid r) (ae_code r).

Definition assign {R T} (field : R -> T) `{Setter R T field} (v : T) : Bpf R unit :=
  let! output := get_state in put_state (set_field v output).

(** ** Reads *)

Section Reads.
Context {S : Type}.

(** A pointer of [size] bytes, read into one that was NULL or into all of one. *)
Definition read_ptr (size : Z) (address : Z) : Bpf S (Z * Z) :=
  let! (ret, bytes) := ext (E := BpfI) (bpf_probe_read_user size address) in
  mret (ret, as_ity U64 (le bytes)).

(** The address [load] reads at: the pointer's top byte is a tag. *)
Definition canonical (user_space_address offset : Z) : Z :=
  ptr_add (Z.land user_space_address 0x00FFFFFFFFFFFFFF) offset.

Definition load_ptr (offset size user_space_address : Z) : Bpf S Z :=
  let! (_, p) := read_ptr size (canonical user_space_address offset) in mret p.

(** [recordString]: the answer, and [dest] afterwards. *)
Definition recordString (jstring max_length : Z) (dest : list byte) : Bpf S (Z * list byte) :=
  if (jstring =? 0)%Z then mret (0%Z, <[O := nul]> dest)
  else
    let! (ret, count) := ext (E := BpfI) (bpf_probe_read_user 4 (ptr_add jstring 8)) in
    if (ret <? 0)%Z then mret (ret, dest)
    else
      let count := (le count / 2)%Z in
      let! (ret, chars) := ext (E := BpfI) (bpf_probe_read_user_str
        (if (max_length <? count + 1)%Z then max_length else count + 1)%Z (ptr_add jstring 16)) in
      mret (ret, overwrite dest chars).

End Reads.

Section Fields.
Context {R : Type}.

(** [bpf_probe_read_user(&output->field, sizeof(field), address)]. *)
Definition read_field (field : R -> Z) `{Setter R Z field} (t : ity) (address : Z) : Bpf R Z :=
  let! (ret, bytes) := ext (E := BpfI) (bpf_probe_read_user (sizeof t) address) in
  let! _ := assign field (as_ity t (le bytes)) in
  mret ret.

Definition load_field (field : R -> Z) `{Setter R Z field} (t : ity) (offset address : Z) :
    Bpf R Z := read_field field t (canonical address offset).

(** [recordString(jstring, max_length, output->field)]. *)
Definition record_field (field : R -> list byte) `{Setter R (list byte) field}
    (jstring max_length : Z) : Bpf R Z :=
  let! output := get_state in
  let! (ret, dest) := recordString jstring max_length (field output) in
  let! _ := assign field dest in
  mret ret.

Definition recordStringArg (ctx : pt_regs) (max_length : Z) (position : nat)
    (field : R -> list byte) `{Setter R (list byte) field} : Bpf R Z :=
  record_field field (reg ctx (2 + position)) max_length.

Definition recordStringArgFromSp (ctx : pt_regs) (max_length sp_offset : Z)
    (field : R -> list byte) `{Setter R (list byte) field} : Bpf R Z :=
  let! (ret, jstring) := read_ptr 4 (ptr_add (sp ctx) sp_offset) in
  if (ret <? 0)%Z then mret ret else record_field field jstring max_length.

End Fields.

Definition getJitMethodStackFrame (ctx : pt_regs) : Z := ptr_add (sp ctx) (reg ctx 0).

(** ** Shapes of a program *)

(** [if (ret < 0) goto out;]: the rest of the reads is skipped. *)
Definition goto_out {R} (ret : Z) (rest : Bpf R Z) : Bpf R Z :=
  if (ret <? 0)%Z then mret ret else rest.

(** Reserve, give up with 1 if there is no room, fill, submit, return 0. *)
Definition with_output {S} (rb : RingBuf) (fill : Bpf (rb_item rb) unit) : Bpf S Z :=
  let! output := ext (E := BpfI) (bpf_ringbuf_reserve rb) in
  match output with
  | None => mret 1%Z
  | Some output =>
      let! output := with_local output (let! _ := fill in get_state) in
      let! _ := ext (E := BpfI) (bpf_ringbuf_submit rb output) in
      mret 0%Z
  end.
