(* ===== verification/UserMemory.v ===== *)
(** * UserMemory: the memory a BPF program reads, and a concrete kernel

    What the two read helpers are documented to do, as a relation between the answers
    of an exchange and a memory; and the kernel the witnesses run against. *)

From S2P Require Import Prelude Effects RustStd Data Kernel.

Local Open Scope rust_scope.
Local Open Scope list_scope.

(** ** Memory *)

(** The memory of the process, and what [n] of its bytes are. *)
Definition mem_bytes (mem : Z -> byte) (address : Z) (n : nat) : list byte :=
  map (fun i => mem (ptr_add address (Z.of_nat i))) (seq 0 n).

Lemma mem_word mem address :
  (ity_min U64 <= le (mem_bytes mem address 4) <= ity_max U64)%Z.
Proof.
  pose proof (le_nonneg (mem_bytes mem address 4)). pose proof (le_range (mem_bytes mem address 4)) as Hr.
  unfold mem_bytes in *. rewrite length_map, length_seq in Hr. cbn in *. lia.
Qed.

(** The bytes before the first NUL. *)
Fixpoint c_prefix (l : list byte) : list byte :=
  match l with [] => [] | b :: l' => if Byte.eqb b nul then [] else b :: c_prefix l' end.

(** A read that succeeds answers from memory: as many bytes as asked for, or a C
    string of at most that many, its terminator included. *)
Definition from_memory (mem : Z -> byte) (e : bev) : Prop :=
  match e with
  | existT (bpf_probe_read_user size address) (ret, bytes) =>
      (0 <= ret)%Z /\ bytes = mem_bytes mem address (Z.to_nat size)
  | existT (bpf_probe_read_user_str size address) (ret, bytes) =>
      (0 <= ret)%Z /\ bytes = c_prefix (mem_bytes mem address (Z.to_nat (size - 1))) ++ [nul]
  | _ => True
  end.

(** A [java.lang.String] with the given bytes, as the header describes its layout. *)
Definition java_string (mem : Z -> byte) (p : Z) (s : string) : Prop :=
  (le (mem_bytes mem (ptr_add p 8) 4) / 2)%Z = Z.of_nat (length (list_byte_of_string s)) /\
  mem_bytes mem (ptr_add p 16) (length (list_byte_of_string s)) = list_byte_of_string s.

Lemma c_prefix_no_nul l : Forall (fun b => b <> nul) l -> c_prefix l = l.
Proof.
  induction 1 as [|b l Hb _ IH]; cbn; [done|].
  destruct (Byte.eqb b nul) eqn:He; [by apply Byte.byte_dec_bl in He|]. by rewrite IH.
Qed.

(** ** A kernel for witnesses *)

(** A memory of zeroes but for some regions. *)
Fixpoint mem_of (regions : list (Z * list byte)) (address : Z) : byte :=
  match regions with
  | [] => nul
  | (base, bytes) :: rest =>
      if (base <=? address)%Z && (address <? base + Z.of_nat (length bytes))%Z
      then nth (Z.to_nat (address - base)) bytes nul
      else mem_of rest address
  end.

(** What the ring buffer has where an item is reserved. *)
Definition chars (n : nat) : list byte := replicate n nul.

Definition stale (rb : RingBuf) : rb_item rb :=
  match rb as rb return rb_item rb with
  | Accessibility_output_buf => mkAccessibilityEvent 0 0 0 (chars 128) (chars 128) 0 0
  | ArtTest_output_buf_aot | ProcessManagement_update_device_idle_temp_allowlist_records =>
      mkUpdateDeviceIdleTempAllowlistRecord 0 0 false 0 0 0 (chars 256) 0
  | ArtTest_output_buf_jit => mkStartActivityAsUser 0 (chars 128) 0 0 0 0 0
  | Binder_output_buf => mkBinderTransaction (chars 128) 0 0 0
  | BitmapAllocation_output_buf => 0%Z
  | BitmapAllocation_output => mkBitmapEvent 3 10 20 30 40 1 4096 7 (chars 128)
  | DisruptiveApp_BindServiceLocked_output_buf =>
      mkBindServiceLocked 0 (chars 128) (chars 128) (chars 128) (chars 128) 0 (chars 128)
  | DisruptiveApp_ComponentEnabledSetting_output_buf =>
      mkComponentEnabledSetting 0 (chars 128) (chars 128) 0 (chars 128)
  | GenericInstrumentation_call_detail_buf => mkCallResult 0 (replicate 10 0%Z)
  | GenericInstrumentation_call_timestamp_buf => mkCallTimestamp 0 0
  | ProcessManagement_output_buf => mkSetUidTempAllowlistStateRecord 0 false
  | ProcessManagement_process_change_output_buf => mkProcessChange 0 0 (chars 256)
  end.

(** Reads succeed, ring buffers have room, the map of filters is [lookup], every bitmap
    is active, and it is process 7 at time 42. *)
Definition bpf_env (mem : Z -> byte) (lookup : list byte -> option (list Z)) : Env BpfI :=
  fun c _ =>
    match c return BpfResp c with
    | bpf_ringbuf_reserve rb => Some (stale rb)
    | bpf_ringbuf_submit _ _ => tt
    | bpf_probe_read_user size address => (0%Z, mem_bytes mem address (Z.to_nat size))
    | bpf_probe_read_user_str size address =>
        let s := c_prefix (mem_bytes mem address (Z.to_nat (size - 1))) ++ [nul] in
        (Z.of_nat (length s), s)
    | bpf_ktime_get_ns => 42%Z
    | bpf_get_current_pid_tgid => (7 * 2 ^ 32)%Z
    | bpf_interfaces_lookup_elem key => lookup key
    | bpf_active_bitmaps_update_elem _ _ _ | bpf_active_bitmaps_delete_elem _ => 0%Z
    | bpf_active_bitmaps_lookup_elem _ => Some true
    end.

(** [n] as four little-endian bytes. *)
Definition word (n : Z) : list byte :=
  map (fun i => default nul (Byte.of_N (Z.to_N (Z.shiftr n (8 * Z.of_nat i) mod 256)))) (seq 0 4).

(** A [java.lang.String] at [p]. *)
Definition string_at (p : Z) (s : string) : list (Z * list byte) :=
  [((p + 8)%Z, word (2 * Z.of_nat (length (list_byte_of_string s)))); ((p + 16)%Z, list_byte_of_string s)].

(** The registers of a call, from register 0. *)
Definition registers (l : list Z) : pt_regs :=
  {| regs := l ++ replicate (31 - length l) 0%Z; sp := 0x9000; pc := 0xabc |}.
