(* ===== verification/Programs.v ===== *)
(** * Programs: the BPF programs ([bpf_progs/*.c])

    One definition per [DEFINE_BPF_PROG], named after its function; its argument is
    the context and its value what it returns to the kernel.  An array access
    outside the array, which has no meaning in C, is the outcome [Panics]. *)

From S2P Require Import Prelude Effects RustStd Data Kernel.

Local Open Scope rust_scope.
Local Open Scope string_scope.
Local Open Scope list_scope.

Definition Program : Type := Bpf unit Z.

Definition MAX_STRING_LENGTH : Z := 128.
Definition EFAULT : Z := 14.

Definition zeroes : list byte := replicate 128 nul.

(** Conversions of a register on assignment. *)
Notation to_int z := (as_ity I32 z).
Notation to_uint z := (as_ity U32 z).
Notation to_long z := (as_ity I64 z).
Notation to_bool z := (negb (z =? 0)%Z).

Notation ktime := (ext (E := BpfI) bpf_ktime_get_ns).

(** ** [Accessibility.c] *)

Definition grant_runtime_permission (ctx : pt_regs) : Program :=
  with_output Accessibility_output_buf (
    let! _ := assign ae_error_code 0%Z in
    let! _ := assign ae_variant 1%Z in
    let! now := ktime in
    let! _ := assign ae_timestamp_ns now in
    let! ret :=
      let! ret := recordStringArg ctx MAX_STRING_LENGTH 0 ae_package_name in
      goto_out ret (recordStringArg ctx MAX_STRING_LENGTH 1 ae_permission_name) in
    assign ae_error_code ret).

Definition kBinderDescriptorOffset : Z := 8.

Definition kTargetInterfaceDescriptor : list byte :=
  overwrite zeroes
    (list_byte_of_string "android.accessibilityservice.IAccessibilityServiceConnection").

(** [strcmp(a, b) == 0]. *)
Fixpoint strcmp_eq (a b : list byte) : bool :=
  match a, b with
  | x :: a', y :: b' => Byte.eqb x y && (Byte.eqb x nul || strcmp_eq a' b')
  | _, _ => false
  end.

Definition dispatch_gesture (ctx : pt_regs) : Program :=
  let this_binder_ptr := reg ctx 1 in
  let! (_, descriptor_ptr) := read_ptr 4 (ptr_add this_binder_ptr kBinderDescriptorOffset) in
  let! (_, interface_descriptor) := recordString descriptor_ptr MAX_STRING_LENGTH zeroes in
  if negb (strcmp_eq interface_descriptor kTargetInterfaceDescriptor) then mret 0%Z
  else
    with_output Accessibility_output_buf (
      let! _ := assign ae_error_code 0%Z in
      let! _ := assign ae_variant 2%Z in
      let! now := ktime in
      let! _ := assign ae_timestamp_ns now in
      let! _ := assign ae_uid (to_int (reg ctx 6)) in
      assign ae_code (to_int (reg ctx 2))).

(** ** [ArtTest.c] *)

Definition ArtTest_update_device_idle_temp_allowlist (ctx : pt_regs) : Program :=
  with_output ArtTest_output_buf_aot (
    let! _ := assign ud_method_identifier (pc ctx) in
    let! _ := assign ud_changing_uid (to_int (reg ctx 3)) in
    let! _ := assign ud_adding (to_bool (reg ctx 4)) in
    let! _ := assign ud_duration_ms (to_long (reg ctx 5)) in
    let! _ := assign ud_type (to_int (reg ctx 6)) in
    let! _ := assign ud_reason_code (to_int (reg ctx 7)) in
    let! _ := recordStringArgFromSp ctx 256 40 ud_reason in
    let! _ := read_field ud_calling_uid I32 (ptr_add (sp ctx) 44) in
    mret tt).

Definition start_activity_as_user (ctx : pt_regs) : Program :=
  with_output ArtTest_output_buf_jit (
    let! _ := read_field sa_method_identifier U64 (sp ctx) in
    let! _ := read_field sa_x0 U64 (reg ctx 0) in
    let! _ := recordStringArg ctx MAX_STRING_LENGTH 1 sa_calling_package in
    let sf := getJitMethodStackFrame ctx in
    let! _ := read_field sa_request_code I32 (ptr_add sf 40) in
    let! _ := read_field sa_start_flags I32 (ptr_add sf 44) in
    let! _ := read_field sa_user_id I32 (ptr_add sf 56) in
    let! _ := read_field sa_validate_incoming_user I32 (ptr_add sf 60) in
    mret tt).

(** ** [Binder.c] *)

(** The loop over [value->codes]: a zero ends it, another code is skipped, the
    code of the call is reported. *)
Fixpoint scan_codes (ctx : pt_regs) (key : list byte) (codes : list Z) : Program :=
  match codes with
  | [] => mret 0%Z
  | code :: codes' =>
      if (code =? 0)%Z then mret 0%Z
      else if negb (code =? reg ctx 2)%Z then scan_codes ctx key codes'
      else
        with_output Binder_output_buf (
          let! _ := assign bt_interface_descriptor key in
          let! _ := assign bt_calling_uid (to_int (reg ctx 6)) in
          let! _ := assign bt_code (reg ctx 2) in
          let! now := ktime in
          assign bt_timestamp_ns now)
  end.

Definition exec_transact_internal (ctx : pt_regs) : Program :=
  let this_binder_ptr := reg ctx 1 in
  let! (_, descriptor_ptr) := read_ptr 4 (ptr_add this_binder_ptr kBinderDescriptorOffset) in
  let! (_, key) := recordString descriptor_ptr MAX_STRING_LENGTH zeroes in
  let! value := ext (E := BpfI) (bpf_interfaces_lookup_elem key) in
  match value with
  | None => mret 0%Z
  | Some codes => scan_codes ctx key (firstn 10 codes)
  end.

(** ** [BitmapAllocation.c] *)

Definition bitmap_constructor_heap (_ : pt_regs) : Program :=
  with_output BitmapAllocation_output_buf (put_state 123%Z).

(** [int heap_size; load(&heap_size, offset, 4, p);]. *)
Definition load_int {S} (offset p : Z) : Bpf S Z :=
  let! (_, bytes) := ext (E := BpfI) (bpf_probe_read_user 4 (canonical p offset)) in
  mret (to_int (le bytes)).

Definition bitmap_creation (ctx : pt_regs) : Program :=
  with_output BitmapAllocation_output (
    let! _ := assign be_width (to_uint (reg ctx 4)) in
    let! _ := assign be_height (to_uint (reg ctx 5)) in
    let bitmap_wrapper_ptr := reg ctx 3 in
    let! bitmap_ptr := load_ptr 0 8 bitmap_wrapper_ptr in
    let! _ := load_field be_pixel_storage_type U32 0x78 bitmap_ptr in
    mret tt).

Definition BPF_NOEXIST : Z := 1.

Definition bitmap_creation_for_snapshot (ctx : pt_regs) : Program :=
  with_output BitmapAllocation_output (
    let! _ := assign be_width (to_uint (reg ctx 4)) in
    let! _ := assign be_height (to_uint (reg ctx 5)) in
    let bitmap_wrapper_ptr := reg ctx 3 in
    let! bitmap_ptr := load_ptr 0 8 bitmap_wrapper_ptr in
    let! _ := load_field be_pixel_storage_type U32 0x78 bitmap_ptr in
    let! heap_size := load_int 152 bitmap_ptr in
    let! _ := assign be_bitmap_size (to_uint heap_size) in
    let! _ := assign be_type K_BITMAP_EVENT_TYPE_ALLOCATION in
    let! _ := assign be_native_ptr bitmap_wrapper_ptr in
    let! tgid := ext (E := BpfI) bpf_get_current_pid_tgid in
    let bitmap_key := {| bk_tgid := Z.shiftr tgid 32; bk_native_ptr := bitmap_wrapper_ptr |} in
    let! _ := ext (E := BpfI) (bpf_active_bitmaps_update_elem bitmap_key true BPF_NOEXIST) in
    mret tt).

Definition apply_free_function (ctx : pt_regs) : Program :=
  let! (_, native_ptr) := read_ptr 8 (ptr_add (reg ctx 1) 16) in
  let! tgid := ext (E := BpfI) bpf_get_current_pid_tgid in
  let bitmap_key := {| bk_tgid := Z.shiftr tgid 32; bk_native_ptr := native_ptr |} in
  let! found := ext (E := BpfI) (bpf_active_bitmaps_lookup_elem bitmap_key) in
  match found with
  | None => mret 0%Z
  | Some _ =>
      let! _ := ext (E := BpfI) (bpf_active_bitmaps_delete_elem bitmap_key) in
      with_output BitmapAllocation_output (
        let! _ := assign be_type K_BITMAP_EVENT_TYPE_DEALLOCATION in
        assign be_native_ptr native_ptr)
  end.

Definition kComponentNameClassOffset : Z := 8.

Definition activity_perform_start (ctx : pt_regs) : Program :=
  with_output BitmapAllocation_output (
    let! _ := assign be_type K_BITMAP_EVENT_TYPE_ACTIVITY_START in
    let! (_, component_name_ptr) := read_ptr 4 (ptr_add (reg ctx 1) 76) in
    let! (_, intent_component_name_class_ptr) :=
      read_ptr 4 (ptr_add component_name_ptr kComponentNameClassOffset) in
    let! _ := record_field be_activity_name intent_component_name_class_ptr MAX_STRING_LENGTH in
    mret tt).

Definition create_scaled_bitmap (ctx : pt_regs) : Program :=
  with_output BitmapAllocation_output (
    let! _ := assign be_scaled_width (to_uint (reg ctx 2)) in
    let! _ := assign be_scaled_height (to_uint (reg ctx 3)) in
    let bitmap_java_object_ptr := reg ctx 1 in
    let! _ := load_field be_width U32 64 bitmap_java_object_ptr in
    let! _ := load_field be_height U32 60 bitmap_java_object_ptr in
    let! bitmap_wrapper_ptr := load_ptr 40 4 bitmap_java_object_ptr in
    let! bitmap_ptr := load_ptr 0 8 bitmap_wrapper_ptr in
    let! _ := load_field be_pixel_storage_type U32 0x78 bitmap_ptr in
    let! heap_size := load_int 152 bitmap_ptr in
    let! _ := assign be_bitmap_size (to_uint heap_size) in
    let! _ := assign be_type K_BITMAP_EVENT_TYPE_BITMAP_SCALED in
    assign be_native_ptr bitmap_wrapper_ptr).

(** ** [DisruptiveApp.c] *)

Definition kIntentPackageOffset : Z := 48.
Definition kIntentComponentNameOffset : Z := 20.
Definition kIntentActionOffset : Z := 8.
Definition kComponentNamePackageOffset : Z := 12.
Definition kCallingPackageStackFrameOffset : Z := 60.
Definition kBindAllowBackgroundActivityStartsFlag : Z := 0x00100000.

(** [p = NULL; ret = bpf_probe_read_user(&p, 4, address); if (ret < 0) goto out;
    ret = recordString(p, max_length, output->field);], which the source repeats. *)
Definition record_string_at {R} (field : R -> list byte) `{Setter R (list byte) field}
    (address max_length : Z) : Bpf R Z :=
  let! (ret, p) := read_ptr 4 address in
  goto_out ret (record_field field p max_length).

Definition bind_service_locked (ctx : pt_regs) : Program :=
  let bind_flags := to_long (reg ctx 7) in
  let has_bal_flag := to_bool (Z.land bind_flags kBindAllowBackgroundActivityStartsFlag) in
  if negb has_bal_flag then mret 0%Z
  else
    with_output DisruptiveApp_BindServiceLocked_output_buf (
      let! _ := assign bs_error_code 0%Z in
      let! _ := assign bs_bind_flags bind_flags in
      let! ret :=
        let intent_ptr := reg ctx 4 in
        if (intent_ptr =? 0)%Z then mret (- EFAULT)%Z
        else
          let! ret := record_string_at bs_intent_package
                        (ptr_add intent_ptr kIntentPackageOffset) MAX_STRING_LENGTH in
          goto_out ret (
          let! ret := record_string_at bs_intent_action
                        (ptr_add intent_ptr kIntentActionOffset) MAX_STRING_LENGTH in
          goto_out ret (
          let! (ret, component_name_ptr) :=
            read_ptr 4 (ptr_add intent_ptr kIntentComponentNameOffset) in
          goto_out ret (
          if (component_name_ptr =? 0)%Z then mret (- EFAULT)%Z
          else
            let! ret := record_string_at bs_intent_component_name_package
                          (ptr_add component_name_ptr kComponentNamePackageOffset)
                          MAX_STRING_LENGTH in
            goto_out ret (
            let! ret := record_string_at bs_intent_component_name_class
                          (ptr_add component_name_ptr kComponentNameClassOffset)
                          MAX_STRING_LENGTH in
            goto_out ret (
            recordStringArgFromSp ctx MAX_STRING_LENGTH kCallingPackageStackFrameOffset
              bs_calling_package))))) in
      assign bs_error_code ret).

Definition set_component_enabled_setting (ctx : pt_regs) : Program :=
  with_output DisruptiveApp_ComponentEnabledSetting_output_buf (
    let! _ := assign ce_error_code 0%Z in
    let! ret :=
      let component_name_ptr := reg ctx 2 in
      if (component_name_ptr =? 0)%Z then mret (- EFAULT)%Z
      else
        let! ret := record_string_at ce_class_name
                      (ptr_add component_name_ptr kComponentNameClassOffset) 64 in
        goto_out ret (
        let! ret := record_string_at ce_package_name
                      (ptr_add component_name_ptr kComponentNamePackageOffset) 64 in
        goto_out ret (
        let! ret := record_field ce_calling_package_name (reg ctx 6) 64 in
        goto_out ret (
        let! _ := assign ce_new_state (to_int (reg ctx 3)) in
        mret ret))) in
    assign ce_error_code ret).

(** ** [GenericInstrumentation.c] *)

(** [for (int i = 0; i < 11; i++) result.regs[i] = ctx->regs[i];], [n] rounds left. *)
Fixpoint copy_regs (ctx : pt_regs) (n i : nat) (result : list Z) : outcome (list Z) :=
  match n with
  | O => Val result
  | Datatypes.S n' =>
      if (i <? length result)%nat then copy_regs ctx n' (Datatypes.S i) (<[i := reg ctx i]> result)
      else Panics "store outside result.regs"
  end.

Definition call_detail (ctx : pt_regs) : Program :=
  let! result := lift_outcome (copy_regs ctx 11 0 (replicate 10 0%Z)) in
  with_output GenericInstrumentation_call_detail_buf
    (put_state {| cr_pc := pc ctx; cr_regs := result |}).

(** The six programs differ in the number of the event. *)
Definition call_timestamp_event (event : Z) : Program :=
  let! now := ktime in
  with_output GenericInstrumentation_call_timestamp_buf
    (put_state {| ct_event := event; ct_timestampNs := now |}).

Definition call_timestamp (_ : pt_regs) : Program := call_timestamp_event 0.
Definition call_timestamp_1 (_ : pt_regs) : Program := call_timestamp_event 1.
Definition call_timestamp_2 (_ : pt_regs) : Program := call_timestamp_event 2.
Definition call_timestamp_3 (_ : pt_regs) : Program := call_timestamp_event 3.
Definition call_timestamp_4 (_ : pt_regs) : Program := call_timestamp_event 4.
Definition call_timestamp_5 (_ : pt_regs) : Program := call_timestamp_event 5.

(** ** [ProcessManagement.c] *)

Definition set_uid_temp_allowlist_state (ctx : pt_regs) : Program :=
  with_output ProcessManagement_output_buf (
    let! _ := assign su_uid (reg ctx 2) in
    assign su_onAllowlist (to_bool (reg ctx 3))).

Definition update_device_idle_temp_allowlist (ctx : pt_regs) : Program :=
  with_output ProcessManagement_update_device_idle_temp_allowlist_records (
    let! _ := assign ud_changing_uid (to_int (reg ctx 3)) in
    let! _ := assign ud_adding (to_bool (reg ctx 4)) in
    let! _ := assign ud_duration_ms (to_long (reg ctx 5)) in
    let! _ := assign ud_type (to_int (reg ctx 6)) in
    let! _ := assign ud_reason_code (to_int (reg ctx 7)) in
    let! _ := recordStringArgFromSp ctx 256 40 ud_reason in
    let! _ := read_field ud_calling_uid I32 (ptr_add (sp ctx) 44) in
    mret tt).

Definition set_pid (ctx : pt_regs) : Program :=
  with_output ProcessManagement_process_change_output_buf (
    let! _ := assign pc_pid (to_int (reg ctx 2)) in
    let! _ := read_field pc_uid I32 (ptr_add (reg ctx 1) 0xf4) in
    let! (_, process_name) := read_ptr 4 (ptr_add (reg ctx 1) 0xa0) in
    let! _ := record_field pc_process_name process_name 256 in
    mret tt).

Definition make_active (ctx : pt_regs) : Program :=
  with_output ProcessManagement_process_change_output_buf (
    let! _ := read_field pc_pid I32 (ptr_add (reg ctx 1) 0xe4) in
    let! _ := read_field pc_uid I32 (ptr_add (reg ctx 1) 0xf0) in
    let! (_, process_name) := read_ptr 4 (ptr_add (reg ctx 1) 0xa0) in
    let! _ := record_field pc_process_name process_name 256 in
    mret tt).

Definition on_process_active (ctx : pt_regs) : Program :=
  with_output ProcessManagement_process_change_output_buf (
    let! (_, process_record_ptr) := read_ptr 4 (ptr_add (reg ctx 1) 0x8) in
    let! _ := read_field pc_pid I32 (ptr_add process_record_ptr 524) in
    let! _ := read_field pc_uid I32 (ptr_add process_record_ptr 532) in
    let! (_, process_name) := read_ptr 4 (ptr_add process_record_ptr 52) in
    let! _ := record_field pc_process_name process_name 256 in
    mret tt).

(** ** All of them, by the name of the pinned program and the buffer they fill *)

Definition programs : list (string * RingBuf * (pt_regs -> Program)) :=
  [("prog_Accessibility_uprobe_grant_runtime_permission", Accessibility_output_buf,
      grant_runtime_permission);
   ("prog_Accessibility_uprobe_dispatch_gesture", Accessibility_output_buf, dispatch_gesture);
   ("prog_ArtTest_uprobe_update_device_idle_temp_allowlist", ArtTest_output_buf_aot,
      ArtTest_update_device_idle_temp_allowlist);
   ("prog_ArtTest_uprobe_start_activity_as_user", ArtTest_output_buf_jit, start_activity_as_user);
   ("prog_Binder_uprobe_exec_transact_internal", Binder_output_buf, exec_transact_internal);
   ("prog_BitmapAllocation_uprobe_bitmap_constructor_heap", BitmapAllocation_output_buf,
      bitmap_constructor_heap);
   ("prog_BitmapAllocation_uprobe_bitmap_creation", BitmapAllocation_output, bitmap_creation);
   ("prog_BitmapAllocation_uprobe_bitmap_creation_for_snapshot", BitmapAllocation_output,
      bitmap_creation_for_snapshot);
   ("prog_BitmapAllocation_uprobe_apply_free_function", BitmapAllocation_output,
      apply_free_function);
   ("prog_BitmapAllocation_uprobe_activity_perform_start", BitmapAllocation_output,
      activity_perform_start);
   ("prog_BitmapAllocation_uprobe_create_scaled_bitmap", BitmapAllocation_output,
      create_scaled_bitmap);
   ("prog_DisruptiveApp_uprobe_bind_service_locked",
      DisruptiveApp_BindServiceLocked_output_buf, bind_service_locked);
   ("prog_DisruptiveApp_uprobe_set_component_enabled_setting",
      DisruptiveApp_ComponentEnabledSetting_output_buf, set_component_enabled_setting);
   ("prog_GenericInstrumentation_uprobe_call_detail", GenericInstrumentation_call_detail_buf,
      call_detail);
   ("prog_GenericInstrumentation_uprobe_call_timestamp",
      GenericInstrumentation_call_timestamp_buf, call_timestamp);
   ("prog_GenericInstrumentation_uprobe_call_timestamp_1",
      GenericInstrumentation_call_timestamp_buf, call_timestamp_1);
   ("prog_GenericInstrumentation_uprobe_call_timestamp_2",
      GenericInstrumentation_call_timestamp_buf, call_timestamp_2);
   ("prog_GenericInstrumentation_uprobe_call_timestamp_3",
      GenericInstrumentation_call_timestamp_buf, call_timestamp_3);
   ("prog_GenericInstrumentation_uprobe_call_timestamp_4",
      GenericInstrumentation_call_timestamp_buf, call_timestamp_4);
   ("prog_GenericInstrumentation_uprobe_call_timestamp_5",
      GenericInstrumentation_call_timestamp_buf, call_timestamp_5);
   ("prog_ProcessManagement_uprobe_set_uid_temp_allowlist_state", ProcessManagement_output_buf,
      set_uid_temp_allowlist_state);
   ("prog_ProcessManagement_uprobe_update_device_idle_temp_allowlist",
      ProcessManagement_update_device_idle_temp_allowlist_records,
      update_device_idle_temp_allowlist);
   ("prog_ProcessManagement_uprobe_set_pid", ProcessManagement_process_change_output_buf, set_pid);
   ("prog_ProcessManagement_uprobe_make_active", ProcessManagement_process_change_output_buf,
      make_active);
   ("prog_ProcessManagement_uprobe_on_process_active",
      ProcessManagement_process_change_output_buf, on_process_active)].
