(* ===== verification/ProgramItems.v ===== *)
(** * ProgramItems: what a BPF program puts into the item it submits

    The contract of every program that reports ([filled]): which register, clock or
    memory each field comes from, and which fields stay as they were reserved; the
    discipline of the ring-buffer calls around it ([disciplined]); and the rules that
    prove both of a program ([gives], [reports]). *)

From S2P Require Import Prelude Effects RustStd Data Kernel Programs.

Local Open Scope rust_scope.
Local Open Scope string_scope.
Local Open Scope list_scope.

(** ** The ring-buffer calls of an exchange *)

Definition ring_call (c : BpfCall) : bool :=
  match c with bpf_ringbuf_reserve _ | bpf_ringbuf_submit _ _ => true | _ => false end.

Definition ring_trace (tr : list bev) : list bev := List.filter (fun e => ring_call (projT1 e)) tr.

(** Nothing is reported, for a reason, and 0 returned; no room, and 1; or what was
    reserved is filled and then submitted to the same buffer, and 0. *)
Definition disciplined (quiet : Prop) (rb : RingBuf) (contract : rb_item rb -> rb_item rb -> Prop)
    (tr : list bev) (o : outcome Z) : Prop :=
  (o = Val 0%Z /\ ring_trace tr = [] /\ quiet) \/
  (exists t1, o = Val 1%Z /\ ring_trace t1 = [] /\
     tr = t1 ++ [existT (bpf_ringbuf_reserve rb) None : bev]) \/
  (exists t1 t2 item item', o = Val 0%Z /\ ring_trace t1 = [] /\ ring_trace t2 = [] /\
     tr = t1 ++ (existT (bpf_ringbuf_reserve rb) (Some item) : bev) ::
          t2 ++ [existT (bpf_ringbuf_submit rb item') tt : bev] /\
     contract item item').

(** ** Where a value comes from *)

(** An answer of the clock. *)
Definition clock (tr : list bev) (now : Z) : Prop := (existT bpf_ktime_get_ns now : bev) ∈ tr.

(** The integer at an address of the process. *)
Definition int_at (tr : list bev) (t : ity) (address z : Z) : Prop :=
  exists ret bytes, (existT (bpf_probe_read_user (sizeof t) address) (ret, bytes) : bev) ∈ tr /\
    z = as_ity t (le bytes).

(** The pointer of [size] bytes at an address of the process. *)
Definition pointer_at (tr : list bev) (size address p : Z) : Prop :=
  exists ret bytes, (existT (bpf_probe_read_user size address) (ret, bytes) : bev) ∈ tr /\
    p = as_ity U64 (le bytes).

(** [code] is the negative answer of a read. *)
Definition refused (tr : list bev) (code : Z) : Prop :=
  (code < 0)%Z /\ exists size address bytes,
    (existT (bpf_probe_read_user size address) (code, bytes) : bev) ∈ tr \/
    (existT (bpf_probe_read_user_str size address) (code, bytes) : bev) ∈ tr.

(** The array [dest] with the [java.lang.String] at [p] copied to it: at most [max] bytes
    of its characters; the empty string if the pointer is null. *)
Definition string_from (tr : list bev) (p max : Z) (dest dest' : list byte) : Prop :=
  if (p =? 0)%Z then dest' = <[O := nul]> dest
  else exists ret count ret' chars,
    (0 <= ret)%Z /\ (existT (bpf_probe_read_user 4 (ptr_add p 8)) (ret, count) : bev) ∈ tr /\
    (existT (bpf_probe_read_user_str (Z.min max (le count / 2 + 1)) (ptr_add p 16))
       (ret', chars) : bev) ∈ tr /\
    dest' = overwrite dest chars.

(** The same, or the array as it was, if there is an excuse. *)
Definition string_or (excuse : Prop) (tr : list bev) (p max : Z) (dest dest' : list byte) : Prop :=
  string_from tr p max dest dest' \/ (excuse /\ dest' = dest).

(** The string whose pointer is at an address. *)
Definition string_via (excuse : Prop) (tr : list bev) (address max : Z) (dest dest' : list byte) : Prop :=
  (exists p, pointer_at tr 4 address p /\ string_from tr p max dest dest') \/ (excuse /\ dest' = dest).

(** Some read was refused. *)
Definition unread (tr : list bev) : Prop := exists code, refused tr code.

(** ** Contracts *)

Section Contracts.
Variables (ctx : pt_regs) (tr : list bev).

(** A negative error code is that of a read that was refused, or it is for a null pointer. *)
Definition error_code (null : Prop) (code : Z) : Prop :=
  (code < 0)%Z -> refused tr code \/ (code = (- EFAULT)%Z /\ null).

(** The item [i] as it was reserved, and as the program of this name submits it. *)
Inductive filled : forall (name : string) (rb : RingBuf), rb_item rb -> rb_item rb -> Prop :=
| filled_grant_runtime_permission (i : AccessibilityEvent) code now package permission :
    clock tr now -> error_code False code ->
    string_or (code < 0)%Z tr (reg ctx 2) 128 (ae_package_name i) package ->
    string_or (code < 0)%Z tr (reg ctx 3) 128 (ae_permission_name i) permission ->
    filled "prog_Accessibility_uprobe_grant_runtime_permission" Accessibility_output_buf i
      (mkAccessibilityEvent code now 1 package permission (ae_uid i) (ae_code i))
| filled_dispatch_gesture (i : AccessibilityEvent) now descriptor :
    clock tr now ->
    string_via (unread tr) tr (ptr_add (reg ctx 1) 8) 128 zeroes descriptor ->
    strcmp_eq descriptor kTargetInterfaceDescriptor = true ->
    filled "prog_Accessibility_uprobe_dispatch_gesture" Accessibility_output_buf i
      (mkAccessibilityEvent 0 now 2 (ae_package_name i) (ae_permission_name i)
         (to_int (reg ctx 6)) (to_int (reg ctx 2)))
| filled_ArtTest_update_device_idle (i : UpdateDeviceIdleTempAllowlistRecord) reason calling_uid :
    string_via (unread tr) tr (ptr_add (sp ctx) 40) 256 (ud_reason i) reason ->
    int_at tr I32 (ptr_add (sp ctx) 44) calling_uid ->
    filled "prog_ArtTest_uprobe_update_device_idle_temp_allowlist" ArtTest_output_buf_aot i
      (mkUpdateDeviceIdleTempAllowlistRecord (pc ctx) (to_int (reg ctx 3)) (to_bool (reg ctx 4))
         (to_long (reg ctx 5)) (to_int (reg ctx 6)) (to_int (reg ctx 7)) reason calling_uid)
| filled_start_activity_as_user (i : StartActivityAsUser) method package request flags user
    validate x0 :
    int_at tr U64 (sp ctx) method -> int_at tr U64 (reg ctx 0) x0 ->
    string_or (unread tr) tr (reg ctx 3) 128 (sa_calling_package i) package ->
    int_at tr I32 (ptr_add (ptr_add (sp ctx) (reg ctx 0)) 40) request ->
    int_at tr I32 (ptr_add (ptr_add (sp ctx) (reg ctx 0)) 44) flags ->
    int_at tr I32 (ptr_add (ptr_add (sp ctx) (reg ctx 0)) 56) user ->
    int_at tr I32 (ptr_add (ptr_add (sp ctx) (reg ctx 0)) 60) validate ->
    filled "prog_ArtTest_uprobe_start_activity_as_user" ArtTest_output_buf_jit i
      (mkStartActivityAsUser method package request flags user validate x0)
| filled_exec_transact_internal (i : BinderTransaction) now key codes :
    clock tr now -> string_via (unread tr) tr (ptr_add (reg ctx 1) 8) 128 zeroes key ->
    (existT (bpf_interfaces_lookup_elem key) (Some codes) : bev) ∈ tr ->
    reg ctx 2 ∈ take 10 codes ->
    filled "prog_Binder_uprobe_exec_transact_internal" Binder_output_buf i
      (mkBinderTransaction key (reg ctx 2) (to_int (reg ctx 6)) now)
| filled_bitmap_constructor_heap (i : Z) :
    filled "prog_BitmapAllocation_uprobe_bitmap_constructor_heap" BitmapAllocation_output_buf i 123%Z
| filled_bitmap_creation (i : BitmapEvent) bitmap storage :
    pointer_at tr 8 (canonical (reg ctx 3) 0) bitmap -> int_at tr U32 (canonical bitmap 0x78) storage ->
    filled "prog_BitmapAllocation_uprobe_bitmap_creation" BitmapAllocation_output i
      (mkBitmapEvent (be_type i) (to_uint (reg ctx 4)) (to_uint (reg ctx 5)) (be_scaled_width i)
         (be_scaled_height i) storage (be_bitmap_size i) (be_native_ptr i) (be_activity_name i))
| filled_bitmap_creation_for_snapshot (i : BitmapEvent) bitmap storage size tgid ret :
    pointer_at tr 8 (canonical (reg ctx 3) 0) bitmap -> int_at tr U32 (canonical bitmap 0x78) storage ->
    int_at tr I32 (canonical bitmap 152) size ->
    (existT bpf_get_current_pid_tgid tgid : bev) ∈ tr ->
    (existT (bpf_active_bitmaps_update_elem (mkBitmapKey (Z.shiftr tgid 32) (reg ctx 3)) true 1%Z) ret
       : bev) ∈ tr ->
    filled "prog_BitmapAllocation_uprobe_bitmap_creation_for_snapshot" BitmapAllocation_output i
      (mkBitmapEvent K_BITMAP_EVENT_TYPE_ALLOCATION (to_uint (reg ctx 4)) (to_uint (reg ctx 5))
         (be_scaled_width i) (be_scaled_height i) storage (to_uint size) (reg ctx 3) (be_activity_name i))
| filled_apply_free_function (i : BitmapEvent) native_ptr tgid active ret :
    pointer_at tr 8 (ptr_add (reg ctx 1) 16) native_ptr ->
    (existT bpf_get_current_pid_tgid tgid : bev) ∈ tr ->
    (existT (bpf_active_bitmaps_lookup_elem (mkBitmapKey (Z.shiftr tgid 32) native_ptr)) (Some active)
       : bev) ∈ tr ->
    (existT (bpf_active_bitmaps_delete_elem (mkBitmapKey (Z.shiftr tgid 32) native_ptr)) ret
       : bev) ∈ tr ->
    filled "prog_BitmapAllocation_uprobe_apply_free_function" BitmapAllocation_output i
      (mkBitmapEvent K_BITMAP_EVENT_TYPE_DEALLOCATION (be_width i) (be_height i) (be_scaled_width i)
         (be_scaled_height i) (be_pixel_storage_type i) (be_bitmap_size i) native_ptr (be_activity_name i))
| filled_activity_perform_start (i : BitmapEvent) component activity :
    pointer_at tr 4 (ptr_add (reg ctx 1) 76) component ->
    string_via (unread tr) tr (ptr_add component 8) 128 (be_activity_name i) activity ->
    filled "prog_BitmapAllocation_uprobe_activity_perform_start" BitmapAllocation_output i
      (mkBitmapEvent K_BITMAP_EVENT_TYPE_ACTIVITY_START (be_width i) (be_height i) (be_scaled_width i)
         (be_scaled_height i) (be_pixel_storage_type i) (be_bitmap_size i) (be_native_ptr i) activity)
| filled_create_scaled_bitmap (i : BitmapEvent) width height wrapper bitmap storage size :
    int_at tr U32 (canonical (reg ctx 1) 64) width -> int_at tr U32 (canonical (reg ctx 1) 60) height ->
    pointer_at tr 4 (canonical (reg ctx 1) 40) wrapper ->
    pointer_at tr 8 (canonical wrapper 0) bitmap -> int_at tr U32 (canonical bitmap 0x78) storage ->
    int_at tr I32 (canonical bitmap 152) size ->
    filled "prog_BitmapAllocation_uprobe_create_scaled_bitmap" BitmapAllocation_output i
      (mkBitmapEvent K_BITMAP_EVENT_TYPE_BITMAP_SCALED width height (to_uint (reg ctx 2))
         (to_uint (reg ctx 3)) storage (to_uint size) wrapper (be_activity_name i))
| filled_bind_service_locked (i : BindServiceLocked) code component action package cpackage
    cclass calling :
    Z.land (to_long (reg ctx 7)) kBindAllowBackgroundActivityStartsFlag <> 0%Z ->
    string_via (code < 0)%Z tr (ptr_add (reg ctx 4) 48) 128 (bs_intent_package i) package ->
    string_via (code < 0)%Z tr (ptr_add (reg ctx 4) 8) 128 (bs_intent_action i) action ->
    pointer_at tr 4 (ptr_add (reg ctx 4) 20) component \/ (code < 0)%Z ->
    string_via (code < 0)%Z tr (ptr_add component 12) 128 (bs_intent_component_name_package i) cpackage ->
    string_via (code < 0)%Z tr (ptr_add component 8) 128 (bs_intent_component_name_class i) cclass ->
    string_via (code < 0)%Z tr (ptr_add (sp ctx) 60) 128 (bs_calling_package i) calling ->
    error_code (reg ctx 4 = 0%Z \/ component = 0%Z) code ->
    filled "prog_DisruptiveApp_uprobe_bind_service_locked" DisruptiveApp_BindServiceLocked_output_buf i
      (mkBindServiceLocked code action package cpackage cclass (to_long (reg ctx 7)) calling)
| filled_set_component_enabled_setting (i : ComponentEnabledSetting) code package class state calling :
    error_code (reg ctx 2 = 0%Z) code -> state = to_int (reg ctx 3) \/ ((code < 0)%Z /\ state = ce_new_state i) ->
    string_via (code < 0)%Z tr (ptr_add (reg ctx 2) 8) 64 (ce_class_name i) class ->
    string_via (code < 0)%Z tr (ptr_add (reg ctx 2) 12) 64 (ce_package_name i) package ->
    string_or (code < 0)%Z tr (reg ctx 6) 64 (ce_calling_package_name i) calling ->
    filled "prog_DisruptiveApp_uprobe_set_component_enabled_setting"
      DisruptiveApp_ComponentEnabledSetting_output_buf i
      (mkComponentEnabledSetting code package class state calling)
| filled_call_timestamp (name : string) (i : CallTimestamp) event now :
    clock tr now ->
    (name, event) ∈
      [("prog_GenericInstrumentation_uprobe_call_timestamp", 0);
       ("prog_GenericInstrumentation_uprobe_call_timestamp_1", 1);
       ("prog_GenericInstrumentation_uprobe_call_timestamp_2", 2);
       ("prog_GenericInstrumentation_uprobe_call_timestamp_3", 3);
       ("prog_GenericInstrumentation_uprobe_call_timestamp_4", 4);
       ("prog_GenericInstrumentation_uprobe_call_timestamp_5", 5)]%Z ->
    filled name GenericInstrumentation_call_timestamp_buf i (mkCallTimestamp event now)
| filled_set_uid_temp_allowlist_state (i : SetUidTempAllowlistStateRecord) :
    filled "prog_ProcessManagement_uprobe_set_uid_temp_allowlist_state" ProcessManagement_output_buf i
      (mkSetUidTempAllowlistStateRecord (reg ctx 2) (to_bool (reg ctx 3)))
| filled_update_device_idle (i : UpdateDeviceIdleTempAllowlistRecord) reason calling_uid :
    string_via (unread tr) tr (ptr_add (sp ctx) 40) 256 (ud_reason i) reason ->
    int_at tr I32 (ptr_add (sp ctx) 44) calling_uid ->
    filled "prog_ProcessManagement_uprobe_update_device_idle_temp_allowlist"
      ProcessManagement_update_device_idle_temp_allowlist_records i
      (mkUpdateDeviceIdleTempAllowlistRecord (ud_method_identifier i) (to_int (reg ctx 3))
         (to_bool (reg ctx 4)) (to_long (reg ctx 5)) (to_int (reg ctx 6)) (to_int (reg ctx 7))
         reason calling_uid)
| filled_set_pid (i : ProcessChange) uid process :
    int_at tr I32 (ptr_add (reg ctx 1) 0xf4) uid ->
    string_via (unread tr) tr (ptr_add (reg ctx 1) 0xa0) 256 (pc_process_name i) process ->
    filled "prog_ProcessManagement_uprobe_set_pid" ProcessManagement_process_change_output_buf i
      (mkProcessChange (to_int (reg ctx 2)) uid process)
| filled_make_active (i : ProcessChange) pid uid process :
    int_at tr I32 (ptr_add (reg ctx 1) 0xe4) pid -> int_at tr I32 (ptr_add (reg ctx 1) 0xf0) uid ->
    string_via (unread tr) tr (ptr_add (reg ctx 1) 0xa0) 256 (pc_process_name i) process ->
    filled "prog_ProcessManagement_uprobe_make_active" ProcessManagement_process_change_output_buf i
      (mkProcessChange pid uid process)
| filled_on_process_active (i : ProcessChange) record pid uid process :
    pointer_at tr 4 (ptr_add (reg ctx 1) 0x8) record ->
    int_at tr I32 (ptr_add record 524) pid -> int_at tr I32 (ptr_add record 532) uid ->
    string_via (unread tr) tr (ptr_add record 52) 256 (pc_process_name i) process ->
    filled "prog_ProcessManagement_uprobe_on_process_active" ProcessManagement_process_change_output_buf i
      (mkProcessChange pid uid process).

(** Why a program reports nothing: four of them are selective. *)
Inductive silent : string -> Prop :=
| silent_dispatch_gesture descriptor :
    string_via (unread tr) tr (ptr_add (reg ctx 1) 8) 128 zeroes descriptor ->
    strcmp_eq descriptor kTargetInterfaceDescriptor = false ->
    silent "prog_Accessibility_uprobe_dispatch_gesture"
| silent_exec_transact_internal key codes :
    string_via (unread tr) tr (ptr_add (reg ctx 1) 8) 128 zeroes key ->
    (existT (bpf_interfaces_lookup_elem key) codes : bev) ∈ tr ->
    (reg ctx 2 ∈ take 10 (default [] codes) -> 0%Z ∈ take 10 (default [] codes)) ->
    silent "prog_Binder_uprobe_exec_transact_internal"
| silent_apply_free_function native_ptr tgid :
    pointer_at tr 8 (ptr_add (reg ctx 1) 16) native_ptr ->
    (existT bpf_get_current_pid_tgid tgid : bev) ∈ tr ->
    (existT (bpf_active_bitmaps_lookup_elem (mkBitmapKey (Z.shiftr tgid 32) native_ptr)) None : bev) ∈ tr ->
    silent "prog_BitmapAllocation_uprobe_apply_free_function"
| silent_bind_service_locked :
    Z.land (to_long (reg ctx 7)) kBindAllowBackgroundActivityStartsFlag = 0%Z ->
    silent "prog_DisruptiveApp_uprobe_bind_service_locked".

End Contracts.

(** ** Rules *)

Lemma ring_trace_app t1 t2 : ring_trace (t1 ++ t2) = ring_trace t1 ++ ring_trace t2.
Proof. apply List.filter_app. Qed.

Lemma app_within {A} (t1 t2 all : list A) : t1 ++ t2 ⊆ all -> t1 ⊆ all /\ t2 ⊆ all.
Proof. intros H. split; intros x Hx; apply H, elem_of_app; [by left|by right]. Qed.

Lemma cons_within {A} (x : A) (t all : list A) : x :: t ⊆ all -> t ⊆ all.
Proof. intros H y Hy. apply H. by apply list_elem_of_further. Qed.

Section Rules.
Variable all : list bev.

(** Run from [s] within the exchange [all], the code makes no ring-buffer call and
    returns a value and a state as [P] says. *)
Definition gives {S A} (m : Bpf S A) (s : S) (P : A -> S -> Prop) : Prop :=
  forall tr o s', exec (m s) tr (o, s') -> tr ⊆ all ->
    ring_trace tr = [] /\ exists a, o = Val a /\ P a s'.

(** The program keeps to the discipline. *)
Definition reports {S} quiet rb contract (m : Bpf S Z) (s : S) : Prop :=
  forall tr o s', exec (m s) tr (o, s') -> tr ⊆ all -> disciplined quiet rb contract tr o.

Lemma gives_mret {S A} (a : A) (s : S) (P : A -> S -> Prop) : P a s -> gives (mret a) s P.
Proof. intros HP tr o s' [-> [= -> ->]] _. eauto. Qed.

Lemma gives_ext {S} (c : BpfCall) (s : S) (P : BpfResp c -> S -> Prop) :
  ring_call c = false -> (forall r, (existT c r : bev) ∈ all -> P r s) -> gives (ext (E := BpfI) c) s P.
Proof.
  intros Hc HP tr o s' (r & t & -> & -> & [= -> ->]) Hsub. split.
  - unfold ring_trace. cbn. by rewrite Hc.
  - exists r. split; [done|]. apply HP, Hsub, list_elem_of_here.
Qed.

Lemma gives_mbind {S A B} (m : Bpf S A) (k : A -> Bpf S B) (s : S) Q :
  gives m s (fun a s' => gives (k a) s' Q) -> gives (mbind m k) s Q.
Proof.
  intros Hm tr o s' [H|[(msg & s1 & H & _)|(s1 & H & _)]]%exec_mbind Hsub.
  - destruct H as (t1 & t2 & a & s1 & -> & H1 & H2). apply app_within in Hsub as [Hs1 Hs2].
    destruct (Hm _ _ _ H1 Hs1) as (R1 & a' & [= <-] & Hk).
    destruct (Hk _ _ _ H2 Hs2) as (R2 & HQ). split; [|done]. by rewrite ring_trace_app, R1, R2.
  - by destruct (Hm _ _ _ H Hsub) as [_ [? [[=] _]]].
  - by destruct (Hm _ _ _ H Hsub) as [_ [? [[=] _]]].
Qed.

Lemma gives_get {S} (s : S) (P : S -> S -> Prop) : P s s -> gives get_state s P.
Proof. intros HP tr o s' [-> [= -> ->]] _. eauto. Qed.

Lemma gives_put {S} (s0 s : S) (P : unit -> S -> Prop) : P tt s0 -> gives (put_state s0) s P.
Proof. intros HP tr o s' [-> [= -> ->]] _. eauto. Qed.

Lemma gives_assign {R T} (field : R -> T) `{!Setter field} v (i : R) (P : unit -> R -> Prop) :
  P tt (set_field v i) -> gives (assign field v) i P.
Proof. intros HP. unfold assign. by apply gives_mbind, gives_get, gives_put. Qed.

Lemma gives_read_ptr {S} size address (s : S) (P : Z * Z -> S -> Prop) :
  (forall ret p, pointer_at all size address p -> ((ret < 0)%Z -> refused all ret) -> P (ret, p) s) ->
  gives (read_ptr size address) s P.
Proof.
  intros HP. apply gives_mbind, gives_ext; [done|]. intros [ret bytes] Hr.
  apply gives_mret, HP; [by exists ret, bytes|].
  intros Hneg. split; [done|]. by exists size, address, bytes; left.
Qed.

Lemma gives_load_ptr {S} offset size p (s : S) (P : Z -> S -> Prop) :
  (forall q, pointer_at all size (canonical p offset) q -> P q s) -> gives (load_ptr offset size p) s P.
Proof.
  intros HP. apply gives_mbind, gives_read_ptr. intros ret q Hq _. by apply gives_mret, HP.
Qed.

Lemma gives_load_int {S} offset p (s : S) (P : Z -> S -> Prop) :
  (forall z, int_at all I32 (canonical p offset) z -> P z s) -> gives (load_int offset p) s P.
Proof.
  intros HP. apply gives_mbind, gives_ext; [done|]. intros [ret bytes] Hr.
  apply gives_mret, HP. by exists ret, bytes.
Qed.

Lemma gives_read_field {R} (field : R -> Z) `{!Setter field} t address (i : R) (P : Z -> R -> Prop) :
  (forall ret z, int_at all t address z -> P ret (set_field z i)) -> gives (read_field field t address) i P.
Proof.
  intros HP. apply gives_mbind, gives_ext; [done|]. intros [ret bytes] Hr.
  apply gives_mbind, gives_assign, gives_mret, HP. by exists ret, bytes.
Qed.

Lemma gives_load_field {R} (field : R -> Z) `{!Setter field} t offset address (i : R) (P : Z -> R -> Prop) :
  (forall ret z, int_at all t (canonical address offset) z -> P ret (set_field z i)) ->
  gives (load_field field t offset address) i P.
Proof. apply gives_read_field. Qed.

(** What [recordString] answers and leaves. *)
Definition recorded (jstring max : Z) (dest : list byte) (ret : Z) (dest' : list byte) : Prop :=
  ((ret < 0)%Z -> refused all ret) /\ string_or (ret < 0)%Z all jstring max dest dest'.

Lemma gives_recordString {S} jstring max dest (s : S) (P : Z * list byte -> S -> Prop) :
  (forall ret dest', recorded jstring max dest ret dest' -> P (ret, dest') s) ->
  gives (recordString jstring max dest) s P.
Proof.
  intros HP. unfold recordString. destruct (Z.eqb_spec jstring 0) as [->|Hn].
  { apply gives_mret, HP. split; [lia|]. by left. }
  apply Z.eqb_neq in Hn. apply gives_mbind, gives_ext; [done|]. intros [ret count] Hr.
  destruct (Z.ltb_spec ret 0).
  { apply gives_mret, HP. split; [|by right]. intros _. split; [done|]. eexists _, _, _. by left. }
  cbv zeta. apply gives_mbind, gives_ext; [done|]. intros [ret' chars] Hr'. apply gives_mret, HP. split.
  - intros ?. split; [done|]. eexists _, _, _. by right.
  - left. unfold string_from. rewrite Hn. exists ret, count, ret', chars. split_and!; [done..| |done].
    destruct (Z.ltb_spec max (le count / 2 + 1)); [rewrite Z.min_l by lia|rewrite Z.min_r by lia]; done.
Qed.

Lemma gives_record_field {R} (field : R -> list byte) `{!Setter field} jstring max (i : R)
    (P : Z -> R -> Prop) :
  (forall ret dest', recorded jstring max (field i) ret dest' -> P ret (set_field dest' i)) ->
  gives (record_field field jstring max) i P.
Proof.
  intros HP. apply gives_mbind, gives_get, gives_mbind, gives_recordString. intros ret dest' Hr.
  by apply gives_mbind, gives_assign, gives_mret, HP.
Qed.

Lemma gives_goto_out {S} ret (rest : Bpf S Z) (s : S) (P : Z -> S -> Prop) :
  ((ret < 0)%Z -> P ret s) -> ((0 <= ret)%Z -> gives rest s P) -> gives (goto_out ret rest) s P.
Proof. intros H1 H2. unfold goto_out. destruct (Z.ltb_spec ret 0); [by apply gives_mret, H1|by apply H2]. Qed.

Lemma reports_mbind {S A} quiet rb contract (m : Bpf S A) (k : A -> Bpf S Z) (s : S) :
  gives m s (fun a s' => reports quiet rb contract (k a) s') -> reports quiet rb contract (mbind m k) s.
Proof.
  intros Hm tr o s' [H|[(msg & s1 & H & _)|(s1 & H & _)]]%exec_mbind Hsub.
  - destruct H as (t1 & t2 & a & s1 & -> & H1 & H2). apply app_within in Hsub as [Hs1 Hs2].
    destruct (Hm _ _ _ H1 Hs1) as (R1 & a' & [= <-] & Hk).
    destruct (Hk _ _ _ H2 Hs2)
      as [(-> & R & ?)|[(t & -> & R & ->)|(t & t' & i & d & -> & R & R' & -> & Hc)]].
    + left. by rewrite ring_trace_app, R1.
    + right; left. exists (t1 ++ t). by rewrite ring_trace_app, R1, <- app_assoc.
    + right; right. exists (t1 ++ t), t', i, d. by rewrite ring_trace_app, R1, <- app_assoc.
  - by destruct (Hm _ _ _ H Hsub) as [_ [? [[=] _]]].
  - by destruct (Hm _ _ _ H Hsub) as [_ [? [[=] _]]].
Qed.

Lemma reports_quiet {S} (quiet : Prop) rb contract (s : S) :
  quiet -> reports quiet rb contract (mret 0%Z) s.
Proof. intros Hq tr o s' [-> [= -> ->]] _. by left. Qed.

(** Reserve, fill and submit. *)
Lemma reports_with_output {S} quiet rb (contract : rb_item rb -> rb_item rb -> Prop)
    (fill : Bpf (rb_item rb) unit) (s : S) :
  (forall item, gives fill item (fun _ item' => contract item item')) ->
  reports quiet rb contract (with_output rb fill) s.
Proof.
  intros Hf tr o s'. unfold with_output.
  intros (t0 & t & [o1 s1] & -> & (r & t' & -> & -> & [= -> ->]) & Hx)%exec_bind Hsub.
  apply cons_within in Hsub. destruct r as [item|].
  - apply exec_bind in Hx as (t0 & t' & [o1 s1] & -> & H1 & H).
    unfold with_local in H1. apply exec_bind in H1 as (t1 & t2 & [o2 item'] & -> & H1 & -> & [= -> ->]).
    rewrite app_nil_r in *. apply app_within in Hsub as [Hs1 _].
    apply exec_mbind in H1 as [H1|[(msg & i & H1 & _)|(i & H1 & _)]];
      [|by destruct (Hf _ _ _ _ H1 Hs1) as [_ [? [[=] _]]]..].
    destruct H1 as (t2 & t3 & [] & i & -> & H1 & -> & [= -> ->]). rewrite app_nil_r in *.
    destruct (Hf _ _ _ _ H1 Hs1) as (R & [] & _ & Hc).
    destruct H as ([] & t4 & -> & -> & [= -> ->]). right; right.
    by exists [], t2, item, i.
  - destruct Hx as [-> [= -> ->]]. right; left. by exists [].
Qed.

End Rules.

(** ** Automation *)

(** Fields of the item, as its constructor has them. *)
Ltac item_cbn :=
  cbv beta delta [set_field] in *;
  cbn [ae_error_code ae_timestamp_ns ae_variant ae_package_name ae_permission_name ae_uid ae_code
    ud_method_identifier ud_changing_uid ud_adding ud_duration_ms ud_type ud_reason_code ud_reason
    ud_calling_uid sa_method_identifier sa_calling_package sa_request_code sa_start_flags sa_user_id
    sa_validate_incoming_user sa_x0 bt_interface_descriptor bt_code bt_calling_uid bt_timestamp_ns
    be_type be_width be_height be_scaled_width be_scaled_height be_pixel_storage_type be_bitmap_size
    be_native_ptr be_activity_name bs_error_code bs_intent_action bs_intent_package
    bs_intent_component_name_package bs_intent_component_name_class bs_bind_flags bs_calling_package
    ce_error_code ce_package_name ce_class_name ce_new_state ce_calling_package_name
    ct_event ct_timestampNs su_uid su_onAllowlist pc_pid pc_uid pc_process_name] in *.

(** A struct is taken apart; the bare integer of one buffer is not. *)
Ltac destruct_item item := cbn in item; lazymatch type of item with Z => idtac | _ => destruct item end.

Ltac item_step :=
  lazymatch goal with
  | |- forall _, _ => intros ?
  | |- _ -> _ => intros ?
  | |- reports _ _ _ _ (with_output _ _) _ => apply reports_with_output; intros item; destruct_item item
  | |- reports _ _ _ _ (mbind _ _) _ => apply reports_mbind
  | |- reports _ _ _ _ (mret _) _ => apply reports_quiet
  | |- reports _ _ _ _ (match ?x with _ => _ end) _ => destruct x eqn:?
  | |- gives _ (mbind _ _) _ _ => apply gives_mbind
  | |- gives _ (mret _) _ _ => apply gives_mret
  | |- gives _ (put_state _) _ _ => apply gives_put
  | |- gives _ (assign _ _) _ _ => apply gives_assign
  | |- gives _ (ext _) _ _ => apply gives_ext; [reflexivity|]
  | |- gives _ (read_ptr _ _) _ _ => apply gives_read_ptr
  | |- gives _ (load_ptr _ _ _) _ _ => apply gives_load_ptr
  | |- gives _ (load_int _ _) _ _ => apply gives_load_int
  | |- gives _ (read_field _ _ _) _ _ => apply gives_read_field
  | |- gives _ (load_field _ _ _ _) _ _ => apply gives_load_field
  | |- gives _ (recordString _ _ _) _ _ => apply gives_recordString; intros ? ? [? [?|[? ->]]]
  | |- gives _ (record_field _ _ _) _ _ => apply gives_record_field; intros ? ? [? [?|[? ->]]]
  | |- gives _ (goto_out _ _) _ _ => apply gives_goto_out
  | |- gives _ (match ?x with _ => _ end) _ _ => destruct x eqn:?
  | |- gives _ _ _ _ => progress cbv zeta
  | |- reports _ _ _ _ _ _ => progress cbv zeta
  end; item_cbn.

(** The tests of the code, as (in)equalities. *)
Ltac item_tests :=
  repeat match goal with
  | H : negb _ = true |- _ => apply negb_true_iff in H
  | H : negb _ = false |- _ => apply negb_false_iff in H
  | H : (_ <? _)%Z = true |- _ => apply Z.ltb_lt in H
  | H : (_ =? _)%Z = true |- _ => apply Z.eqb_eq in H
  | H : (_ =? _)%Z = false |- _ => apply Z.eqb_neq in H
  end.

(** Nothing was read there: a read was refused. *)
Ltac excused := first [unfold EFAULT; lia | by eexists; eauto].

(** The premises of a contract. *)
Ltac item_premise :=
  lazymatch goal with
  | |- error_code _ _ _ => intros ?; first [left; by eauto | right; split; [reflexivity|by eauto]]
  | |- string_or _ _ _ _ _ _ => first [by left | right; split; [excused|reflexivity]]
  | |- string_via _ _ _ _ _ _ =>
      first [eassumption | left; eexists; split; eassumption | right; split; [excused|reflexivity]]
  | |- pointer_at _ _ _ _ \/ _ => first [left; eassumption | right; excused]
  | |- _ \/ _ => first [by left | right; split; [excused|reflexivity]]
  | |- _ => eassumption
  end.

Ltac item_run :=
  repeat item_step; item_tests; try solve [exfalso; lia];
  lazymatch goal with
  | |- filled _ _ _ _ _ _ => econstructor; item_cbn; try item_premise
  | |- silent _ _ _ => econstructor; try item_premise
  | |- _ => idtac
  end.

(** ** The programs *)

Section Programs.
Variables (ctx : pt_regs) (tr : list bev).

Definition keeps (name : string) (rb : RingBuf) (p : pt_regs -> Program) : Prop :=
  reports tr (silent ctx tr name) rb (filled ctx tr name rb) (p ctx) tt.

(** The loop over the codes, after the descriptor's entry was looked up. *)
Lemma reports_scan_codes key codes before rest :
  string_via (unread tr) tr (ptr_add (reg ctx 1) 8) 128 zeroes key ->
  (existT (bpf_interfaces_lookup_elem key) (Some codes) : bev) ∈ tr ->
  take 10 codes = before ++ rest -> reg ctx 2 ∉ before ->
  reports tr (silent ctx tr "prog_Binder_uprobe_exec_transact_internal") Binder_output_buf
    (filled ctx tr "prog_Binder_uprobe_exec_transact_internal" Binder_output_buf)
    (scan_codes ctx key rest : Program) tt.
Proof.
  intros Hkey Hin. revert before. induction rest as [|code rest IH]; intros before Heq Hn; cbn [scan_codes].
  - apply reports_quiet. eapply silent_exec_transact_internal; [done..|]. cbn.
    rewrite Heq, app_nil_r. done.
  - destruct (Z.eqb_spec code 0) as [->|H0].
    { apply reports_quiet. eapply silent_exec_transact_internal; [done..|]. cbn. intros _.
      rewrite Heq. apply elem_of_app. right. apply list_elem_of_here. }
    destruct (Z.eqb_spec code (reg ctx 2)) as [->|Hc]; cbn [negb].
    + item_run. rewrite Heq. apply elem_of_app. right. apply list_elem_of_here.
    + apply (IH (before ++ [code])); [by rewrite <- app_assoc|].
      rewrite elem_of_app, list_elem_of_singleton. naive_solver.
Qed.

Lemma keeps_exec_transact_internal :
  keeps "prog_Binder_uprobe_exec_transact_internal" Binder_output_buf exec_transact_internal.
Proof.
  unfold keeps, exec_transact_internal. repeat item_step.
  1,3: by eapply (reports_scan_codes _ _ []); [item_premise|eassumption|reflexivity|apply not_elem_of_nil].
  all: eapply silent_exec_transact_internal with (codes := None);
    [item_premise|eassumption|by intros ?%elem_of_nil].
Qed.

Lemma programs_keep :
  Forall (fun '(name, rb, p) =>
    name = "prog_GenericInstrumentation_uprobe_call_detail" \/ keeps name rb p) programs.
Proof.
  unfold programs. repeat apply Forall_cons_2; [..|apply Forall_nil_2];
    first [by left | right; first [apply keeps_exec_transact_internal | idtac]].
  all: cbv beta zeta delta [keeps grant_runtime_permission dispatch_gesture
    ArtTest_update_device_idle_temp_allowlist start_activity_as_user
    bitmap_constructor_heap bitmap_creation bitmap_creation_for_snapshot apply_free_function
    activity_perform_start create_scaled_bitmap bind_service_locked
    set_component_enabled_setting call_timestamp call_timestamp_1 call_timestamp_2
    call_timestamp_3 call_timestamp_4 call_timestamp_5 call_timestamp_event
    set_uid_temp_allowlist_state update_device_idle_temp_allowlist set_pid make_active
    on_process_active recordStringArg recordStringArgFromSp record_string_at]; item_run.
  all: by repeat first [apply list_elem_of_here | apply list_elem_of_further].
  Unshelve. all: exact 0%Z.
Qed.
End Programs.
