(* ===== verification/TypedPrograms.v ===== *)
(** * TypedPrograms: what the BPF programs submit is of the types of the header

    The judgement of [Judgement] for the interface of the kernel: given registers
    and answers of their C types, every integer of a submitted item fits its field,
    every character array keeps its length, and reads are at 64-bit addresses. *)

From S2P Require Import Prelude Effects Judgement RustStd Data System Handler.
From S2P Require Import Bpf Poll BpfMap Task Execution Typing Kernel UserMemory Programs.

Local Open Scope rust_scope.
Local Open Scope string_scope.
Local Open Scope list_scope.

(** ** The types *)

(** The lengths of the arrays of a struct. *)
Definition wt_arrays (ty : StructTy) : struct_of ty -> Prop :=
  match ty with
  | TyCallResult => fun d => length (cr_regs d) = 10%nat
  | TyUpdateDeviceIdleTempAllowlistRecord => fun d => length (ud_reason d) = 256%nat
  | TyBindServiceLocked => fun d =>
      length (bs_intent_action d) = 128%nat /\ length (bs_intent_package d) = 128%nat /\
      length (bs_intent_component_name_package d) = 128%nat /\
      length (bs_intent_component_name_class d) = 128%nat /\ length (bs_calling_package d) = 128%nat
  | TyComponentEnabledSetting => fun d =>
      length (ce_package_name d) = 128%nat /\ length (ce_class_name d) = 128%nat /\
      length (ce_calling_package_name d) = 128%nat
  | TyProcessChange => fun d => length (pc_process_name d) = 256%nat
  | TyBitmapEvent => fun d => length (be_activity_name d) = 128%nat
  | TyBinderTransaction => fun d => length (bt_interface_descriptor d) = 128%nat
  | TyStartActivityAsUser => fun d => length (sa_calling_package d) = 128%nat
  | TyAccessibilityEvent => fun d =>
      length (ae_package_name d) = 128%nat /\ length (ae_permission_name d) = 128%nat
  | _ => fun _ => True
  end.

Definition wt_struct (ty : StructTy) (d : struct_of ty) : Prop := wt_item ty d /\ wt_arrays ty d.

Definition wt_rb (rb : RingBuf) : rb_item rb -> Prop :=
  match rb_ty rb as o return match o with Some ty => struct_of ty | None => Z end -> Prop with
  | Some ty => wt_struct ty
  | None => int U64
  end.

Definition wt_ctx (ctx : pt_regs) : Prop :=
  Forall (int U64) (regs ctx) /\ int U64 (sp ctx) /\ int U64 (pc ctx).

Definition wt_bpf_answer (e : bev) : Prop :=
  match e with
  | existT (bpf_ringbuf_reserve rb) (Some item) => wt_rb rb item
  | existT (bpf_probe_read_user size _) (ret, bytes) =>
      int I32 ret /\ Z.of_nat (length bytes) = size
  | existT (bpf_probe_read_user_str size _) (ret, bytes) =>
      int I32 ret /\ (Z.of_nat (length bytes) <= size)%Z
  | existT bpf_ktime_get_ns z | existT bpf_get_current_pid_tgid z => int U64 z
  | existT (bpf_interfaces_lookup_elem _) (Some codes) =>
      length codes = 10%nat /\ Forall (int U64) codes
  | _ => True
  end.

Definition wt_key (key : BitmapKey) : Prop := int U64 (bk_tgid key) /\ int U64 (bk_native_ptr key).

Definition wt_bpf_call (c : BpfCall) : Prop :=
  match c with
  | bpf_ringbuf_submit rb item => wt_rb rb item
  | bpf_probe_read_user size address | bpf_probe_read_user_str size address =>
      (0 < size <= 256)%Z /\ int U64 address
  | bpf_interfaces_lookup_elem key => length key = 128%nat
  | bpf_active_bitmaps_update_elem key _ _ | bpf_active_bitmaps_lookup_elem key
  | bpf_active_bitmaps_delete_elem key => wt_key key
  | _ => True
  end.

#[export] Instance BpfTypes : Discipline BpfI :=
  { good_answer := wt_bpf_answer; good_call := wt_bpf_call }.

Notation any := (fun _ => True).

(** ** Lemmas *)

Lemma int_reg ctx i : wt_ctx ctx -> int U64 (reg ctx i).
Proof.
  intros (Hr & _). unfold reg. destruct (regs ctx !! i) eqn:Hi; cbn; [|done].
  by eapply Forall_lookup_1 in Hi.
Qed.

Lemma int_sp ctx : wt_ctx ctx -> int U64 (sp ctx).
Proof. by intros (_ & ? & _). Qed.

Lemma int_pc ctx : wt_ctx ctx -> int U64 (pc ctx).
Proof. by intros (_ & _ & ?). Qed.

Lemma int_ptr_add p off : int U64 (ptr_add p off).
Proof. apply int_as. Qed.

Lemma int_shiftr z : int U64 z -> int U64 (Z.shiftr z 32).
Proof.
  unfold int. cbn. intros Hz. rewrite Z.shiftr_div_pow2 by done.
  split; [apply Z.div_pos; lia|]. apply Z.div_le_upper_bound; lia.
Qed.

Lemma overwrite_length dest l : (length l <= length dest)%nat -> length (overwrite dest l) = length dest.
Proof. intros H. unfold overwrite. rewrite length_app, length_drop. lia. Qed.

#[export] Hint Resolve int_reg int_sp int_pc int_ptr_add int_shiftr : typing.

Section Rules.
Context {S : Type} (I : S -> Prop).

Lemma types_read_ptr size address :
  (0 < size <= 256)%Z -> int U64 address ->
  types I (read_ptr size address) (fun r => int I32 r.1 /\ int U64 r.2).
Proof.
  intros Hs Ha. unfold read_ptr. eapply types_mbind; [by apply types_ext|].
  intros [ret bytes] [Hr _]. apply types_mret. split; [done|apply int_as].
Qed.

Lemma types_load_ptr offset size p :
  (0 < size <= 256)%Z -> types I (load_ptr offset size p) (int U64).
Proof.
  intros Hs. unfold load_ptr. eapply types_mbind; [by apply types_read_ptr; [|apply int_ptr_add]|].
  intros [ret q] [_ Hq]. by apply types_mret.
Qed.

Lemma types_load_int offset p : types I (load_int offset p) (int I32).
Proof.
  unfold load_int. eapply types_mbind; [by apply types_ext; split; [|apply int_ptr_add]|].
  intros [ret bytes] _. apply types_mret. apply int_as.
Qed.

Lemma types_recordString jstring max dest :
  int U64 jstring -> (0 < max <= Z.of_nat (length dest))%Z -> (max <= 256)%Z ->
  types I (recordString jstring max dest) (fun r => int I32 r.1 /\ length r.2 = length dest).
Proof.
  intros Hj Hm Hmax. unfold recordString. destruct (jstring =? 0)%Z.
  { apply types_mret. cbn. by rewrite length_insert. }
  eapply types_mbind; [by apply types_ext; split; [|apply int_ptr_add]|].
  intros [ret count] [Hr _]. destruct (ret <? 0)%Z; [by apply types_mret|].
  cbv zeta. pose proof (Z.div_pos (le count) 2 (le_nonneg count)).
  eapply types_mbind; [apply types_ext; split; [|apply int_ptr_add]|].
  { destruct (Z.ltb_spec max (le count / 2 + 1)); lia. }
  intros [ret' chars] [Hr' Hc]. apply types_mret. split; [done|]. cbn.
  apply overwrite_length. destruct (Z.ltb_spec max (le count / 2 + 1)); lia.
Qed.

Lemma types_goto_out ret (rest : Bpf S Z) :
  int I32 ret -> types I rest (int I32) -> types I (goto_out ret rest) (int I32).
Proof. intros Hr Hm. unfold goto_out. destruct (ret <? 0)%Z; [by apply types_mret|done]. Qed.

Lemma types_with_output rb fill :
  types (wt_rb rb) fill any -> types I (with_output rb fill) (int I32).
Proof.
  intros Hf. unfold with_output. eapply types_mbind; [by apply types_ext|].
  intros [output|] Ho; [|by apply types_mret].
  eapply types_mbind; [apply (types_with_local _ (wt_rb rb)); [exact Ho|]|].
  - eapply types_mbind; [exact Hf|]. intros _ _. apply types_get.
  - intros output' Ho'. eapply types_mbind; [by apply types_ext|]. intros _ _. by apply types_mret.
Qed.

End Rules.

Section Fields.
Context {R : Type} (I : R -> Prop).

Lemma types_assign {T} (field : R -> T) `{!Setter field} v :
  (forall o, I o -> I (set_field v o)) -> types I (assign field v) any.
Proof.
  intros Hv. unfold assign. eapply types_mbind; [apply types_get|]. intros o Ho. by apply types_put, Hv.
Qed.

Lemma types_read_field (field : R -> Z) `{!Setter field} t address :
  int U64 address -> (forall o v, I o -> int t v -> I (set_field v o)) ->
  types I (read_field field t address) (int I32).
Proof.
  intros Ha Hv. unfold read_field.
  eapply types_mbind; [apply types_ext; split; [by destruct t|done]|].
  intros [ret bytes] [Hr _]. eapply types_mbind; [apply types_assign; intros o Ho|].
  - apply Hv; [done|apply int_as].
  - intros _ _. by apply types_mret.
Qed.

Lemma types_load_field (field : R -> Z) `{!Setter field} t offset address :
  (forall o v, I o -> int t v -> I (set_field v o)) ->
  types I (load_field field t offset address) (int I32).
Proof. intros Hv. apply types_read_field; [apply int_ptr_add|done]. Qed.

Lemma types_record_field (field : R -> list byte) `{!Setter field} n jstring max :
  int U64 jstring -> (0 < max <= Z.of_nat n)%Z -> (max <= 256)%Z ->
  (forall o, I o -> length (field o) = n) ->
  (forall o l, I o -> length l = n -> I (set_field l o)) ->
  types I (record_field field jstring max) (int I32).
Proof.
  intros Hj Hm Hmax Hlen Hset. unfold record_field. eapply types_mbind; [apply types_get|].
  intros o Ho. eapply types_mbind; [apply types_recordString; [done|by rewrite (Hlen o Ho)|done]|].
  intros [ret dest] [Hr Hd]. cbn in Hd. rewrite (Hlen o Ho) in Hd.
  eapply types_mbind; [apply types_assign; intros o' Ho'; by apply Hset|]. intros _ _. by apply types_mret.
Qed.

End Fields.

(** ** Automation *)

#[local] Arguments as_ity : simpl never.

(** A store into a field keeps the struct well typed: the other fields are as they
    were, and of the new one the hypotheses say so. *)
Ltac field_side :=
  lazymatch goal with
  | |- wt_rb _ _ => idtac
  | |- length _ = _ => idtac
  end;
  cbv [wt_rb rb_ty wt_struct wt_item wt_arrays wf_BitmapEvent set_field] in *; cbn in *;
  change wf_u32 with (int U32) in *; change wf_u64 with (int U64) in *;
  destruct_and?; split_and?;
  first [assumption | apply int_as | solve [eauto with typing] | by rewrite ?length_insert].

Ltac prog_step :=
  lazymatch goal with
  | |- forall _, _ => intros ?
  | |- types _ (with_output _ _) _ => apply types_with_output
  | |- types _ (mbind (mret _) _) _ => eapply types_mbind; [by apply types_mret|]
  | |- types _ (mbind _ _) _ => eapply types_mbind
  | |- types _ (mret _) _ => apply types_mret
  | |- types _ (goto_out _ _) _ => apply types_goto_out
  | |- types _ (assign _ _) _ => apply types_assign
  | |- types _ (put_state _) _ => apply types_put
  | |- types _ (read_ptr _ _) _ => apply types_read_ptr
  | |- types _ (load_ptr _ _ _) _ => apply types_load_ptr
  | |- types _ (load_int _ _) _ => apply types_load_int
  | |- types _ (read_field _ _ _) _ => apply types_read_field
  | |- types _ (load_field _ _ _ _) _ => apply types_load_field
  | |- types _ (record_field ud_reason _ _) _ => apply (types_record_field _ _ 256)
  | |- types _ (record_field pc_process_name _ _) _ => apply (types_record_field _ _ 256)
  | |- types _ (record_field _ _ _) _ => apply (types_record_field _ _ 128)
  | |- types _ (recordString _ _ _) _ => apply types_recordString
  | |- types _ (ext _) _ => apply types_ext
  | |- types _ (match ?x with _ => _ end) _ => destruct x eqn:?
  end.

Ltac prog_side :=
  cbn beta in *; cbn [fst snd good_call good_answer BpfTypes wt_bpf_call wt_bpf_answer] in *;
  unfold wt_key; cbn [bk_tgid bk_native_ptr]; destruct_and?; subst; try done;
  first [field_side | solve [eauto with typing] | by split; eauto with typing | idtac].

Ltac prog_run := repeat prog_step; prog_side.

Lemma types_scan_codes ctx key codes :
  wt_ctx ctx -> length key = 128%nat -> types any (scan_codes ctx key codes : Program) (int I32).
Proof.
  intros Hc Hk. induction codes as [|code codes IH]; cbn [scan_codes]; [by apply types_mret|].
  destruct (code =? 0)%Z; [by apply types_mret|]. destruct (negb _); [exact IH|].
  repeat prog_step; prog_side.
Qed.

(** A store that stays inside the array keeps its length and its width. *)
Lemma copy_regs_typed ctx n i result r :
  wt_ctx ctx -> Forall (int U64) result -> copy_regs ctx n i result = Val r ->
  length r = length result /\ Forall (int U64) r.
Proof.
  intros Hc. revert i result. induction n as [|n IH]; intros i result Hr; cbn [copy_regs].
  { by intros [= <-]. }
  destruct (i <? length result)%nat; [|done]. intros H%IH.
  - by rewrite length_insert in H.
  - apply Forall_insert; [done|by apply int_reg].
Qed.

Lemma types_call_detail ctx :
  wt_ctx ctx -> types any (call_detail ctx) (int I32).
Proof.
  intros Hc. unfold call_detail. apply types_bind_lift. intros r Hr.
  apply copy_regs_typed in Hr as [Hl Hr]; [|done|by repeat constructor]. apply types_with_output, types_put.
  repeat split; [apply int_pc; done|apply int_pc; done|done|exact Hl].
Qed.

Lemma types_call_timestamp event :
  int U32 event -> types any (call_timestamp_event event) (int I32).
Proof. intros He. unfold call_timestamp_event. prog_run. Qed.

Lemma programs_typed ctx :
  wt_ctx ctx -> Forall (fun '(_, _, p) => types any (p ctx) (int I32)) programs.
Proof.
  intros Hc. unfold programs.
  repeat apply Forall_cons_2; [..|apply Forall_nil_2];
    first [by apply types_call_detail | by apply types_call_timestamp | idtac].
  all: cbv beta zeta delta [grant_runtime_permission dispatch_gesture
    ArtTest_update_device_idle_temp_allowlist start_activity_as_user exec_transact_internal
    bitmap_constructor_heap bitmap_creation bitmap_creation_for_snapshot apply_free_function
    activity_perform_start create_scaled_bitmap bind_service_locked set_component_enabled_setting
    set_uid_temp_allowlist_state update_device_idle_temp_allowlist set_pid make_active
    on_process_active recordStringArg recordStringArgFromSp record_string_at]; prog_run.
  by apply types_scan_codes.
Qed.

(** ** Theorems *)

(** C10. What a BPF program submits is of the types of the header.  For every program
    of the repository, given registers and answers of the kernel of their C types:
    each submitted item has integers of their width and arrays of their length, so it
    is an item the daemon's own typing asks for; reads are of at most 256 bytes at
    64-bit addresses, and keys of maps have their size.  The reserved item may have
    any content. *)
Theorem programs_submit_well_typed name rb (p : pt_regs -> Program) ctx tr o
    (Hp : (name, rb, p) ∈ programs) (Hc : wt_ctx ctx)
    (H : exec (p ctx tt) tr (o, tt)) (Hw : Forall wt_bpf_answer tr) :
  Forall (fun e : bev => wt_bpf_call (projT1 e)) tr.
Proof.
  pose proof (programs_typed ctx Hc) as Hall. rewrite Forall_forall in Hall.
  exact (proj1 (Hall _ Hp tt tr o tt H Logic.I Hw)).
Qed.

(** ** Witnesses *)

(** [setPid] of a process record at 0x1000 with uid 10050, called "app". *)
Definition set_pid_memory : Z -> byte :=
  mem_of ([(0x10f4%Z, word 10050); (0x10a0%Z, word 0x2000)] ++ string_at 0x2000 "app").

Definition set_pid_run : Prog BpfI (outcome Z * unit) := set_pid (registers [0; 0x1000; 1234]%Z) tt.

Definition set_pid_env : Env BpfI := bpf_env set_pid_memory (fun _ => None).

Lemma programs_submit_well_typed_witness :
  exec set_pid_run (run_trace set_pid_env set_pid_run) (Val 0%Z, tt) /\
  length (run_trace set_pid_env set_pid_run) = 6%nat /\
  Forall (fun e : bev => wt_bpf_call (projT1 e)) (run_trace set_pid_env set_pid_run).
Proof.
  assert (exec set_pid_run (run_trace set_pid_env set_pid_run) (Val 0%Z, tt)) as H
    by (apply (run_exec_eq set_pid_env); [reflexivity|vm_compute; reflexivity]).
  split; [exact H|]. split; [vm_compute; reflexivity|].
  refine (@programs_submit_well_typed "prog_ProcessManagement_uprobe_set_pid"
    ProcessManagement_process_change_output_buf set_pid _ _ _ _ _ H _).
  - apply list_elem_of_In. cbn. tauto.
  - split; [|split; vm_compute; split; discriminate].
    cbn [regs registers app length replicate Nat.sub].
    repeat (apply Forall_cons_2; [unfold int; cbn; lia|]). apply Forall_nil_2.
  - let t := eval vm_compute in (run_trace set_pid_env set_pid_run) in
      change (Forall wt_bpf_answer t).
    repeat (apply Forall_cons_2; [|]); [..|apply Forall_nil_2]; 
      cbn [wt_bpf_answer wt_rb rb_ty]; unfold int, wt_struct; cbn; unfold int; cbn; lia.
Defined.
