(* ===== verification/ProgramSpecs.v ===== *)
(** * ProgramSpecs: what the BPF programs do with the ring buffers

    Every program but the call-detail one keeps to the discipline and to its contract
    ([ProgramItems]); its buffer is the one the daemon's handler reads; the deallocation program leaves the
    size of the item as it found it; the call-detail program leaves its array. *)

From S2P Require Import Prelude Effects RustStd Data System Fixtures Guardrail ConfigResolver Handler.
From S2P Require Import Accessibility Bitmap BinderHandler Disruptive Generic ArtTest StatsAtoms.
From S2P Require Import Bpf Poll Kernel UserMemory Programs ProgramItems.

Local Open Scope rust_scope.
Local Open Scope string_scope.
Local Open Scope list_scope.

(** ** Lemmas *)

(** The loop of [call_detail] on an array of [length result] elements. *)
Lemma copy_regs_spec ctx n i result :
  (i + n <= length result)%nat ->
  copy_regs ctx n i result = Val (take i result ++ map (reg ctx) (seq i n) ++ drop (i + n) result).
Proof.
  revert i result. induction n as [|n IH]; intros i result Hn; cbn [copy_regs].
  - rewrite Nat.add_0_r. cbn. by rewrite take_drop.
  - destruct (Nat.ltb_spec i (length result)); [|lia].
    rewrite IH by (rewrite length_insert; lia). f_equal.
    rewrite (take_S_r _ _ (reg ctx i)) by (rewrite list_lookup_insert_eq; [done|lia]).
    rewrite take_insert_ge, drop_insert_lt by lia. cbn [seq map]. rewrite <- app_assoc. cbn.
    by replace (i + Datatypes.S n)%nat with (Datatypes.S i + n)%nat by lia.
Qed.

Lemma copy_regs_outside ctx n i result :
  (i <= length result)%nat -> (length result < i + n)%nat ->
  copy_regs ctx n i result = Panics "store outside result.regs".
Proof.
  revert i result. induction n as [|n IH]; intros i result Hi Hn; cbn [copy_regs]; [lia|].
  destruct (Nat.ltb_spec i (length result)); [|done].
  apply IH; rewrite length_insert; lia.
Qed.

(** Registers 0 to n - 1 are copied, the rest of the array stays. *)
Lemma copy_regs_result ctx n :
  copy_regs ctx n 0 (replicate 10 0%Z) =
  if (n <=? 10)%nat then Val (map (reg ctx) (seq 0 n) ++ replicate (10 - n) 0%Z)
  else Panics "store outside result.regs".
Proof.
  destruct (Nat.leb_spec n 10).
  - rewrite copy_regs_spec by (rewrite length_replicate; lia). by rewrite drop_replicate.
  - by apply copy_regs_outside; rewrite length_replicate; lia.
Qed.

(** The items of one buffer: those given out, and those submitted. *)
#[export] Instance RingBuf_eq_dec : EqDecision RingBuf.
Proof. solve_decision. Defined.

Definition at_buffer (rb rb' : RingBuf) (item : rb_item rb') : option (rb_item rb) :=
  match decide (rb' = rb) with
  | left H => Some (eq_rect rb' rb_item item rb H)
  | right _ => None
  end.

Definition reserved (rb : RingBuf) (tr : list bev) : list (rb_item rb) :=
  omap (fun e : bev => match e with
                 | existT (bpf_ringbuf_reserve rb') (Some item) => at_buffer rb rb' item
                 | _ => None
                 end) tr.

Definition submitted (rb : RingBuf) (tr : list bev) : list (rb_item rb) :=
  omap (fun e : bev => match projT1 e with
                       | bpf_ringbuf_submit rb' item => at_buffer rb rb' item
                       | _ => None
                       end) tr.

(** The deallocation program writes the type and the pointer of the item; the other
    fields are as they were reserved. *)
Definition deallocation_of (native_ptr : Z) (r : BitmapEvent) : BitmapEvent :=
  set_field (field := be_native_ptr) native_ptr
    (set_field (field := be_type) K_BITMAP_EVENT_TYPE_DEALLOCATION r).

Lemma exec_apply_free_function ctx tr o s' :
  exec (apply_free_function ctx tt) tr (o, s') ->
  submitted BitmapAllocation_output tr = [] \/
  exists r native_ptr, reserved BitmapAllocation_output tr = [r] /\
    submitted BitmapAllocation_output tr = [deallocation_of native_ptr r].
Proof.
  unfold apply_free_function, read_ptr. intros H. wp_start H. wp_cbn.
  intros [ret bytes]. wp_cbn. intros tgid. wp_cbn. intros [b|]; cbn; [|by left].
  intros deleted [r|]; cbn; [|by left]. intros []. right. eauto.
Qed.

(** The type of an item of [bitmap_creation] is what the reserved memory had. *)
Lemma bitmap_creation_type_is_stale ctx tr o s' :
  exec (bitmap_creation ctx tt) tr (o, s') ->
  submitted BitmapAllocation_output tr = [] \/
  exists r d, reserved BitmapAllocation_output tr = [r] /\
    submitted BitmapAllocation_output tr = [d] /\ be_type d = be_type r /\
    be_bitmap_size d = be_bitmap_size r /\ be_native_ptr d = be_native_ptr r.
Proof.
  unfold bitmap_creation, with_output, with_local, load_ptr, load_field, read_field, read_ptr, assign.
  intros H. wp_start H. wp_cbn. intros [r|]; cbn; [|by left].
  intros [? ?]. cbn. intros [? ?]. cbn. intros []. right. eauto 10.
Qed.

(** The handler's side: a deallocation subtracts the size the item carries. *)
Lemma deallocation_total {Tg : Target} {O : HashOrder} task d h tr o h' :
  be_type d = K_BITMAP_EVENT_TYPE_DEALLOCATION -> wf_BitmapEvent d ->
  in_ity I64 (bh_current_total_bitmap_size h - be_bitmap_size d) = true ->
  exec (BitmapV1_on_item task d h) tr (o, h') ->
  o = Val (Ok tt) /\
  bh_current_total_bitmap_size h' = (bh_current_total_bitmap_size h - be_bitmap_size d)%Z.
Proof.
  intros Ht (_ & _ & _ & _ & _ & _ & Hsize & _) Hin H.
  unfold BitmapV1_on_item in H. rewrite Ht in H.
  assert (try_into I64 (be_bitmap_size d) = Ok (be_bitmap_size d)) as Hti.
  { apply try_into_Ok. unfold wf_u32 in Hsize. cbn. lia. }
  revert H. unfold BitmapV1_deallocation, sub_int, checked. rewrite Hti. intros H. wp_start H.
  wp_cbn. cbn [bh_current_total_bitmap_size set_bitmaps]. rewrite Hin. cbn. done.
Qed.

(** ** Theorems *)

(** C15. The safety contract of the trait [Handler]: at the path of every handler the
    registry can hold there is a ring buffer of the BPF programs, it holds items of
    the handler's type [T], and the handler's program, if it names one, is a program
    that fills this very buffer. *)
Theorem handlers_match_ring_buffers {Tg : Target} {O : HashOrder} {SH : StringHash}
    H (HH : Handler H) (Hr : registrable H HH) :
  exists rb, rb ∈ ring_buffers /\
    MAP_PATH H = String.append BPF_DIR (String.append "map_" (rb_name rb)) /\
    rb_ty rb = Some (T H) /\
    forall path, PROG_PATH H = Some path ->
      exists name p, path = String.append BPF_DIR name /\ (name, rb, p) ∈ programs.
Proof.
  assert (Hpick : forall name rb p, In (name, rb, p) programs -> exists name' p',
    String.append BPF_DIR name = String.append BPF_DIR name' /\ (name', rb, p') ∈ programs).
  { intros name rb p Hin. exists name, p. split; [done|]. by apply list_elem_of_In. }
  destruct Hr;
    [exists BitmapAllocation_output|exists BitmapAllocation_output
    |exists GenericInstrumentation_call_timestamp_buf|exists GenericInstrumentation_call_detail_buf
    |exists ProcessManagement_output_buf
    |exists ProcessManagement_update_device_idle_temp_allowlist_records
    |exists Binder_output_buf|exists Accessibility_output_buf
    |exists DisruptiveApp_ComponentEnabledSetting_output_buf
    |exists DisruptiveApp_BindServiceLocked_output_buf
    |exists ArtTest_output_buf_jit|exists ArtTest_output_buf_aot];
    (split; [apply list_elem_of_In; cbn; tauto|]; split; [reflexivity|]; split; [reflexivity|]);
    intros path [=]; subst path.
  - apply (Hpick _ _ call_timestamp). cbn. tauto.
  - apply (Hpick _ _ call_detail). cbn. tauto.
  - apply (Hpick _ _ exec_transact_internal). cbn. tauto.
  - apply (Hpick _ _ set_component_enabled_setting). cbn. tauto.
  - apply (Hpick _ _ bind_service_locked). cbn. tauto.
Qed.

(** C16. What a BPF program reports, and how.  Whatever the reads and maps answer, every
    program but [call_detail] (the next property) returns, read errors included, in one
    of three ways: it reports nothing and returns 0, which only four selective programs
    do and only for the reason each has ([silent]); there is no room in its ring buffer,
    and it returns 1 at once; or it reserves one item of its own buffer, fills it, and
    submits it to the same buffer exactly once as the last call, returning 0.  What it
    then submits keeps the program's contract ([filled]): each field comes from the
    register, the clock or the address in user memory the contract names, or is as it
    was reserved, and an error code is that of a read that was refused or of a null
    pointer. *)
Theorem programs_ring_discipline name rb (p : pt_regs -> Program) ctx tr o
    (Hp : (name, rb, p) ∈ programs) (H : exec (p ctx tt) tr (o, tt)) :
  name <> "prog_GenericInstrumentation_uprobe_call_detail" ->
  disciplined (silent ctx tr name) rb (filled ctx tr name rb) tr o.
Proof.
  intros Hn. pose proof (programs_keep ctx tr) as Hall. rewrite Forall_forall in Hall.
  destruct (Hall _ Hp) as [?|Hr]; [done|]. by apply (Hr tr o tt).
Qed.

(** C40. The bounds of the array of [CallResult]: copying the first n registers into its
    ten elements gives exactly these registers when n is at most ten, and leaves the
    array otherwise.  [call_detail] copies eleven, so every run of it does. *)
Theorem call_detail_leaves_its_array ctx n tr o :
  copy_regs ctx n 0 (replicate 10 0%Z) =
    (if (n <=? 10)%nat then Val (map (reg ctx) (seq 0 n) ++ replicate (10 - n) 0%Z)
     else Panics "store outside result.regs") /\
  (exec (call_detail ctx tt) tr (o, tt) <-> tr = [] /\ o = Panics "store outside result.regs").
Proof.
  split; [apply copy_regs_result|]. unfold call_detail. rewrite copy_regs_result. cbn. naive_solver.
Qed.

(** C31. A freed bitmap's item carries a stale size.  Whatever [apply_free_function]
    submits has in [bitmap_size] what the reserved memory had there, since the program
    does not write the field, and the handler of the buffer subtracts exactly that from
    the running total. *)
Theorem freed_size_is_stale {Tg : Target} {O : HashOrder} ctx tr o
    (H : exec (apply_free_function ctx tt) tr (o, tt)) :
  Forall (fun d => exists r, r ∈ reserved BitmapAllocation_output tr /\
    be_bitmap_size d = be_bitmap_size r /\
    forall task h tr' o' h', wf_BitmapEvent d ->
      in_ity I64 (bh_current_total_bitmap_size h - be_bitmap_size r) = true ->
      exec (BitmapV1_on_item task d h) tr' (o', h') ->
      o' = Val (Ok tt) /\
      bh_current_total_bitmap_size h' = (bh_current_total_bitmap_size h - be_bitmap_size r)%Z)
    (submitted BitmapAllocation_output tr).
Proof.
  apply exec_apply_free_function in H as [->|(r & native_ptr & -> & ->)]; [constructor|].
  repeat constructor. exists r. split; [apply list_elem_of_here|]. split; [done|].
  intros task h tr' o' h' Hwf Hin Hx. by apply (deallocation_total task (deallocation_of native_ptr r) h tr').
Qed.

(** ** Witnesses *)

Definition empty_env : Env BpfI := bpf_env (fun _ => nul) (fun _ => None).

Lemma handlers_match_ring_buffers_witness :
  exists rb, MAP_PATH CallTimestampHandler = String.append BPF_DIR (String.append "map_" (rb_name rb)) /\
    rb_ty rb = Some (T CallTimestampHandler).
Proof.
  destruct (@handlers_match_ring_buffers target64 canonical_order constant_hash CallTimestampHandler _
    reg_call_timestamp) as (rb & _ & Hp & Ht & _).
  exists rb. split; [exact Hp|exact Ht].
Defined.

Definition grant_run : Prog BpfI (outcome Z * unit) := grant_runtime_permission (registers []) tt.

Lemma programs_ring_discipline_witness :
  exec grant_run (run_trace empty_env grant_run) (Val 0%Z, tt) /\
  let tr := run_trace empty_env grant_run in
  disciplined (silent (registers []) tr "prog_Accessibility_uprobe_grant_runtime_permission")
    Accessibility_output_buf
    (filled (registers []) tr "prog_Accessibility_uprobe_grant_runtime_permission" Accessibility_output_buf)
    tr (Val 0%Z).
Proof.
  assert (exec grant_run (run_trace empty_env grant_run) (Val 0%Z, tt)) as H
    by (apply (run_exec_eq empty_env); [reflexivity|vm_compute; reflexivity]).
  split; [exact H|].
  refine (@programs_ring_discipline "prog_Accessibility_uprobe_grant_runtime_permission"
    Accessibility_output_buf grant_runtime_permission _ _ _ _ H _).
  - apply list_elem_of_In. cbn. tauto.
  - discriminate.
Defined.

(** The memory reserved is that of an earlier item, of a bitmap of 4096 bytes. *)
Definition free_run : Prog BpfI (outcome Z * unit) := apply_free_function (registers []) tt.

Lemma freed_size_is_stale_witness :
  exec free_run (run_trace empty_env free_run) (Val 0%Z, tt) /\
  map be_bitmap_size (submitted BitmapAllocation_output (run_trace empty_env free_run)) = [4096%Z] /\
  Forall (fun d => exists r, r ∈ reserved BitmapAllocation_output (run_trace empty_env free_run) /\
    be_bitmap_size d = be_bitmap_size r)
    (submitted BitmapAllocation_output (run_trace empty_env free_run)).
Proof.
  assert (exec free_run (run_trace empty_env free_run) (Val 0%Z, tt)) as H
    by (apply (run_exec_eq empty_env); [reflexivity|vm_compute; reflexivity]).
  split; [exact H|]. split; [vm_compute; reflexivity|].
  refine (Forall_impl _ _ _ (@freed_size_is_stale target64 canonical_order _ _ _ H) _).
  intros d (r & Hr & Hd & _). exists r. split; [exact Hr|exact Hd].
Defined.
