(* ===== verification/BinderPath.v ===== *)
(** * BinderPath: binder transactions from the kernel to the handler

    The daemon writes the filters of a task into the map [interfaces]
    ([Execution]); the program [exec_transact_internal] reads that map for every
    transaction of the process; the handler looks an item up in the same filters
    ([BinderHandler]).  Here the three are put together. *)

From S2P Require Import Prelude Effects RustStd Data System Fixtures Guardrail ConfigResolver Handler.
From S2P Require Import BinderHandler Bpf BpfMap Poll Task Kernel UserMemory Programs ProgramItems ProgramSpecs.

Local Open Scope rust_scope.
Local Open Scope string_scope.
Local Open Scope list_scope.

Section Path.
Context {O : HashOrder}.

(** The kernel answers lookups from the map [m]. *)
Definition from_map (m : CMap) (e : bev) : Prop :=
  match e with
  | existT (bpf_interfaces_lookup_elem key) value => value = m !! key
  | _ => True
  end.

(** The keys a program looks up. *)
Definition looked_up (tr : list bev) : list (list byte) :=
  omap (fun e : bev => match projT1 e with
                       | bpf_interfaces_lookup_elem key => Some key
                       | _ => None
                       end) tr.

(** The names and codes resolution lets through, with names that fit a key. *)
Definition deliverable (probes : list ResolvedProbe) : Prop :=
  forall probe name ic, probe ∈ probes -> pr_binder_transaction_filters probe !! name = Some ic ->
    (0 < length (list_byte_of_string name) < 128)%nat /\ no_nul name = true /\ is_str name = true /\
    Forall (fun code => 0 < code)%Z (method_ids ic).

(** The task asks for this method of the interface, with this configuration. *)
Definition listens (probes : list ResolvedProbe) (name : string) (ic : InterfaceConfig) (code : Z) : Prop :=
  (exists probe, probe ∈ probes /\ pr_binder_transaction_filters probe !! name = Some ic) /\
  code ∈ method_ids ic.

(** The first ten methods of an interface are what its entry in the map has room for. *)
Definition heard (ic : InterfaceConfig) (code : Z) : Prop := code ∈ take 10 (method_ids ic).

(** ** Lemmas *)

Lemma method_ids_get ic code : code ∈ method_ids ic -> is_Some (get_method ic code).
Proof.
  unfold method_ids, get_method. intros ([c mc] & -> & Hin)%list_elem_of_fmap.
  exists mc. apply elem_of_map_to_list. by rewrite <- map_iter_perm.
Qed.

(** The item a transaction is reported with. *)
Definition transaction (ctx : pt_regs) (key : list byte) (timestamp : Z) : BinderTransaction :=
  {| bt_interface_descriptor := key; bt_code := reg ctx 2;
     bt_calling_uid := to_int (reg ctx 6); bt_timestamp_ns := timestamp |}.

(** What a scan that finds the code of the call does. *)
Definition reported (ctx : pt_regs) (key : list byte) (tr : list bev) (o : outcome Z) : Prop :=
  (tr = [existT (bpf_ringbuf_reserve Binder_output_buf) None : bev] /\ o = Val 1%Z) \/
  exists r timestamp, o = Val 0%Z /\
    tr = [existT (bpf_ringbuf_reserve Binder_output_buf) (Some r) : bev;
          existT bpf_ktime_get_ns timestamp : bev;
          existT (bpf_ringbuf_submit Binder_output_buf (transaction ctx key timestamp)) tt : bev].

Lemma exec_scan_codes ctx key codes n tr o s' :
  Forall (fun code => 0 < code)%Z codes ->
  exec (scan_codes ctx key (codes ++ replicate n 0%Z) tt) tr (o, s') ->
  (reg ctx 2 ∈ codes /\ reported ctx key tr o) \/
  (reg ctx 2 ∉ codes /\ tr = [] /\ o = Val 0%Z).
Proof.
  intros Hpos. revert tr. induction Hpos as [|code codes Hc Hpos IH]; intros tr; cbn [app].
  - destruct n; intros [-> [= -> ->]]; right; split_and!; try done; set_solver.
  - cbn [scan_codes]. destruct (Z.eqb_spec code 0); [lia|].
    destruct (Z.eqb_spec code (reg ctx 2)) as [->|Hne]; cbn [negb].
    + intros H. left. split; [apply list_elem_of_here|]. unfold reported, transaction.
      unfold with_output, with_local, assign in H. wp_start H. wp_cbn.
      intros [r|]; cbn; [intros now []; right; by exists r, now|by left].
    + intros [[? ?]|[? ?]]%IH; [left|right]; (split; [|done]); set_solver.
Qed.

(** Up to the lookup there is nothing but reads. *)
Definition read_call (c : BpfCall) : bool :=
  match c with bpf_probe_read_user _ _ | bpf_probe_read_user_str _ _ => true | _ => false end.

Lemma reads_only tr :
  Forall (fun e : bev => read_call (projT1 e) = true) tr ->
  looked_up tr = [] /\ ring_trace tr = [] /\ submitted Binder_output_buf tr = [].
Proof.
  induction 1 as [|[[] r] tr Hc _ IH]; try discriminate Hc; done.
Qed.

Lemma read_ptr_calls {S} size address : calls_only (E := BpfI) read_call (read_ptr size address : Bpf S (Z * Z)).
Proof. unfold read_ptr. calls_only_run. Qed.

Lemma read_ptr_returns {S} size address : returns (read_ptr size address : Bpf S (Z * Z)).
Proof. unfold read_ptr. returns_run. Qed.

Lemma recordString_calls {S} jstring max dest :
  calls_only (E := BpfI) read_call (recordString jstring max dest : Bpf S (Z * list byte)).
Proof. unfold recordString. calls_only_run. Qed.

Lemma recordString_returns {S} jstring max dest :
  returns (recordString jstring max dest : Bpf S (Z * list byte)).
Proof. unfold recordString. returns_run. Qed.

Lemma looked_up_app t1 t2 : looked_up (t1 ++ t2) = looked_up t1 ++ looked_up t2.
Proof. apply omap_app. Qed.

Lemma submitted_app rb t1 t2 : submitted rb (t1 ++ t2) = submitted rb t1 ++ submitted rb t2.
Proof. apply omap_app. Qed.

Lemma scan_codes_looked_up ctx key codes tr o s' :
  exec (scan_codes ctx key codes tt) tr (o, s') -> looked_up tr = [].
Proof.
  revert tr. induction codes as [|code codes IH]; intros tr; cbn [scan_codes]; [by intros [-> _]|].
  destruct (code =? 0)%Z; [by intros [-> _]|]. destruct (negb _); [apply IH|].
  unfold with_output, with_local, assign. intros H. wp_start H. wp_cbn. by intros [r|].
Qed.

(** The parts of an execution: the descriptor, its string, the lookup, the scan. *)
Lemma exec_transact_split ctx tr o s' :
  exec (exec_transact_internal ctx tt) tr (o, s') ->
  exists ta tb ret p ret' key value t2,
    tr = (ta ++ tb) ++ (existT (bpf_interfaces_lookup_elem key) value : bev) :: t2 /\
    exec (read_ptr 4 (ptr_add (reg ctx 1) kBinderDescriptorOffset) tt) ta (Val (ret, p), tt) /\
    exec (recordString p MAX_STRING_LENGTH zeroes tt) tb (Val (ret', key), tt) /\
    match value with
    | None => t2 = [] /\ o = Val 0%Z
    | Some codes => exec (scan_codes ctx key (firstn 10 codes) tt) t2 (o, s')
    end /\
    looked_up tr = [key] /\ ring_trace tr = ring_trace t2 /\
    submitted Binder_output_buf tr = submitted Binder_output_buf t2.
Proof.
  unfold exec_transact_internal. cbv zeta.
  intros (ta & t & [ret p] & [] & -> & Ha & H)%exec_mbind_returns; [|apply read_ptr_returns].
  apply exec_mbind_returns in H as (tb & t' & [ret' key] & [] & -> & Hb & H);
    [|apply recordString_returns].
  destruct H as (value & t2 & -> & H). exists ta, tb, ret, p, ret', key, value, t2.
  assert (match value with
    | None => t2 = [] /\ o = Val 0%Z
    | Some codes => exec (scan_codes ctx key (firstn 10 codes) tt) t2 (o, s')
    end /\ looked_up t2 = []) as [Hscan L2].
  { destruct value as [codes|]; [|destruct H as [-> [= -> _]]; by split_and!].
    split; [exact H|exact (scan_codes_looked_up _ _ _ _ _ _ H)]. }
  pose proof Ha as [Ca _]%read_ptr_calls. pose proof Hb as [Cb _]%recordString_calls.
  destruct (reads_only (ta ++ tb)) as (L & R & Sb); [by apply Forall_app|].
  rewrite app_assoc, looked_up_app, ring_trace_app, submitted_app, L, R, Sb.
  split_and!; [done..| |done|done]. transitivity (key :: looked_up t2); [done|by rewrite L2].
Qed.

(** The array of an interface's codes. *)
Lemma filter_value_eq ic :
  filter_value ic = take 10 (method_ids ic) ++ replicate (10 - length (method_ids ic)) 0%Z.
Proof.
  unfold filter_value, binder_to_c_value, copy_into, MAX_CODES.
  destruct (Nat.le_ge_cases (length (method_ids ic)) 10).
  - rewrite Nat.min_l by done. by rewrite firstn_all, take_ge.
  - rewrite Nat.min_r, Nat.sub_diag by done. by replace (10 - length (method_ids ic))%nat with 0%nat by lia.
Qed.

Lemma filter_value_length ic : length (filter_value ic) = 10%nat.
Proof. apply copy_into_length. Qed.

Lemma filter_value_elem ic code :
  (0 < code)%Z -> code ∈ filter_value ic <-> heard ic code.
Proof.
  intros Hc. unfold heard. rewrite filter_value_eq, elem_of_app. split; [|by left].
  intros [?|[-> _]%elem_of_replicate]; [done|lia].
Qed.

(** The entry of an interface the task listens to. *)
Lemma listens_entry probes m name ic code :
  installed probes m -> deliverable probes -> listens probes name ic code ->
  m !! filter_key name = Some (filter_value ic) /\ (0 < code)%Z.
Proof.
  intros Hm Hd ((probe & Hp & Hf) & Hc).
  destruct (Hd probe name ic Hp Hf) as (_ & _ & _ & Hpos). rewrite Forall_forall in Hpos.
  split; [|by apply Hpos]. apply Hm. exists probe. split; [done|]. by exists name, ic.
Qed.

Lemma heard_listens ic code : heard ic code -> code ∈ method_ids ic.
Proof.
  intros Hc. eapply elem_of_submseteq; [exact Hc|]. apply sublist_submseteq, sublist_take.
Qed.

(** A method of the interface whose code its entry does not have is one too many. *)
Lemma unheard_late ic code :
  (0 < code)%Z -> code ∈ method_ids ic -> code ∉ filter_value ic ->
  (10 < length (method_ids ic))%nat /\ ~ heard ic code.
Proof.
  intros H0 Hc Hv. rewrite filter_value_elem in Hv by done. split; [|done].
  destruct (Nat.lt_ge_cases 10 (length (method_ids ic))); [done|].
  unfold heard in Hv. by rewrite take_ge in Hv.
Qed.

(** What the handler makes of the key. *)
Lemma deliverable_key probes probe name ic :
  deliverable probes -> probe ∈ probes -> pr_binder_transaction_filters probe !! name = Some ic ->
  bytes_as_nonempty_str (filter_key name) = Ok name.
Proof.
  intros Hd Hp Hf. destruct (Hd probe name ic Hp Hf) as ([Hl1 Hl2] & Hn & Hs & _).
  apply bytes_as_nonempty_str_Ok. split; [by apply bytes_as_str_c_key|].
  intros ->. cbn in Hl1. lia.
Qed.

Lemma listens_configured task probe name ic code :
  probe ∈ rt_resolved_probes task -> pr_binder_transaction_filters probe !! name = Some ic ->
  code ∈ method_ids ic -> is_Some (find_method_config task name code).
Proof.
  intros Hp Hf Hc. destruct (find_method_config task name code) as [mc|] eqn:Hnone; [by exists mc|].
  apply find_method_config_None in Hnone. rewrite Forall_forall in Hnone.
  destruct (method_ids_get ic code Hc) as [mc Hmc]. by rewrite (Hnone _ Hp _ Hf) in Hmc.
Qed.

(** ** The descriptor, read from user memory *)

(** A name and its terminator, copied over zeroes. *)
Lemma overwrite_zeroes name :
  (length (list_byte_of_string name) < 128)%nat ->
  overwrite zeroes (list_byte_of_string name ++ [nul]) = filter_key name.
Proof.
  intros Hfit. unfold filter_key, binder_to_c_key. rewrite copy_into_fits by (unfold BpfMap.MAX_STRING_LENGTH; lia).
  unfold overwrite, zeroes, BpfMap.MAX_STRING_LENGTH. rewrite length_app, drop_replicate, <- app_assoc. f_equal.
  cbn [length app]. by replace (128 - length (list_byte_of_string name))%nat
    with (Datatypes.S (128 - (length (list_byte_of_string name) + 1)))%nat by lia.
Qed.

(** [recordString] into a zeroed array gives the key of the string. *)
Lemma exec_recordString_memory {S} mem p name (s : S) tr o s' :
  p <> 0%Z -> java_string mem p name -> no_nul name = true ->
  (length (list_byte_of_string name) < 128)%nat ->
  Forall (from_memory mem) tr ->
  exec (recordString p MAX_STRING_LENGTH zeroes s) tr (o, s') ->
  exists ret, o = Val (ret, filter_key name).
Proof.
  intros Hp (Hlen & Hbytes) Hnul Hfit Hmem H. unfold recordString in H.
  apply Z.eqb_neq in Hp. rewrite Hp in H.
  destruct H as ([ret count] & t & -> & H). apply Forall_cons in Hmem as [[Hret ->] Hmem].
  cbn [pbind] in H. destruct (Z.ltb_spec ret 0); [lia|]. cbv zeta in H.
  change (Z.to_nat 4) with 4%nat in H. rewrite Hlen in H.
  destruct H as ([ret' chars] & t' & -> & H). apply Forall_cons in Hmem as [[_ ->] _].
  destruct H as [-> [= -> _]]. exists ret'. do 2 f_equal. unfold MAX_STRING_LENGTH in *.
  destruct (Z.ltb_spec 128 (Z.of_nat (length (list_byte_of_string name)) + 1)); [lia|].
  rewrite Z.add_simpl_r, Nat2Z.id, Hbytes, c_prefix_no_nul by (by apply no_nul_spec).
  by apply overwrite_zeroes.
Qed.

(** C32. The descriptor of a binder object is looked up by its name.  If the reads
    succeed, the object's descriptor field points to a [java.lang.String] and the
    string has less than 128 bytes and no NUL, then the key the program looks up is
    the one the daemon writes for the interface of this name. *)
Theorem descriptor_looked_up mem name ctx tr o
    (Hp : le (mem_bytes mem (ptr_add (reg ctx 1) kBinderDescriptorOffset) 4) <> 0%Z)
    (Hs : java_string mem (le (mem_bytes mem (ptr_add (reg ctx 1) kBinderDescriptorOffset) 4)) name)
    (Hnul : no_nul name = true) (Hfit : (length (list_byte_of_string name) < 128)%nat)
    (Hmem : Forall (from_memory mem) tr) (H : exec (exec_transact_internal ctx tt) tr (o, tt)) :
  looked_up tr = [filter_key name].
Proof.
  apply exec_transact_split in H as (ta & tb & ret & p & ret' & key & value & t2 & -> & Ha & Hb & _ & -> & _).
  apply Forall_app in Hmem as [[Hma Hmb]%Forall_app _].
  destruct Ha as ([r bytes] & t & -> & -> & [= -> ->]). apply Forall_cons in Hma as [[_ ->] _].
  change (Z.to_nat 4) with 4%nat in Hb. rewrite as_ity_id in Hb by apply mem_word.
  by apply (exec_recordString_memory mem _ name) in Hb as (r' & [= _ ->]).
Qed.
(** ** Theorem *)

(** C9. A transaction is reported exactly when the task listens to it and the entry of
    its interface has room for the method.  While the map holds the filters of the
    probes ([execute_filters]), for filters whose names are nonempty UTF-8 of less than
    128 bytes without a NUL and whose codes are positive ([deliverable]): the program
    looks up one key, the descriptor of the binder object.  If this is the key of an
    interface the task listens to with the transaction's code, and the code is among the
    first ten of the interface, an item with descriptor, code and caller is submitted
    (or there was no room in the ring buffer), and the handler reads the interface's
    name from it and finds the method's configuration.  Otherwise nothing is reported,
    and if the task listens to the transaction all the same, its interface has more than
    ten methods and this one is not among the first ten. *)
Theorem transactions_reported task m ctx tr o
    (Hm : installed (rt_resolved_probes task) m) (Hd : deliverable (rt_resolved_probes task))
    (Hk : Forall (from_map m) tr) (H : exec (exec_transact_internal ctx tt) tr (o, tt)) :
  exists key, looked_up tr = [key] /\
  ((exists name ic, key = filter_key name /\
      listens (rt_resolved_probes task) name ic (reg ctx 2) /\ heard ic (reg ctx 2) /\
      ((o = Val 1%Z /\ submitted Binder_output_buf tr = []) \/
       exists timestamp mc, o = Val 0%Z /\
         submitted Binder_output_buf tr = [transaction ctx key timestamp] /\
         bytes_as_nonempty_str key = Ok name /\
         find_method_config task name (reg ctx 2) = Some mc)) \/
   (o = Val 0%Z /\ ring_trace tr = [] /\
      forall name ic, key = filter_key name ->
        listens (rt_resolved_probes task) name ic (reg ctx 2) ->
        (10 < length (method_ids ic))%nat /\ ~ heard ic (reg ctx 2))).
Proof.
  apply exec_transact_split in H as (ta & tb & ret & p & ret' & key & value & t2 & -> & _ & _ & H & -> & -> & ->).
  apply Forall_app in Hk as [_ [Hk _]%Forall_cons]. cbn in Hk. symmetry in Hk.
  exists key. split; [done|]. destruct value as [codes|]; cycle 1.
  { destruct H as [-> ->]. right. split_and!; [done..|]. intros name ic -> Hl.
    destruct (listens_entry _ _ _ _ _ Hm Hd Hl) as [Hv _]. congruence. }
  destruct (proj1 (Hm key codes) Hk) as (probe & Hp & name & ic & Hf & Hkey & Hcodes).
  destruct (Hd probe name ic Hp Hf) as (_ & _ & _ & Hpos).
  rewrite Hcodes, take_ge in H by (by rewrite filter_value_length). rewrite filter_value_eq in H.
  apply exec_scan_codes in H as [[Hc Hrep]|(Hc & -> & ->)]; [| |by apply Forall_take].
  - pose proof (heard_listens _ _ Hc) as Hin. left. exists name, ic.
    split; [done|]. split; [split; [by exists probe|done]|]. split; [done|].
    destruct Hrep as [[-> ->]|(r & ts & -> & ->)]; [by left|right].
    destruct (listens_configured task probe name ic _ Hp Hf Hin) as [mc Hmc]. exists ts, mc.
    split_and!; [done..| |done]. rewrite Hkey. by eapply deliverable_key.
  - right. split_and!; [done..|]. intros name' ic' Hkey' Hl.
    destruct (listens_entry _ _ _ _ _ Hm Hd Hl) as [Hv H0]. destruct Hl as [_ Hin].
    apply unheard_late; [done..|]. rewrite <- Hkey', Hk in Hv. injection Hv as <-.
    rewrite Hcodes. by rewrite filter_value_elem.
Qed.

End Path.

(** ** Witnesses *)

(** A binder object at 0x1000, called with code 3, whose descriptor is "android.app.IFoo". *)
Definition binder_memory : Z -> byte :=
  mem_of ((0x1008%Z, word 0x2000) :: string_at 0x2000 "android.app.IFoo").

Definition binder_ctx : pt_regs := registers [0; 0x1000; 3; 0; 0; 0; 10050]%Z.

Definition binder_map : CMap := {[ filter_key "android.app.IFoo" := [3; 0; 0; 0; 0; 0; 0; 0; 0; 0]%Z ]}.

Definition transact_env : Env BpfI := bpf_env binder_memory (fun key => binder_map !! key).

Definition transact_run : Prog BpfI (outcome Z * unit) := exec_transact_internal binder_ctx tt.

Lemma transact_exec : exec transact_run (run_trace transact_env transact_run) (Val 0%Z, tt).
Proof. apply (run_exec_eq transact_env); [reflexivity|vm_compute; reflexivity]. Defined.

Lemma binder_task_filters probe name ic :
  probe ∈ rt_resolved_probes binder_task -> pr_binder_transaction_filters probe !! name = Some ic ->
  probe = binder_probe /\ name = "android.app.IFoo" /\
  @method_ids canonical_order ic = [3%Z].
Proof.
  intros ->%list_elem_of_singleton Hf. split; [done|].
  cbn [pr_binder_transaction_filters binder_probe] in Hf.
  apply lookup_singleton_Some in Hf as [<- <-]. split; [done|vm_compute; reflexivity].
Defined.

Lemma binder_map_installed :
  @installed canonical_order (rt_resolved_probes binder_task) binder_map.
Proof.
  intros k v. unfold binder_map. rewrite lookup_singleton_Some. split.
  - intros [<- <-]. exists binder_probe. split; [apply list_elem_of_here|].
    eexists "android.app.IFoo", _. split; [reflexivity|]. split; [reflexivity|vm_compute; reflexivity].
  - intros (probe & Hp & name & ic & Hf & -> & ->).
    destruct (binder_task_filters probe name ic Hp Hf) as (_ & -> & Hids).
    split; [reflexivity|]. unfold filter_value. rewrite Hids. vm_compute. reflexivity.
Defined.

Lemma binder_deliverable :
  @deliverable canonical_order (rt_resolved_probes binder_task).
Proof.
  intros probe name ic Hp Hf. destruct (binder_task_filters probe name ic Hp Hf) as (_ & -> & ->).
  split; [vm_compute; lia|]. split; [reflexivity|]. split; [reflexivity|]. by repeat constructor.
Defined.

Lemma transact_from_map : Forall (from_map binder_map) (run_trace transact_env transact_run).
Proof.
  let t := eval vm_compute in (run_trace transact_env transact_run) in
    change (Forall (from_map binder_map) t).
  repeat (apply Forall_cons_2; [|]); [..|apply Forall_nil_2]; try exact Logic.I.
  vm_compute. reflexivity.
Defined.

Lemma transactions_reported_witness :
  exists mc, submitted Binder_output_buf (run_trace transact_env transact_run) =
      [transaction binder_ctx (filter_key "android.app.IFoo") 42] /\
    find_method_config binder_task "android.app.IFoo" 3 = Some mc.
Proof.
  destruct (@transactions_reported canonical_order binder_task binder_map _ _ _ binder_map_installed
    binder_deliverable transact_from_map transact_exec) as (key & Hkey & Hcase).
  vm_compute in Hkey. injection Hkey as <-.
  destruct Hcase as [(name & ic & Hname & _ & _ & [[Ho _]|(ts & mc & _ & Hsub & Hstr & Hmc)])|(_ & Hring & _)].
  - discriminate Ho.
  - exists mc. vm_compute in Hstr. injection Hstr as <-. split; [vm_compute; reflexivity|exact Hmc].
  - vm_compute in Hring. discriminate Hring.
Defined.

Lemma descriptor_looked_up_witness :
  looked_up (run_trace transact_env transact_run) = [filter_key "android.app.IFoo"].
Proof.
  refine (@descriptor_looked_up binder_memory "android.app.IFoo" _ _ _ _ _ _ _ _ transact_exec).
  - vm_compute. discriminate.
  - split; vm_compute; reflexivity.
  - reflexivity.
  - vm_compute. lia.
  - let t := eval vm_compute in (run_trace transact_env transact_run) in
      change (Forall (from_memory binder_memory) t).
    repeat (apply Forall_cons_2; [|]); [..|apply Forall_nil_2]; try exact Logic.I;
      (split; [discriminate|vm_compute; reflexivity]).
Defined.
